(* ===== verification/_CoqProject ===== *)
-Q . S2P
Prelude.v
CString.v
Shm.v
Ebpf.v
ProcessTable.v
PerfOpt.v
TenantShm.v
Policy.v
Json.v
Manager.v
Operator.v
Config.v
Logger.v
Core.v
Hooks.v
HooksSpec.v
Collector.v
Service.v
SpinLock.v
