(* ===== verification/Prelude.v ===== *)
(** * Verification of mtrdma: multi-tenant isolation for RDMA

    ** The program

    mtrdma limits how many queue pairs (QPs), memory regions (MRs) and how much
    memory each process and each tenant of a machine may use of an RDMA device.
    A library preloaded into every application intercepts the verbs that
    create and destroy such resources; the processes share two POSIX
    shared-memory segments; a collector copies eBPF counters into the first
    segment and reclaims what dead processes held; a daemon and its client
    manage the tenants.

    - process table (src/src/shm/shared_memory.c): global counters, one usage
      record per process slot, the pid and start time of the slot's owner, the
      global limits, a compare-and-swap lock;
    - tenant table (src/src/shm/shared_memory_tenant.c): 128 tenants with
      status, quota and usage, the map from processes to tenants, a
      test-and-set lock;
    - configuration (src/src/config.c): defaults, environment, file;
    - library state and start-up (src/src/intercept_core.c,
      src/src/ebpf/ebpf_monitor_shm.c);
    - intercepted verbs (src/src/rdma_hooks_tenant.c): whose tenant a call is
      charged to, the admission checks, the accounting and its roll-back;
    - collector (src/src/collector_server_shm.c): the GC thread with its pidfd
      table, the eBPF synchronisation, start-up and shut-down;
    - enhanced eBPF monitor (src/src/ebpf/ebpf_enhanced_monitor.c): queries of
      the eBPF maps, with the process table to fall back on;
    - performance optimizer (src/src/performance_optimizer.c): a cache in front
      of the process table and a buffer that batches its updates;
    - policy manager (src/src/dynamic_policy_manager.c): limits per resource
      and tenant, their file, their copy in the process table's segment;
    - tenant manager (src/src/tenant_manager_daemon.c,
      src/src/tenant_manager_client.c): a JSON protocol over a socket that
      creates, changes and lists tenants;
    - logger (src/src/logger.c): level filter, log file, rotation.

    A call of an application runs through all of them: [ibv_create_qp] reads
    the configuration loaded by [rdma_intercept_load_config], asks the process
    table for the process's and the global count, resolves its tenant through
    the tenant table, reserves a QP there, calls the real verb and publishes
    the new counters in the process table, from which the collector removes
    them when the process dies.  An operator's command goes from the client's
    command line through a JSON request to the daemon's handler and the tenant
    table, whose quotas the next intercepted call reads.

    ** The development

    - Prelude: machine integers with their wrap-around, sums and searches over
      arrays, tactics, hint databases.
    - CString: the C library's string and number functions the sources use, on
      [string], with the lemmas for reading and printing numbers and lines.
    - Shm: shared_memory.c, one definition per function.  The abstract view is
      a finite map from pids to usage records ([ledger]); the invariant
      [shm_inv] says that no process owns two slots, free slots are empty and
      the lock is free, and, when its flag is set ([shm_ok]), that the global
      counters are the sums of the table.  The flag is cleared for schedules
      in which somebody overwrites the global counters
      (shm_update_global_resources, the collector's store).
    - Ebpf: ebpf_enhanced_monitor.c over libbpf as a parameter.
    - ProcessTable: the class [ProcessTable] of what a client of the process
      table relies on, and the instance that the file Shm discharges.
    - PerfOpt: performance_optimizer.c over any [ProcessTable].
    - TenantShm: shared_memory_tenant.c, one definition per function.  The
      abstract view is a finite map from pids to tenants ([bindings]); the
      invariant is [tenant_inv], whose flag ([tenant_ok] when set) adds what
      holds as long as nobody sets an existing tenant INACTIVE.
    - Policy: dynamic_policy_manager.c; its two mutexes and the adjustment
      thread are part of the state and an operation returns, is blocked or is
      undefined ([outcome]).
    - Json: json-c as a class of operations with its laws (values nested less
      than 32 deep survive printing and parsing), and an implementation that
      satisfies them.
    - Manager: the daemon and the client, against the class of Json; what the
      daemon's sends meet is an argument, a closed peer being the death of the
      daemon by SIGPIPE.
    - Operator: a quota changed by the operator and the next allocation.
    - Config: config.c; the record [intercept_config] and its defaults.
    - Logger: logger.c over streams and files; a use of a closed stream has no
      result.
    - Core: the state [world] of a process that loaded the library (the
      statics of intercept_core.c and rdma_hooks_tenant.c and its view of the
      segments), the environment [env] with everything that is not code of the
      repository, a state monad with its rules ([triple], [keeps]),
      intercept_core.c and ebpf_monitor_shm.c.
    - Hooks: rdma_hooks_tenant.c, one action per function; the invariant
      [world_inv] over all of them; the rate limiter.
    - HooksSpec: symbolic execution of the hooks in a running process and the
      theorems on what they guarantee.
    - Collector: the GC scan, the exit handler, the synchronisation and the
      initialisation of collector_server_shm.c.
    - Service: its threads, signal handler, clean-up and main as a step
      relation, once with whole iterations as steps ([service_step]) and once
      cut into the sections between which the segments are free
      ([fine_step]).
    - SpinLock: the two locks behind the class [SpinLock], executions of any
      number of threads at the granularity of single accesses, and the races
      left where the library composes two locked functions.

    ** What the theorems show

    - Refinement: updating, clearing and reading the process table, binding,
      unbinding and deleting in the tenant table, and the exit handler of the
      collector implement insert, delete and lookup on the finite maps
      (shm_update_refines, shm_clear_refines, shm_get_process_refines,
      tenant_bind_refines, tenant_unbind_refines, tenant_delete_refines,
      gc_exit_refines).  The optimizer's cache returns what was last stored
      (cache_coherent) and its batching changes when the table is written, not
      what it holds in the end (batching_equivalent).  The client and the
      daemon together perform the operation the command line names
      (client_request_served), show the table as it is (client_list_shows)
      and change a quota for the next request (hot_quota_enforced), for
      requests and replies that fit their 4095 bytes.
    - Invariants over every interleaving: a consistent process table with
      exact accounting as long as nobody overwrites the global counters
      (shm_accounting_exact), a consistent tenant table (tenant_reachable_ok),
      both kept by every intercepted verb whatever the environment answers and
      whatever other processes call between two verbs (hooks_keep_invariant),
      by every scan of the collector, which only removes processes that /proc
      does not show alive (gc_scan_safe), by all its threads together, which
      also hold a bounded number of descriptors (collector_keeps_tables), and
      by the daemon whatever its clients send (daemon_keeps_table); the optimizer's state stays within
      its sizes and bounds (perf_reachable_ok).
    - Enforcement: the exact set of requests that reach the device, what a
      granted, a refused and a failed request change (create_qp_decision,
      create_qp_created, create_qp_failed, create_qp_ex_decision,
      reg_mr_decision), the QP quota under any schedule (qp_quota_exact), the
      rate limit (rate_limit_window), the tenant a process is charged to
      (cgroup_decides_tenant; with fork_spoofs_tenant for the first call after
      a fork), transparency when switched off, after the initialisation of the
      first call (switched_off_transparent), bounds of the configuration
      (load_config_bounds), the policy manager's checks (policy_check_exact).
    - Round trips: the policy file (policy_save_load), the JSON requests, the
      log across a rotation (rotate_log_keeps).
    - Progress: every dead process is reclaimed within three scans
      (gc_three_scans), the collector ends after a signal
      (collector_shuts_down), the policy manager's calls return, the clean-up
      only when the thread it joins does (policy_calls_return), the walk over
      the tenants of an eBPF map ends (tenant_walk_terminates), and what kills
      the daemon and what it answers (daemon_dies_on_null_command).
    - Concurrency: both locks serialise critical sections (lock_serialises),
      which is why a function that locks, works and unlocks is one step in the
      other files.
    - Defects, each as a theorem on the model: a roll-back that loses another
      thread's grant, identity spoofing after a fork, mandatory mode that lets
      unbound processes through, QP records that destroying never lowers,
      memory that is never charged, the seventeenth device, double counting in
      the synchronisation, descriptor 0 closed by the GC thread, traced
      processes taken for dead, the wrong field of /proc/<pid>/stat, stale
      process counts, and the wrap-around of the limit check; an adjustment
      thread that deadlocks its module, updates lost when two threads meet a
      full batch buffer, stale updates written when batching is switched off,
      policies that are enforced when disabled and deny everything when
      deleted, a log stream used after it was closed, a rotation that reports
      success when the renaming failed, a clean-up that joins a thread that may
      not exist or never end, a daemon that a null command or a client that
      closes early kills, a first call that binds the process although
      interception is off (first_call_binds), a tenant 0 that breaks the walk
      over the eBPF map, an unchecked table of links.

    ** Conventions, bounds and fuel

    A C integer of width w is a [Z] in the range of its type and every
    operation at that width is followed by the conversion [u32], [u64] or
    [i32]; signed overflow wraps.  An [option] argument is a pointer that may
    be NULL; other pointer arguments are valid.  Arrays are lists of their full
    length.  A function sees one reading of the clock, except the rate
    limiter, which takes two.  Array sizes are those of the headers (1024
    processes, 128 tenants, 16 contexts).  Fuel appears in four places: the
    loop over the lines of a file takes one unit per character of the file
    (file_chunks_complete shows that nothing is cut off), decimal printing takes
    20 digits, enough for 64 bits, and the two walks over eBPF maps take one
    unit per turn (their theorems give the number of turns that is enough, and
    tenant_zero_breaks_walk the case in which none is).  Doubles and floats are
    computed with the IEEE operations of the standard library.

    ** Not modelled

    Text printed for the operator (statistics, usage, dumps of a
    configuration), the hooks' process-local mutexes (a hook is one action, and
    in hooks_keep_invariant other processes act between two hooks; the races
    inside a hook are the subject of SpinLock),
    weak memory (interleavings are sequentially consistent), a segment
    unlinked while it is mapped, stream buffering.  Code that is not in the
    repository is a parameter with the behaviour it documents as hypotheses:
    the verbs library, libbpf and the kernel's maps, json-c, the file system,
    the clock, /proc.  The tests, the build scripts and the shell front end
    are left out. *)

From stdpp Require Import base numbers list gmap strings.
#[global] Open Scope Z_scope.

(** ** Machine integers

    A C integer of width w is a [Z] in the range of its type; every operation
    that the C code performs at that width is followed by the conversion
    below.  Unsigned conversions are reduction modulo 2^w (ISO C 6.3.1.3);
    signed ones wrap around in two's complement, which is what the compilers
    the project targets do. *)

Definition u32 (z : Z) : Z := z mod 2 ^ 32.
Definition u64 (z : Z) : Z := z mod 2 ^ 64.
Definition i32 (z : Z) : Z := (z + 2 ^ 31) mod 2 ^ 32 - 2 ^ 31.

Definition i64 (z : Z) : Z := (z + 2 ^ 63) mod 2 ^ 64 - 2 ^ 63.

Definition UINT32_MAX : Z := 2 ^ 32 - 1.
Definition UINT64_MAX : Z := 2 ^ 64 - 1.

Lemma u32_range z : 0 <= u32 z < 2 ^ 32.
Proof. apply Z.mod_pos_bound. lia. Qed.

Lemma u64_range z : 0 <= u64 z < 2 ^ 64.
Proof. apply Z.mod_pos_bound. lia. Qed.

Lemma i32_range z : - 2 ^ 31 <= i32 z < 2 ^ 31.
Proof. unfold i32. pose proof (Z.mod_pos_bound (z + 2 ^ 31) (2 ^ 32)). lia. Qed.

Lemma u32_small z : 0 <= z < 2 ^ 32 -> u32 z = z.
Proof. apply Z.mod_small. Qed.

Lemma u64_small z : 0 <= z < 2 ^ 64 -> u64 z = z.
Proof. apply Z.mod_small. Qed.

Lemma i32_small z : - 2 ^ 31 <= z < 2 ^ 31 -> i32 z = z.
Proof. intros H. unfold i32. rewrite Z.mod_small; lia. Qed.

(** Two integers that differ by a multiple of the modulus convert alike. *)
Lemma i32_congr a b : a mod 2 ^ 32 = b mod 2 ^ 32 -> i32 a = i32 b.
Proof.
  intros H. unfold i32. f_equal.
  by rewrite Zplus_mod, H, <- Zplus_mod.
Qed.

Lemma i32_mod z : i32 z mod 2 ^ 32 = z mod 2 ^ 32.
Proof.
  unfold i32. rewrite Zminus_mod, Zmod_mod, <- Zminus_mod. f_equal. lia.
Qed.

Lemma i32_add_l a b : i32 (i32 a + b) = i32 (a + b).
Proof. apply i32_congr. by rewrite Zplus_mod, i32_mod, <- Zplus_mod. Qed.

Lemma i32_add_r a b : i32 (a + i32 b) = i32 (a + b).
Proof. rewrite Z.add_comm, i32_add_l. f_equal. lia. Qed.

Lemma i32_sub_l a b : i32 (i32 a - b) = i32 (a - b).
Proof. apply (i32_add_l a (- b)). Qed.

Lemma u64_add_l a b : u64 (u64 a + b) = u64 (a + b).
Proof. unfold u64. by rewrite Zplus_mod_idemp_l. Qed.

Lemma u64_add_r a b : u64 (a + u64 b) = u64 (a + b).
Proof. unfold u64. by rewrite Zplus_mod_idemp_r. Qed.

Lemma u64_sub_l a b : u64 (u64 a - b) = u64 (a - b).
Proof. apply (u64_add_l a (- b)). Qed.

Lemma u32_add_l a b : u32 (u32 a + b) = u32 (a + b).
Proof. unfold u32. by rewrite Zplus_mod_idemp_l. Qed.

Lemma u32_sub_l a b : u32 (u32 a - b) = u32 (a - b).
Proof. apply (u32_add_l a (- b)). Qed.

Lemma i32_sub_r a b : i32 (a - i32 b) = i32 (a - b).
Proof. apply i32_congr. by rewrite Zminus_mod, i32_mod, <- Zminus_mod. Qed.

Lemma u64_sub_r a b : u64 (a - u64 b) = u64 (a - b).
Proof. unfold u64. by rewrite Zminus_mod_idemp_r. Qed.

(** Conversions between the signed and the unsigned type of a width and back. *)
Lemma u32_i32 z : u32 (i32 z) = u32 z.
Proof. apply i32_mod. Qed.

Lemma i64_range z : - 2 ^ 63 <= i64 z < 2 ^ 63.
Proof. unfold i64. pose proof (Z.mod_pos_bound (z + 2 ^ 63) (2 ^ 64)). lia. Qed.

Lemma u64_i64 z : u64 (i64 z) = u64 z.
Proof.
  unfold u64, i64. rewrite Zminus_mod, Zmod_mod, <- Zminus_mod. f_equal. lia.
Qed.

(** Wrap-around disappears: [warith] removes inner conversions of sums and
    compares what is left up to ring identities. *)
Ltac warith :=
  rewrite ?i32_add_l, ?i32_add_r, ?i32_sub_l, ?i32_sub_r, ?u64_add_l, ?u64_add_r,
    ?u64_sub_l, ?u64_sub_r, ?u32_add_l, ?u32_sub_l;
  try reflexivity; try (f_equal; lia).

(** ** Boolean tests of the code

    [tests] turns every boolean comparison of the context into the
    proposition it decides; [split_ifs] does the case analysis of every
    conditional of the goal and reads the tests back. *)
Ltac tests :=
  repeat match goal with
  | H : negb _ = true |- _ => apply negb_true_iff in H
  | H : negb _ = false |- _ => apply negb_false_iff in H
  | H : _ && _ = true |- _ => apply andb_true_iff in H as [? ?]
  | H : _ || _ = false |- _ => apply orb_false_iff in H as [? ?]
  | H : _ && _ = false |- _ => apply andb_false_iff in H
  | H : _ || _ = true |- _ => apply orb_true_iff in H
  | H : (_ =? _) = true |- _ => apply Z.eqb_eq in H
  | H : (_ =? _) = false |- _ => apply Z.eqb_neq in H
  | H : (_ <? _) = true |- _ => apply Z.ltb_lt in H
  | H : (_ <? _) = false |- _ => apply Z.ltb_ge in H
  | H : (_ <=? _) = true |- _ => apply Z.leb_le in H
  | H : (_ <=? _) = false |- _ => apply Z.leb_gt in H
  end.

Ltac split_ifs :=
  repeat match goal with
  | |- context [if ?b then _ else _] =>
      lazymatch type of b with
      | bool => let E := fresh "E" in destruct b eqn:E
      end
  end; tests.

(** ** Arrays

    A C array of n elements is a list of length n: [a !!! i] reads (with the
    all-zero element as the default the invariants never let it reach) and
    [<[i:=x]> a] writes. *)

Section sums.
Context {A : Type} (f : A -> Z).

(** Sum of [f] over an array. *)
Fixpoint zsum (l : list A) : Z :=
  match l with
  | [] => 0
  | x :: l => f x + zsum l
  end.

Lemma zsum_app l k : zsum (l ++ k) = zsum l + zsum k.
Proof. induction l as [|x l IH]; simpl; lia. Qed.

Lemma zsum_insert l i x y :
  l !! i = Some x -> zsum (<[i:=y]> l) = zsum l - f x + f y.
Proof.
  revert i. induction l as [|a l IH]; intros [|i] H; simplify_eq/=; [lia|].
  rewrite (IH i) by done. lia.
Qed.

Lemma zsum_nonneg l : (forall x, x ∈ l -> 0 <= f x) -> 0 <= zsum l.
Proof.
  induction l as [|a l IH]; simpl; intros H; [lia|].
  assert (0 <= f a) by (apply H; left).
  assert (0 <= zsum l) by (apply IH; intros; apply H; by right). lia.
Qed.

Lemma zsum_elem l y : (forall x, x ∈ l -> 0 <= f x) -> y ∈ l -> f y <= zsum l.
Proof.
  induction l as [|a l IH]; simpl; intros H Hy; [by apply not_elem_of_nil in Hy|].
  assert (0 <= f a) by (apply H; left).
  assert (Hl : forall x, x ∈ l -> 0 <= f x) by (intros; apply H; by right).
  pose proof (zsum_nonneg l Hl). apply elem_of_cons in Hy as [->|Hy]; [lia|].
  specialize (IH Hl Hy). lia.
Qed.

Lemma zsum_replicate n x : zsum (replicate n x) = Z.of_nat n * f x.
Proof. induction n as [|n IH]; simpl; lia. Qed.
End sums.

Lemma zsum_ext {A} (f g : A -> Z) l :
  (forall x, x ∈ l -> f x = g x) -> zsum f l = zsum g l.
Proof.
  induction l as [|a l IH]; simpl; intros H; [done|].
  rewrite (H a), IH; [done| |left]. intros; apply H; by right.
Qed.

(** Number of elements of an array that satisfy a test. *)
Definition zcount {A} (p : A -> bool) : list A -> Z :=
  zsum (fun x => if p x then 1 else 0).

Lemma zcount_bounds {A} (p : A -> bool) l : 0 <= zcount p l <= Z.of_nat (length l).
Proof.
  unfold zcount. induction l as [|a l IH]; simpl; [lia|]. destruct (p a); lia.
Qed.

Lemma zcount_insert {A} (p : A -> bool) l i x y :
  l !! i = Some x ->
  zcount p (<[i:=y]> l) =
    zcount p l - (if p x then 1 else 0) + (if p y then 1 else 0).
Proof. apply zsum_insert. Qed.

Section search.
Context {A : Type}.

(** Index of the first element that satisfies [p]. *)
Fixpoint find_idx (p : A -> bool) (l : list A) : option nat :=
  match l with
  | [] => None
  | x :: l => if p x then Some 0%nat else S <$> find_idx p l
  end.

Lemma find_idx_Some p l i :
  find_idx p l = Some i ->
  exists x, l !! i = Some x /\ p x = true /\
    (forall j y, (j < i)%nat -> l !! j = Some y -> p y = false).
Proof.
  revert i. induction l as [|a l IH]; intros i H; simpl in *; [done|].
  destruct (p a) eqn:Ha; simplify_eq.
  - exists a. split_and!; [done|done|]. intros j y Hj. lia.
  - apply fmap_Some in H as (k & Hk & ->).
    destruct (IH k Hk) as (x & Hx & Hp & Hb). exists x.
    split_and!; [done|done|]. intros [|j] y Hj Hy; simplify_eq/=; [done|].
    apply (Hb j); [lia|done].
Qed.

Lemma find_idx_lookup p l i :
  find_idx p l = Some i -> exists x, l !! i = Some x /\ p x = true.
Proof. intros (x & ? & ? & _)%find_idx_Some. by exists x. Qed.

Lemma find_idx_None p l :
  find_idx p l = None <-> (forall x, x ∈ l -> p x = false).
Proof.
  induction l as [|a l IH]; simpl.
  - split; [|done]. intros _ x Hx. by apply not_elem_of_nil in Hx.
  - destruct (p a) eqn:Ha; [split; [done|]|].
    + intros H. rewrite (H a) in Ha; [done|left].
    + rewrite fmap_None, IH. split.
      * intros H x [->|Hx]%elem_of_cons; [done|]. by apply H.
      * intros H x Hx. apply H. by right.
Qed.

Lemma find_idx_lt p l i : find_idx p l = Some i -> (i < length l)%nat.
Proof. intros (x & Hx & _)%find_idx_lookup. by apply lookup_lt_Some in Hx. Qed.

(** The loop that both tables of the program use to place a process: look
    for the process's own entry, stop when it is met, and remember the
    first free entry on the way. *)
Fixpoint scan_slot (me free : A -> bool) (l : list A) (i : nat)
    (empty : option nat) : option nat * option nat :=
  match l with
  | [] => (None, empty)
  | x :: l =>
      if me x then (Some i, empty)
      else scan_slot me free l (S i)
             (match empty with
              | None => if free x then Some i else None
              | Some _ => empty
              end)
  end.

Lemma scan_slot_fst me free l i e :
  (scan_slot me free l i e).1 = (fun k => i + k)%nat <$> find_idx me l.
Proof.
  revert i e. induction l as [|a l IH]; intros i e; simpl; [done|].
  destruct (me a); simpl; [f_equal; lia|]. rewrite IH.
  destruct (find_idx me l); simpl; [f_equal; lia|done].
Qed.

Lemma scan_slot_snd me free l i e :
  find_idx me l = None ->
  (scan_slot me free l i e).2 =
    match e with Some _ => e | None => (fun k => i + k)%nat <$> find_idx free l end.
Proof.
  revert i e. induction l as [|a l IH]; intros i e; simpl.
  { by destruct e. }
  destruct (me a); [done|]. intros [? _]%fmap_None || intros H%fmap_None.
  rewrite IH by done. destruct e; [done|]. destruct (free a); simpl.
  - f_equal. lia.
  - destruct (find_idx free l); simpl; [f_equal; lia|done].
Qed.

(** What the loop computes, from index 0. *)
Lemma scan_slot_found me free l k :
  find_idx me l = Some k -> (scan_slot me free l 0 None).1 = Some k.
Proof. intros H. by rewrite scan_slot_fst, H. Qed.

Lemma scan_slot_missing me free l :
  find_idx me l = None ->
  scan_slot me free l 0 None = (None, find_idx free l).
Proof.
  intros H. rewrite (surjective_pairing (scan_slot _ _ _ _ _)).
  rewrite scan_slot_fst, H, scan_slot_snd by done. simpl.
  by destruct (find_idx free l).
Qed.
End search.

(** Lookups in a written array. *)
Lemma arr_insert_eq `{Inhabited A} (l : list A) i x :
  (i < length l)%nat -> <[i:=x]> l !!! i = x.
Proof. intros. by apply list_lookup_total_insert_eq. Qed.

Lemma arr_lookup `{Inhabited A} (l : list A) i :
  (i < length l)%nat -> l !! i = Some (l !!! i).
Proof. intros. by apply list_lookup_lookup_total_lt. Qed.

(** ** Hint databases of the development *)
Create HintDb mtrdma.
Create Rewrite HintDb mtrdma.
#[export] Hint Resolve u32_range u64_range i32_range : mtrdma.
#[export] Hint Resolve arr_lookup find_idx_lt : mtrdma.
#[export] Hint Rewrite @length_insert @length_replicate : mtrdma.
