(* ===== verification/CString.v ===== *)
(** * C strings and the libc functions the program calls on them

    A NUL-terminated C string is a [string] without its terminator.  The
    functions below are the parts of <ctype.h>, <string.h>, <stdlib.h> and
    <stdio.h> that the sources use: character classes, [strchr], [strrchr],
    [strtok_r], [strcasecmp], [fgets] and the decimal conversions [strtol],
    [strtoull] and [atoi], in the "C" locale and on LP64. *)

From S2P Require Import Prelude.
From stdpp Require Import base numbers list strings.
From Stdlib Require Import Ascii.
#[local] Open Scope string_scope.
#[local] Open Scope Z_scope.

(** ** Characters *)

Definition code (c : ascii) : Z := Z.of_N (N_of_ascii c).

Definition NEWLINE : ascii := "010"%char.

(** [isspace]: space, and the control characters \t \n \v \f \r. *)
Definition isspace (c : ascii) : bool :=
  (code c =? 32) || ((9 <=? code c) && (code c <=? 13)).

Definition isdigit (c : ascii) : bool := (48 <=? code c) && (code c <=? 57).

Definition tolower (c : ascii) : ascii :=
  if (65 <=? code c) && (code c <=? 90) then ascii_of_N (Z.to_N (code c + 32)) else c.

(** ** Searching *)

Fixpoint has_char (c : ascii) (s : string) : bool :=
  match s with
  | "" => false
  | String x s => Ascii.eqb x c || has_char c s
  end.

(** [strchr (s, c)] splits [s] at the first [c]: what precedes it and what
    follows it. *)
Fixpoint strchr (c : ascii) (s : string) : option (string * string) :=
  match s with
  | "" => None
  | String x s =>
      if Ascii.eqb x c then Some ("", s)
      else match strchr c s with
           | Some (a, b) => Some (String x a, b)
           | None => None
           end
  end.

(** [strrchr (s, c)]: the suffix of [s] that starts at the last [c]. *)
Fixpoint strrchr (c : ascii) (s : string) : option string :=
  match s with
  | "" => None
  | String x r =>
      match strrchr c r with
      | Some p => Some p
      | None => if Ascii.eqb x c then Some s else None
      end
  end.

(** Prefix test and [strstr]: the suffix that starts at the first match. *)
Fixpoint starts_with (p s : string) : bool :=
  match p, s with
  | "", _ => true
  | String a p, String b s => Ascii.eqb a b && starts_with p s
  | _, "" => false
  end.

Fixpoint strstr (s p : string) : option string :=
  if starts_with p s then Some s
  else match s with
       | "" => None
       | String _ s => strstr s p
       end.

(** Pointer arithmetic [s + n] inside a string. *)
Fixpoint str_drop (n : nat) (s : string) : string :=
  match n, s with
  | O, _ => s
  | S n, String _ s => str_drop n s
  | S _, "" => ""
  end.

(** ** Comparison *)

Fixpoint strcasecmp_eq (a b : string) : bool :=
  match a, b with
  | "", "" => true
  | String x a, String y b => Ascii.eqb (tolower x) (tolower y) && strcasecmp_eq a b
  | _, _ => false
  end.

(** ** Reading lines: [fgets (buf, n, f)] takes at most n-1 characters and
    stops after a newline; [None] is the NULL it returns at end of file. *)
Fixpoint fgets_go (n : nat) (s : string) : string * string :=
  match n, s with
  | S n, String c s =>
      if Ascii.eqb c NEWLINE then (String c "", s)
      else let '(l, r) := fgets_go n s in (String c l, r)
  | _, _ => ("", s)
  end.

Definition fgets (n : nat) (s : string) : option (string * string) :=
  match s with
  | "" => None
  | _ => Some (fgets_go (n - 1) s)
  end.

(** ** Tokens: [strtok_r] with a one-character delimiter set. *)
Fixpoint skip_char (d : ascii) (s : string) : string :=
  match s with
  | "" => ""
  | String c r => if Ascii.eqb c d then skip_char d r else s
  end.

Fixpoint take_token (d : ascii) (s : string) : string * string :=
  match s with
  | "" => ("", "")
  | String c s =>
      if Ascii.eqb c d then ("", s)
      else let '(t, r) := take_token d s in (String c t, r)
  end.

Definition strtok_r (d : ascii) (s : string) : option (string * string) :=
  match skip_char d s with
  | "" => None
  | s => Some (take_token d s)
  end.

(** ** Decimal conversions *)

Fixpoint skip_space (s : string) : string :=
  match s with
  | "" => ""
  | String c r => if isspace c then skip_space r else s
  end.

Fixpoint digits (s : string) (acc : Z) : Z :=
  match s with
  | "" => acc
  | String c s => if isdigit c then digits s (acc * 10 + (code c - 48)) else acc
  end.

(** Optional sign, then the magnitude. *)
Definition signed_digits (s : string) : bool * Z :=
  match skip_space s with
  | String c r =>
      if Ascii.eqb c "-" then (true, digits r 0)
      else if Ascii.eqb c "+" then (false, digits r 0)
      else (false, digits (String c r) 0)
  | "" => (false, 0)
  end.

Definition LONG_MAX : Z := 2 ^ 63 - 1.
Definition LONG_MIN : Z := - 2 ^ 63.

(** [strtol (s, NULL, 10)] saturates at the ends of [long]. *)
Definition strtol (s : string) : Z :=
  let '(neg, m) := signed_digits s in
  if neg then Z.max LONG_MIN (- m) else Z.min LONG_MAX m.

(** [strtoull (s, NULL, 10)] ([strtoul] on LP64): saturates at ULLONG_MAX; a
    minus sign negates in unsigned arithmetic. *)
Definition strtoull (s : string) : Z :=
  let '(neg, m) := signed_digits s in
  if UINT64_MAX <? m then UINT64_MAX
  else if neg then u64 (- m) else m.

(** [atoi] is [(int) strtol]. *)
Definition atoi (s : string) : Z := i32 (strtol s).

(** ** Facts on tokens *)

Lemma sapp_assoc (a b c : string) : (a +:+ b) +:+ c = a +:+ (b +:+ c).
Proof.
  induction a as [|x a IH]; [done|].
  change (String x ((a +:+ b) +:+ c) = String x (a +:+ (b +:+ c))). by rewrite IH.
Qed.

Lemma has_char_app c a b : has_char c (a +:+ b) = has_char c a || has_char c b.
Proof.
  induction a as [|x a IH]; [done|]. simpl.
  change (String.append (String x a) b) with (String x (a +:+ b)). simpl.
  by rewrite IH, orb_assoc.
Qed.

Lemma strrchr_None c s : has_char c s = false -> strrchr c s = None.
Proof.
  induction s as [|x s IH]; simpl; [done|]. intros [Hx Hs]%orb_false_iff.
  by rewrite IH, Hx.
Qed.

(** The last occurrence of [c] in [a c b] is the one shown when [b] has none. *)
Lemma strrchr_last c a b :
  has_char c b = false -> strrchr c (a +:+ String c b) = Some (String c b).
Proof.
  intros Hb. induction a as [|x a IH]; simpl.
  - by rewrite strrchr_None, Ascii.eqb_refl.
  - by rewrite IH.
Qed.

Lemma strchr_first c a b :
  has_char c a = false -> strchr c (a +:+ String c b) = Some (a, b).
Proof.
  induction a as [|x a IH]; simpl; [by rewrite Ascii.eqb_refl|].
  intros [Hx Ha]%orb_false_iff. by rewrite Hx, IH.
Qed.

Lemma take_token_end d t : has_char d t = false -> take_token d t = (t, "").
Proof.
  induction t as [|x t IH]; simpl; [done|]. intros [Hx Ht]%orb_false_iff.
  by rewrite Hx, IH.
Qed.

Lemma take_token_delim d t s :
  has_char d t = false -> take_token d (t +:+ String d s) = (t, s).
Proof.
  induction t as [|x t IH]; simpl; [by rewrite Ascii.eqb_refl|].
  intros [Hx Ht]%orb_false_iff. by rewrite Hx, IH.
Qed.

Lemma skip_char_none d c s : Ascii.eqb c d = false -> skip_char d (String c s) = String c s.
Proof. simpl. by intros ->. Qed.

(** A token: not empty and free of the delimiter. *)
Definition token (d : ascii) (t : string) : Prop :=
  t <> "" /\ has_char d t = false.

Lemma strtok_r_last d t : token d t -> strtok_r d t = Some (t, "").
Proof.
  intros [Hne Ht]. unfold strtok_r. destruct t as [|c t]; [done|].
  pose proof Ht as [Hc _]%orb_false_iff. rewrite skip_char_none by done.
  by rewrite take_token_end.
Qed.

Lemma strtok_r_delim d t s :
  token d t -> strtok_r d (t +:+ String d s) = Some (t, s).
Proof.
  intros [Hne Ht]. unfold strtok_r. destruct t as [|c t]; [done|].
  pose proof Ht as [Hc _]%orb_false_iff.
  change (String c t +:+ String d s) with (String c (t +:+ String d s)).
  rewrite skip_char_none by done.
  change (String c (t +:+ String d s)) with (String c t +:+ String d s).
  by rewrite take_token_delim.
Qed.

(** Tokens separated by one delimiter. *)
Fixpoint join_tokens (d : ascii) (l : list string) : string :=
  match l with
  | [] => ""
  | [t] => t
  | t :: l => t +:+ String d (join_tokens d l)
  end.

Lemma strtok_r_join d t l :
  token d t -> strtok_r d (join_tokens d (t :: l)) = Some (t, join_tokens d l).
Proof.
  intros Ht. destruct l as [|u l]; simpl.
  - by apply strtok_r_last.
  - by apply strtok_r_delim.
Qed.

(** [fgets] returns a whole line when it fits the buffer. *)
Lemma fgets_line n s rest :
  has_char NEWLINE s = false -> (String.length s + 1 < n)%nat ->
  fgets n (s +:+ String NEWLINE rest) = Some (s +:+ String NEWLINE "", rest).
Proof.
  intros Hs Hn. unfold fgets.
  assert (Hgo : forall m, (String.length s + 1 <= m)%nat ->
    fgets_go m (s +:+ String NEWLINE rest) = (s +:+ String NEWLINE "", rest)).
  { clear Hn n. induction s as [|x s IH]; intros m Hm.
    - destruct m; [simpl in Hm; lia|]. done.
    - destruct m; [simpl in Hm; lia|]. simpl in *.
      apply orb_false_iff in Hs as [Hx Hs]. rewrite Hx, IH; [done|done|lia]. }
  rewrite Hgo by lia. by destruct s.
Qed.

#[export] Hint Resolve strrchr_None strrchr_last strchr_first : mtrdma.

(** ** Whole files read with [fgets] in a loop

    The chunks the loop sees, in order.  The fuel is one more than the length
    of the file, which is enough because every call takes a character. *)
Fixpoint file_chunks_go (fuel n : nat) (s : string) : list string :=
  match fuel with
  | O => []
  | S fuel =>
      match fgets n s with
      | None => []
      | Some (l, rest) => l :: file_chunks_go fuel n rest
      end
  end.

Definition file_chunks (n : nat) (s : string) : list string :=
  file_chunks_go (S (String.length s)) n s.

Lemma fgets_go_app n s : (fgets_go n s).1 +:+ (fgets_go n s).2 = s.
Proof.
  revert s. induction n as [|n IH]; intros [|c s]; simpl; try done.
  destruct (Ascii.eqb c NEWLINE); [done|]. specialize (IH s).
  destruct (fgets_go n s) as [l r]. simpl in *.
  change (String c (l +:+ r) = String c s). by rewrite IH.
Qed.

Lemma slength_app (a b : string) :
  String.length (a +:+ b) = (String.length a + String.length b)%nat.
Proof.
  induction a as [|c a IH]; [done|].
  change (S (String.length (a +:+ b)) = S (String.length a + String.length b)). by rewrite IH.
Qed.

(** Reading to the end of the file loses nothing: the loop stops by end of
    file, not by lack of fuel. *)
Lemma file_chunks_complete n s :
  (1 < n)%nat -> foldr String.append "" (file_chunks n s) = s.
Proof.
  intros Hn. unfold file_chunks.
  assert (Hg : forall fuel s, (String.length s < fuel)%nat ->
    foldr String.append "" (file_chunks_go fuel n s) = s).
  { clear s. induction fuel as [|fuel IH]; intros s Hl; [lia|].
    destruct s as [|c s]; [done|]. cbn [file_chunks_go fgets].
    pose proof (fgets_go_app (n - 1) (String c s)) as Happ.
    assert (Hpos : (0 < String.length (fgets_go (n - 1) (String c s)).1)%nat).
    { destruct (n - 1)%nat eqn:E; [lia|]. simpl. destruct (Ascii.eqb c NEWLINE); simpl; [lia|].
      destruct (fgets_go n0 s); simpl; lia. }
    destruct (fgets_go (n - 1) (String c s)) as [l r]. cbn [fst snd] in *.
    cbn [foldr]. rewrite IH; [done|].
    rewrite <- Happ, slength_app in Hl. lia. }
  apply Hg. lia.
Qed.

(** [line[strcspn(line, "\r\n")] = 0]. *)
Fixpoint chop_eol (s : string) : string :=
  match s with
  | "" => ""
  | String c s =>
      if Ascii.eqb c NEWLINE || Ascii.eqb c "013" then "" else String c (chop_eol s)
  end.

(** Remove the trailing characters that satisfy [p]. *)
Fixpoint strip_right (p : ascii -> bool) (s : string) : string :=
  match s with
  | "" => ""
  | String c s =>
      match strip_right p s with
      | "" => if p c then "" else String c ""
      | r => String c r
      end
  end.

Fixpoint strip_left (p : ascii -> bool) (s : string) : string :=
  match s with
  | "" => ""
  | String c r => if p c then strip_left p r else s
  end.

(** ** Decimal printing ([%u], [%llu]) *)
Fixpoint dec_go (fuel : nat) (z : Z) (acc : string) : string :=
  match fuel with
  | O => acc
  | S fuel =>
      let acc := String (ascii_of_N (Z.to_N (48 + z mod 10))) acc in
      if z <? 10 then acc else dec_go fuel (z / 10) acc
  end.

(** Twenty digits print any [uint64_t]. *)
Definition dec (z : Z) : string := dec_go 20 z "".

Lemma digit_code d : 0 <= d < 10 -> code (ascii_of_N (Z.to_N (48 + d))) = 48 + d.
Proof.
  intros Hd. unfold code. rewrite N_ascii_embedding by lia. lia.
Qed.

Lemma digits_digit d s a :
  0 <= d < 10 ->
  digits (String (ascii_of_N (Z.to_N (48 + d))) s) a = digits s (a * 10 + d).
Proof.
  intros Hd. cbn [digits]. unfold isdigit. rewrite digit_code by done.
  replace (_ && _) with true by (symmetry; apply andb_true_iff; split; lia).
  f_equal. lia.
Qed.

Lemma dec_go_digits fuel z acc :
  0 <= z < 10 ^ Z.of_nat fuel ->
  exists k, 0 <= k /\ forall a, digits (dec_go fuel z acc) a = digits acc (a * 10 ^ k + z).
Proof.
  revert z acc. induction fuel as [|fuel IH]; intros z acc Hz.
  { exists 0. split; [lia|]. intros a. simpl. f_equal. simpl in Hz. lia. }
  assert (Hd : 0 <= z mod 10 < 10) by (apply Z.mod_pos_bound; lia).
  cbn [dec_go]. destruct (z <? 10) eqn:E; tests.
  - exists 1. split; [lia|]. intros a. rewrite digits_digit by done.
    rewrite Z.mod_small by lia. f_equal; lia.
  - rewrite Nat2Z.inj_succ, Z.pow_succ_r in Hz by lia.
    destruct (IH (z / 10) (String (ascii_of_N (Z.to_N (48 + z mod 10))) acc)) as (k & Hk & Hv).
    { split; [apply Z.div_pos; lia|]. apply Z.div_lt_upper_bound; lia. }
    exists (k + 1). split; [lia|]. intros a. rewrite Hv, digits_digit by done.
    rewrite Z.pow_add_r by lia. f_equal. pose proof (Z.div_mod z 10). lia.
Qed.

(** The first character printed is a digit. *)
Lemma dec_go_head fuel z acc :
  0 <= z -> (0 < fuel)%nat ->
  exists d r, 0 <= d < 10 /\ dec_go fuel z acc = String (ascii_of_N (Z.to_N (48 + d))) r.
Proof.
  revert z acc. induction fuel as [|fuel IH]; intros z acc Hz Hf; [lia|].
  assert (Hd : 0 <= z mod 10 < 10) by (apply Z.mod_pos_bound; lia).
  cbn [dec_go]. destruct (z <? 10) eqn:E; [eauto|]. destruct fuel as [|fuel]; [eauto|].
  apply IH; [apply Z.div_pos; lia|lia].
Qed.

(** Printing and converting back. *)
Lemma signed_digits_dec z : 0 <= z < 10 ^ 20 -> signed_digits (dec z) = (false, z).
Proof.
  intros Hz. destruct (dec_go_head 20 z "") as (d & r & Hd & E); [lia|lia|].
  destruct (dec_go_digits 20 z "") as (k & Hk & Hv); [done|]. specialize (Hv 0).
  unfold dec, signed_digits. rewrite E in *. cbn [skip_space].
  assert (Hc : code (ascii_of_N (Z.to_N (48 + d))) = 48 + d) by by apply digit_code.
  unfold isspace. rewrite Hc. replace (_ || _) with false
    by (symmetry; apply orb_false_iff; split; [lia|]; apply andb_false_iff; lia).
  assert (Hne : forall c, code c < 48 -> Ascii.eqb (ascii_of_N (Z.to_N (48 + d))) c = false).
  { intros c Hlt. apply Ascii.eqb_neq. intros <-. lia. }
  rewrite !Hne by (vm_compute; reflexivity). rewrite Hv. f_equal; simpl; lia.
Qed.

Lemma strtol_dec z : 0 <= z < 2 ^ 63 -> strtol (dec z) = z.
Proof.
  intros Hz. unfold strtol. rewrite signed_digits_dec by lia.
  apply Z.min_r. unfold LONG_MAX. lia.
Qed.

Lemma strtoull_dec z : 0 <= z < 2 ^ 64 -> strtoull (dec z) = z.
Proof.
  intros Hz. unfold strtoull. rewrite signed_digits_dec by lia.
  unfold UINT64_MAX. by replace (2 ^ 64 - 1 <? z) with false by lia.
Qed.

(** ** Strings all of whose characters satisfy a test *)
Fixpoint str_all (p : ascii -> bool) (s : string) : bool :=
  match s with
  | "" => true
  | String c s => p c && str_all p s
  end.

Lemma str_all_impl (p q : ascii -> bool) s :
  (forall c, p c = true -> q c = true) -> str_all p s = true -> str_all q s = true.
Proof.
  intros H. induction s as [|c s IH]; simpl; [done|].
  intros [? ?]%andb_true_iff. apply andb_true_iff. auto.
Qed.

Lemma str_all_app p a b : str_all p (a +:+ b) = str_all p a && str_all p b.
Proof.
  induction a as [|c a IH]; [done|].
  change (p c && str_all p (a +:+ b) = p c && str_all p a && str_all p b).
  by rewrite IH, andb_assoc.
Qed.

Lemma strip_right_id p s : str_all (fun c => negb (p c)) s = true -> strip_right p s = s.
Proof.
  induction s as [|c s IH]; simpl; [done|]. intros [Hc Hs]%andb_true_iff.
  rewrite (IH Hs). apply negb_true_iff in Hc. rewrite Hc. by destruct s.
Qed.

Lemma strip_left_id p c s : p c = false -> strip_left p (String c s) = String c s.
Proof. simpl. by intros ->. Qed.

Lemma chop_eol_line s :
  str_all (fun c => negb (Ascii.eqb c NEWLINE || Ascii.eqb c "013")) s = true ->
  chop_eol (s +:+ String NEWLINE "") = s.
Proof.
  induction s as [|c s IH]; simpl; [done|].
  intros [Hc Hs]%andb_true_iff. apply negb_true_iff in Hc. rewrite Hc. by rewrite IH.
Qed.

Lemma dec_go_isdigit fuel z acc :
  str_all isdigit acc = true -> str_all isdigit (dec_go fuel z acc) = true.
Proof.
  revert z acc. induction fuel as [|fuel IH]; intros z acc Hacc; [done|].
  assert (Hd : 0 <= z mod 10 < 10) by (apply Z.mod_pos_bound; lia).
  assert (Hs : str_all isdigit (String (ascii_of_N (Z.to_N (48 + z mod 10))) acc) = true).
  { cbn [str_all]. rewrite Hacc, andb_true_r. unfold isdigit. rewrite digit_code by done.
    apply andb_true_iff; split; lia. }
  cbn [dec_go]. destruct (z <? 10); [done|]. by apply IH.
Qed.

(** A printed number consists of digits. *)
Lemma dec_isdigit z : str_all isdigit (dec z) = true.
Proof. by apply dec_go_isdigit. Qed.

Lemma isdigit_not_space c : isdigit c = true -> isspace c = false.
Proof.
  unfold isdigit, isspace. intros H. tests.
  apply orb_false_iff. split; [lia|]. apply andb_false_iff. lia.
Qed.

(** ** [sscanf (s, "%<n>s %u", ...)]

    [%<n>s] skips white space and takes up to n other characters; [%u] skips
    white space and converts a number with an optional sign through an
    unsigned long.  The result is [None] unless both conversions succeed. *)
Fixpoint take_word (n : nat) (s : string) : string * string :=
  match n, s with
  | S n, String c r =>
      if isspace c then ("", s)
      else let '(w, r) := take_word n r in (String c w, r)
  | _, _ => ("", s)
  end.

Definition starts_digit (s : string) : bool :=
  match s with String c _ => isdigit c | "" => false end.

Definition scan_uint (s : string) : option Z :=
  let t := skip_space s in
  let body := match t with
              | String c r => if Ascii.eqb c "-" || Ascii.eqb c "+" then r else t
              | "" => t
              end in
  if starts_digit body then Some (u32 (strtoull t)) else None.

Definition sscanf_word_uint (n : nat) (s : string) : option (string * Z) :=
  match take_word n (skip_space s) with
  | ("", _) => None
  | (w, r) => (fun v => (w, v)) <$> scan_uint r
  end.

(** A word: not empty, no white space. *)
Definition word (w : string) : Prop :=
  w <> "" /\ str_all (fun c => negb (isspace c)) w = true.

Lemma skip_space_word w s : word w -> skip_space (w +:+ s) = w +:+ s.
Proof.
  intros [Hne Hw]. destruct w as [|c w]; [done|]. simpl in Hw.
  apply andb_true_iff in Hw as [Hc _]. apply negb_true_iff in Hc.
  change (String c w +:+ s) with (String c (w +:+ s)). simpl. by rewrite Hc.
Qed.

Lemma take_word_word n w c s :
  str_all (fun c => negb (isspace c)) w = true -> isspace c = true ->
  (String.length w <= n)%nat -> take_word n (w +:+ String c s) = (w, String c s).
Proof.
  revert n. induction w as [|x w IH]; intros n Hw Hc Hn.
  - destruct n; [done|]. simpl. by rewrite Hc.
  - destruct n; [simpl in Hn; lia|]. simpl in *. apply andb_true_iff in Hw as [Hx Hw].
    apply negb_true_iff in Hx. rewrite Hx, IH; [done|done|done|lia].
Qed.

Lemma digits_stop d c s a :
  str_all isdigit d = true -> isdigit c = false ->
  digits (d +:+ String c s) a = digits d a.
Proof.
  revert a. induction d as [|x d IH]; intros a Hd Hc; simpl; [by rewrite Hc|].
  simpl in Hd. apply andb_true_iff in Hd as [Hx Hd]. rewrite Hx. by apply IH.
Qed.

Lemma dec_head z : 0 <= z -> exists c r, dec z = String c r /\ isdigit c = true.
Proof.
  intros Hz. destruct (dec_go_head 20 z "") as (d & r & Hd & E); [done|lia|].
  pose proof (dec_isdigit z) as Hall. unfold dec in *. rewrite E in *.
  eexists _, r. split; [done|]. simpl in Hall. by apply andb_true_iff in Hall as [? _].
Qed.

Lemma isdigit_not_sign c : isdigit c = true -> Ascii.eqb c "-" || Ascii.eqb c "+" = false.
Proof.
  unfold isdigit. intros H. tests. apply orb_false_iff.
  split; apply Ascii.eqb_neq; intros ->; vm_compute in H; done.
Qed.

(** A printed number that something else follows converts as if it ended. *)
Lemma signed_digits_dec_stop z c s :
  0 <= z < 10 ^ 20 -> isdigit c = false ->
  signed_digits (dec z +:+ String c s) = (false, z).
Proof.
  intros Hz Hc. rewrite <- (signed_digits_dec z Hz).
  destruct (dec_head z) as (x & r & E & Hx); [lia|]. pose proof (dec_isdigit z) as Hall.
  rewrite E in *. unfold signed_digits. pose proof (isdigit_not_space x Hx) as Hs.
  pose proof (isdigit_not_sign x Hx) as [H1 H2]%orb_false_iff.
  change (String x r +:+ String c s) with (String x (r +:+ String c s)).
  cbn [skip_space]. rewrite Hs, H1, H2. f_equal.
  change (String x (r +:+ String c s)) with (String x r +:+ String c s).
  by apply digits_stop.
Qed.

Lemma strtoull_dec_stop z c s :
  0 <= z < 2 ^ 64 -> isdigit c = false -> strtoull (dec z +:+ String c s) = z.
Proof.
  intros Hz Hc. unfold strtoull. rewrite signed_digits_dec_stop by (done || lia).
  unfold UINT64_MAX. by replace (2 ^ 64 - 1 <? z) with false by lia.
Qed.

Lemma scan_uint_dec z c s :
  0 <= z < 2 ^ 64 -> isdigit c = false ->
  scan_uint (String " " (dec z +:+ String c s)) = Some (u32 z).
Proof.
  intros Hz Hc. pose proof (strtoull_dec_stop z c s Hz Hc) as Hv.
  destruct (dec_head z) as (x & r & E & Hx); [lia|]. rewrite E in *. unfold scan_uint.
  change (String x r +:+ String c s) with (String x (r +:+ String c s)) in *.
  change (skip_space (String " " (String x (r +:+ String c s)))) with
    (skip_space (String x (r +:+ String c s))).
  pose proof (isdigit_not_space x Hx) as Hs. cbn [skip_space]. rewrite Hs.
  rewrite isdigit_not_sign by done. cbn [starts_digit]. by rewrite Hx, Hv.
Qed.

(** The line "<word> <number>" that [fprintf (f, "%s %u\n")] writes. *)
Definition setting_line (w : string) (z : Z) : string := w +:+ String " " (dec z).

Lemma sscanf_setting_line n w z :
  word w -> (String.length w <= n)%nat -> 0 <= z < 2 ^ 64 ->
  sscanf_word_uint n (setting_line w z +:+ String NEWLINE "") = Some (w, u32 z).
Proof.
  intros Hw Hn Hz. unfold sscanf_word_uint, setting_line. rewrite sapp_assoc.
  rewrite skip_space_word by done.
  change (String " " (dec z) +:+ String NEWLINE "") with
    (String " " (dec z +:+ String NEWLINE "")).
  destruct Hw as [Hne Hw]. rewrite take_word_word by done.
  rewrite scan_uint_dec by done. by destruct w.
Qed.

(** ** A file that consists of lines *)

Fixpoint unlines (ls : list string) : string :=
  match ls with
  | [] => ""
  | l :: ls => l +:+ String NEWLINE (unlines ls)
  end.

Lemma file_chunks_unlines n ls :
  Forall (fun l => has_char NEWLINE l = false /\ (String.length l + 1 < n)%nat) ls ->
  file_chunks n (unlines ls) = (fun l => l +:+ String NEWLINE "") <$> ls.
Proof.
  intros Hls. unfold file_chunks.
  assert (Hg : forall fuel, (String.length (unlines ls) < fuel)%nat ->
    file_chunks_go fuel n (unlines ls) = (fun l => l +:+ String NEWLINE "") <$> ls).
  { induction Hls as [|l ls [Hl Hn] Hls IH]; intros fuel Hf; (destruct fuel; [lia|]); [done|].
    cbn [file_chunks_go unlines]. rewrite fgets_line by done. csimpl. f_equal.
    apply IH. cbn [unlines] in Hf. rewrite slength_app in Hf. simpl in Hf. lia. }
  apply Hg. lia.
Qed.

Lemma dec_go_length fuel z acc :
  (String.length (dec_go fuel z acc) <= fuel + String.length acc)%nat.
Proof.
  revert z acc. induction fuel as [|fuel IH]; intros z acc; cbn [dec_go]; [lia|].
  destruct (z <? 10); simpl; [lia|]. etrans; [apply IH|]. simpl. lia.
Qed.

Lemma dec_length z : (String.length (dec z) <= 20)%nat.
Proof. etrans; [apply dec_go_length|]. simpl. lia. Qed.

Lemma str_all_no_char p c s : str_all p s = true -> p c = false -> has_char c s = false.
Proof.
  intros Hs Hp. induction s as [|x s IH]; simpl in *; [done|].
  apply andb_true_iff in Hs as [Hx Hs]. apply orb_false_iff. split; [|auto].
  apply Ascii.eqb_neq. intros ->. congruence.
Qed.

Lemma setting_line_ok w z n :
  word w -> (String.length w + 22 < n)%nat ->
  has_char NEWLINE (setting_line w z) = false /\ (String.length (setting_line w z) + 1 < n)%nat.
Proof.
  intros [_ Hw] Hn. unfold setting_line. split.
  - rewrite has_char_app. change (has_char NEWLINE (String " " (dec z))) with
      (has_char NEWLINE (dec z)). apply orb_false_iff.
    split; (eapply str_all_no_char; [first [exact Hw|apply dec_isdigit]|done]).
  - rewrite slength_app. simpl. pose proof (dec_length z). lia.
Qed.

(** Signed decimal printing ([%d]). *)
Definition sdec (z : Z) : string := if z <? 0 then "-" +:+ dec (- z) else dec z.
