(* ===== verification/Shm.v ===== *)
(** * The process table: src/src/shm/shared_memory.{h,c}

    The POSIX segment that the interception library and the collector share:
    global counters, one usage record per process slot, the pid and the start
    time of the process that owns the slot, the global limits, the spin lock
    word and the version number.  Every function of shared_memory.c is a
    definition here.  [ptr] stands for the test [shm_data_ptr != NULL] and an
    [option] argument for a pointer that may be NULL; [now] is the clock
    reading of the call; [proc_stat] is the content of /proc/<pid>/stat, which
    belongs to the kernel.

    The abstract view of the table is a finite map from pids to usage records
    ([ledger]); the theorems show that each operation is the corresponding map
    operation and that the global counters always are the sum of the table. *)

From S2P Require Import Prelude CString.
From stdpp Require Import base numbers list gmap strings.
From Stdlib Require Import Ascii.
#[local] Open Scope string_scope.
#[local] Open Scope Z_scope.

Definition MAX_PROCESSES : nat := 1024.

(** ** Data *)

Record resource_usage := mk_usage {
  qp_count : Z;
  mr_count : Z;
  memory_used : Z
}.

Definition zero_usage : resource_usage := mk_usage 0 0 0.

#[export] Instance resource_usage_inhabited : Inhabited resource_usage :=
  populate zero_usage.
#[export] Instance resource_usage_eq_dec : EqDecision resource_usage.
Proof. solve_decision. Defined.

Record shared_memory_data := mk_shm {
  global_stats : resource_usage;
  process_stats : list resource_usage;
  process_pids : list Z;
  process_start_times : list Z;
  max_global_qp : Z;
  max_global_mr : Z;
  max_global_memory : Z;
  shm_lock_word : Z;
  version : Z;
  last_update_time : Z
}.

(** Assignments to one field. *)
Definition set_global (g : resource_usage) (d : shared_memory_data) :=
  mk_shm g (process_stats d) (process_pids d) (process_start_times d)
    (max_global_qp d) (max_global_mr d) (max_global_memory d)
    (shm_lock_word d) (version d) (last_update_time d).
Definition set_stat (slot : nat) (u : resource_usage) (d : shared_memory_data) :=
  mk_shm (global_stats d) (<[slot:=u]> (process_stats d)) (process_pids d)
    (process_start_times d) (max_global_qp d) (max_global_mr d)
    (max_global_memory d) (shm_lock_word d) (version d) (last_update_time d).
Definition set_pid (slot : nat) (pid : Z) (d : shared_memory_data) :=
  mk_shm (global_stats d) (process_stats d) (<[slot:=pid]> (process_pids d))
    (process_start_times d) (max_global_qp d) (max_global_mr d)
    (max_global_memory d) (shm_lock_word d) (version d) (last_update_time d).
Definition set_start (slot : nat) (t : Z) (d : shared_memory_data) :=
  mk_shm (global_stats d) (process_stats d) (process_pids d)
    (<[slot:=t]> (process_start_times d)) (max_global_qp d) (max_global_mr d)
    (max_global_memory d) (shm_lock_word d) (version d) (last_update_time d).
Definition set_limits (qp mr mem : Z) (d : shared_memory_data) :=
  mk_shm (global_stats d) (process_stats d) (process_pids d)
    (process_start_times d) qp mr mem (shm_lock_word d) (version d)
    (last_update_time d).
Definition set_lock (l : Z) (d : shared_memory_data) :=
  mk_shm (global_stats d) (process_stats d) (process_pids d)
    (process_start_times d) (max_global_qp d) (max_global_mr d)
    (max_global_memory d) l (version d) (last_update_time d).
(** [version++] *)
Definition bump_version (d : shared_memory_data) :=
  mk_shm (global_stats d) (process_stats d) (process_pids d)
    (process_start_times d) (max_global_qp d) (max_global_mr d)
    (max_global_memory d) (shm_lock_word d) (u64 (version d + 1))
    (last_update_time d).
Definition set_time (now : Z) (d : shared_memory_data) :=
  mk_shm (global_stats d) (process_stats d) (process_pids d)
    (process_start_times d) (max_global_qp d) (max_global_mr d)
    (max_global_memory d) (shm_lock_word d) (version d) now.

(** ** Locking

    [shm_lock] is the compare-and-swap that succeeds; the spinning before it
    and the exclusion it gives are modelled in the file SpinLock. *)
Definition shm_lock (d : shared_memory_data) := set_lock 1 d.
Definition shm_unlock (d : shared_memory_data) := set_lock 0 d.

(** ** Start-up and tear-down *)

(** The process-local side: [static int shm_fd] and whether
    [shm_data_ptr] is mapped. *)
Record shm_handle := mk_handle { shm_fd : Z; shm_data_ptr : bool }.

(** What the kernel answers to the system calls of one call of [shm_init] or
    [shm_destroy]. *)
Record shm_sys := mk_sys {
  sys_shm_open : Z;
  sys_ftruncate : Z;
  sys_mmap : bool;
  sys_shm_unlink : Z
}.

(** A freshly truncated segment: all bytes zero. *)
Definition zero_shm : shared_memory_data :=
  mk_shm zero_usage (replicate MAX_PROCESSES zero_usage)
    (replicate MAX_PROCESSES 0) (replicate MAX_PROCESSES 0) 0 0 0 0 0 0.

(** The initialisation block of [shm_init]. *)
Definition shm_reset (now : Z) (d : shared_memory_data) : shared_memory_data :=
  mk_shm zero_usage
    ((fun _ => zero_usage) <$> process_stats d)
    ((fun _ => 0) <$> process_pids d)
    ((fun _ => 0) <$> process_start_times d)
    1000 1000 (1024 * 1024 * 1024) 0 1 now.

(** [obj] is the named segment: [None] when it does not exist (or is empty). *)
Definition shm_init (sys : shm_sys) (now : Z) (h : shm_handle)
    (obj : option shared_memory_data)
    : Z * shm_handle * option shared_memory_data :=
  if sys_shm_open sys =? -1 then (-1, mk_handle (-1) (shm_data_ptr h), obj)
  else if sys_ftruncate sys =? -1 then (-1, mk_handle (-1) (shm_data_ptr h), obj)
  else
    let d := default zero_shm obj in
    if negb (sys_mmap sys) then (-1, mk_handle (-1) false, Some d)
    else
      let h := mk_handle (sys_shm_open sys) true in
      if (qp_count (global_stats d) =? 0) && (mr_count (global_stats d) =? 0)
         && (memory_used (global_stats d) =? 0)
      then (0, h, Some (shm_reset now d))
      else (0, h, Some d).

Definition shm_destroy (sys : shm_sys) (h : shm_handle)
    (obj : option shared_memory_data)
    : Z * shm_handle * option shared_memory_data :=
  let h := mk_handle (-1) false in
  if sys_shm_unlink sys =? -1 then (-1, h, obj) else (0, h, None).

Definition shm_get_ptr (h : shm_handle) : bool := shm_data_ptr h.

(** ** Reading *)

(** The outputs are the return code and what is stored through [usage]. *)
Definition shm_get_global_resources (ptr : bool) (d : shared_memory_data)
    : Z * resource_usage :=
  if negb ptr then (-1, zero_usage)
  else (0, mk_usage (qp_count (global_stats d)) (mr_count (global_stats d))
             (memory_used (global_stats d))).

Definition shm_get_process_resources (ptr : bool) (d : shared_memory_data)
    (pid : Z) : Z * resource_usage :=
  if negb ptr || (pid <=? 0) then (-1, zero_usage)
  else match find_idx (fun p => p =? pid) (process_pids d) with
       | Some i =>
           let u := process_stats d !!! i in
           (0, mk_usage (qp_count u) (mr_count u) (memory_used u))
       | None => (0, mk_usage 0 0 0)
       end.

(** ** Updating *)

Definition shm_update_global_resources (ptr : bool) (now : Z)
    (d : shared_memory_data) (usage : option resource_usage)
    : Z * shared_memory_data :=
  match usage with
  | None => (-1, d)
  | Some usage =>
      if negb ptr then (-1, d)
      else
        let d := shm_lock d in
        let d := set_global (mk_usage (qp_count usage) (mr_count usage)
                               (memory_used usage)) d in
        (0, shm_unlock (set_time now (bump_version d)))
  end.

Definition shm_set_global_limits (ptr : bool) (d : shared_memory_data)
    (max_qp max_mr max_memory : Z) : Z * shared_memory_data :=
  if negb ptr then (-1, d)
  else (0, shm_unlock (set_limits max_qp max_mr max_memory (shm_lock d))).

(** [global_stats.x -= u.x] for the three counters. *)
Definition usage_sub (g u : resource_usage) : resource_usage :=
  mk_usage (i32 (qp_count g - qp_count u)) (i32 (mr_count g - mr_count u))
    (u64 (memory_used g - memory_used u)).

(** [global_stats.x += (new.x - old.x)]. *)
Definition usage_move (g new old : resource_usage) : resource_usage :=
  mk_usage (i32 (qp_count g + i32 (qp_count new - qp_count old)))
    (i32 (mr_count g + i32 (mr_count new - mr_count old)))
    (u64 (memory_used g + u64 (memory_used new - memory_used old))).

Section proc.
Context (proc_stat : Z -> option string).

(** Skip [n] tokens, then return the next one. *)
Fixpoint nth_token (n : nat) (s : string) : option string :=
  match strtok_r " "%char s with
  | None => None
  | Some (tok, rest) =>
      match n with
      | O => Some tok
      | S n => nth_token n rest
      end
  end.

(** The first [strtok_r] yields the state field, the loop takes nineteen
    more tokens, and one more call takes the token that is converted. *)
Definition shm_read_proc_start_time (pid : Z) : Z :=
  match proc_stat pid with
  | None => 0
  | Some content =>
      match fgets 1024 content with
      | None => 0
      | Some (buf, _) =>
          match strrchr ")"%char buf with
          | None => 0
          | Some p =>
              match str_drop 2 p with
              | "" => 0
              | p =>
                  match nth_token (1 + 19) p with
                  | None => 0
                  | Some tok => strtoull tok
                  end
              end
          end
      end
  end.

(** The slot already belongs to [pid]: when both start times are known and
    differ, the pid was reused and the dead owner's usage is given back. *)
Definition check_pid_reuse (d : shared_memory_data) (slot : nat) (pid : Z)
    : shared_memory_data :=
  let current_start := shm_read_proc_start_time pid in
  let start := process_start_times d !!! slot in
  if negb (current_start =? 0) && negb (start =? 0)
     && negb (current_start =? start)
  then
    let d := set_global (usage_sub (global_stats d) (process_stats d !!! slot)) d in
    let d := set_stat slot zero_usage d in
    set_start slot current_start d
  else d.

(** A new entry in the free slot. *)
Definition claim_slot (d : shared_memory_data) (slot : nat) (pid : Z)
    : shared_memory_data :=
  set_start slot (shm_read_proc_start_time pid) (set_pid slot pid d).

(** The tail of the function: store the usage, move the global counters by
    the difference, bump the version. *)
Definition store_usage (now : Z) (d : shared_memory_data) (slot : nat)
    (usage : resource_usage) : shared_memory_data :=
  let old := process_stats d !!! slot in
  let d := set_stat slot (mk_usage (qp_count usage) (mr_count usage)
                            (memory_used usage)) d in
  let d := set_global (usage_move (global_stats d) usage old) d in
  set_time now (bump_version d).

Definition shm_update_process_resources (ptr : bool) (now : Z)
    (d : shared_memory_data) (pid : Z) (usage : option resource_usage)
    : Z * shared_memory_data :=
  match usage with
  | None => (-1, d)
  | Some usage =>
      if negb ptr || (pid <=? 0) then (-1, d)
      else
        let d := shm_lock d in
        match scan_slot (fun p => p =? pid) (fun p => p =? 0)
                (process_pids d) 0 None with
        | (Some slot, _) =>
            (0, shm_unlock (store_usage now (check_pid_reuse d slot pid) slot usage))
        | (None, Some slot) =>
            (0, shm_unlock (store_usage now (claim_slot d slot pid) slot usage))
        | (None, None) => (-1, shm_unlock d)
        end
  end.
End proc.

(** The slot is emptied and its usage leaves the global counters; the usage is
    the output of the call.  The caller holds the lock. *)
Definition shm_clear_process_entry (ptr : bool) (d : shared_memory_data)
    (slot : Z) : Z * resource_usage * shared_memory_data :=
  if negb ptr || (slot <? 0) || (Z.of_nat MAX_PROCESSES <=? slot)
  then (-1, zero_usage, d)
  else
    let i := Z.to_nat slot in
    if process_pids d !!! i =? 0 then (-1, zero_usage, d)
    else
      let out := process_stats d !!! i in
      let d := set_global (usage_sub (global_stats d) out) d in
      let d := set_stat i zero_usage d in
      let d := set_pid i 0 d in
      let d := set_start i 0 d in
      (0, out, bump_version d).

(** * Theorems *)

#[global] Opaque MAX_PROCESSES.

(** ** The invariant of the segment *)

(** [counted]: nothing but the operations of the table has written the global
    counters; without it they may hold anything. *)
Record shm_inv (counted : bool) (d : shared_memory_data) : Prop := {
  ok_stats_len : length (process_stats d) = MAX_PROCESSES;
  ok_pids_len : length (process_pids d) = MAX_PROCESSES;
  ok_times_len : length (process_start_times d) = MAX_PROCESSES;
  (** a process owns at most one slot *)
  ok_unique : forall i j p, process_pids d !! i = Some p ->
    process_pids d !! j = Some p -> p <> 0 -> i = j;
  (** a free slot carries no usage *)
  ok_free : forall i, process_pids d !! i = Some 0 ->
    process_stats d !! i = Some zero_usage;
  (** the global counters are the sums over the table, at their width *)
  ok_qp : counted = true ->
    qp_count (global_stats d) = i32 (zsum qp_count (process_stats d));
  ok_mr : counted = true ->
    mr_count (global_stats d) = i32 (zsum mr_count (process_stats d));
  ok_mem : counted = true ->
    memory_used (global_stats d) = u64 (zsum memory_used (process_stats d));
  (** outside critical sections the lock is free *)
  ok_lock : shm_lock_word d = 0
}.
Arguments ok_stats_len {counted}.
Arguments ok_pids_len {counted}.
Arguments ok_times_len {counted}.
Arguments ok_unique {counted}.
Arguments ok_free {counted}.
Arguments ok_qp {counted}.
Arguments ok_mr {counted}.
Arguments ok_mem {counted}.
Arguments ok_lock {counted}.

Notation shm_ok := (shm_inv true).

(** The table as a finite map. *)
Definition ledger (d : shared_memory_data) : gmap Z resource_usage :=
  delete 0 (list_to_map (zip (process_pids d) (process_stats d))).

(** ** Lemmas on the slot search *)

Lemma find_pid_Some pid (l : list Z) i :
  find_idx (fun p => p =? pid) l = Some i -> l !! i = Some pid.
Proof. intros (x & Hx & Hp)%find_idx_lookup. tests. by subst. Qed.

Lemma find_pid_None pid (l : list Z) :
  find_idx (fun p => p =? pid) l = None <-> pid ∉ l.
Proof.
  rewrite find_idx_None. split.
  - intros H Hin. specialize (H _ Hin). tests. done.
  - intros H x Hx. apply Z.eqb_neq. by intros ->.
Qed.

Lemma list_to_map_zip_lookup (ps : list Z) (us : list resource_usage) p :
  length us = length ps ->
  (list_to_map (zip ps us) : gmap Z resource_usage) !! p =
    (fun i => us !!! i) <$> find_idx (fun x => x =? p) ps.
Proof.
  revert us. induction ps as [|q ps IH]; intros [|u us] Hl; simplify_eq/=; [done|].
  destruct (q =? p) eqn:E; tests.
  - subst. by rewrite lookup_insert_eq.
  - rewrite lookup_insert_ne by done. rewrite IH by done.
    by destruct (find_idx _ ps).
Qed.

Lemma ledger_lookup {c} d p :
  shm_inv c d -> p <> 0 ->
  ledger d !! p = (fun i => process_stats d !!! i) <$>
    find_idx (fun x => x =? p) (process_pids d).
Proof.
  intros Hok Hp. unfold ledger. rewrite lookup_delete_ne by done.
  apply list_to_map_zip_lookup. by rewrite (ok_stats_len d Hok), (ok_pids_len d Hok).
Qed.

Lemma ledger_zero d : ledger d !! 0 = None.
Proof. apply lookup_delete_eq. Qed.

(** In a table without duplicates the search finds the only slot. *)
Lemma find_pid_unique {c} d i p :
  shm_inv c d -> p <> 0 -> process_pids d !! i = Some p ->
  find_idx (fun x => x =? p) (process_pids d) = Some i.
Proof.
  intros Hok Hp Hi. destruct (find_idx _ _) as [j|] eqn:E.
  - apply find_pid_Some in E. f_equal. by eapply (ok_unique d Hok).
  - apply find_pid_None in E. exfalso. apply E. by eapply list_elem_of_lookup_2.
Qed.

(** ** One write of a slot, at the level of the invariant

    Every operation of the table comes down to: put pid [p] and usage [u] in
    slot [i], and move the global counters from the slot's old usage to [u]. *)
Record slot_write (d : shared_memory_data) (i : nat) (p : Z) (u : resource_usage)
    (d' : shared_memory_data) : Prop := {
  sw_pids : process_pids d' = <[i:=p]> (process_pids d);
  sw_stats : process_stats d' = <[i:=u]> (process_stats d);
  sw_times : length (process_start_times d') = length (process_start_times d);
  sw_global : global_stats d' = usage_move (global_stats d) u (process_stats d !!! i);
  sw_lock : shm_lock_word d' = 0
}.

Lemma usage_move_sums g l i u :
  (i < length l)%nat ->
  qp_count g = i32 (zsum qp_count l) -> mr_count g = i32 (zsum mr_count l) ->
  memory_used g = u64 (zsum memory_used l) ->
  let g' := usage_move g u (l !!! i) in let l' := <[i:=u]> l in
  qp_count g' = i32 (zsum qp_count l') /\ mr_count g' = i32 (zsum mr_count l') /\
  memory_used g' = u64 (zsum memory_used l').
Proof.
  intros Hi Hq Hm Hu. pose proof (arr_lookup l i Hi) as Hl. simpl.
  rewrite !(zsum_insert _ l i (l !!! i)) by done. rewrite Hq, Hm, Hu.
  split_and!; warith.
Qed.

Lemma slot_write_ok {c} d i p u d' :
  shm_inv c d -> (i < MAX_PROCESSES)%nat -> slot_write d i p u d' ->
  (p = 0 -> u = zero_usage) ->
  (forall j, process_pids d !! j = Some p -> p <> 0 -> j = i) ->
  shm_inv c d'.
Proof.
  intros Hok Hi [Hp Hs Ht Hg Hl] Hz Huniq.
  assert (Hsum : c = true -> let g := usage_move (global_stats d) u (process_stats d !!! i) in
    let l := <[i:=u]> (process_stats d) in
    qp_count g = i32 (zsum qp_count l) /\ mr_count g = i32 (zsum mr_count l) /\
    memory_used g = u64 (zsum memory_used l)).
  { intros Hc. apply usage_move_sums; [by rewrite (ok_stats_len d Hok)|by apply Hok..]. }
  split; rewrite ?Hp, ?Hs, ?Ht, ?Hg, ?length_insert; try apply Hok; try done;
    try (intros Hc; by apply Hsum).
  - intros j k q. rewrite !list_lookup_insert_Some.
    intros [(?&?&?)|[? ?]] [(?&?&?)|[? ?]] ?; subst; try done.
    + symmetry. naive_solver.
    + naive_solver.
    + by eapply (ok_unique d Hok).
  - intros j. rewrite !list_lookup_insert_Some, (ok_stats_len d Hok) by done.
    intros [(?&?&?)|[? ?]]; subst; [left; naive_solver|right].
    split; [done|]. by apply (ok_free d Hok).
Qed.

Lemma slot_write_ledger {c} d i p u d' :
  shm_inv c d -> shm_inv c d' -> (i < MAX_PROCESSES)%nat -> slot_write d i p u d' ->
  forall q, q <> 0 ->
  ledger d' !! q =
    if decide (q = p) then Some u
    else if decide (q = process_pids d !!! i) then None
    else ledger d !! q.
Proof.
  intros Hok Hok' Hi [Hp Hs _ _ _] q Hq. rewrite !ledger_lookup by done.
  assert (Hlp : process_pids d !! i = Some (process_pids d !!! i)).
  { apply arr_lookup. by rewrite (ok_pids_len d Hok). }
  case_decide as Eq; [subst q|case_decide as Eo].
  - erewrite (find_pid_unique d' i p); [|done|done|].
    + simpl. rewrite Hs, arr_insert_eq; [done|]. by rewrite (ok_stats_len d Hok).
    + rewrite Hp. apply list_lookup_insert_eq. by rewrite (ok_pids_len d Hok).
  - subst q. replace (find_idx _ (process_pids d')) with (@None nat); [done|].
    symmetry. apply find_pid_None. rewrite Hp. intros [j Hj]%list_elem_of_lookup_1.
    apply list_lookup_insert_Some in Hj as [(?&?&?)|[Hne Hj]]; [by subst|].
    apply Hne. symmetry. by eapply (ok_unique d Hok).
  - destruct (find_idx _ (process_pids d)) as [j|] eqn:E.
    + apply find_pid_Some in E. assert (j <> i) by (intros ->; congruence).
      erewrite (find_pid_unique d' j q); [|done|done|].
      * simpl. by rewrite Hs, list_lookup_total_insert_ne.
      * rewrite Hp. by rewrite list_lookup_insert_ne.
    + replace (find_idx _ (process_pids d')) with (@None nat); [done|].
      symmetry. apply find_pid_None. rewrite Hp. apply find_pid_None in E.
      intros [j Hj]%list_elem_of_lookup_1.
      apply list_lookup_insert_Some in Hj as [(?&?&?)|[Hne Hj]]; [by subst|].
      apply E. by eapply list_elem_of_lookup_2.
Qed.

(** ** The operations as slot writes *)

Lemma usage_eta u : mk_usage (qp_count u) (mr_count u) (memory_used u) = u.
Proof. by destruct u. Qed.

Lemma usage_move_sub g s u : usage_move (usage_sub g s) u zero_usage = usage_move g u s.
Proof. unfold usage_move, usage_sub. simpl. f_equal; warith. Qed.

Lemma usage_sub_move g u : usage_sub g u = usage_move g zero_usage u.
Proof. unfold usage_move, usage_sub. simpl. f_equal; warith. Qed.

Lemma lock_unlock {c} d : shm_inv c d -> shm_unlock (shm_lock d) = d.
Proof. intros Hok%ok_lock. destruct d; simpl in *. by subst. Qed.

(** Whether or not the pid was reused, an update of an owned slot writes the
    slot once: the dead owner's share cancels out. *)
Lemma update_owned_write {c} proc_stat now d slot pid u :
  shm_inv c d -> process_pids d !! slot = Some pid ->
  slot_write d slot pid u
    (shm_unlock (store_usage now
       (check_pid_reuse proc_stat (shm_lock d) slot pid) slot u)).
Proof.
  intros Hok Hp. pose proof (lookup_lt_Some _ _ _ Hp) as Hlt.
  assert (Hs : (slot < length (process_stats d))%nat).
  { by rewrite (ok_stats_len d Hok), <- (ok_pids_len d Hok). }
  unfold check_pid_reuse. destruct (_ && _ && _); unfold store_usage; split; simpl;
    rewrite ?usage_eta, ?length_insert; try done.
  - by rewrite list_insert_id.
  - by rewrite list_insert_insert_eq.
  - by rewrite arr_insert_eq, usage_move_sub.
  - by rewrite list_insert_id.
Qed.

Lemma update_fresh_write proc_stat now d slot pid u :
  slot_write d slot pid u
    (shm_unlock (store_usage now (claim_slot proc_stat (shm_lock d) slot pid) slot u)).
Proof.
  unfold store_usage, claim_slot. split; simpl; rewrite ?usage_eta, ?length_insert; done.
Qed.

Lemma clear_write {c} d slot :
  shm_inv c d -> (slot < MAX_PROCESSES)%nat -> process_pids d !!! slot <> 0 ->
  exists d', shm_clear_process_entry true d (Z.of_nat slot) =
    (0, process_stats d !!! slot, d') /\ slot_write d slot 0 zero_usage d'.
Proof.
  intros Hok Hlt Hne. unfold shm_clear_process_entry. rewrite Nat2Z.id.
  replace (Z.of_nat slot <? 0) with false by lia.
  replace (Z.of_nat MAX_PROCESSES <=? Z.of_nat slot) with false by lia.
  replace (process_pids d !!! slot =? 0) with false by lia. simpl.
  eexists. split; [reflexivity|]. split; simpl; rewrite ?length_insert; try done.
  - apply usage_sub_move.
  - apply Hok.
Qed.

(** The slot an update chooses. *)
Lemma scan_pid_cases {c} d pid :
  shm_inv c d -> pid <> 0 ->
  (exists i e, scan_slot (fun p => p =? pid) (fun p => p =? 0) (process_pids d) 0 None
      = (Some i, e) /\ process_pids d !! i = Some pid) \/
  (exists i, scan_slot (fun p => p =? pid) (fun p => p =? 0) (process_pids d) 0 None
      = (None, Some i) /\ process_pids d !! i = Some 0 /\ (pid ∉ process_pids d)) \/
  (scan_slot (fun p => p =? pid) (fun p => p =? 0) (process_pids d) 0 None
      = (None, None) /\ (pid ∉ process_pids d) /\ (0 ∉ process_pids d)).
Proof.
  intros Hok Hne. destruct (find_idx (fun p => p =? pid) (process_pids d)) as [i|] eqn:E.
  - left. pose proof (scan_slot_found _ (fun p => p =? 0) _ _ E) as H.
    destruct (scan_slot _ _ _ _ _) as [f e]; simplify_eq/=.
    exists i, e. split; [done|]. by apply find_pid_Some.
  - right. rewrite scan_slot_missing by done. apply find_pid_None in E.
    destruct (find_idx (fun p => p =? 0) _) as [i|] eqn:E0.
    + left. exists i. split_and!; [done| |done]. by apply find_pid_Some.
    + right. split_and!; [done|done|]. by apply find_pid_None.
Qed.

(** ** Refinement *)

(** Writing the process's own slot, or a free one, binds the pid in the map. *)
Lemma slot_write_bind {c} d i pid u d' :
  shm_inv c d -> pid <> 0 -> (i < MAX_PROCESSES)%nat -> slot_write d i pid u d' ->
  process_pids d !! i = Some pid \/ (process_pids d !! i = Some 0 /\ pid ∉ process_pids d) ->
  shm_inv c d' /\ ledger d' = <[pid:=u]> (ledger d).
Proof.
  intros Hok Hne Hi Hw Hcase. assert (Hok' : shm_inv c d').
  { eapply slot_write_ok; [done|done|done|lia|]. intros j Hj _.
    destruct Hcase as [Hc|[_ Hc]]; [by eapply (ok_unique d Hok)|].
    destruct Hc. by eapply list_elem_of_lookup_2. }
  split; [done|]. apply map_eq. intros q. destruct (decide (q = 0)) as [->|Hq].
  { by rewrite lookup_insert_ne, !ledger_zero by done. }
  rewrite (slot_write_ledger d i pid u d') by done.
  case_decide as Eq; [subst; by rewrite lookup_insert_eq|].
  rewrite lookup_insert_ne by done. case_decide as Eo; [|done].
  assert (process_pids d !! i = Some q) as Hqi.
  { subst q. apply arr_lookup. by rewrite (ok_pids_len d Hok). }
  destruct Hcase as [Hc|[Hc _]]; congruence.
Qed.

(** An update that finds a slot. *)
Lemma shm_update_bind {c} proc_stat now d pid u :
  shm_inv c d -> 0 < pid -> pid ∈ process_pids d \/ 0 ∈ process_pids d ->
  exists d', shm_update_process_resources proc_stat true now d pid (Some u) = (0, d') /\
    shm_inv c d' /\ ledger d' = <[pid:=u]> (ledger d).
Proof.
  intros Hok Hpid Hroom. assert (Hne : pid <> 0) by lia.
  assert (Hlt : forall i p, process_pids d !! i = Some p -> (i < MAX_PROCESSES)%nat).
  { intros i p Hi%lookup_lt_Some. by rewrite <- (ok_pids_len d Hok). }
  unfold shm_update_process_resources. replace (pid <=? 0) with false by lia. simpl.
  destruct (scan_pid_cases d pid Hok Hne)
    as [(i & e & -> & Hi)|[(i & -> & Hi & Hni)|(_ & Hni & Hn0)]]; [| |naive_solver].
  - eexists. split; [done|]. eapply (slot_write_bind d i); eauto using update_owned_write.
  - eexists. split; [done|]. eapply (slot_write_bind d i); eauto using update_fresh_write.
Qed.

(** An update that finds no slot. *)
Lemma shm_update_full {c} proc_stat now d pid u :
  shm_inv c d -> 0 < pid -> pid ∉ process_pids d -> 0 ∉ process_pids d ->
  shm_update_process_resources proc_stat true now d pid (Some u) = (-1, d).
Proof.
  intros Hok Hpid Hp H0.
  unfold shm_update_process_resources. replace (pid <=? 0) with false by lia. simpl.
  rewrite scan_slot_missing by by apply find_pid_None.
  replace (find_idx (fun p => p =? 0) (process_pids d)) with (@None nat)
    by (symmetry; by apply find_pid_None).
  by rewrite (lock_unlock d Hok).
Qed.

(** Whatever the arguments, an update keeps the invariant. *)
Lemma shm_update_ok {c} proc_stat ptr now d pid u :
  shm_inv c d -> shm_inv c (shm_update_process_resources proc_stat ptr now d pid u).2.
Proof.
  intros Hok. destruct u as [u|]; [|done]. destruct ptr; [|done].
  destruct (Z_le_gt_dec pid 0) as [Hp|Hp].
  { simpl. by replace (pid <=? 0) with true by lia. }
  destruct (decide (pid ∈ process_pids d \/ 0 ∈ process_pids d)) as [H|H].
  - destruct (shm_update_bind proc_stat now d pid u Hok) as (d' & -> & ? & _); [lia|done|done].
  - rewrite (shm_update_full proc_stat now d pid u Hok); [done|lia|naive_solver..].
Qed.

(** C6. [shm_update_process_resources] implements "bind pid to this usage" on the
    map of live processes: when the process already owns a slot or a slot is
    free it returns 0, the map gets exactly that binding and no other one
    changes; otherwise it returns -1 and leaves the segment as it was.  In
    both cases the segment invariant (unique pids, empty free slots, global
    counters equal to the sums of the table, lock released) is kept, for every
    answer /proc can give, pid reuse included. *)
Theorem shm_update_refines proc_stat now d pid u :
  shm_ok d -> 0 < pid ->
  let '(rc, d') := shm_update_process_resources proc_stat true now d pid (Some u) in
  shm_ok d' /\
  if decide (pid ∈ process_pids d \/ 0 ∈ process_pids d)
  then rc = 0 /\ ledger d' = <[pid:=u]> (ledger d)
  else rc = -1 /\ d' = d.
Proof.
  intros Hok Hpid. case_decide as Hroom.
  - destruct (shm_update_bind proc_stat now d pid u Hok) as (d' & -> & ? & ?); naive_solver.
  - rewrite (shm_update_full proc_stat now d pid u Hok); naive_solver.
Qed.

(** Emptying an occupied slot forgets its owner in the map. *)
Lemma slot_write_forget {c} d i d' :
  let owner := process_pids d !!! i in
  shm_inv c d -> (i < MAX_PROCESSES)%nat -> owner <> 0 -> slot_write d i 0 zero_usage d' ->
  shm_inv c d' /\ ledger d !! owner = Some (process_stats d !!! i) /\
  ledger d' = delete owner (ledger d) /\ process_pids d' !! i = Some 0.
Proof.
  intros owner Hok Hi Ho Hw.
  assert (Hok' : shm_inv c d') by (eapply slot_write_ok; [done|done|done|done|done]).
  split_and!; [done| | |].
  - rewrite ledger_lookup by done. rewrite (find_pid_unique d i _ Hok); [done..|].
    apply arr_lookup. by rewrite (ok_pids_len d Hok).
  - apply map_eq. intros q. destruct (decide (q = 0)) as [->|Hq].
    { by rewrite lookup_delete_ne, !ledger_zero by done. }
    rewrite (slot_write_ledger d i 0 zero_usage d') by done.
    rewrite decide_False by done. case_decide as E.
    + subst q. by rewrite lookup_delete_eq.
    + by rewrite lookup_delete_ne.
  - rewrite (sw_pids _ _ _ _ _ Hw). apply list_lookup_insert_eq. by rewrite (ok_pids_len d Hok).
Qed.

(** C20. [shm_clear_process_entry], the reclamation primitive of the table,
    implements "forget the owner of the slot": it hands out the usage the map
    held for the owner, removes exactly that binding, frees the slot and keeps
    the invariant, so the global counters drop by exactly what the dead
    process held.  On a free slot or an index outside the table it returns -1
    and changes nothing. *)
Theorem shm_clear_refines d slot :
  shm_ok d ->
  let owner := process_pids d !!! Z.to_nat slot in
  let '(rc, out, d') := shm_clear_process_entry true d slot in
  if decide (0 <= slot < Z.of_nat MAX_PROCESSES /\ owner <> 0)
  then rc = 0 /\ shm_ok d' /\ ledger d !! owner = Some out /\
       ledger d' = delete owner (ledger d) /\
       global_stats d' = usage_sub (global_stats d) out /\
       process_pids d' !! Z.to_nat slot = Some 0
  else rc = -1 /\ d' = d.
Proof.
  intros Hok owner. destruct (decide _) as [[Hs Ho]|Hn].
  - destruct (clear_write d (Z.to_nat slot) Hok) as (d' & Hc & Hw); [lia|done|].
    rewrite Z2Nat.id in Hc by lia. rewrite Hc.
    destruct (slot_write_forget d (Z.to_nat slot) d' Hok) as (? & ? & ? & ?); [lia|done..|].
    split_and!; [done..| |done]. by rewrite (sw_global _ _ _ _ _ Hw), usage_sub_move.
  - unfold shm_clear_process_entry. simpl. fold owner.
    destruct ((slot <? 0) || _) eqn:E; [done|]. tests.
    destruct (owner =? 0) eqn:E0; [done|]. tests. lia.
Qed.

Lemma shm_get_process_eq {c} ptr d pid :
  shm_inv c d ->
  shm_get_process_resources ptr d pid =
    if decide (ptr = true /\ 0 < pid)
    then (0, default zero_usage (ledger d !! pid))
    else (-1, zero_usage).
Proof.
  intros Hok. unfold shm_get_process_resources.
  destruct (decide _) as [[-> Hp]|Hn].
  - replace (pid <=? 0) with false by lia. simpl. rewrite (ledger_lookup d pid Hok) by lia.
    destruct (find_idx _ _); simpl; [by rewrite usage_eta|done].
  - destruct ptr; simpl; [|done]. destruct (pid <=? 0) eqn:E; [done|]. tests. naive_solver.
Qed.

(** A read returns what the map holds for the process and all zeroes for a
    process the table does not know, with return code 0 in both cases; -1 is
    returned only for a pid that is not positive or a segment not mapped. *)
Theorem shm_get_process_refines ptr d pid :
  shm_ok d ->
  shm_get_process_resources ptr d pid =
    if decide (ptr = true /\ 0 < pid)
    then (0, default zero_usage (ledger d !! pid))
    else (-1, zero_usage).
Proof. apply shm_get_process_eq. Qed.

(** ** Reachable segments *)

Lemma shm_clear_ok {c} ptr d slot :
  shm_inv c d -> shm_inv c (shm_clear_process_entry ptr d slot).2.
Proof.
  intros Hok. unfold shm_clear_process_entry.
  destruct (negb ptr || _ || _) eqn:E; [done|]. tests.
  destruct (_ =? 0) eqn:E0; [done|]. tests.
  destruct (clear_write d (Z.to_nat slot) Hok) as (d' & Hc & Hw); [lia|done|].
  rewrite Z2Nat.id in Hc by lia. unfold shm_clear_process_entry in Hc.
  replace (slot <? 0) with false in Hc by lia.
  replace (Z.of_nat MAX_PROCESSES <=? slot) with false in Hc by lia.
  rewrite (proj2 (Z.eqb_neq _ _) E0) in Hc. simpl in *. simplify_eq.
  eapply slot_write_ok; [done| |done|done|done]. lia.
Qed.

Lemma shm_set_global_limits_ok {c} ptr d q m mem :
  shm_inv c d -> shm_inv c (shm_set_global_limits ptr d q m mem).2.
Proof. intros []. destruct ptr; by split. Qed.

Lemma zero_shm_lengths {c} d :
  length (process_stats d) = MAX_PROCESSES -> length (process_pids d) = MAX_PROCESSES ->
  length (process_start_times d) = MAX_PROCESSES -> forall now, shm_inv c (shm_reset now d).
Proof.
  intros H1 H2 H3 now.
  assert (Hz : forall f, f zero_usage = 0 ->
    zsum f ((fun _ => zero_usage) <$> process_stats d) = 0).
  { intros f Hf. clear H1. induction (process_stats d); csimpl; lia. }
  split; simpl; rewrite ?length_fmap, ?Hz; try done.
  - intros i j p Hi. apply list_lookup_fmap_Some in Hi as (? & -> & _). done.
  - intros i [? [_ Hi]]%list_lookup_fmap_Some. apply list_lookup_fmap_Some.
    apply lookup_lt_Some in Hi. eexists. split; [done|]. apply arr_lookup. lia.
Qed.

Lemma zero_shm_reset_ok {c : bool} now : shm_inv c (shm_reset now zero_shm).
Proof. apply zero_shm_lengths; apply length_replicate. Qed.

Lemma zero_shm_ok {c : bool} : shm_inv c zero_shm.
Proof. destruct (zero_shm_reset_ok (c:=c) 0). split; assumption. Qed.

(** One operation on the segment by any process that has it mapped, with the
    answers of /proc and of the clock that operation sees.  The last two
    overwrite the global counters with a value of the caller's choice: the API
    call, and the store the collector makes itself
    (collector_server_shm.c:105-110). *)
Inductive shm_step (counted : bool) : shared_memory_data -> shared_memory_data -> Prop :=
  | step_update proc_stat now d pid u :
      shm_step counted d (shm_update_process_resources proc_stat true now d pid u).2
  | step_clear d slot :
      shm_step counted d (shm_clear_process_entry true d slot).2
  | step_limits d q m mem :
      shm_step counted d (shm_set_global_limits true d q m mem).2
  | step_init sys now h d rc h' d' :
      shm_init sys now h (Some d) = (rc, h', Some d') -> shm_step counted d d'
  | step_update_global now d u : counted = false ->
      shm_step counted d (shm_update_global_resources true now d u).2
  | step_store_global d u : counted = false ->
      shm_step counted d (shm_unlock (bump_version (set_global u (shm_lock d)))).

Lemma shm_init_cases sys now h d rc h' d' :
  shm_init sys now h (Some d) = (rc, h', Some d') -> d' = d \/ d' = shm_reset now d.
Proof. unfold shm_init. simpl. intros H. repeat case_match; naive_solver. Qed.

(** Overwriting the global counters leaves the table alone. *)
Lemma overwrite_ok {c : bool} d d' :
  shm_inv c d -> c = false -> process_stats d' = process_stats d ->
  process_pids d' = process_pids d -> process_start_times d' = process_start_times d ->
  shm_lock_word d' = 0 -> shm_inv c d'.
Proof. intros [] -> Hs Hp Ht Hl. by split; rewrite ?Hs, ?Hp, ?Ht. Qed.

Lemma shm_step_ok {c : bool} d d' : shm_inv c d -> shm_step c d d' -> shm_inv c d'.
Proof.
  intros Hok H. revert Hok.
  destruct H as [| | |sys now h d rc h' d' [->| ->]%shm_init_cases|now d [u|] Hc|d u Hc]; intros Hok;
    [by apply shm_update_ok|by apply shm_clear_ok|by apply shm_set_global_limits_ok|done| | |done|];
    [apply zero_shm_lengths; apply Hok|by eapply overwrite_ok..].
Qed.

(** What holds of exact counters holds of arbitrary ones. *)
Lemma shm_inv_weaken (c c' : bool) d : (c' = true -> c = true) -> shm_inv c d -> shm_inv c' d.
Proof. intros Hc []. split; auto. Qed.

Lemma shm_step_weaken (c c' : bool) d d' :
  (c' = true -> c = true) -> shm_step c d d' -> shm_step c' d d'.
Proof.
  intros Hc H. assert (Hn : c = false -> c' = false) by (destruct c, c'; naive_solver).
  destruct H; [apply step_update|apply step_clear|apply step_limits|by eapply step_init
    |apply step_update_global; auto|apply step_store_global; auto].
Qed.

Lemma shm_reachable_ok {c : bool} d d' : shm_inv c d -> rtc (shm_step c) d d' -> shm_inv c d'.
Proof. intros Hok H. induction H; eauto using shm_step_ok. Qed.

(** C4. The table is consistent and the accounting exact.  In every state
    reachable from a fresh segment by any interleaving of all operations other
    processes can make, overwriting the global counters included, no process
    owns two slots, free slots hold nothing and the lock is free.  If no step
    was such an overwrite ([counted]), the global counters are moreover the
    true totals of the per-process usage as long as these fit the counters'
    types.  (The collector overwrites them when it finds the eBPF map of the
    global counters; see sync_double_counts in the file Collector.) *)
Theorem shm_accounting_exact counted now d :
  rtc (shm_step counted) (shm_reset now zero_shm) d ->
  shm_inv counted d /\
  (counted = true ->
   (- 2 ^ 31 <= zsum qp_count (process_stats d) < 2 ^ 31 ->
    qp_count (global_stats d) = zsum qp_count (process_stats d)) /\
   (- 2 ^ 31 <= zsum mr_count (process_stats d) < 2 ^ 31 ->
    mr_count (global_stats d) = zsum mr_count (process_stats d)) /\
   (0 <= zsum memory_used (process_stats d) < 2 ^ 64 ->
    memory_used (global_stats d) = zsum memory_used (process_stats d))).
Proof.
  intros Hr. assert (Hok : shm_inv counted d) by eauto using shm_reachable_ok, zero_shm_reset_ok.
  split; [done|]. intros Hc.
  split_and!; intros; rewrite ?(ok_qp d Hok), ?(ok_mr d Hok), ?(ok_mem d Hok) by done;
    auto using i32_small, u64_small.
Qed.

(** What joining the segment does to it.  A successful [shm_init] leaves a
    segment whose global counters are not all zero exactly as it is; a segment
    whose counters are all zero, whether it is new or in use, is reset: every
    slot is freed, every limit goes back to its default and the lock word is
    cleared, so limits set by [shm_set_global_limits] before any resource is
    held do not survive the next process's start. *)
Theorem shm_init_attach sys now h d :
  sys_shm_open sys <> -1 -> sys_ftruncate sys <> -1 -> sys_mmap sys = true ->
  shm_init sys now h (Some d) =
    (0, mk_handle (sys_shm_open sys) true,
     Some (if decide (global_stats d = zero_usage) then shm_reset now d else d)).
Proof.
  intros H1 H2 H3. unfold shm_init. rewrite H3.
  replace (_ =? -1) with false by lia. replace (_ =? -1) with false by lia. simpl.
  destruct (global_stats d) as [q m mem] eqn:E. simpl.
  case_decide as Hz; [by injection Hz as -> -> ->|].
  destruct ((q =? 0) && _ && _) eqn:Et; [|done]. tests. subst. done.
Qed.

(** ** The start time of a process *)

Lemma nth_token_join n toks tail :
  Forall (token " ") toks -> (S n < length toks)%nat ->
  nth_token n (join_tokens " " toks +:+ tail) = Some (toks !!! n).
Proof.
  revert toks. induction n as [|n IH]; intros [|t [|u toks]] Ht Hn; simpl in Hn; try lia;
    inversion_clear Ht as [|? ? Htok Hrest];
    change (join_tokens " " (t :: u :: toks)) with (t +:+ String " " (join_tokens " " (u :: toks)));
    rewrite ?sapp_assoc; cbn [nth_token];
    change (String " " (join_tokens " " (u :: toks)) +:+ tail)
      with (String " " (join_tokens " " (u :: toks) +:+ tail));
    rewrite strtok_r_delim by done; [done|].
  rewrite (IH (u :: toks)); [done|done|simpl; lia].
Qed.

(** A line of /proc/<pid>/stat: pid and parenthesised command, then the fields
    from the state (field 3 of proc(5)) on. *)
Definition stat_line (head : string) (fields : list string) : string :=
  head +:+ ") " +:+ join_tokens " " fields.

(** [shm_read_proc_start_time] on a well-formed stat line whose fields after
    the command are [fields] returns the number in [fields !!! 20].  The first
    of these fields is field 3 of proc(5), so what is read is field 23, the
    size of the address space, and not field 22, the start time. *)
Theorem read_proc_start_time_field proc_stat pid head fields rest :
  proc_stat pid = Some (stat_line head fields +:+ String NEWLINE rest) ->
  Forall (token " ") fields -> (21 < length fields)%nat ->
  has_char ")" (join_tokens " " fields) = false ->
  has_char NEWLINE (stat_line head fields) = false ->
  (String.length (stat_line head fields) < 1022)%nat ->
  shm_read_proc_start_time proc_stat pid = strtoull (fields !!! 20%nat).
Proof.
  intros Hp Hf Hl Hpar Hnl Hlen. unfold shm_read_proc_start_time.
  rewrite Hp, fgets_line by (done || lia). unfold stat_line.
  rewrite ?sapp_assoc.
  change (") " +:+ (join_tokens " " fields +:+ String NEWLINE "")) with
    (String ")" (String " " (join_tokens " " fields +:+ String NEWLINE ""))).
  rewrite strrchr_last.
  2:{ change (has_char ")" (String " " "" +:+ (join_tokens " " fields +:+ String NEWLINE "")) = false).
      by rewrite !has_char_app, Hpar. }
  cbn [str_drop]. destruct (join_tokens " " fields +:+ String NEWLINE "") as [|c s] eqn:E.
  { destruct (join_tokens " " fields); discriminate. }
  by rewrite <- E, nth_token_join.
Qed.

(** ** Witnesses *)

Definition demo_usage : resource_usage := mk_usage 3 2 4096.

Lemma shm_update_refines_witness :
  let '(rc, d') := shm_update_process_resources (fun _ => None) true 9
    (shm_reset 7 zero_shm) 42 (Some demo_usage) in
  shm_ok d' /\
  if decide (42 ∈ process_pids (shm_reset 7 zero_shm) \/ 0 ∈ process_pids (shm_reset 7 zero_shm))
  then rc = 0 /\ ledger d' = <[42:=demo_usage]> (ledger (shm_reset 7 zero_shm))
  else rc = -1 /\ d' = shm_reset 7 zero_shm.
Proof. apply (shm_update_refines (fun _ => None) 9); [apply zero_shm_reset_ok|lia]. Defined.

(** The segment after process 42 has recorded its usage. *)
Definition demo_used : shared_memory_data :=
  (shm_update_process_resources (fun _ => None) true 9 (shm_reset 7 zero_shm) 42
     (Some demo_usage)).2.

(** Slot 0 is reclaimed. *)
Lemma shm_clear_refines_witness :
  let '(rc, out, d') := shm_clear_process_entry true demo_used 0 in
  rc = 0 /\ out = demo_usage /\ ledger d' = delete 42 (ledger demo_used) /\
  global_stats d' = mk_usage 0 0 0.
Proof.
  assert (Hok : shm_ok demo_used) by apply shm_update_ok, zero_shm_reset_ok.
  pose proof (shm_clear_refines demo_used 0 Hok) as H. cbv zeta in H.
  replace (process_pids demo_used !!! Z.to_nat 0) with 42 in H by (vm_compute; reflexivity).
  destruct (shm_clear_process_entry true demo_used 0) as [[rc out] d'] eqn:E.
  rewrite decide_True in H by (split; [|done]; vm_compute; split; [discriminate|reflexivity]).
  destruct H as (Hrc & _ & Hout & Hl & Hg & _).
  assert (Ho : out = demo_usage) by (vm_compute in E; by injection E as <- <- <-).
  subst out. split_and!; [exact Hrc|reflexivity|exact Hl|]. rewrite Hg. vm_compute. reflexivity.
Defined.

Lemma shm_get_process_refines_witness :
  shm_get_process_resources true (shm_reset 7 zero_shm) 42 =
    (0, default zero_usage (ledger (shm_reset 7 zero_shm) !! 42)).
Proof.
  rewrite (shm_get_process_refines true (shm_reset 7 zero_shm) 42 (zero_shm_reset_ok 7)).
  by rewrite decide_True by lia.
Defined.

Lemma shm_accounting_exact_witness :
  shm_ok demo_used /\ qp_count (global_stats demo_used) = 3 /\
  shm_inv false (shm_update_global_resources true 9 demo_used (Some zero_usage)).2.
Proof.
  destruct (shm_accounting_exact true 7 demo_used) as (Hok & Hs);
    [apply rtc_once, step_update|].
  destruct (shm_accounting_exact false 7
    (shm_update_global_resources true 9 demo_used (Some zero_usage)).2) as (Hok' & _).
  { eapply rtc_l; [apply step_update|]. apply rtc_once. apply step_update_global. reflexivity. }
  split_and!; [exact Hok| |exact Hok'].
  destruct (Hs eq_refl) as (Hq & _). rewrite Hq; vm_compute; [reflexivity|].
  split; [discriminate|reflexivity].
Defined.

Lemma shm_init_attach_witness :
  shm_init (mk_sys 5 0 true 0) 9 (mk_handle (-1) false)
    (Some (set_limits 10 20 30 (shm_reset 7 zero_shm))) =
  (0, mk_handle 5 true, Some (shm_reset 9 (set_limits 10 20 30 (shm_reset 7 zero_shm)))) /\
  max_global_qp (shm_reset 9 (set_limits 10 20 30 (shm_reset 7 zero_shm))) = 1000.
Proof.
  rewrite (shm_init_attach (mk_sys 5 0 true 0) 9 (mk_handle (-1) false)
    (set_limits 10 20 30 (shm_reset 7 zero_shm))) by done.
  split; [|reflexivity]. by rewrite decide_True.
Defined.

(** A stat line with start time (field 22) 777 and size (field 23) 12345. *)
Definition demo_fields : list string :=
  ["S"; "1"; "1"; "1"; "0"; "-1"; "0"; "0"; "0"; "0"; "0"; "0"; "0"; "0"; "0";
   "20"; "0"; "1"; "0"; "777"; "12345"; "200"; "0"].

Lemma read_proc_start_time_field_witness :
  shm_read_proc_start_time
    (fun _ => Some (stat_line "42 (app" demo_fields +:+ String NEWLINE "")) 42 = 12345 /\
  strtoull (demo_fields !!! 19%nat) = 777.
Proof.
  split; [|vm_compute; reflexivity].
  rewrite (read_proc_start_time_field
    (fun _ => Some (stat_line "42 (app" demo_fields +:+ String NEWLINE "")) 42
    "42 (app" demo_fields "").
  - vm_compute. reflexivity.
  - reflexivity.
  - repeat constructor; discriminate.
  - vm_compute. lia.
  - vm_compute. reflexivity.
  - vm_compute. reflexivity.
  - vm_compute. lia.
Defined.
