(* ===== verification/Ebpf.v ===== *)
(** * The enhanced eBPF monitor: src/src/ebpf/ebpf_enhanced_monitor.c

    The monitor loads an eBPF object, keeps the descriptors of its maps and
    answers queries from them, or from the shared segment when they are not
    there.  libbpf and the maps are not part of the repository: [bpf_maps] is
    what the kernel's maps hold at the time of a call and [bpf_loader] what
    the loading functions answer.  A descriptor is a number, negative when the
    map is missing.  [keys] is the order in which bpf_map_get_next_key
    enumerates the tenant map: it starts with the first key for a NULL or an
    unknown previous key and fails after the last one. *)

From S2P Require Import Prelude CString Shm.
From stdpp Require Import base numbers list gmap strings.
From Stdlib Require Import Ascii.
#[local] Open Scope string_scope.
#[local] Open Scope Z_scope.

Definition MAX_LINKS : nat := 16.
Definition MAX_QP_TYPES : Z := 4.

(** ** Data *)

Record enhanced_resource_usage := mk_eusage {
  e_qp_count : Z;
  e_mr_count : Z;
  e_cq_count : Z;
  e_pd_count : Z;
  e_memory_used : Z;
  e_total_qp_creates : Z;
  e_total_qp_destroys : Z;
  e_total_mr_regs : Z;
  e_total_mr_deregs : Z
}.
Definition zero_eusage : enhanced_resource_usage := mk_eusage 0 0 0 0 0 0 0 0 0.

Record perf_stats := mk_eperf {
  create_qp_lat_total : Z;
  reg_mr_lat_total : Z;
  create_qp_count : Z;
  reg_mr_count : Z
}.
Definition zero_eperf : perf_stats := mk_eperf 0 0 0 0.

Record tenant_resource := mk_tres {
  tr_tenant_id : Z;
  tr_usage : enhanced_resource_usage;
  tr_perf : perf_stats
}.

Record ebpf_maps_fds := mk_fds {
  process_resources_fd : Z;
  global_resources_fd : Z;
  tenant_resources_fd : Z;
  pid_to_tenant_fd : Z;
  qp_type_stats_fd : Z;
  perf_stats_fd : Z;
  filter_config_fd : Z
}.
Definition no_fds : ebpf_maps_fds := mk_fds (-1) (-1) (-1) (-1) (-1) (-1) (-1).

(** The static variables; [links] holds [link_count] entries. *)
Record monitor := mk_monitor {
  m_obj : bool;
  m_links : list Z;
  m_fds : ebpf_maps_fds
}.
Definition static_monitor : monitor := mk_monitor false [] no_fds.

(** The contents of the kernel's maps. *)
Record bpf_maps := mk_maps {
  map_process : gmap Z enhanced_resource_usage;
  map_global : option enhanced_resource_usage;
  map_tenant : gmap Z tenant_resource;
  map_pid_tenant : gmap Z Z;
  map_qp_types : gmap Z Z;
  map_perf : option perf_stats;
  map_filter : option Z
}.

(** ** Start-up and clean-up *)

Record bpf_loader := mk_loader {
  ld_access : bool;
  ld_open : bool;
  ld_load : Z;
  ld_map : string -> Z;                       (** the descriptor of a map, or -1 *)
  ld_programs : list (string * option Z)      (** name and link of each program *)
}.

Definition find_map_fd (obj : bool) (ld : bpf_loader) (name : string) : Z :=
  if negb obj then -1 else ld_map ld name.

(** [strstr (name, p) != NULL] *)
Definition contains (s p : string) : bool := match strstr s p with Some _ => true | None => false end.

(** The loop that attaches the probes; [None] is a write past the end of
    [links]. *)
Fixpoint attach_programs (ps : list (string * option Z)) (links : list Z) : option (list Z) :=
  match ps with
  | [] => Some links
  | (name, link) :: ps =>
      if contains name "kprobe_" || contains name "kretprobe_"
      then match link with
           | None => attach_programs ps links
           | Some l =>
               if (MAX_LINKS <=? length links)%nat then None
               else attach_programs ps (links ++ [l])%list
           end
      else attach_programs ps links
  end.

Definition filter_bits (enable_filter track_perf : bool) : Z :=
  Z.lor (if enable_filter then 1 else 0) (if track_perf then 2 else 0).

(** [upd] says whether bpf_map_update_elem succeeds. *)
Definition ebpf_set_filter_config (upd enable_filter track_perf : bool) (m : monitor)
    (k : bpf_maps) : Z * bpf_maps :=
  if filter_config_fd (m_fds m) <? 0 then (0, k)
  else if negb upd then (-1, k)
  else (0, mk_maps (map_process k) (map_global k) (map_tenant k) (map_pid_tenant k)
             (map_qp_types k) (map_perf k) (Some (filter_bits enable_filter track_perf))).

(** The return code, the monitor, the segment and the maps, unless [links]
    overflows. *)
Definition ebpf_enhanced_monitor_init (sys : shm_sys) (now : Z) (ld : bpf_loader) (upd : bool)
    (m : monitor) (h : shm_handle) (o : option shared_memory_data) (k : bpf_maps)
    : option (Z * monitor * shm_handle * option shared_memory_data * bpf_maps) :=
  let '(rc, h, o) := shm_init sys now h o in
  if negb (rc =? 0) then Some (-1, m, h, o, k)
  else if negb (ld_access ld) then Some (0, m, h, o, k)
  else if negb (ld_open ld) then Some (0, mk_monitor false (m_links m) (m_fds m), h, o, k)
  else if negb (ld_load ld =? 0)
  then Some (0, mk_monitor false (m_links m) (m_fds m), h, o, k)
  else
    let fds := mk_fds (find_map_fd true ld "process_resources") (find_map_fd true ld "global_resources")
                 (find_map_fd true ld "tenant_resources") (find_map_fd true ld "pid_to_tenant")
                 (find_map_fd true ld "qp_type_stats") (find_map_fd true ld "perf_stats")
                 (find_map_fd true ld "filter_config") in
    match attach_programs (ld_programs ld) (m_links m) with
    | None => None
    | Some links =>
        let m := mk_monitor true links fds in
        let '(_, k) := ebpf_set_filter_config upd true true m k in
        Some (0, m, h, o, k)
    end.

(** The links that are destroyed, and the state after it. *)
Definition ebpf_enhanced_monitor_cleanup (m : monitor) : list Z * monitor :=
  (m_links m, mk_monitor false [] no_fds).

(** ** Queries *)

Definition ebpf_set_tenant_id (upd : bool) (pid tid : Z) (m : monitor) (k : bpf_maps)
    : Z * bpf_maps :=
  if pid_to_tenant_fd (m_fds m) <? 0 then (0, k)
  else if negb upd then (-1, k)
  else (0, mk_maps (map_process k) (map_global k) (map_tenant k)
             (<[u32 pid := tid]> (map_pid_tenant k)) (map_qp_types k) (map_perf k) (map_filter k)).

(** The outputs are the return code and what is stored through the pointer;
    [out] says whether the pointer is non-NULL. *)
Definition ebpf_get_tenant_id (pid : Z) (out : bool) (m : monitor) (k : bpf_maps)
    : Z * option Z :=
  if negb out then (-1, None)
  else if pid_to_tenant_fd (m_fds m) <? 0 then (0, Some 0)
  else (0, Some (default 0 (map_pid_tenant k !! u32 pid))).

Definition ebpf_get_tenant_resources (tid : Z) (out : bool) (m : monitor) (k : bpf_maps)
    : Z * option tenant_resource :=
  if negb out then (-1, None)
  else if tenant_resources_fd (m_fds m) <? 0
  then (0, Some (mk_tres tid zero_eusage zero_eperf))
  else (0, Some (default (mk_tres tid zero_eusage zero_eperf) (map_tenant k !! tid))).

Definition ebpf_get_perf_stats (out : bool) (m : monitor) (k : bpf_maps)
    : Z * option perf_stats :=
  if negb out then (-1, None)
  else if perf_stats_fd (m_fds m) <? 0 then (0, Some zero_eperf)
  else (0, Some (default zero_eperf (map_perf k))).

Definition ebpf_get_qp_type_stats (type : Z) (out : bool) (m : monitor) (k : bpf_maps)
    : Z * option Z :=
  if negb out || (type <? 0) || (MAX_QP_TYPES <=? type) then (-1, None)
  else if qp_type_stats_fd (m_fds m) <? 0 then (0, Some 0)
  else (0, Some (default 0 (map_qp_types k !! u32 type))).

Definition of_basic (u : resource_usage) : enhanced_resource_usage :=
  mk_eusage (qp_count u) (mr_count u) 0 0 (memory_used u) 0 0 0 0.

(** Without the map, the segment's error is returned and nothing is stored. *)
Definition ebpf_get_enhanced_process_resources (ptr : bool) (d : shared_memory_data) (pid : Z)
    (out : bool) (m : monitor) (k : bpf_maps) : Z * option enhanced_resource_usage :=
  if negb out then (-1, None)
  else if process_resources_fd (m_fds m) <? 0
  then
    let '(ret, u) := shm_get_process_resources ptr d pid in
    (ret, if ret =? 0 then Some (of_basic u) else None)
  else (0, Some (default zero_eusage (map_process k !! u32 pid))).

Definition ebpf_get_enhanced_global_resources (ptr : bool) (d : shared_memory_data)
    (out : bool) (m : monitor) (k : bpf_maps) : Z * option enhanced_resource_usage :=
  if negb out then (-1, None)
  else if global_resources_fd (m_fds m) <? 0
  then
    let '(ret, u) := shm_get_global_resources ptr d in
    (ret, if ret =? 0 then Some (of_basic u) else None)
  else (0, Some (default zero_eusage (map_global k))).

(** ** The walk over the tenant map *)

(** bpf_map_get_next_key over the enumeration [keys]. *)
Fixpoint key_after (k : Z) (keys : list Z) : option (option Z) :=
  match keys with
  | [] => None
  | x :: keys => if x =? k then Some (head keys) else key_after k keys
  end.
Definition next_key (keys : list Z) (prev : option Z) : option Z :=
  match prev with
  | None => head keys
  | Some k => match key_after k keys with Some r => r | None => head keys end
  end.

Section walk.
Context (keys : list Z) (lookup : Z -> option tenant_resource).

(** The loop: [acc] is what is stored so far.  [None] when the fuel runs out. *)
Fixpoint tenant_walk (fuel : nat) (max_count : Z) (prev_key : Z) (acc : list tenant_resource)
    : option (list tenant_resource) :=
  match fuel with
  | O => None
  | S fuel =>
      if Z.of_nat (length acc) <? max_count
      then match next_key keys (if prev_key =? 0 then None else Some prev_key) with
           | None => Some acc
           | Some key =>
               let acc := match lookup key with Some r => acc ++ [r] | None => acc end%list in
               tenant_walk fuel max_count key acc
           end
      else Some acc
  end.

(** The return code and the array. *)
Definition ebpf_get_all_tenant_resources (fuel : nat) (out : bool) (max_count : Z) (m : monitor)
    : option (Z * list tenant_resource) :=
  if negb out || (max_count <=? 0) then Some (-1, [])
  else if tenant_resources_fd (m_fds m) <? 0 then Some (0, [])
  else (fun l => (Z.of_nat (length l), l)) <$> tenant_walk fuel max_count 0 [].
End walk.

(** * Theorems *)

(** ** The walk *)

Lemma key_after_mid k pre post :
  k ∉ pre -> key_after k (pre ++ k :: post) = Some (head post).
Proof.
  induction pre as [|x pre IH]; simpl; [by rewrite Z.eqb_refl|].
  rewrite not_elem_of_cons. intros [Hx Hp]. replace (x =? k) with false by lia. by apply IH.
Qed.

(** The key after the part of the enumeration that was visited. *)
Lemma next_key_visited pre rest :
  NoDup (pre ++ rest) -> 0 ∉ pre ->
  next_key (pre ++ rest) (if default 0 (last pre) =? 0 then None else last pre) = head rest.
Proof.
  intros Hnd H0. destruct pre as [|k pre _] using rev_ind; [done|].
  rewrite last_snoc. simpl. apply not_elem_of_app in H0 as [_ H0].
  rewrite list_elem_of_singleton in H0. replace (k =? 0) with false by lia.
  rewrite <- app_assoc in *. simpl. rewrite key_after_mid; [done|].
  apply NoDup_app in Hnd as (_ & Hk & _). intros Hin. eapply Hk; [done|]. left.
Qed.

Section walk_facts.
Context (keys : list Z) (lookup : Z -> option tenant_resource).

Lemma prev_visited pre :
  0 ∉ pre ->
  (if default 0 (last pre) =? 0 then None else Some (default 0 (last pre))) =
  (if default 0 (last pre) =? 0 then None else last pre).
Proof.
  intros H0. destruct (last pre) as [k|] eqn:E; [|done]. simpl.
  by destruct (k =? 0).
Qed.

Lemma tenant_walk_rest max_count rest pre fuel acc :
  keys = (pre ++ rest)%list -> NoDup keys -> 0 ∉ keys -> (length rest < fuel)%nat ->
  tenant_walk keys lookup fuel max_count (default 0 (last pre)) acc =
    Some (acc ++ take (Z.to_nat max_count - length acc) (omap lookup rest))%list.
Proof.
  revert rest pre acc. induction fuel as [|fuel IH]; intros rest pre acc -> Hnd H0 Hf; [lia|].
  assert (H0p : 0 ∉ pre) by (intros Hin; apply H0, elem_of_app; by left).
  cbn [tenant_walk]. rewrite prev_visited, next_key_visited by done.
  destruct (Z.of_nat (length acc) <? max_count) eqn:E; tests.
  2:{ replace (Z.to_nat max_count - length acc)%nat with 0%nat by lia.
      by rewrite take_0, app_nil_r. }
  destruct rest as [|k rest]; simpl; [by rewrite take_nil, app_nil_r|].
  assert (Hlast : default 0 (last (pre ++ [k])%list) = k) by by rewrite last_snoc.
  pose proof (fun acc => IH rest (pre ++ [k])%list acc) as IHk. rewrite Hlast in IHk.
  rewrite IHk; [|by rewrite <- app_assoc|done|done|simpl in Hf; lia].
  destruct (lookup k) as [r|]; [|done].
  rewrite length_app. simpl. rewrite <- app_assoc. simpl.
  by replace (Z.to_nat max_count - length acc)%nat
    with (S (Z.to_nat max_count - (length acc + 1)))%nat by lia.
Qed.

(** C34. Listing the tenants of the eBPF map ends and is exact when tenant 0 is
    not in the map: after one turn per key the loop is over, and the array
    holds the records of the keys in the order of the map, cut at
    [max_count], with their number as the return value. *)
Theorem tenant_walk_terminates m max_count fuel :
  NoDup keys -> 0 ∉ keys -> 0 < max_count -> 0 <= tenant_resources_fd (m_fds m) ->
  (length keys < fuel)%nat ->
  let l := take (Z.to_nat max_count) (omap lookup keys) in
  ebpf_get_all_tenant_resources keys lookup fuel true max_count m = Some (Z.of_nat (length l), l).
Proof.
  intros Hnd H0 Hmax Hfd Hf. unfold ebpf_get_all_tenant_resources.
  replace (max_count <=? 0) with false by lia. cbn [negb orb].
  replace (tenant_resources_fd (m_fds m) <? 0) with false by lia.
  pose proof (tenant_walk_rest max_count keys [] fuel [] eq_refl Hnd H0 Hf) as Hw.
  cbn [last default] in Hw. simpl in Hw. rewrite Hw. simpl. by rewrite Nat.sub_0_r.
Qed.

(** ** Tenant 0 *)

Context (pre post : list Z) (Hkeys : keys = (pre ++ 0 :: post)%list) (Hnd : NoDup keys).

(** From a key up to 0 the walk only meets keys up to 0. *)
Lemma next_up_to_zero prev :
  prev ∈ (pre ++ [0])%list ->
  exists k, next_key keys (if prev =? 0 then None else Some prev) = Some k /\
    k ∈ (pre ++ [0])%list.
Proof using Hkeys Hnd.
  clear lookup. assert (Hhead : exists k, head keys = Some k /\ k ∈ (pre ++ [0])%list).
  { rewrite Hkeys. destruct pre as [|x pre']; [exists 0|exists x]; split; try done; left. }
  intros Hprev. destruct (prev =? 0) eqn:E; [done|]. tests.
  assert (Hp : prev ∈ pre).
  { apply elem_of_app in Hprev as [?|Hp]; [done|]. by apply list_elem_of_singleton in Hp. }
  apply list_elem_of_split in Hp as (l1 & l2 & Hsplit).
  simpl. rewrite Hkeys, Hsplit, <- app_assoc. simpl. rewrite key_after_mid.
  - destruct l2 as [|y l2]; [exists 0|exists y]; (split; [done|]); rewrite ?elem_of_app, ?elem_of_cons;
      naive_solver.
  - subst keys. rewrite Hsplit, <- app_assoc in Hnd. apply NoDup_app in Hnd as (_ & Hd & _).
    intros Hin. apply (Hd prev Hin). left.
Qed.

Lemma walk_up_to_zero fuel max_count prev acc :
  (forall k, k ∈ (pre ++ [0])%list -> is_Some (lookup k)) ->
  prev ∈ (pre ++ [0])%list ->
  (length acc <= Z.to_nat max_count)%nat -> (Z.to_nat max_count - length acc < fuel)%nat ->
  Forall (fun r => exists k, k ∈ (pre ++ [0])%list /\ lookup k = Some r) acc ->
  exists l, tenant_walk keys lookup fuel max_count prev acc = Some l /\
    length l = Z.to_nat max_count /\
    Forall (fun r => exists k, k ∈ (pre ++ [0])%list /\ lookup k = Some r) l.
Proof using Hkeys Hnd.
  intros Hall. revert prev acc. induction fuel as [|fuel IH]; intros prev acc Hp Hl Hf Ha; [lia|].
  cbn [tenant_walk]. destruct (Z.of_nat (length acc) <? max_count) eqn:E; tests.
  2:{ exists acc. split_and!; [done|lia|done]. }
  destruct (next_up_to_zero prev Hp) as (k & -> & Hk). destruct (Hall k Hk) as [r Hr].
  rewrite Hr. apply IH; rewrite ?length_app; simpl; [done|lia|lia|].
  apply Forall_app. split; [done|]. constructor; [eauto|constructor].
Qed.

Lemma walk_stuck fuel max_count prev acc :
  (forall k, k ∈ (pre ++ [0])%list -> lookup k = None) ->
  prev ∈ (pre ++ [0])%list -> Z.of_nat (length acc) < max_count ->
  tenant_walk keys lookup fuel max_count prev acc = None.
Proof using Hkeys Hnd.
  intros Hnone. revert prev. induction fuel as [|fuel IH]; intros prev Hp Hl; [done|].
  cbn [tenant_walk]. replace (Z.of_nat (length acc) <? max_count) with true by lia.
  destruct (next_up_to_zero prev Hp) as (k & -> & Hk). rewrite (Hnone k Hk). by apply IH.
Qed.

(** Tenant 0 in the map breaks the listing.  The loop uses the previous key 0
    to mean "start", so the walk goes back to the first key after tenant 0.
    If the records are there, the call reports [max_count] tenants however few
    there are: repetitions of the tenants up to tenant 0, none of those after
    it.  If the records of these keys cannot be read, for instance because
    they are deleted meanwhile, the loop never ends. *)
Theorem tenant_zero_breaks_walk m max_count :
  0 < max_count -> 0 <= tenant_resources_fd (m_fds m) ->
  ((forall k, k ∈ (pre ++ [0])%list -> is_Some (lookup k)) ->
   forall fuel, (Z.to_nat max_count < fuel)%nat ->
   exists l, ebpf_get_all_tenant_resources keys lookup fuel true max_count m = Some (max_count, l) /\
     Forall (fun r => exists k, k ∈ (pre ++ [0])%list /\ lookup k = Some r) l) /\
  ((forall k, k ∈ (pre ++ [0])%list -> lookup k = None) ->
   forall fuel, ebpf_get_all_tenant_resources keys lookup fuel true max_count m = None).
Proof using Hkeys Hnd.
  intros Hmax Hfd. unfold ebpf_get_all_tenant_resources.
  replace (max_count <=? 0) with false by lia. cbn [negb orb].
  replace (tenant_resources_fd (m_fds m) <? 0) with false by lia.
  assert (H0 : 0 ∈ (pre ++ [0])%list) by (apply elem_of_app; right; left).
  split; intros Hl fuel.
  - intros Hf. destruct (walk_up_to_zero fuel max_count 0 []) as (l & -> & Hlen & Hin);
      [done|done|simpl; lia|simpl; lia|constructor|].
    exists l. split; [|done]. simpl. by rewrite Hlen, Z2Nat.id by lia.
  - by rewrite walk_stuck.
Qed.
End walk_facts.

(** ** The table of links *)

Definition attachable (p : string * option Z) : bool :=
  (contains p.1 "kprobe_" || contains p.1 "kretprobe_") &&
  match p.2 with Some _ => true | None => false end.

(** The array of links overflows exactly when more than 16 probes attach. *)
Theorem attach_overflows ps links :
  (length links <= MAX_LINKS)%nat ->
  attach_programs ps links = None <->
  (MAX_LINKS < length links + length (filter (fun p => attachable p = true) ps))%nat.
Proof.
  revert links. induction ps as [|[name link] ps IH]; intros links Hl; cbn [attach_programs].
  { split; [done|]. simpl. lia. }
  destruct (contains name "kprobe_" || contains name "kretprobe_") eqn:E.
  2:{ rewrite IH by done. rewrite filter_cons_False; [reflexivity|]. unfold attachable. simpl. by rewrite E. }
  destruct link as [l|].
  - rewrite filter_cons_True by (unfold attachable; simpl; by rewrite E). cbn [length].
    destruct (MAX_LINKS <=? length links)%nat eqn:El.
    + apply Nat.leb_le in El. split; [lia|done].
    + apply Nat.leb_gt in El. rewrite IH by (rewrite length_app; cbn [length]; lia).
      rewrite length_app. cbn [length]. lia.
  - rewrite IH by done. rewrite filter_cons_False; [reflexivity|].
    unfold attachable. simpl. by rewrite andb_false_r.
Qed.

(** ** Without maps *)

(** When the eBPF object could not be loaded, the process query is the process
    table's: it answers what the ledger holds. *)
Theorem fallback_reads_ledger d pid m k :
  shm_ok d -> 0 < pid -> process_resources_fd (m_fds m) < 0 ->
  ebpf_get_enhanced_process_resources true d pid true m k =
    (0, Some (of_basic (default zero_usage (ledger d !! pid)))).
Proof.
  intros Hd Hp Hfd. unfold ebpf_get_enhanced_process_resources.
  replace (process_resources_fd (m_fds m) <? 0) with true by lia.
  rewrite shm_get_process_eq by done. by rewrite decide_True by done.
Qed.

(** ** Witnesses *)

Definition demo_fds : ebpf_maps_fds := mk_fds 3 4 5 6 7 8 9.
Definition demo_monitor : monitor := mk_monitor true [] demo_fds.
Definition demo_lookup (k : Z) : option tenant_resource :=
  Some (mk_tres k zero_eusage zero_eperf).

Lemma tenant_walk_terminates_witness :
  ebpf_get_all_tenant_resources [7; 3; 9] demo_lookup 4 true 2 demo_monitor =
    Some (2, [mk_tres 7 zero_eusage zero_eperf; mk_tres 3 zero_eusage zero_eperf]).
Proof.
  rewrite (tenant_walk_terminates [7; 3; 9] demo_lookup demo_monitor 2 4).
  - reflexivity.
  - apply (bool_decide_unpack _). vm_compute. exact I.
  - apply (bool_decide_unpack _). vm_compute. exact I.
  - lia.
  - vm_compute. discriminate.
  - simpl. lia.
Defined.

Lemma tenant_zero_breaks_walk_witness :
  (exists l, ebpf_get_all_tenant_resources [7; 0; 9] demo_lookup 6 true 5 demo_monitor = Some (5, l) /\
     Forall (fun r => exists k, k ∈ [7; 0] /\ demo_lookup k = Some r) l) /\
  ebpf_get_all_tenant_resources [7; 0; 9] (fun _ => None) 1000 true 5 demo_monitor = None.
Proof.
  split.
  - apply (tenant_zero_breaks_walk [7; 0; 9] demo_lookup [7] [9] eq_refl); try lia.
    + apply (bool_decide_unpack _). vm_compute. exact I.
    + vm_compute. discriminate.
    + intros k _. by eexists.
  - apply (tenant_zero_breaks_walk [7; 0; 9] (fun _ => None) [7] [9] eq_refl); try lia; try done.
    apply (bool_decide_unpack _). vm_compute. exact I.
Defined.
