(* ===== verification/ProcessTable.v ===== *)
(** * The process table as an interface

    What the clients of src/src/shm/shared_memory.c rely on: a bounded map from
    positive pids to usage records, with an update that binds a pid when there
    is room for it and a read that answers zeroes for a pid it does not know.
    The performance optimizer is verified against the class; the shared
    segment discharges it, for every answer of /proc and every clock. *)

From S2P Require Import Prelude CString Shm.
From stdpp Require Import base numbers list gmap sets strings.
#[local] Open Scope Z_scope.

(** The two calls a client makes. *)
Class ProcessTable (T : Type) := {
  pt_update : T -> Z -> option resource_usage -> Z * T;
  pt_get : T -> Z -> Z * resource_usage
}.

(** Their contract, in terms of the map [pt_view]. *)
Class ProcessTableLaws (T : Type) `{ProcessTable T} := {
  pt_ok : T -> Prop;
  pt_view : T -> gmap Z resource_usage;
  pt_capacity : nat;
  pt_update_ok : forall t pid u, pt_ok t -> pt_ok (pt_update t pid u).2;
  pt_update_bind : forall t pid u, pt_ok t -> 0 < pid ->
    pid ∈ dom (pt_view t) \/ (size (pt_view t) < pt_capacity)%nat ->
    (pt_update t pid (Some u)).1 = 0 /\
    pt_view (pt_update t pid (Some u)).2 = <[pid:=u]> (pt_view t);
  pt_update_bad_pid : forall t pid u, pid <= 0 -> pt_update t pid u = (-1, t);
  pt_update_null : forall t pid, pt_update t pid None = (-1, t);
  pt_update_full : forall t pid u, pt_ok t -> 0 < pid ->
    pid ∉ dom (pt_view t) -> size (pt_view t) = pt_capacity ->
    pt_update t pid (Some u) = (-1, t);
  pt_view_size : forall t, pt_ok t -> (size (pt_view t) <= pt_capacity)%nat;
  pt_get_eq : forall t pid, pt_ok t -> 0 < pid ->
    pt_get t pid = (0, default zero_usage (pt_view t !! pid));
  pt_get_bad_pid : forall t pid, pid <= 0 -> (pt_get t pid).1 <> 0
}.

(** ** The shared segment implements it *)

Section occupancy.
Context (d : shared_memory_data) (Hok : shm_ok d).

(** The pids of the occupied slots. *)
#[local] Notation occupied := (filter (fun p => p <> 0) (process_pids d)).

Lemma ledger_dom p : p ∈ dom (ledger d) <-> p ∈ occupied.
Proof using Hok.
  rewrite elem_of_dom, list_elem_of_filter. destruct (decide (p = 0)) as [->|Hp].
  { rewrite ledger_zero. split; [by intros []|naive_solver]. }
  rewrite ledger_lookup by done. destruct (find_idx _ _) as [i|] eqn:E; simpl.
  - apply find_pid_Some in E. split; [|naive_solver].
    intros _. split; [done|]. by eapply list_elem_of_lookup_2.
  - apply find_pid_None in E. split; [by intros []|naive_solver].
Qed.

Lemma occupied_NoDup : NoDup occupied.
Proof using Hok.
  assert (H : forall i j p, process_pids d !! i = Some p ->
    process_pids d !! j = Some p -> p <> 0 -> i = j) by apply Hok.
  induction (process_pids d) as [|q l IH]; [constructor|].
  assert (NoDup (filter (fun p => p <> 0) l)).
  { apply IH. intros i j p Hi Hj Hp. specialize (H (S i) (S j) p Hi Hj Hp). lia. }
  destruct (decide (q = 0)) as [->|Hq].
  - by rewrite filter_cons_False by naive_solver.
  - rewrite filter_cons_True by done. constructor; [|done].
    intros [_ [j Hj]%list_elem_of_lookup_1]%list_elem_of_filter.
    specialize (H 0%nat (S j) q eq_refl Hj Hq). lia.
Qed.

Lemma ledger_size : size (ledger d) = length occupied.
Proof using Hok.
  rewrite <- size_dom. transitivity (size (list_to_set occupied : gset Z)).
  - f_equal. apply set_eq. intros p. by rewrite ledger_dom, elem_of_list_to_set.
  - by apply size_list_to_set, occupied_NoDup.
Qed.

(** There is room in the map exactly when a slot is free. *)
Lemma free_slot_room : 0 ∈ process_pids d <-> (size (ledger d) < MAX_PROCESSES)%nat.
Proof using Hok.
  rewrite ledger_size, <- (ok_pids_len d Hok). split.
  - intros H0. apply length_filter_lt with 0; [done|naive_solver].
  - intros Hlt. destruct (decide (0 ∈ process_pids d)) as [|Hn]; [done|].
    exfalso. revert Hlt Hn. clear Hok. induction (process_pids d) as [|p l IH]; [simpl; lia|].
    rewrite not_elem_of_cons. intros Hlt [Hp Hl]. rewrite filter_cons_True in Hlt by done.
    simpl in Hlt. apply IH; [lia|done].
Qed.

Lemma ledger_room p :
  p <> 0 ->
  (p ∈ process_pids d \/ 0 ∈ process_pids d) <->
  (p ∈ dom (ledger d) \/ (size (ledger d) < MAX_PROCESSES)%nat).
Proof using Hok.
  intros Hp. rewrite free_slot_room, ledger_dom, list_elem_of_filter. naive_solver.
Qed.

Lemma ledger_bounded : (size (ledger d) <= MAX_PROCESSES)%nat.
Proof using Hok.
  rewrite ledger_size, <- (ok_pids_len d Hok). apply length_filter.
Qed.
End occupancy.

#[export] Instance shm_table (proc_stat : Z -> option string) (now : Z)
    : ProcessTable shared_memory_data := {
  pt_update := shm_update_process_resources proc_stat true now;
  pt_get := shm_get_process_resources true
}.

#[export] Program Instance shm_table_laws proc_stat now :
    @ProcessTableLaws shared_memory_data (shm_table proc_stat now) := {
  pt_ok := shm_ok;
  pt_view := ledger;
  pt_capacity := MAX_PROCESSES
}.
Next Obligation. intros. by apply shm_update_ok. Qed.
Next Obligation.
  cbn [pt_update pt_get shm_table]. intros ps now d pid u Hok Hpid Hroom.
  destruct (shm_update_bind ps now d pid u Hok) as (d' & -> & _ & ?); [done| |done].
  apply ledger_room; [done|lia|done].
Qed.
Next Obligation.
  cbn [pt_update pt_get shm_table]. intros ps now d pid [u|] Hpid; [|done]. unfold shm_update_process_resources.
  by replace (pid <=? 0) with true by lia.
Qed.
Next Obligation. done. Qed.
Next Obligation.
  cbn [pt_update pt_get shm_table]. intros ps now d pid u Hok Hpid Hdom Hsize.
  apply (shm_update_full ps now d pid u Hok); [done|..]; intros Hin.
  - apply Hdom, ledger_dom; [done|]. apply list_elem_of_filter. split; [lia|done].
  - apply free_slot_room in Hin; [lia|done].
Qed.
Next Obligation. intros. by apply ledger_bounded. Qed.
Next Obligation.
  cbn [pt_update pt_get shm_table]. intros ps now d pid Hok Hpid. rewrite (shm_get_process_eq _ d pid Hok).
  by rewrite decide_True by done.
Qed.
Next Obligation.
  cbn [pt_update pt_get shm_table]. intros ps now d pid Hpid. unfold shm_get_process_resources.
  by replace (pid <=? 0) with true by lia.
Qed.
