(* ===== verification/PerfOpt.v ===== *)
(** * The performance optimizer: src/src/performance_optimizer.c

    A cache of usage records in front of the process table (256 buckets, one
    entry each, a time to live), a buffer that batches the updates of the
    table, the statistics of both, and the thread that flushes the buffer and
    tunes the time to live.  The static variables of the file are the record
    [perf_state]; its field [table] is the process table behind the two
    [shm_...] calls, any implementation of the class [ProcessTable].

    [now] is a reading of [get_current_time_ms], [sec] of [time]; the fast
    check takes the two readings of [get_current_time_ns] it makes.  An
    [option] argument is a pointer that may be NULL.  Doubles are IEEE 754
    binary64, computed with the executable operations of SpecFloat.  Every
    function is one action except [perf_optimizer_batch_update_resource],
    which gives up [g_batch_mutex] around its flush: its two critical sections
    are definitions of their own, so that other threads can run in between. *)

From S2P Require Import Prelude CString Shm ProcessTable.
From stdpp Require Import base numbers list gmap sets strings.
From Stdlib Require Import SpecFloat.
#[local] Open Scope Z_scope.

(** ** Doubles *)

Notation double := spec_float.

(** [(double)n] for an unsigned integer, rounded to nearest, ties to even. *)
Definition double_of (n : Z) : double := binary_normalize 53 1024 n 0 false.
Definition ddiv : double -> double -> double := SFdiv 53 1024.
Definition dmul : double -> double -> double := SFmul 53 1024.

(** ** Data *)

Definition CACHE_BUCKET_COUNT : nat := 256.

Record cache_entry := mk_entry {
  ce_pid : Z;
  ce_usage : resource_usage;
  ce_last_update : Z;
  ce_valid : Z;
  ce_lock : Z
}.

Definition zero_entry : cache_entry := mk_entry 0 zero_usage 0 0 0.
#[export] Instance cache_entry_inhabited : Inhabited cache_entry := populate zero_entry.

Definition set_ce_valid (v : Z) (e : cache_entry) : cache_entry :=
  mk_entry (ce_pid e) (ce_usage e) (ce_last_update e) v (ce_lock e).
Definition set_ce_lock (l : Z) (e : cache_entry) : cache_entry :=
  mk_entry (ce_pid e) (ce_usage e) (ce_last_update e) (ce_valid e) l.

Record resource_cache := mk_cache {
  entries : list cache_entry;
  hit_count : Z;
  miss_count : Z;
  eviction_count : Z;
  ttl_ms : Z
}.

Definition set_entries (es : list cache_entry) (c : resource_cache) : resource_cache :=
  mk_cache es (hit_count c) (miss_count c) (eviction_count c) (ttl_ms c).
Definition set_counts (h m e : Z) (c : resource_cache) : resource_cache :=
  mk_cache (entries c) h m e (ttl_ms c).
Definition set_ttl (t : Z) (c : resource_cache) : resource_cache :=
  mk_cache (entries c) (hit_count c) (miss_count c) (eviction_count c) t.

Record batch_buffer := mk_batch {
  pending_updates : list resource_usage;
  pids : list Z;
  count : Z;
  last_flush : Z;
  flush_interval_ms : Z
}.

Record perf_optimizer_stats := mk_pstats {
  total_operations : Z;
  intercepted_operations : Z;
  allowed_operations : Z;
  denied_operations : Z;
  total_latency_ns : Z;
  min_latency_ns : Z;
  max_latency_ns : Z;
  avg_latency_ns : double;
  cache_hits : Z;
  cache_misses : Z;
  cache_hit_rate : double;
  batch_flushes : Z;
  batched_updates : Z;
  start_time : Z
}.

(** All bytes zero. *)
Definition zero_pstats : perf_optimizer_stats :=
  mk_pstats 0 0 0 0 0 0 0 (S754_zero false) 0 0 (S754_zero false) 0 0 0.

Record perf_state (T : Type) := mk_perf {
  g_cache : resource_cache;
  g_batch_buffer : batch_buffer;
  g_stats : perf_optimizer_stats;
  g_running : bool;
  g_cache_enabled : bool;
  g_batching_enabled : bool;
  adaptive_counter : Z;
  table : T
}.
Arguments mk_perf {T}.
Arguments g_cache {T}.
Arguments g_batch_buffer {T}.
Arguments g_stats {T}.
Arguments g_running {T}.
Arguments g_cache_enabled {T}.
Arguments g_batching_enabled {T}.
Arguments adaptive_counter {T}.
Arguments table {T}.

(** Assignments to one static variable. *)
Section setters.
Context {T : Type}.
Implicit Type s : perf_state T.

Definition set_cache (c : resource_cache) s : perf_state T :=
  mk_perf c (g_batch_buffer s) (g_stats s) (g_running s) (g_cache_enabled s)
    (g_batching_enabled s) (adaptive_counter s) (table s).
Definition set_batch (b : batch_buffer) s : perf_state T :=
  mk_perf (g_cache s) b (g_stats s) (g_running s) (g_cache_enabled s)
    (g_batching_enabled s) (adaptive_counter s) (table s).
Definition set_stats (st : perf_optimizer_stats) s : perf_state T :=
  mk_perf (g_cache s) (g_batch_buffer s) st (g_running s) (g_cache_enabled s)
    (g_batching_enabled s) (adaptive_counter s) (table s).
Definition set_running (r : bool) s : perf_state T :=
  mk_perf (g_cache s) (g_batch_buffer s) (g_stats s) r (g_cache_enabled s)
    (g_batching_enabled s) (adaptive_counter s) (table s).
Definition set_cache_enabled (b : bool) s : perf_state T :=
  mk_perf (g_cache s) (g_batch_buffer s) (g_stats s) (g_running s) b
    (g_batching_enabled s) (adaptive_counter s) (table s).
Definition set_batching_enabled (b : bool) s : perf_state T :=
  mk_perf (g_cache s) (g_batch_buffer s) (g_stats s) (g_running s) (g_cache_enabled s)
    b (adaptive_counter s) (table s).
Definition set_adaptive_counter (n : Z) s : perf_state T :=
  mk_perf (g_cache s) (g_batch_buffer s) (g_stats s) (g_running s) (g_cache_enabled s)
    (g_batching_enabled s) n (table s).
Definition set_table (t : T) s : perf_state T :=
  mk_perf (g_cache s) (g_batch_buffer s) (g_stats s) (g_running s) (g_cache_enabled s)
    (g_batching_enabled s) (adaptive_counter s) t.
End setters.

(** ** The cache *)

Definition hash_pid (pid : Z) : nat :=
  Z.to_nat (u32 (u32 pid * 2654435761) mod Z.of_nat CACHE_BUCKET_COUNT).

(** The lock word of an entry; the exclusion the spinning gives is the one
    of the file SpinLock. *)
Definition spin_lock (e : cache_entry) : cache_entry := set_ce_lock 1 e.
Definition spin_unlock (e : cache_entry) : cache_entry := set_ce_lock 0 e.

Section ops.
Context {T : Type}.
Implicit Type s : perf_state T.

(** [&g_cache.entries[idx]] and a write through it. *)
Definition entry_at (idx : nat) s : cache_entry := entries (g_cache s) !!! idx.
Definition put_entry (idx : nat) (e : cache_entry) s : perf_state T :=
  set_cache (set_entries (<[idx:=e]> (entries (g_cache s))) (g_cache s)) s.

(** The two counters of a miss and of a hit, under [g_stats_mutex]. *)
Definition count_miss s : perf_state T :=
  let st := g_stats s in
  let c := g_cache s in
  set_cache (set_counts (hit_count c) (u64 (miss_count c + 1)) (eviction_count c) c)
    (set_stats (mk_pstats (total_operations st) (intercepted_operations st)
       (allowed_operations st) (denied_operations st) (total_latency_ns st)
       (min_latency_ns st) (max_latency_ns st) (avg_latency_ns st)
       (cache_hits st) (u64 (cache_misses st + 1)) (cache_hit_rate st)
       (batch_flushes st) (batched_updates st) (start_time st)) s).
Definition count_hit s : perf_state T :=
  let st := g_stats s in
  let c := g_cache s in
  set_cache (set_counts (u64 (hit_count c + 1)) (miss_count c) (eviction_count c) c)
    (set_stats (mk_pstats (total_operations st) (intercepted_operations st)
       (allowed_operations st) (denied_operations st) (total_latency_ns st)
       (min_latency_ns st) (max_latency_ns st) (avg_latency_ns st)
       (u64 (cache_hits st + 1)) (cache_misses st) (cache_hit_rate st)
       (batch_flushes st) (batched_updates st) (start_time st)) s).

(** [entry->valid && entry->pid == pid] *)
Definition entry_matches (e : cache_entry) (pid : Z) : bool :=
  negb (ce_valid e =? 0) && (ce_pid e =? pid).

(** The result is [None] for false and the usage stored through the pointer
    for true; [out] says whether the pointer is non-NULL. *)
Definition perf_optimizer_get_cached_resources (now : Z) (pid : Z) (out : bool) s
    : option resource_usage * perf_state T :=
  if negb (g_cache_enabled s) || negb out then (None, s)
  else
    let idx := hash_pid pid in
    if negb (entry_matches (entry_at idx s) pid) then (None, count_miss s)
    else
      let s := put_entry idx (spin_lock (entry_at idx s)) s in
      if negb (entry_matches (entry_at idx s) pid)
      then (None, count_miss (put_entry idx (spin_unlock (entry_at idx s)) s))
      else if ttl_ms (g_cache s) <? u64 (now - ce_last_update (entry_at idx s))
      then
        let s := put_entry idx (set_ce_valid 0 (entry_at idx s)) s in
        (None, count_miss (put_entry idx (spin_unlock (entry_at idx s)) s))
      else
        let usage := ce_usage (entry_at idx s) in
        (Some usage, count_hit (put_entry idx (spin_unlock (entry_at idx s)) s)).

Definition perf_optimizer_update_cached_resources (now : Z) (pid : Z)
    (usage : option resource_usage) s : perf_state T :=
  match usage with
  | None => s
  | Some usage =>
      if negb (g_cache_enabled s) then s
      else
        let idx := hash_pid pid in
        let s := put_entry idx (spin_lock (entry_at idx s)) s in
        let s := put_entry idx (mk_entry pid usage now 1 (ce_lock (entry_at idx s))) s in
        put_entry idx (spin_unlock (entry_at idx s)) s
  end.

Definition perf_optimizer_invalidate_cache (pid : Z) s : perf_state T :=
  let idx := hash_pid pid in
  let s := put_entry idx (spin_lock (entry_at idx s)) s in
  let s := if ce_pid (entry_at idx s) =? pid
           then put_entry idx (set_ce_valid 0 (entry_at idx s)) s else s in
  put_entry idx (spin_unlock (entry_at idx s)) s.

Definition perf_optimizer_clear_cache s : perf_state T :=
  let clear1 e := spin_unlock (set_ce_valid 0 (spin_lock e)) in
  let c := set_entries (clear1 <$> entries (g_cache s)) (g_cache s) in
  set_cache (set_counts 0 0 (eviction_count c) c) s.
End ops.

(** ** Batching *)

Section batching.
Context {T : Type} `{PT : ProcessTable T}.
Implicit Type s : perf_state T.

Definition count_flush s : perf_state T :=
  let st := g_stats s in
  set_stats (mk_pstats (total_operations st) (intercepted_operations st)
    (allowed_operations st) (denied_operations st) (total_latency_ns st)
    (min_latency_ns st) (max_latency_ns st) (avg_latency_ns st)
    (cache_hits st) (cache_misses st) (cache_hit_rate st)
    (u64 (batch_flushes st + 1)) (batched_updates st) (start_time st)) s.
Definition count_batched s : perf_state T :=
  let st := g_stats s in
  set_stats (mk_pstats (total_operations st) (intercepted_operations st)
    (allowed_operations st) (denied_operations st) (total_latency_ns st)
    (min_latency_ns st) (max_latency_ns st) (avg_latency_ns st)
    (cache_hits st) (cache_misses st) (cache_hit_rate st)
    (batch_flushes st) (u64 (batched_updates st + 1)) (start_time st)) s.

(** The first [count] entries of the buffer, in order. *)
Definition pending (b : batch_buffer) : list (Z * resource_usage) :=
  take (Z.to_nat (count b)) (zip (pids b) (pending_updates b)).

(** The loop of the flush: one table update per entry, results ignored. *)
Definition write_pending (ps : list (Z * resource_usage)) (t : T) : T :=
  foldl (fun t e => (pt_update t e.1 (Some e.2)).2) t ps.

Definition perf_optimizer_flush_batch_buffer (now : Z) s : perf_state T :=
  let b := g_batch_buffer s in
  if count b =? 0 then s
  else
    let s := set_table (write_pending (pending b) (table s)) s in
    let s := set_batch (mk_batch (pending_updates b) (pids b) 0 now
                          (flush_interval_ms b)) s in
    count_flush s.

(** [pids[i] = pid; pending_updates[i] = *usage; count = n] *)
Definition store_pending (i : nat) (pid : Z) (usage : resource_usage) (n : Z)
    (b : batch_buffer) : batch_buffer :=
  mk_batch (<[i:=usage]> (pending_updates b)) (<[i:=pid]> (pids b)) n
    (last_flush b) (flush_interval_ms b).

(** The first critical section: merge or append; [None] when the buffer is
    full and has to be flushed first. *)
Definition batch_place (pid : Z) (usage : resource_usage) (b : batch_buffer)
    : option batch_buffer :=
  match find_idx (fun p => p =? pid) (take (Z.to_nat (count b)) (pids b)) with
  | Some found =>
      Some (mk_batch (<[found:=usage]> (pending_updates b)) (pids b) (count b)
              (last_flush b) (flush_interval_ms b))
  | None =>
      if count b <? Z.of_nat CACHE_BUCKET_COUNT
      then Some (store_pending (Z.to_nat (count b)) pid usage (i32 (count b + 1)) b)
      else None
  end.

(** The second critical section, after the flush. *)
Definition batch_retry (pid : Z) (usage : resource_usage) (b : batch_buffer)
    : batch_buffer :=
  store_pending 0 pid usage 1 b.

(** What follows the critical sections. *)
Definition batch_finish (now : Z) (pid : Z) (usage : resource_usage) s : perf_state T :=
  count_batched (perf_optimizer_update_cached_resources now pid (Some usage) s).

Definition perf_optimizer_batch_update_resource (now : Z) (pid : Z)
    (usage : option resource_usage) s : Z * perf_state T :=
  match usage with
  | None => let '(rc, t) := pt_update (table s) pid None in (rc, set_table t s)
  | Some u =>
      if negb (g_batching_enabled s)
      then let '(rc, t) := pt_update (table s) pid (Some u) in (rc, set_table t s)
      else
        match batch_place pid u (g_batch_buffer s) with
        | Some b => (0, batch_finish now pid u (set_batch b s))
        | None =>
            let s := perf_optimizer_flush_batch_buffer now s in
            (0, batch_finish now pid u (set_batch (batch_retry pid u (g_batch_buffer s)) s))
        end
  end.

(** ** Settings *)

Definition perf_optimizer_set_cache_ttl (ttl : Z) s : perf_state T :=
  let ttl := if ttl <? 10 then 10 else ttl in
  let ttl := if 10000 <? ttl then 10000 else ttl in
  set_cache (set_ttl ttl (g_cache s)) s.

Definition perf_optimizer_set_batch_interval (interval : Z) s : perf_state T :=
  let interval := if interval <? 10 then 10 else interval in
  let interval := if 1000 <? interval then 1000 else interval in
  let b := g_batch_buffer s in
  set_batch (mk_batch (pending_updates b) (pids b) (count b) (last_flush b) interval) s.

Definition perf_optimizer_enable_cache (enable : bool) s : perf_state T :=
  set_cache_enabled enable s.
Definition perf_optimizer_enable_batching (enable : bool) s : perf_state T :=
  set_batching_enabled enable s.

(** ** Statistics *)

(** [(double)hits / total * 100.0]: the division is between doubles. *)
Definition hit_rate (hits total : Z) : double :=
  dmul (ddiv (double_of hits) (double_of total)) (double_of 100).

(** What is stored through [stats]; [out] says whether it is non-NULL. *)
Definition perf_optimizer_get_stats (out : bool) s : option perf_optimizer_stats :=
  if negb out then None
  else
  let st := g_stats s in
  let total := u64 (cache_hits st + cache_misses st) in
  Some (mk_pstats (total_operations st) (intercepted_operations st)
    (allowed_operations st) (denied_operations st) (total_latency_ns st)
    (min_latency_ns st) (max_latency_ns st)
    (if 0 <? total_operations st
     then ddiv (double_of (total_latency_ns st)) (double_of (total_operations st))
     else S754_zero false)
    (cache_hits st) (cache_misses st)
    (if 0 <? total then hit_rate (cache_hits st) total else S754_zero false)
    (batch_flushes st) (batched_updates st) (start_time st)).

(** Zeroed statistics with the two fields that are set afterwards. *)
Definition fresh_stats (sec : Z) : perf_optimizer_stats :=
  mk_pstats 0 0 0 0 0 UINT64_MAX 0 (S754_zero false) 0 0 (S754_zero false) 0 0 sec.

Definition perf_optimizer_reset_stats (sec : Z) s : perf_state T :=
  let s := set_stats (fresh_stats sec) s in
  set_cache (set_counts 0 0 0 (g_cache s)) s.

(** ** The fast check *)

(** [g_stats.total_operations++] *)
Definition count_operation s : perf_state T :=
  let st := g_stats s in
  set_stats (mk_pstats (u64 (total_operations st + 1)) (intercepted_operations st)
    (allowed_operations st) (denied_operations st) (total_latency_ns st)
    (min_latency_ns st) (max_latency_ns st) (avg_latency_ns st)
    (cache_hits st) (cache_misses st) (cache_hit_rate st)
    (batch_flushes st) (batched_updates st) (start_time st)) s.

(** The block under [g_stats_mutex] at the end of the check. *)
Definition count_verdict (latency : Z) (allowed : bool) s : perf_state T :=
  let st := g_stats s in
  set_stats (mk_pstats (total_operations st) (intercepted_operations st)
    (if allowed then u64 (allowed_operations st + 1) else allowed_operations st)
    (if allowed then denied_operations st else u64 (denied_operations st + 1))
    (u64 (total_latency_ns st + latency))
    (if latency <? min_latency_ns st then latency else min_latency_ns st)
    (if max_latency_ns st <? latency then latency else max_latency_ns st)
    (avg_latency_ns st) (cache_hits st) (cache_misses st) (cache_hit_rate st)
    (batch_flushes st) (batched_updates st) (start_time st)) s.

(** The switch over [resource_type]; other values keep the caller's number. *)
Definition actual_current (resource_type current : Z) (cached : option resource_usage) : Z :=
  match cached with
  | None => current
  | Some u =>
      if resource_type =? 0 then u32 (qp_count u)
      else if resource_type =? 1 then u32 (mr_count u)
      else if resource_type =? 2 then u32 (memory_used u / (1024 * 1024))
      else current
  end.

Definition perf_optimizer_check_resource_fast (start finish now : Z) (pid resource_type : Z)
    (current requested limit : Z) s : bool * perf_state T :=
  let s := count_operation s in
  let '(cached, s) := perf_optimizer_get_cached_resources now pid true s in
  let allowed := u32 (actual_current resource_type current cached + requested) <=? limit in
  (allowed, count_verdict (u64 (finish - start)) allowed s).

Definition perf_optimizer_prefetch_resources (now : Z) (pid : Z) s : perf_state T :=
  let '(rc, usage) := pt_get (table s) pid in
  if rc =? 0 then perf_optimizer_update_cached_resources now pid (Some usage) s else s.

(** ** Adaptation *)

Definition perf_optimizer_adaptive_adjust s : perf_state T :=
  let hits := cache_hits (g_stats s) in
  let misses := cache_misses (g_stats s) in
  let total := u64 (hits + misses) in
  if total <? 100 then s
  else
    let rate := hit_rate hits total in
    let ttl := ttl_ms (g_cache s) in
    if SFltb rate (double_of 50) && (50 <? ttl)
    then set_cache (set_ttl (u32 (ttl - 10)) (g_cache s)) s
    else if SFltb (double_of 90) rate && (ttl <? 500)
    then set_cache (set_ttl (u32 (ttl + 10)) (g_cache s)) s
    else s.

(** ** Life cycle *)

(** How long the flush thread sleeps (milliseconds) before an iteration. *)
Definition flush_sleep s : Z :=
  let interval := flush_interval_ms (g_batch_buffer s) in
  if interval <? 10 then 10 else interval.

(** One iteration of the flush thread after its sleep; [None] when the thread
    leaves its loop. *)
Definition flush_thread_step (now : Z) s : option (perf_state T) :=
  if negb (g_running s) then None
  else
    let s := if g_batching_enabled s then perf_optimizer_flush_batch_buffer now s else s in
    let s := set_adaptive_counter (i32 (adaptive_counter s + 1)) s in
    if 100 <=? adaptive_counter s
    then Some (set_adaptive_counter 0 (perf_optimizer_adaptive_adjust s))
    else Some s.

Definition perf_optimizer_init (sec : Z) (thread_ok : bool) s : Z * perf_state T :=
  let s := set_cache (mk_cache (replicate CACHE_BUCKET_COUNT zero_entry) 0 0 0 100) s in
  let s := set_batch (mk_batch (replicate CACHE_BUCKET_COUNT zero_usage)
             (replicate CACHE_BUCKET_COUNT 0) 0 0 50) s in
  let s := set_stats (fresh_stats sec) s in
  let s := set_running true s in
  if negb thread_ok then (-1, set_running false s) else (0, s).

(** The thread is joined before the last flush. *)
Definition perf_optimizer_cleanup (now : Z) s : perf_state T :=
  perf_optimizer_flush_batch_buffer now (set_running false s).
End batching.

(** ** Every entry point as an operation

    [OpRetry] is the part of a batch update that follows its flush, when
    another thread took [g_batch_mutex] in between. *)
Inductive perf_op :=
  | OpGet (now pid : Z) (out : bool)
  | OpUpdateCache (now pid : Z) (usage : option resource_usage)
  | OpInvalidate (pid : Z)
  | OpClear
  | OpBatch (now pid : Z) (usage : option resource_usage)
  | OpRetry (now pid : Z) (usage : resource_usage)
  | OpFlush (now : Z)
  | OpSetTtl (ttl : Z)
  | OpSetInterval (interval : Z)
  | OpEnableCache (enable : bool)
  | OpEnableBatching (enable : bool)
  | OpResetStats (sec : Z)
  | OpCheck (start finish now pid resource_type current requested limit : Z)
  | OpPrefetch (now pid : Z)
  | OpAdapt
  | OpTick (now : Z).

Section run.
Context {T : Type} `{PT : ProcessTable T}.
Implicit Type s : perf_state T.

Definition perf_exec (op : perf_op) s : perf_state T :=
  match op with
  | OpGet now pid out => (perf_optimizer_get_cached_resources now pid out s).2
  | OpUpdateCache now pid u => perf_optimizer_update_cached_resources now pid u s
  | OpInvalidate pid => perf_optimizer_invalidate_cache pid s
  | OpClear => perf_optimizer_clear_cache s
  | OpBatch now pid u => (perf_optimizer_batch_update_resource now pid u s).2
  | OpRetry now pid u =>
      batch_finish now pid u (set_batch (batch_retry pid u (g_batch_buffer s)) s)
  | OpFlush now => perf_optimizer_flush_batch_buffer now s
  | OpSetTtl ttl => perf_optimizer_set_cache_ttl ttl s
  | OpSetInterval i => perf_optimizer_set_batch_interval i s
  | OpEnableCache b => perf_optimizer_enable_cache b s
  | OpEnableBatching b => perf_optimizer_enable_batching b s
  | OpResetStats sec => perf_optimizer_reset_stats sec s
  | OpCheck start finish now pid rt cur req limit =>
      (perf_optimizer_check_resource_fast start finish now pid rt cur req limit s).2
  | OpPrefetch now pid => perf_optimizer_prefetch_resources now pid s
  | OpAdapt => perf_optimizer_adaptive_adjust s
  | OpTick now => default s (flush_thread_step now s)
  end.

Definition perf_run (ops : list perf_op) s : perf_state T :=
  foldl (fun s op => perf_exec op s) s ops.
End run.

(** * Theorems *)

#[global] Opaque CACHE_BUCKET_COUNT.

Lemma CACHE_BUCKET_COUNT_eq : CACHE_BUCKET_COUNT = 256%nat.
Proof. reflexivity. Qed.

(** ** The hash *)

Lemma hash_pid_eq pid : hash_pid pid = Z.to_nat ((pid * 177) mod 256).
Proof.
  unfold hash_pid. rewrite CACHE_BUCKET_COUNT_eq. f_equal. unfold u32.
  change (Z.of_nat 256) with 256. change (2 ^ 32) with (256 * 16777216).
  rewrite <- (Znumtheory.Zmod_div_mod 256 (256 * 16777216)) by first [lia|by exists 16777216].
  rewrite Zmult_mod, <- (Znumtheory.Zmod_div_mod 256 (256 * 16777216))
    by first [lia|by exists 16777216].
  change (2654435761 mod 256) with 177. by rewrite Zmult_mod_idemp_l.
Qed.

Lemma hash_pid_lt pid : (hash_pid pid < CACHE_BUCKET_COUNT)%nat.
Proof.
  rewrite hash_pid_eq, CACHE_BUCKET_COUNT_eq.
  pose proof (Z.mod_pos_bound (pid * 177) 256). lia.
Qed.
#[export] Hint Resolve hash_pid_lt : mtrdma.

Lemma hash_pid_inj p q : hash_pid p = hash_pid q <-> p mod 256 = q mod 256.
Proof.
  rewrite !hash_pid_eq. pose proof (Z.mod_pos_bound (p * 177) 256).
  pose proof (Z.mod_pos_bound (q * 177) 256). split.
  - intros E. assert ((p * 177) mod 256 = (q * 177) mod 256) as E' by lia.
    assert (forall x, x mod 256 = ((x * 177) mod 256 * 81) mod 256) as Hinv.
    { intros x. rewrite Zmult_mod_idemp_l. replace (x * 177 * 81) with (x + x * 56 * 256) by lia.
      by rewrite Z.mod_add. }
    by rewrite (Hinv p), (Hinv q), E'.
  - intros E. by rewrite <- (Zmult_mod_idemp_l p), <- (Zmult_mod_idemp_l q), E.
Qed.

(** ** The invariant *)

Record cache_ok (c : resource_cache) : Prop := {
  ck_len : length (entries c) = CACHE_BUCKET_COUNT;
  ck_free : Forall (fun e => ce_lock e = 0) (entries c);
  ck_ttl : 10 <= ttl_ms c <= 10000
}.

Record batch_ok (b : batch_buffer) : Prop := {
  bk_pids : length (pids b) = CACHE_BUCKET_COUNT;
  bk_updates : length (pending_updates b) = CACHE_BUCKET_COUNT;
  bk_count : 0 <= count b <= Z.of_nat CACHE_BUCKET_COUNT;
  (** a pid has at most one update waiting *)
  bk_unique : NoDup (pending b).*1;
  bk_interval : 10 <= flush_interval_ms b <= 1000
}.

(** Every check that was counted was either allowed or denied. *)
Definition pstats_ok (st : perf_optimizer_stats) : Prop :=
  total_operations st = u64 (allowed_operations st + denied_operations st).

Record perf_ok {T} `{ProcessTableLaws T} (s : perf_state T) : Prop := {
  pk_cache : cache_ok (g_cache s);
  pk_batch : batch_ok (g_batch_buffer s);
  pk_stats : pstats_ok (g_stats s);
  pk_adaptive : 0 <= adaptive_counter s < 100;
  pk_table : pt_ok (table s)
}.

(** ** The buffer as a list *)

Section buffer.
Context (b : batch_buffer) (Hok : batch_ok b).

Lemma zip_len : length (zip (pids b) (pending_updates b)) = CACHE_BUCKET_COUNT.
Proof using Hok. rewrite length_zip, bk_pids, bk_updates by done. lia. Qed.

Lemma pending_len : length (pending b) = Z.to_nat (count b).
Proof using Hok.
  unfold pending. rewrite length_take, zip_len. pose proof (bk_count b Hok). lia.
Qed.

Lemma pending_pids : (pending b).*1 = take (Z.to_nat (count b)) (pids b).
Proof using Hok.
  unfold pending. rewrite <- firstn_map.
  change (map fst (zip (pids b) (pending_updates b))) with ((zip (pids b) (pending_updates b)).*1).
  rewrite fst_zip; [done|]. by rewrite bk_pids, bk_updates.
Qed.

Lemma zip_insert2 {A B} (l : list A) (k : list B) i x y :
  <[i:=(x, y)]> (zip l k) = zip (<[i:=x]> l) (<[i:=y]> k).
Proof. revert k i. induction l as [|? ? IH]; intros [|? ?] [|?]; simpl; try done; by rewrite IH. Qed.

(** A write at index [i], with the count moved to [n]. *)
Lemma pending_store i pid u n :
  (i < CACHE_BUCKET_COUNT)%nat ->
  pending (store_pending i pid u n b) =
    take (Z.to_nat n) (<[i:=(pid, u)]> (zip (pids b) (pending_updates b))).
Proof. intros Hi. unfold pending, store_pending. simpl. by rewrite zip_insert2. Qed.

Lemma pending_append pid u :
  count b < Z.of_nat CACHE_BUCKET_COUNT ->
  pending (store_pending (Z.to_nat (count b)) pid u (i32 (count b + 1)) b) =
    pending b ++ [(pid, u)].
Proof using Hok.
  intros Hlt. pose proof (bk_count b Hok). pose proof CACHE_BUCKET_COUNT_eq.
  rewrite pending_store, i32_small by lia.
  replace (Z.to_nat (count b + 1)) with (S (Z.to_nat (count b))) by lia.
  erewrite take_S_r by (apply list_lookup_insert_eq; rewrite zip_len; lia).
  by rewrite take_insert_ge by lia.
Qed.

Lemma pending_retry pid u : pending (batch_retry pid u b) = [(pid, u)].
Proof using Hok.
  pose proof CACHE_BUCKET_COUNT_eq. unfold batch_retry. rewrite pending_store by lia.
  pose proof zip_len as Hl. destruct (zip _ _) as [|e es]; [simpl in Hl; lia|].
  done.
Qed.

Lemma pending_merge i u :
  (i < Z.to_nat (count b))%nat ->
  pending (mk_batch (<[i:=u]> (pending_updates b)) (pids b) (count b)
             (last_flush b) (flush_interval_ms b)) =
    <[i:=(pids b !!! i, u)]> (pending b).
Proof using Hok.
  intros Hi. unfold pending. simpl. rewrite <- take_insert_lt by done.
  rewrite zip_insert2. f_equal. f_equal. symmetry. apply list_insert_id.
  apply arr_lookup. rewrite bk_pids by done. pose proof (bk_count b Hok). lia.
Qed.
End buffer.

(** The map a list of updates turns [m] into: later entries win. *)
Definition overlay (ps : list (Z * resource_usage)) (m : gmap Z resource_usage)
    : gmap Z resource_usage :=
  foldl (fun m e => <[e.1:=e.2]> m) m ps.

Lemma overlay_app ps qs m : overlay (ps ++ qs) m = overlay qs (overlay ps m).
Proof. apply foldl_app. Qed.

Lemma overlay_insert_fresh ps p u m :
  p ∉ ps.*1 -> overlay ps (<[p:=u]> m) = <[p:=u]> (overlay ps m).
Proof.
  revert m. induction ps as [|[q v] ps IH]; intros m; [done|]. csimpl.
  rewrite not_elem_of_cons. intros [Hq Hps]. simpl.
  by rewrite insert_insert_ne, IH by done.
Qed.

Lemma overlay_replace ps i p u v m :
  NoDup ps.*1 -> ps !! i = Some (p, v) ->
  overlay (<[i:=(p, u)]> ps) m = <[p:=u]> (overlay ps m).
Proof.
  revert i m. induction ps as [|[q w] ps IH]; intros [|i] m Hnd Hi; simplify_eq/=;
    apply NoDup_cons in Hnd as [Hn Hnd].
  - rewrite !overlay_insert_fresh by done. by rewrite insert_insert_eq.
  - by rewrite IH.
Qed.

Lemma overlay_size ps m : (size m <= size (overlay ps m))%nat.
Proof.
  revert m. induction ps as [|[p u] ps IH]; intros m; simpl; [done|].
  etrans; [|apply IH]. destruct (m !! p) eqn:E.
  - by rewrite map_size_insert_Some by eauto.
  - rewrite map_size_insert_None by done. lia.
Qed.

(** Storing without a duplicate: the shape of the two index writes. *)
Lemma batch_ok_store b i pid u n :
  batch_ok b -> 0 <= n <= Z.of_nat CACHE_BUCKET_COUNT ->
  NoDup (pending (store_pending i pid u n b)).*1 -> batch_ok (store_pending i pid u n b).
Proof. intros [] Hn Hd. split; simpl; rewrite ?length_insert; done. Qed.

Lemma batch_retry_ok b pid u : batch_ok b -> batch_ok (batch_retry pid u b).
Proof.
  intros Hok. apply batch_ok_store; [done|rewrite CACHE_BUCKET_COUNT_eq; lia|].
  fold (batch_retry pid u b). rewrite pending_retry by done. apply NoDup_singleton.
Qed.

(** What the first critical section does. *)
Lemma batch_place_cases b pid u :
  batch_ok b ->
  (exists b', batch_place pid u b = Some b' /\ batch_ok b' /\
     (forall p, p ∈ (pending b').*1 <-> p = pid \/ p ∈ (pending b).*1) /\
     forall m, overlay (pending b') m = <[pid:=u]> (overlay (pending b) m)) \/
  (batch_place pid u b = None /\ count b = Z.of_nat CACHE_BUCKET_COUNT /\
     pid ∉ (pending b).*1).
Proof.
  intros Hok. pose proof (bk_count b Hok) as Hc. pose proof (bk_unique b Hok) as Hnd.
  unfold batch_place. rewrite <- pending_pids by done.
  destruct (find_idx _ (pending b).*1) as [i|] eqn:E.
  - left. apply find_pid_Some in E. pose proof (lookup_lt_Some _ _ _ E) as Hi.
    rewrite length_fmap, pending_len in Hi by done.
    apply list_lookup_fmap_Some in E as ([? v] & -> & Hp). simpl in *.
    assert (Hpi : pids b !!! i = z).
    { apply list_lookup_total_correct. apply (f_equal (fmap fst)) in Hp. simpl in Hp.
      rewrite <- list_lookup_fmap, pending_pids, lookup_take_lt in Hp by done. done. }
    eexists. split; [done|].
    assert (Hf : (<[i:=(z, u)]> (pending b)).*1 = (pending b).*1).
    { rewrite list_fmap_insert. simpl. apply list_insert_id.
      by rewrite list_lookup_fmap, Hp. }
    split_and!.
    + pose proof (pending_merge b Hok i u Hi) as Hm. destruct Hok.
      split; cbn [pids pending_updates count flush_interval_ms]; rewrite ?length_insert; try done.
      by rewrite Hm, Hpi, Hf.
    + intros p. rewrite pending_merge, Hpi, Hf by done. split; [by right|].
      intros [->|?]; [|done]. apply list_elem_of_fmap. exists (z, v).
      split; [done|]. by eapply list_elem_of_lookup_2.
    + intros m. rewrite pending_merge, Hpi by done. by eapply overlay_replace.
  - apply find_pid_None in E. destruct (count b <? _) eqn:Ec; tests; [left|right; naive_solver lia].
    eexists. split; [done|]. pose proof (pending_append b Hok pid u Ec) as Ha. split_and!.
    + apply batch_ok_store; [done| |]; rewrite ?Ha.
      * rewrite i32_small; rewrite ?CACHE_BUCKET_COUNT_eq in *; lia.
      * rewrite fmap_app. apply NoDup_app. split_and!; [done| |apply NoDup_singleton].
        intros p Hp Hp'. apply list_elem_of_singleton in Hp' as ->. done.
    + intros p. rewrite Ha, fmap_app, elem_of_app. simpl.
      rewrite list_elem_of_singleton. naive_solver.
    + intros m. by rewrite Ha, overlay_app.
Qed.

(** ** The cache operations in one step *)

Section cache_ops.
Context {T : Type}.
Implicit Type s : perf_state T.

Lemma entry_at_put i e s :
  (i < length (entries (g_cache s)))%nat -> entry_at i (put_entry i e s) = e.
Proof. apply arr_insert_eq. Qed.

Lemma entry_at_put_ne i j e s : i <> j -> entry_at i (put_entry j e s) = entry_at i s.
Proof. intros. by apply list_lookup_total_insert_ne. Qed.

Lemma put_put i e e' s : put_entry i e' (put_entry i e s) = put_entry i e' s.
Proof. unfold put_entry, set_cache, set_entries. simpl. by rewrite list_insert_insert_eq. Qed.

Lemma hash_in_range s pid :
  cache_ok (g_cache s) -> (hash_pid pid < length (entries (g_cache s)))%nat.
Proof. intros Hc. rewrite ck_len by done. apply hash_pid_lt. Qed.

#[local] Hint Resolve hash_in_range : core.
#[local] Hint Rewrite @put_put @entry_at_put using (simpl; rewrite ?length_insert; auto) : cache.

(** The answer of a lookup and the entry it leaves: the locked re-check sees
    the entry the unlocked check saw. *)
Lemma get_cached_eq now pid out s :
  cache_ok (g_cache s) ->
  let idx := hash_pid pid in
  let e := entry_at idx s in
  perf_optimizer_get_cached_resources now pid out s =
    if negb (g_cache_enabled s) || negb out then (None, s)
    else if negb (entry_matches e pid) then (None, count_miss s)
    else if ttl_ms (g_cache s) <? u64 (now - ce_last_update e)
    then (None, count_miss (put_entry idx (spin_unlock (set_ce_valid 0 e)) s))
    else (Some (ce_usage e), count_hit (put_entry idx (spin_unlock e) s)).
Proof.
  intros Hc. simpl. unfold perf_optimizer_get_cached_resources.
  destruct (negb (g_cache_enabled s) || negb out); [done|].
  destruct (entry_matches (entry_at (hash_pid pid) s) pid) eqn:Em; [|done]. simpl.
  autorewrite with cache. change (entry_matches (spin_lock _) pid) with
    (entry_matches (entry_at (hash_pid pid) s) pid). rewrite Em. simpl.
  destruct (ttl_ms (g_cache s) <? _); by autorewrite with cache.
Qed.

Lemma update_cached_eq now pid u s :
  cache_ok (g_cache s) ->
  perf_optimizer_update_cached_resources now pid (Some u) s =
    if g_cache_enabled s then put_entry (hash_pid pid) (mk_entry pid u now 1 0) s else s.
Proof.
  intros Hc. unfold perf_optimizer_update_cached_resources.
  destruct (g_cache_enabled s); [|done]. simpl. by autorewrite with cache.
Qed.

Lemma invalidate_eq pid s :
  cache_ok (g_cache s) ->
  let e := entry_at (hash_pid pid) s in
  perf_optimizer_invalidate_cache pid s =
    put_entry (hash_pid pid)
      (spin_unlock (if ce_pid e =? pid then set_ce_valid 0 e else e)) s.
Proof.
  intros Hc. simpl. unfold perf_optimizer_invalidate_cache.
  autorewrite with cache. simpl. destruct (_ =? pid); by autorewrite with cache.
Qed.

(** A write of an unlocked entry keeps the cache well formed. *)
Lemma put_entry_ok i e s :
  cache_ok (g_cache s) -> ce_lock e = 0 -> cache_ok (g_cache (put_entry i e s)).
Proof.
  intros [] He. split; simpl; rewrite ?length_insert; try done. by apply Forall_insert.
Qed.
End cache_ops.

Lemma set_counts_ok h m e c : cache_ok c -> cache_ok (set_counts h m e c).
Proof. by intros []. Qed.
#[export] Hint Resolve put_entry_ok set_counts_ok : mtrdma.

(** ** Every operation keeps the invariant *)

Section preservation.
Context {T : Type} `{PT : ProcessTable T} {PTL : ProcessTableLaws T}.
Implicit Type s : perf_state T.

Lemma set_cache_pok c s : perf_ok s -> cache_ok c -> perf_ok (set_cache c s).
Proof. by intros []. Qed.
Lemma set_batch_pok b s : perf_ok s -> batch_ok b -> perf_ok (set_batch b s).
Proof. by intros []. Qed.
Lemma set_stats_pok st s : perf_ok s -> pstats_ok st -> perf_ok (set_stats st s).
Proof. by intros []. Qed.
Lemma set_table_pok t s : perf_ok s -> pt_ok t -> perf_ok (set_table t s).
Proof. by intros []. Qed.
Lemma put_entry_pok i e s : perf_ok s -> ce_lock e = 0 -> perf_ok (put_entry i e s).
Proof. intros Hs He. apply set_cache_pok; [done|]. apply put_entry_ok; [apply Hs|done]. Qed.
Lemma set_adaptive_pok n s : perf_ok s -> 0 <= n < 100 -> perf_ok (set_adaptive_counter n s).
Proof. by intros []. Qed.

(** Peel the writes off a state, down to one that is known to be good. *)
Ltac pok :=
  repeat first
    [ assumption | reflexivity | apply set_cache_pok | apply set_batch_pok
    | apply set_stats_pok | apply set_table_pok | apply put_entry_pok
    | apply set_counts_ok
    | match goal with H : perf_ok _ |- _ => apply H end ].

(** The parts of the state a lookup leaves alone. *)
Record lookup_frame s s' : Prop := {
  lf_cache : cache_ok (g_cache s) -> cache_ok (g_cache s');
  lf_batch : g_batch_buffer s' = g_batch_buffer s;
  lf_total : total_operations (g_stats s') = total_operations (g_stats s);
  lf_allowed : allowed_operations (g_stats s') = allowed_operations (g_stats s);
  lf_denied : denied_operations (g_stats s') = denied_operations (g_stats s);
  lf_adaptive : adaptive_counter s' = adaptive_counter s;
  lf_batching : g_batching_enabled s' = g_batching_enabled s;
  lf_table : table s' = table s
}.

Lemma get_cached_frame now pid out s :
  cache_ok (g_cache s) ->
  lookup_frame s (perf_optimizer_get_cached_resources now pid out s).2.
Proof.
  intros Hc. rewrite get_cached_eq by done. simpl.
  split_ifs; split; try done; intros _; apply set_counts_ok; by auto using put_entry_ok.
Qed.

Lemma lookup_frame_pok s s' : perf_ok s -> lookup_frame s s' -> perf_ok s'.
Proof.
  intros [] []. split; [auto|congruence| |congruence|congruence].
  unfold pstats_ok in *. congruence.
Qed.

Lemma get_cached_ok now pid out s :
  perf_ok s -> perf_ok (perf_optimizer_get_cached_resources now pid out s).2.
Proof. intros Hs. eapply lookup_frame_pok; [done|]. apply get_cached_frame, Hs. Qed.

Lemma update_cached_ok now pid u s :
  perf_ok s -> perf_ok (perf_optimizer_update_cached_resources now pid u s).
Proof.
  intros Hs. destruct u as [u|]; [|done]. rewrite update_cached_eq by apply Hs. split_ifs; pok.
Qed.

Lemma clear_cache_ok s : perf_ok s -> perf_ok (perf_optimizer_clear_cache s).
Proof.
  intros Hs. apply set_cache_pok; [done|]. apply set_counts_ok.
  destruct (pk_cache s Hs). split; simpl; rewrite ?length_fmap; try done.
  apply Forall_fmap. by apply Forall_true.
Qed.

Lemma write_pending_ok ps t : pt_ok t -> pt_ok (write_pending ps t).
Proof.
  revert t. induction ps as [|[p u] ps IH]; intros t Ht; [done|]. by apply IH, pt_update_ok.
Qed.

Lemma emptied_ok b now : batch_ok b ->
  batch_ok (mk_batch (pending_updates b) (pids b) 0 now (flush_interval_ms b)).
Proof. intros []. split; simpl; try done; try lia. constructor. Qed.

Lemma flush_ok now s : perf_ok s -> perf_ok (perf_optimizer_flush_batch_buffer now s).
Proof.
  intros Hs. unfold perf_optimizer_flush_batch_buffer. split_ifs; [done|].
  apply set_stats_pok; [|by apply Hs].
  pok; [apply write_pending_ok|apply emptied_ok]; apply Hs.
Qed.

Lemma finish_ok now pid u s : perf_ok s -> perf_ok (batch_finish now pid u s).
Proof.
  intros Hs. apply (update_cached_ok now pid (Some u)) in Hs.
  apply set_stats_pok; [done|]. by apply Hs.
Qed.
Lemma batch_update_ok now pid u s :
  perf_ok s -> perf_ok (perf_optimizer_batch_update_resource now pid u s).2.
Proof.
  intros Hs. unfold perf_optimizer_batch_update_resource.
  assert (Ht : forall v, pt_ok (pt_update (table s) pid v).2)
    by (intros v; apply pt_update_ok, Hs).
  destruct u as [u|].
  2:{ specialize (Ht None). destruct (pt_update _ _ _); simpl in *; pok. }
  destruct (negb _).
  { specialize (Ht (Some u)). destruct (pt_update _ _ _); simpl in *; pok. }
  destruct (batch_place_cases (g_batch_buffer s) pid u) as [(b & -> & ? & _)|(-> & _)];
    [by apply Hs|apply finish_ok; pok|].
  apply (flush_ok now) in Hs. apply finish_ok; pok. apply batch_retry_ok, Hs.
Qed.

Lemma check_fast_ok start finish now pid rt cur req limit s :
  perf_ok s ->
  perf_ok (perf_optimizer_check_resource_fast start finish now pid rt cur req limit s).2.
Proof.
  intros Hs. unfold perf_optimizer_check_resource_fast.
  destruct (get_cached_frame now pid true (count_operation s)) as [Fc Fb Ft Fa Fd Fn _ Fm]; [apply Hs|].
  destruct (perf_optimizer_get_cached_resources _ _ _ _) as [cached s']. simpl in *.
  destruct Hs as [Hc Hb Hst Had Htb]. split; simpl; try congruence; [by apply Fc|].
  unfold pstats_ok in *. simpl. rewrite Ft, Fa, Fd, Hst.
  destruct (_ <=? limit); warith.
Qed.

Lemma adaptive_ok s : perf_ok s -> perf_ok (perf_optimizer_adaptive_adjust s).
Proof.
  intros Hs. destruct (pk_cache s Hs) as [Hl Hf Ht]. unfold perf_optimizer_adaptive_adjust.
  split_ifs; try done; apply set_cache_pok; try done; split; try done; simpl;
    rewrite u32_small; lia.
Qed.

(** The adjustment does not look at the counter of the flush thread. *)
Lemma adaptive_counter_adjust m n s :
  set_adaptive_counter m (perf_optimizer_adaptive_adjust (set_adaptive_counter n s)) =
  perf_optimizer_adaptive_adjust (set_adaptive_counter m s).
Proof. unfold perf_optimizer_adaptive_adjust. simpl. by split_ifs. Qed.

Lemma tick_ok now s : perf_ok s -> perf_ok (default s (flush_thread_step now s)).
Proof.
  intros Hs. unfold flush_thread_step. destruct (g_running s); [|done]. simpl.
  set (s1 := if g_batching_enabled s then _ else s).
  assert (Hs1 : perf_ok s1) by (unfold s1; destruct (g_batching_enabled s); [by apply flush_ok|done]).
  pose proof (pk_adaptive s1 Hs1) as Ha. rewrite i32_small by lia.
  destruct (100 <=? _) eqn:E; tests; simpl.
  - rewrite adaptive_counter_adjust. by apply adaptive_ok, set_adaptive_pok.
  - apply set_adaptive_pok; [done|lia].
Qed.

Lemma perf_exec_ok op s : perf_ok s -> perf_ok (perf_exec op s).
Proof.
  intros Hs. destruct op; simpl;
    eauto using get_cached_ok, update_cached_ok, clear_cache_ok, batch_update_ok,
      flush_ok, check_fast_ok, adaptive_ok, tick_ok.
  - rewrite invalidate_eq by apply Hs. pok.
  - apply finish_ok; pok. apply batch_retry_ok, Hs.
  - apply set_cache_pok; [done|]. destruct (pk_cache s Hs). split; try done. simpl.
    split_ifs; lia.
  - apply set_batch_pok; [done|]. destruct (pk_batch s Hs). split; try done. simpl.
    split_ifs; lia.
  - by destruct Hs.
  - by destruct Hs.
  - pok.
  - unfold perf_optimizer_prefetch_resources.
    destruct (pt_get _ _) as [rc u]. destruct (rc =? 0); [|done]. by apply update_cached_ok.
Qed.

Lemma init_ok sec thread_ok s :
  pt_ok (table s) -> 0 <= adaptive_counter s < 100 ->
  perf_ok (perf_optimizer_init sec thread_ok s).2.
Proof.
  intros Ht Ha. assert (Hb : batch_ok (mk_batch (replicate CACHE_BUCKET_COUNT zero_usage)
    (replicate CACHE_BUCKET_COUNT 0) 0 0 50)).
  { split; simpl; rewrite ?length_replicate; try done; try lia. constructor. }
  assert (Hc : cache_ok (mk_cache (replicate CACHE_BUCKET_COUNT zero_entry) 0 0 0 100)).
  { split; simpl; rewrite ?length_replicate; try done. by apply Forall_replicate. }
  by destruct thread_ok.
Qed.

Lemma perf_run_ok ops s : perf_ok s -> perf_ok (perf_run ops s).
Proof.
  unfold perf_run. revert s. induction ops as [|op ops IH]; intros s Hs; simpl; [done|].
  by apply IH, perf_exec_ok.
Qed.
End preservation.

Section results.
Context {T : Type} `{PT : ProcessTable T} {PTL : ProcessTableLaws T}.
Implicit Type s : perf_state T.

(** C33. The optimizer's state stays well formed: after an initialisation, whatever
    sequence of entry points, flush-thread iterations and interleaved retries
    runs, the cache has its 256 unlocked entries and a time to live between
    10 ms and 10 s, the buffer holds at most 256 updates for distinct pids,
    the flush interval lies between 10 ms and 1 s, every counted check is
    counted once as allowed or denied, and the process table keeps its own
    invariant. *)
Theorem perf_reachable_ok sec thread_ok ops s :
  pt_ok (table s) -> 0 <= adaptive_counter s < 100 ->
  perf_ok (perf_run ops (perf_optimizer_init sec thread_ok s).2).
Proof. intros. by apply perf_run_ok, init_ok. Qed.

(** ** The cache never invents *)

(** The reference for the cache: per pid, what was last stored for it and when.
    It has no buckets, no collisions and no expiry. *)
Definition cache_log (op : perf_op) s (m : gmap Z (resource_usage * Z))
    : gmap Z (resource_usage * Z) :=
  let store now pid u := if g_cache_enabled s then <[pid:=(u, now)]> m else m in
  match op with
  | OpUpdateCache now pid (Some u) => store now pid u
  | OpInvalidate pid => delete pid m
  | OpClear => ∅
  | OpBatch now pid (Some u) => if g_batching_enabled s then store now pid u else m
  | OpRetry now pid u => store now pid u
  | OpPrefetch now pid =>
      if (pt_get (table s) pid).1 =? 0 then store now pid (pt_get (table s) pid).2 else m
  | _ => m
  end.

Fixpoint run_log (ops : list perf_op) s (m : gmap Z (resource_usage * Z))
    : gmap Z (resource_usage * Z) :=
  match ops with
  | [] => m
  | op :: ops => run_log ops (perf_exec op s) (cache_log op s m)
  end.

(** Every valid entry is the reference's record of its pid. *)
Definition cache_sim s (m : gmap Z (resource_usage * Z)) : Prop :=
  forall pid, let e := entry_at (hash_pid pid) s in
  entry_matches e pid = true -> m !! pid = Some (ce_usage e, ce_last_update e).

Lemma sim_same s s' m :
  entries (g_cache s') = entries (g_cache s) -> cache_sim s m -> cache_sim s' m.
Proof. intros He Hs pid. unfold entry_at. rewrite He. apply Hs. Qed.

Lemma sim_put i e s m m' :
  (i < length (entries (g_cache s)))%nat -> cache_sim s m ->
  (forall q, hash_pid q = i -> entry_matches e q = true ->
     m' !! q = Some (ce_usage e, ce_last_update e)) ->
  (forall q, hash_pid q <> i -> m' !! q = m !! q) ->
  cache_sim (put_entry i e s) m'.
Proof.
  intros Hi Hs He Ho q. simpl. destruct (decide (hash_pid q = i)) as [Hq|Hq].
  - rewrite Hq, entry_at_put by done. by apply He.
  - rewrite entry_at_put_ne by done. intros Hm. rewrite Ho by done. by apply Hs.
Qed.

Lemma sim_update now pid u s m :
  cache_ok (g_cache s) -> cache_sim s m ->
  cache_sim (perf_optimizer_update_cached_resources now pid (Some u) s)
    (if g_cache_enabled s then <[pid:=(u, now)]> m else m).
Proof.
  intros Hc Hs. rewrite update_cached_eq by done. destruct (g_cache_enabled s); [|done].
  eapply sim_put; eauto using hash_in_range.
  - intros q _ Hq. unfold entry_matches in Hq. simpl in *. tests. subst.
    apply lookup_insert_eq.
  - intros q Hq. apply lookup_insert_ne. by intros ->.
Qed.

Lemma sim_get now pid out s m :
  cache_ok (g_cache s) -> cache_sim s m ->
  cache_sim (perf_optimizer_get_cached_resources now pid out s).2 m.
Proof.
  intros Hc Hs. rewrite get_cached_eq by done. simpl.
  split_ifs; try done; cbn [snd]; (eapply (sim_same (put_entry _ _ s)); [reflexivity|]).
  - eapply sim_put; eauto using hash_in_range; done.
  - eapply sim_put; eauto using hash_in_range. intros q Hq Hm.
    rewrite <- Hq in *. by apply Hs.
Qed.

Lemma sim_invalidate pid s m :
  cache_ok (g_cache s) -> cache_sim s m ->
  cache_sim (perf_optimizer_invalidate_cache pid s) (delete pid m).
Proof.
  intros Hc Hs. rewrite invalidate_eq by done. eapply sim_put; eauto using hash_in_range.
  - intros q Hq Hm. rewrite <- Hq in *. destruct (_ =? pid) eqn:E; [done|]. tests.
    rewrite lookup_delete_ne; [by apply Hs|]. intros ->.
    unfold entry_matches in Hm. simpl in Hm. tests. done.
  - intros q Hq. apply lookup_delete_ne. by intros ->.
Qed.

Lemma sim_flush now s m : cache_sim s m -> cache_sim (perf_optimizer_flush_batch_buffer now s) m.
Proof.
  intros Hs. unfold perf_optimizer_flush_batch_buffer. split_ifs; [done|].
  by eapply sim_same; [reflexivity|].
Qed.

Lemma sim_adapt s m : cache_sim s m -> cache_sim (perf_optimizer_adaptive_adjust s) m.
Proof.
  intros Hs. unfold perf_optimizer_adaptive_adjust. split_ifs; try done;
    by apply (sim_same s).
Qed.

Lemma sim_finish now pid u s m :
  cache_ok (g_cache s) -> cache_sim s m ->
  cache_sim (batch_finish now pid u s)
    (if g_cache_enabled s then <[pid:=(u, now)]> m else m).
Proof.
  intros Hc Hs. eapply (sim_same (perf_optimizer_update_cached_resources _ _ _ s)); [reflexivity|].
  by apply sim_update.
Qed.

Lemma flush_keeps_flags now s :
  g_cache (perf_optimizer_flush_batch_buffer now s) = g_cache s /\
  g_cache_enabled (perf_optimizer_flush_batch_buffer now s) = g_cache_enabled s /\
  g_batching_enabled (perf_optimizer_flush_batch_buffer now s) = g_batching_enabled s.
Proof. unfold perf_optimizer_flush_batch_buffer. by split_ifs. Qed.

Lemma sim_batch now pid u s m :
  cache_ok (g_cache s) -> cache_sim s m ->
  cache_sim (perf_optimizer_batch_update_resource now pid u s).2 (cache_log (OpBatch now pid u) s m).
Proof.
  intros Hc Hs. unfold perf_optimizer_batch_update_resource. destruct u as [u|]; simpl.
  2:{ destruct (pt_update _ _ _). by apply (sim_same s). }
  destruct (g_batching_enabled s); simpl.
  2:{ destruct (pt_update _ _ _). by apply (sim_same s). }
  destruct (batch_place _ _ _) as [b|].
  - by apply (sim_finish now pid u (set_batch b s)).
  - destruct (flush_keeps_flags now s) as (Ec & Ee & _). rewrite <- Ee.
    apply (sim_finish now pid u (set_batch _ _)); simpl; [by rewrite Ec|].
    apply (sim_same (perf_optimizer_flush_batch_buffer now s)); [done|]. by apply sim_flush.
Qed.

Lemma sim_exec op s m :
  cache_ok (g_cache s) -> cache_sim s m -> cache_sim (perf_exec op s) (cache_log op s m).
Proof.
  intros Hc Hs. destruct op; cbn [perf_exec]; try by apply (sim_same s).
  - by apply sim_get.
  - destruct usage; [by apply sim_update|done].
  - by apply sim_invalidate.
  - intros pid. unfold entry_at, perf_optimizer_clear_cache. simpl.
    by rewrite (list_lookup_total_fmap (fun e => spin_unlock (set_ce_valid 0 (spin_lock e))))
      by by apply hash_in_range.
  - by apply sim_batch.
  - by apply (sim_finish now pid usage (set_batch _ s)).
  - by apply sim_flush.
  - unfold perf_optimizer_check_resource_fast.
    pose proof (sim_get now pid true (count_operation s) m Hc Hs) as Hg.
    by destruct (perf_optimizer_get_cached_resources _ _ _ _).
  - unfold perf_optimizer_prefetch_resources. simpl.
    destruct (pt_get (table s) pid) as [rc u]. simpl.
    destruct (rc =? 0); [by apply sim_update|done].
  - by apply sim_adapt.
  - unfold flush_thread_step. destruct (g_running s); [|done]. simpl.
    assert (cache_sim (if g_batching_enabled s
      then perf_optimizer_flush_batch_buffer now s else s) m) as H1
      by (destruct (g_batching_enabled s); [by apply sim_flush|done]).
    destruct (100 <=? _); simpl; [|by eapply sim_same].
    eapply sim_same; [reflexivity|]. rewrite adaptive_counter_adjust. apply sim_adapt.
    by eapply sim_same.
Qed.

Lemma sim_run ops s m :
  perf_ok s -> cache_sim s m -> cache_sim (perf_run ops s) (run_log ops s m).
Proof.
  unfold perf_run. revert s m. induction ops as [|op ops IH]; intros s m Hs Hm; simpl; [done|].
  apply IH; [by apply perf_exec_ok|]. apply sim_exec; [apply Hs|done].
Qed.

Lemma sim_init sec thread_ok s : cache_sim (perf_optimizer_init sec thread_ok s).2 ∅.
Proof.
  intros pid. unfold entry_at. assert (Hl : (hash_pid pid < CACHE_BUCKET_COUNT)%nat)
    by apply hash_pid_lt.
  by destruct thread_ok; simpl; rewrite lookup_total_replicate_2 by done.
Qed.

(** C12. A cache hit is the truth of at most one time to live ago: after any
    sequence of operations of the optimizer, when a lookup of a pid succeeds,
    the usage it returns is the one that was last stored for exactly that pid
    (by a cache update, a batch update or a prefetch) and not invalidated or
    cleared since, and it was stored no more than the configured time to live
    before the lookup.  Collisions of the hash only ever cost a miss. *)
Theorem cache_coherent sec thread_ok ops s now pid u s' :
  pt_ok (table s) -> 0 <= adaptive_counter s < 100 ->
  let s0 := (perf_optimizer_init sec thread_ok s).2 in
  perf_optimizer_get_cached_resources now pid true (perf_run ops s0) = (Some u, s') ->
  exists t, run_log ops s0 ∅ !! pid = Some (u, t) /\
    u64 (now - t) <= ttl_ms (g_cache (perf_run ops s0)).
Proof.
  intros Ht Ha s0 Hg. assert (H0 : perf_ok s0) by by apply init_ok.
  assert (H1 : perf_ok (perf_run ops s0)) by by apply perf_run_ok.
  pose proof (sim_run ops s0 ∅ H0 (sim_init sec thread_ok s) pid) as Hs.
  rewrite get_cached_eq in Hg by apply H1. revert Hg Hs. simpl. split_ifs; try done.
  intros Hg Hs. simplify_eq. eexists. split; [by apply Hs|done].
Qed.

(** ** Batching is transparent *)

(** What the table will hold once the buffer is flushed. *)
Definition effective s : gmap Z resource_usage :=
  overlay (pending (g_batch_buffer s)) (pt_view (table s)).

Lemma write_pending_view ps t :
  pt_ok t -> Forall (fun e => 0 < e.1) ps ->
  (size (overlay ps (pt_view t)) <= pt_capacity)%nat ->
  pt_view (write_pending ps t) = overlay ps (pt_view t).
Proof.
  revert t. induction ps as [|[p u] ps IH]; intros t Ht Hp Hsz; [done|].
  apply Forall_cons in Hp as [Hp Hps]. simpl in *.
  destruct (pt_update_bind t p u) as [_ Hv]; [done|done| |].
  { pose proof (overlay_size ps (<[p:=u]> (pt_view t))) as Hm.
    destruct (decide (p ∈ dom (pt_view t))) as [|Hn]; [by left|right].
    rewrite map_size_insert_None in Hm by by apply not_elem_of_dom. lia. }
  rewrite IH, Hv; [done|by apply pt_update_ok|done|by rewrite Hv].
Qed.

Definition pids_positive s : Prop := Forall (fun e => 0 < e.1) (pending (g_batch_buffer s)).

Lemma flush_view now s :
  perf_ok s -> pids_positive s -> (size (effective s) <= pt_capacity)%nat ->
  let s' := perf_optimizer_flush_batch_buffer now s in
  pt_view (table s') = effective s /\ pending (g_batch_buffer s') = [].
Proof.
  intros Hs Hp Hsz. unfold perf_optimizer_flush_batch_buffer, effective in *.
  destruct (count (g_batch_buffer s) =? 0) eqn:E; tests; simpl.
  - unfold pending. by rewrite E.
  - split; [|done]. apply write_pending_view; [apply Hs|done|done].
Qed.

(** The clients of this section: any entry point except the switch of the
    batching itself, with positive pids in the updates. *)
Definition op_admissible (op : perf_op) : Prop :=
  match op with
  | OpEnableBatching _ | OpRetry _ _ _ => False
  | OpBatch _ pid _ => 0 < pid
  | _ => True
  end.

Definition op_updates (op : perf_op) : list (Z * resource_usage) :=
  match op with OpBatch _ pid (Some u) => [(pid, u)] | _ => [] end.

(** A state whose batching is on and whose buffer is sound. *)
Record batching s : Prop := {
  bt_ok : perf_ok s;
  bt_on : g_batching_enabled s = true;
  bt_pos : pids_positive s
}.

(** An operation that touches neither the buffer nor the table. *)
Lemma batching_frame s s' :
  batching s -> perf_ok s' -> g_batching_enabled s' = g_batching_enabled s ->
  pending (g_batch_buffer s') = pending (g_batch_buffer s) -> table s' = table s ->
  batching s' /\ effective s' = effective s.
Proof.
  intros [Hok Hon Hp] Hok' He Hb Ht. unfold effective. rewrite Hb, Ht.
  split; [|done]. split; [done|congruence|]. unfold pids_positive. by rewrite Hb.
Qed.

Lemma batching_flush now s :
  batching s -> (size (effective s) <= pt_capacity)%nat ->
  let s' := perf_optimizer_flush_batch_buffer now s in
  batching s' /\ effective s' = effective s.
Proof.
  intros [Hok Hon Hp] Hsz s'. destruct (flush_view now s Hok Hp Hsz) as [Hv Hn].
  unfold effective at 1. fold s' in Hv, Hn. rewrite Hn, Hv. split; [|done].
  split; [by apply flush_ok| |].
  - unfold s'. by destruct (flush_keeps_flags now s) as (_ & _ & ->).
  - unfold pids_positive. fold s'. rewrite Hn. constructor.
Qed.

Lemma update_cached_frame now pid u s :
  perf_ok s ->
  let s' := perf_optimizer_update_cached_resources now pid u s in
  g_batching_enabled s' = g_batching_enabled s /\
  g_batch_buffer s' = g_batch_buffer s /\ table s' = table s.
Proof.
  intros Hs. destruct u as [u|]; [|done]. cbn zeta. rewrite update_cached_eq by apply Hs.
  by destruct (g_cache_enabled s).
Qed.

(** A new buffer in front of the same table. *)
Lemma batching_place now pid u b s :
  perf_ok s -> g_batching_enabled s = true -> batch_ok b ->
  Forall (fun e => 0 < e.1) (pending b) ->
  let s' := batch_finish now pid u (set_batch b s) in
  batching s' /\ effective s' = overlay (pending b) (pt_view (table s)).
Proof.
  intros Hs Hon Hb Hp s'.
  assert (Hs' : perf_ok (set_batch b s)) by by apply set_batch_pok.
  destruct (update_cached_frame now pid (Some u) (set_batch b s) Hs') as (E1 & E2 & E3).
  assert (Eb : g_batch_buffer s' = b) by done.
  assert (Et : table s' = table s) by done.
  unfold effective. rewrite Eb, Et. split; [|done]. split.
  - by apply finish_ok.
  - unfold s', batch_finish. simpl in *. congruence.
  - unfold pids_positive. by rewrite Eb.
Qed.

Lemma positive_map (ps qs : list (Z * resource_usage)) pid :
  0 < pid -> (forall p, p ∈ qs.*1 -> p = pid \/ p ∈ ps.*1) ->
  Forall (fun e => 0 < e.1) ps -> Forall (fun e => 0 < e.1) qs.
Proof.
  intros Hp Hsub Hps. apply Forall_forall. intros e He.
  destruct (Hsub e.1) as [->|Hin]; [by apply list_elem_of_fmap_2|done|].
  apply list_elem_of_fmap in Hin as (e' & -> & He').
  by eapply (proj1 (Forall_forall _ _) Hps).
Qed.

Lemma batching_update now pid u s :
  batching s -> 0 < pid -> (size (effective s) <= pt_capacity)%nat ->
  let s' := (perf_optimizer_batch_update_resource now pid (Some u) s).2 in
  batching s' /\ effective s' = <[pid:=u]> (effective s).
Proof.
  intros Hbt Hpid Hsz. pose proof Hbt as [Hok Hon Hp].
  unfold perf_optimizer_batch_update_resource. rewrite Hon. simpl.
  destruct (batch_place_cases (g_batch_buffer s) pid u) as [(b & -> & Hb & Hsub & Hov)|(-> & _ & _)];
    [apply Hok| |]; cbn [snd].
  - unfold effective at 2. rewrite <- Hov. apply batching_place; [done..|].
    eapply positive_map; [done| |exact Hp]. naive_solver.
  - destruct (batching_flush now s) as [[Hok1 Hon1 Hp1] _]; [done..|].
    destruct (flush_view now s) as [Hv _]; [done..|]. rewrite <- Hv.
    pose proof (pk_batch _ Hok1) as Hb1.
    pose proof (pending_retry _ Hb1 pid u) as Hr.
    change (<[pid:=u]> (pt_view (table (perf_optimizer_flush_batch_buffer now s)))) with
      (overlay [(pid, u)] (pt_view (table (perf_optimizer_flush_batch_buffer now s)))).
    rewrite <- Hr. apply batching_place; [done|done|by apply batch_retry_ok|].
    rewrite Hr. by repeat constructor.
Qed.

Lemma batching_exec op s :
  batching s -> op_admissible op ->
  (size (overlay (op_updates op) (effective s)) <= pt_capacity)%nat ->
  batching (perf_exec op s) /\ effective (perf_exec op s) = overlay (op_updates op) (effective s).
Proof.
  intros Hbt Ha Hsz. pose proof (perf_exec_ok op s (bt_ok s Hbt)) as Hok'.
  assert (Hc : cache_ok (g_cache s)) by apply Hbt.
  destruct op; simpl in *; try done; try by apply batching_frame.
  - destruct (get_cached_frame now pid out s Hc). apply batching_frame; congruence.
  - destruct (update_cached_frame now pid usage s) as (? & ? & ?); [apply Hbt|].
    apply batching_frame; congruence.
  - rewrite invalidate_eq in * by done. by apply batching_frame.
  - destruct usage as [u|].
    + apply batching_update; [done..|]. etrans; [|exact Hsz]. apply (overlay_size [(pid, u)]).
    + revert Hok'. simpl. rewrite pt_update_null. intros. by apply batching_frame.
  - by apply batching_flush.
  - destruct (get_cached_frame now pid true (count_operation s) Hc) as [_ Fb _ _ _ _ Fe Ft].
    unfold perf_optimizer_check_resource_fast in *.
    destruct (perf_optimizer_get_cached_resources _ _ _ _) as [cached s1].
    simpl in *. apply batching_frame; simpl; congruence.
  - unfold perf_optimizer_prefetch_resources in *. destruct (pt_get _ _) as [rc u].
    destruct (rc =? 0); [|by apply batching_frame].
    destruct (update_cached_frame now pid (Some u) s) as (? & ? & ?); [apply Hbt|].
    apply batching_frame; congruence.
  - unfold perf_optimizer_adaptive_adjust in *. revert Hok'. split_ifs; intros;
      by apply batching_frame.
  - unfold flush_thread_step in *. destruct (g_running s); [|done]. simpl in *.
    rewrite (bt_on s Hbt) in *. destruct (batching_flush now s) as [Hb1 <-]; [done..|].
    revert Hok'. destruct (100 <=? _); simpl; intros Hok'; [|by apply batching_frame].
    rewrite adaptive_counter_adjust in *. unfold perf_optimizer_adaptive_adjust in *.
    revert Hok'. split_ifs; intros; by apply batching_frame.
Qed.

Lemma batching_run ops s :
  batching s -> Forall op_admissible ops ->
  (size (overlay (ops ≫= op_updates) (effective s)) <= pt_capacity)%nat ->
  batching (perf_run ops s) /\
  effective (perf_run ops s) = overlay (ops ≫= op_updates) (effective s).
Proof.
  unfold perf_run. revert s. induction ops as [|op ops IH]; intros s Hbt Ha Hsz; [done|].
  apply Forall_cons in Ha as [Ha Hops]. csimpl in *. rewrite overlay_app in *.
  destruct (batching_exec op s) as [Hb1 He1]; [done|done| |].
  { etrans; [apply overlay_size|exact Hsz]. }
  rewrite <- He1 in *. by apply IH.
Qed.

(** C11. Batching changes when the table is written, not what it ends up
    holding.  Start with batching on and an empty buffer, run any sequence of
    the optimizer's entry points (batch updates of positive pids, lookups,
    checks, prefetches, flushes, iterations of the flush thread, changes of the
    settings other than the batching switch), then clean up: the table holds
    exactly what it would hold had every update been written to it directly
    and in order, provided the table has room for all processes involved. *)
Theorem batching_equivalent ops s now :
  perf_ok s -> g_batching_enabled s = true -> pending (g_batch_buffer s) = [] ->
  Forall op_admissible ops ->
  let updates := ops ≫= op_updates in
  (size (overlay updates (pt_view (table s))) <= pt_capacity)%nat ->
  pt_view (table (perf_optimizer_cleanup now (perf_run ops s))) =
  pt_view (write_pending updates (table s)).
Proof.
  intros Hok Hon Hn Ha updates Hsz.
  assert (Hbt : batching s) by (split; [done|done|]; unfold pids_positive; by rewrite Hn).
  assert (He : effective s = pt_view (table s)) by (unfold effective; by rewrite Hn).
  rewrite <- He in Hsz. destruct (batching_run ops s Hbt Ha Hsz) as [Hb1 He1].
  rewrite write_pending_view, <- He; [|apply Hok| |by rewrite <- He].
  - fold updates in He1. rewrite <- He1. apply (flush_view now (set_running false (perf_run ops s))).
    + by destruct (bt_ok _ Hb1).
    + apply Hb1.
    + change (effective (set_running false (perf_run ops s))) with (effective (perf_run ops s)).
      by rewrite He1.
  - unfold updates. clear -Ha. induction Ha as [|op ops Hop Ha IH]; csimpl; [constructor|].
    apply Forall_app. split; [|done]. destruct op; simpl in *; try constructor.
    destruct usage; by repeat constructor.
Qed.

(** ** Where batching is visible *)

(** A batch update that meets an empty buffer. *)
Lemma batch_first s now pid u :
  perf_ok s -> g_batching_enabled s = true -> pending (g_batch_buffer s) = [] ->
  let s' := (perf_optimizer_batch_update_resource now pid (Some u) s).2 in
  perf_ok s' /\ pending (g_batch_buffer s') = [(pid, u)] /\ table s' = table s.
Proof.
  intros Hok Hon Hn s'. pose proof (pk_batch _ Hok) as Hb.
  assert (Hc0 : count (g_batch_buffer s) = 0).
  { pose proof (pending_len _ Hb) as Hl. pose proof (bk_count _ Hb).
    rewrite Hn in Hl. simpl in Hl. lia. }
  split; [by apply batch_update_ok|].
  pose proof (pending_append _ Hb pid u) as Ha. rewrite Hc0, Hn, CACHE_BUCKET_COUNT_eq in Ha.
  specialize (Ha ltac:(lia)). unfold s', perf_optimizer_batch_update_resource, batch_place.
  rewrite Hon, Hc0, CACHE_BUCKET_COUNT_eq. change (take (Z.to_nat 0) _) with (@nil Z).
  cbn [negb find_idx].
  change (0 <? Z.of_nat 256) with true. cbn [snd].
  destruct (update_cached_frame now pid (Some u) (set_batch (store_pending (Z.to_nat 0)
    pid u (i32 (0 + 1)) (g_batch_buffer s)) s)) as (_ & Fb & Ft).
  { apply set_batch_pok; [done|]. apply batch_ok_store; [done| |].
    - rewrite i32_small, CACHE_BUCKET_COUNT_eq; lia.
    - rewrite Ha. apply NoDup_singleton. }
  unfold batch_finish, count_batched. cbn [g_batch_buffer set_stats table].
  by rewrite Fb, Ft.
Qed.

(** The last flush, when one update waits. *)
Lemma cleanup_single now s pid u :
  perf_ok s -> pending (g_batch_buffer s) = [(pid, u)] -> 0 < pid ->
  (size (<[pid:=u]> (pt_view (table s))) <= pt_capacity)%nat ->
  pt_view (table (perf_optimizer_cleanup now s)) = <[pid:=u]> (pt_view (table s)).
Proof.
  intros Hok Hp Hpid Hsz. destruct (flush_view now (set_running false s)) as [Hv _].
  - by destruct Hok.
  - unfold pids_positive. simpl. rewrite Hp. by repeat constructor.
  - unfold effective. simpl. by rewrite Hp.
  - unfold perf_optimizer_cleanup. rewrite Hv. unfold effective. simpl. by rewrite Hp.
Qed.

(** Switching the batching off does not flush the buffer: an update that
    waits in it is written after, and over, the direct updates that follow.
    With usage [u1] of a process batched, the batching switched off and [u2]
    recorded by a direct update that succeeds, the clean-up leaves the table
    with the older [u1]. *)
Theorem disable_batching_stale s now pid u1 u2 :
  perf_ok s -> g_batching_enabled s = true -> pending (g_batch_buffer s) = [] -> 0 < pid ->
  (size (pt_view (table s)) < pt_capacity)%nat ->
  let s1 := (perf_optimizer_batch_update_resource now pid (Some u1) s).2 in
  let s2 := perf_optimizer_enable_batching false s1 in
  let '(rc, s3) := perf_optimizer_batch_update_resource now pid (Some u2) s2 in
  rc = 0 /\ pt_view (table s3) !! pid = Some u2 /\
  pt_view (table (perf_optimizer_cleanup now s3)) !! pid = Some u1.
Proof.
  intros Hok Hon Hn Hpid Hsz. cbn zeta.
  destruct (batch_first s now pid u1) as (H1 & Hp1 & Ht1); [done..|].
  set (s1 := (perf_optimizer_batch_update_resource now pid (Some u1) s).2) in *.
  destruct (pt_update_bind (table s) pid u2) as [Hrc Hv]; [apply Hok|done|by right|].
  pose proof (pt_update_ok (table s) pid (Some u2) (pk_table s Hok)) as Ht.
  pose proof (pt_view_size _ Ht) as Hsz2. cbn. rewrite Ht1.
  destruct (pt_update (table s) pid (Some u2)) as [rc t]. cbn [fst snd] in *.
  split_and!; [done|simpl; by rewrite Hv, lookup_insert_eq|].
  rewrite (cleanup_single now _ pid u1); simpl; [by rewrite lookup_insert_eq|..|done|].
  - destruct H1. by split.
  - done.
  - rewrite map_size_insert_Some; [done|]. rewrite Hv, lookup_insert_eq. eauto.
Qed.

(** C38. A full buffer loses updates under concurrency.  A thread that finds the
    buffer full flushes it without holding the mutex and then stores its own
    update at index 0 with the count set to 1.  When another thread's batch
    update of process [q] runs in between, that call returns 0 and its update
    sits in the buffer, but the first thread's store erases it: after the next
    clean-up the table's entry of [q] is what it was before the call. *)
Theorem full_buffer_race s now p up q uq :
  perf_ok s -> g_batching_enabled s = true ->
  batch_place p up (g_batch_buffer s) = None -> p <> q -> 0 < p ->
  let s1 := perf_optimizer_flush_batch_buffer now s in
  (size (pt_view (table s1)) < pt_capacity)%nat ->
  let '(rc, s2) := perf_optimizer_batch_update_resource now q (Some uq) s1 in
  let s3 := perf_exec (OpRetry now p up) s2 in
  rc = 0 /\ pending (g_batch_buffer s2) = [(q, uq)] /\
  pt_view (table (perf_optimizer_cleanup now s3)) !! q = pt_view (table s1) !! q /\
  pt_view (table (perf_optimizer_cleanup now s3)) !! p = Some up.
Proof.
  intros Hok Hon Hfull Hne Hp s1 Hsz. assert (H1 : perf_ok s1) by by apply flush_ok.
  assert (Hn1 : pending (g_batch_buffer s1) = []).
  { unfold s1, perf_optimizer_flush_batch_buffer. destruct (_ =? 0) eqn:E; [|done].
    tests. unfold pending. by rewrite E. }
  assert (Hon1 : g_batching_enabled s1 = true)
    by (unfold s1; destruct (flush_keeps_flags now s) as (_ & _ & ->); done).
  destruct (batch_first s1 now q uq) as (H2 & Hp2 & Ht2); [done..|].
  assert (Hrc : (perf_optimizer_batch_update_resource now q (Some uq) s1).1 = 0).
  { unfold perf_optimizer_batch_update_resource. rewrite Hon1. simpl.
    destruct (batch_place q uq (g_batch_buffer s1)); reflexivity. }
  destruct (perf_optimizer_batch_update_resource now q (Some uq) s1) as [rc s2].
  simpl in Hrc, H2, Hp2, Ht2. cbn zeta. subst rc. split; [done|]. split; [done|].
  pose proof (batch_retry_ok _ p up (pk_batch _ H2)) as Hr.
  destruct (update_cached_frame now p (Some up) (set_batch (batch_retry p up (g_batch_buffer s2)) s2))
    as (_ & Fb & Ft); [by apply set_batch_pok|].
  rewrite (cleanup_single now _ p up); [..|done|].
  - cbn [perf_exec]. unfold batch_finish, count_batched. cbn [table set_stats].
    rewrite Ft. simpl. rewrite Ht2. by rewrite lookup_insert_ne, lookup_insert_eq by done.
  - by apply (perf_exec_ok (OpRetry now p up)).
  - cbn [perf_exec]. unfold batch_finish, count_batched. cbn [g_batch_buffer set_stats].
    rewrite Fb. simpl. apply pending_retry, H2.
  - cbn [perf_exec]. unfold batch_finish, count_batched. cbn [table set_stats].
    rewrite Ft. simpl. rewrite Ht2. destruct (pt_view (table s1) !! p) eqn:E.
    + rewrite map_size_insert_Some by eauto. lia.
    + rewrite map_size_insert_None by done. lia.
Qed.

(** A batch update of a pid that is not positive reports success, although the
    direct update it stands for returns -1, and the flush drops it. *)
Theorem batch_bad_pid s now pid u :
  perf_ok s -> g_batching_enabled s = true -> pending (g_batch_buffer s) = [] -> pid <= 0 ->
  let '(rc, s') := perf_optimizer_batch_update_resource now pid (Some u) s in
  rc = 0 /\ pt_update (table s) pid (Some u) = (-1, table s) /\
  table (perf_optimizer_cleanup now s') = table s.
Proof.
  intros Hok Hon Hn Hpid. destruct (batch_first s now pid u) as (_ & Hp & Ht); [done..|].
  assert (Hrc : (perf_optimizer_batch_update_resource now pid (Some u) s).1 = 0).
  { unfold perf_optimizer_batch_update_resource. rewrite Hon. simpl.
    destruct (batch_place pid u (g_batch_buffer s)); reflexivity. }
  destruct (perf_optimizer_batch_update_resource now pid (Some u) s) as [rc s'].
  simpl in *. split_and!; [done|by apply pt_update_bad_pid|].
  unfold perf_optimizer_cleanup, perf_optimizer_flush_batch_buffer. simpl.
  destruct (count _ =? 0); [done|]. simpl. rewrite Hp, Ht. simpl.
  by rewrite pt_update_bad_pid.
Qed.

(** ** The fast check *)

(** What the fast check decides.  Within one time to live of a usage record
    being stored for a process, the check of its QPs ignores the count the
    caller passes and admits a request exactly when the recorded count plus
    the request is within the limit, or when that sum wraps around 32 bits and
    what is left of it is.  The second case admits requests that no limit can
    mean to admit, such as 2^32 - 1 more QPs with one QP in use. *)
Theorem check_fast_cached s t start finish now pid u cur req limit :
  perf_ok s -> g_cache_enabled s = true -> u64 (now - t) <= ttl_ms (g_cache s) ->
  0 <= qp_count u < 2 ^ 31 -> 0 <= req < 2 ^ 32 ->
  let s' := perf_optimizer_update_cached_resources t pid (Some u) s in
  (perf_optimizer_check_resource_fast start finish now pid 0 cur req limit s').1 = true <->
  qp_count u + req < 2 ^ 32 /\ qp_count u + req <= limit \/
  2 ^ 32 <= qp_count u + req /\ qp_count u + req - 2 ^ 32 <= limit.
Proof.
  intros Hok Hon Htt Hu Hr. cbn zeta. pose proof (pk_cache s Hok) as Hc.
  rewrite update_cached_eq, Hon by done. unfold perf_optimizer_check_resource_fast.
  rewrite get_cached_eq by (by apply put_entry_ok).
  change (entry_at (hash_pid pid) (count_operation ?s)) with (entry_at (hash_pid pid) s).
  rewrite entry_at_put by by apply hash_in_range. cbn [ce_last_update ce_usage].
  change (g_cache_enabled (count_operation (put_entry _ _ s))) with (g_cache_enabled s).
  change (ttl_ms (g_cache (count_operation (put_entry _ _ s)))) with (ttl_ms (g_cache s)).
  rewrite Hon. unfold entry_matches. simpl. rewrite Z.eqb_refl. simpl.
  replace (ttl_ms (g_cache s) <? _) with false by lia. simpl.
  rewrite (u32_small (qp_count u)) by lia. rewrite Z.leb_le.
  destruct (Z_lt_ge_dec (qp_count u + req) (2 ^ 32)).
  - rewrite u32_small by lia. lia.
  - replace (u32 (qp_count u + req)) with (qp_count u + req - 2 ^ 32); [lia|].
    unfold u32. rewrite <- (Z.mod_small (qp_count u + req - 2 ^ 32) (2 ^ 32)) by lia.
    rewrite <- (Z.mod_add (qp_count u + req - 2 ^ 32) 1) by lia. f_equal. lia.
Qed.
End results.

(** ** Witnesses, over the shared segment *)

(** The static variables before [perf_optimizer_init]. *)
Definition static_perf {T} (t : T) : perf_state T :=
  mk_perf (mk_cache (replicate CACHE_BUCKET_COUNT zero_entry) 0 0 0 0)
    (mk_batch (replicate CACHE_BUCKET_COUNT zero_usage) (replicate CACHE_BUCKET_COUNT 0) 0 0 0)
    zero_pstats false true true 0 t.

#[local] Instance demo_table : ProcessTable shared_memory_data := shm_table (fun _ => None) 9.
#[local] Instance demo_laws : ProcessTableLaws shared_memory_data := shm_table_laws (fun _ => None) 9.

Definition demo_perf : perf_state shared_memory_data :=
  (perf_optimizer_init 5 true (static_perf (shm_reset 7 zero_shm))).2.

Lemma demo_perf_ok : perf_ok demo_perf.
Proof. apply init_ok; [apply zero_shm_reset_ok|simpl; lia]. Qed.

Lemma perf_reachable_ok_witness :
  perf_ok (perf_run [OpBatch 10 42 (Some demo_usage); OpTick 60; OpSetTtl 5; OpAdapt] demo_perf).
Proof.
  apply (perf_reachable_ok 5 true _ (static_perf (shm_reset 7 zero_shm)));
    [apply zero_shm_reset_ok|simpl; lia].
Defined.

Definition demo_ops : list perf_op :=
  [OpBatch 10 42 (Some demo_usage); OpCheck 0 1 20 42 0 0 5 10; OpTick 60;
   OpBatch 70 43 (Some demo_usage); OpBatch 80 42 (Some (mk_usage 4 2 4096))].

Lemma cache_coherent_witness :
  exists t : Z, run_log demo_ops demo_perf ∅ !! 42 = Some (mk_usage 4 2 4096, t) /\
    u64 (170 - t) <= ttl_ms (g_cache (perf_run demo_ops demo_perf)).
Proof.
  apply (cache_coherent 5 true demo_ops (static_perf (shm_reset 7 zero_shm)) 170 42
    (mk_usage 4 2 4096)
    (perf_optimizer_get_cached_resources 170 42 true (perf_run demo_ops demo_perf)).2).
  - apply zero_shm_reset_ok.
  - simpl. lia.
  - vm_compute. reflexivity.
Defined.

Lemma batching_equivalent_witness :
  pt_view (table (perf_optimizer_cleanup 100 (perf_run demo_ops demo_perf))) =
  pt_view (write_pending (demo_ops ≫= op_updates) (table demo_perf)).
Proof.
  pose proof (batching_equivalent demo_ops demo_perf 100) as H. apply H; clear H.
  - apply demo_perf_ok.
  - reflexivity.
  - reflexivity.
  - repeat constructor.
  - vm_compute. lia.
Defined.

Lemma disable_batching_stale_witness :
  let s1 := (perf_optimizer_batch_update_resource 10 42 (Some demo_usage) demo_perf).2 in
  let s2 := perf_optimizer_enable_batching false s1 in
  let '(rc, s3) := perf_optimizer_batch_update_resource 10 42 (Some zero_usage) s2 in
  rc = 0 /\ pt_view (table s3) !! 42 = Some zero_usage /\
  pt_view (table (perf_optimizer_cleanup 10 s3)) !! 42 = Some demo_usage.
Proof.
  pose proof (disable_batching_stale demo_perf 10 42 demo_usage zero_usage) as H.
  apply H; clear H.
  - apply demo_perf_ok.
  - reflexivity.
  - reflexivity.
  - lia.
  - vm_compute. lia.
Defined.

(** A buffer with the updates of the processes 1 to 256. *)
Definition full_perf : perf_state shared_memory_data :=
  perf_run ((fun i => OpBatch 10 (Z.of_nat i) (Some demo_usage)) <$> seq 1 256) demo_perf.

Lemma full_buffer_race_witness :
  let s1 := perf_optimizer_flush_batch_buffer 10 full_perf in
  let '(rc, s2) := perf_optimizer_batch_update_resource 10 301 (Some demo_usage) s1 in
  let s3 := perf_exec (OpRetry 10 300 demo_usage) s2 in
  rc = 0 /\ pending (g_batch_buffer s2) = [(301, demo_usage)] /\
  pt_view (table (perf_optimizer_cleanup 10 s3)) !! 301 = pt_view (table s1) !! 301 /\
  pt_view (table (perf_optimizer_cleanup 10 s3)) !! 300 = Some demo_usage.
Proof.
  pose proof (full_buffer_race full_perf 10 300 demo_usage 301 demo_usage) as H.
  apply H; clear H.
  - apply perf_run_ok, demo_perf_ok.
  - vm_compute. reflexivity.
  - vm_compute. reflexivity.
  - lia.
  - lia.
  - vm_compute. lia.
Defined.

Lemma check_fast_cached_witness :
  (perf_optimizer_check_resource_fast 0 1 50 42 0 0 (2 ^ 32 - 1) 10
     (perf_optimizer_update_cached_resources 10 42 (Some (mk_usage 1 0 0)) demo_perf)).1 = true.
Proof.
  apply (check_fast_cached demo_perf 10 0 1 50 42 (mk_usage 1 0 0) 0 (2 ^ 32 - 1) 10).
  - apply demo_perf_ok.
  - reflexivity.
  - vm_compute. discriminate.
  - simpl. lia.
  - lia.
  - simpl. right. lia.
Defined.
