(* ===== verification/TenantShm.v ===== *)
(** * The tenant table: src/src/shm/shared_memory_tenant.{h,c}

    The second shared segment: up to 128 tenants with their status, quota and
    usage, and the map from processes to tenants.  Every function of
    shared_memory_tenant.c is a definition here.  [ptr] is whether
    [tenant_shm_get_ptr] gave a mapping, [now] the clock reading of the call
    and an [option] argument a pointer that may be NULL.  Functions that only
    read take and release the lock like the others, and the release itself
    writes the version and the time stamp, so they return a new segment too. *)

From S2P Require Import Prelude CString Shm.
From stdpp Require Import base numbers list gmap strings.
#[local] Open Scope Z_scope.

Definition MAX_TENANTS : nat := 128.
Definition TENANT_NAME_MAX : nat := 64.

(** ** Data *)

Inductive tenant_status :=
  | TENANT_STATUS_INACTIVE
  | TENANT_STATUS_ACTIVE
  | TENANT_STATUS_SUSPENDED.

#[export] Instance tenant_status_eq_dec : EqDecision tenant_status.
Proof. solve_decision. Defined.

Record tenant_quota := mk_quota {
  max_qp_per_tenant : Z;
  max_mr_per_tenant : Z;
  max_memory_per_tenant : Z;
  max_cq_per_tenant : Z;
  max_pd_per_tenant : Z
}.

Record tenant_resource_usage := mk_tusage {
  t_qp_count : Z;
  t_mr_count : Z;
  t_cq_count : Z;
  t_pd_count : Z;
  t_memory_used : Z;
  total_qp_creates : Z;
  total_qp_destroys : Z;
  total_mr_regs : Z;
  total_mr_deregs : Z
}.

Record tenant_info := mk_tenant {
  tenant_id : Z;
  tenant_name : string;
  status : tenant_status;
  quota : tenant_quota;
  usage : tenant_resource_usage;
  created_at : Z;
  last_active_at : Z;
  process_count : Z;
  processes : list Z
}.

Record pid_tenant_mapping := mk_mapping {
  m_pid : Z;
  m_tenant_id : Z;
  mapped_at : Z
}.

Record tenant_shared_memory := mk_tshm {
  tenants : list tenant_info;
  pid_mappings : list pid_tenant_mapping;
  active_tenant_count : Z;
  total_process_count : Z;
  tenant_lock_word : Z;
  t_version : Z;
  t_last_update_time : Z
}.

Definition zero_quota : tenant_quota := mk_quota 0 0 0 0 0.
Definition zero_tusage : tenant_resource_usage := mk_tusage 0 0 0 0 0 0 0 0 0.
Definition zero_tenant : tenant_info :=
  mk_tenant 0 ""%string TENANT_STATUS_INACTIVE zero_quota zero_tusage 0 0 0
    (replicate MAX_PROCESSES 0).
Definition zero_mapping : pid_tenant_mapping := mk_mapping 0 0 0.

#[export] Instance tenant_info_inhabited : Inhabited tenant_info := populate zero_tenant.
#[export] Instance mapping_inhabited : Inhabited pid_tenant_mapping := populate zero_mapping.
#[export] Instance tenant_usage_eq_dec : EqDecision tenant_resource_usage.
Proof. solve_decision. Defined.

(** Assignments to fields. *)
Definition set_status (st : tenant_status) (t : tenant_info) :=
  mk_tenant (tenant_id t) (tenant_name t) st (quota t) (usage t) (created_at t)
    (last_active_at t) (process_count t) (processes t).
Definition set_quota (q : tenant_quota) (t : tenant_info) :=
  mk_tenant (tenant_id t) (tenant_name t) (status t) q (usage t) (created_at t)
    (last_active_at t) (process_count t) (processes t).
Definition set_usage (u : tenant_resource_usage) (t : tenant_info) :=
  mk_tenant (tenant_id t) (tenant_name t) (status t) (quota t) u (created_at t)
    (last_active_at t) (process_count t) (processes t).
Definition set_active_at (now : Z) (t : tenant_info) :=
  mk_tenant (tenant_id t) (tenant_name t) (status t) (quota t) (usage t)
    (created_at t) now (process_count t) (processes t).
Definition set_procs (n : Z) (ps : list Z) (t : tenant_info) :=
  mk_tenant (tenant_id t) (tenant_name t) (status t) (quota t) (usage t)
    (created_at t) (last_active_at t) n ps.

Definition set_tenant (i : nat) (t : tenant_info) (s : tenant_shared_memory) :=
  mk_tshm (<[i:=t]> (tenants s)) (pid_mappings s) (active_tenant_count s)
    (total_process_count s) (tenant_lock_word s) (t_version s) (t_last_update_time s).
Definition set_mappings (ms : list pid_tenant_mapping) (total : Z)
    (s : tenant_shared_memory) :=
  mk_tshm (tenants s) ms (active_tenant_count s) total (tenant_lock_word s)
    (t_version s) (t_last_update_time s).
Definition set_active_count (n : Z) (s : tenant_shared_memory) :=
  mk_tshm (tenants s) (pid_mappings s) n (total_process_count s)
    (tenant_lock_word s) (t_version s) (t_last_update_time s).

Definition is_inactive (t : tenant_info) : bool :=
  match status t with TENANT_STATUS_INACTIVE => true | _ => false end.
Definition is_active (t : tenant_info) : bool :=
  match status t with TENANT_STATUS_ACTIVE => true | _ => false end.

(** ** Locking *)

Definition tenant_shm_lock (s : tenant_shared_memory) :=
  mk_tshm (tenants s) (pid_mappings s) (active_tenant_count s)
    (total_process_count s) 1 (t_version s) (t_last_update_time s).

(** The release stores 0 in the lock word and only then bumps the version. *)
Definition tenant_shm_unlock (now : Z) (s : tenant_shared_memory) :=
  mk_tshm (tenants s) (pid_mappings s) (active_tenant_count s)
    (total_process_count s) 0 (u64 (t_version s + 1)) now.

(** ** Start-up and tear-down *)

Definition zero_tshm : tenant_shared_memory :=
  mk_tshm (replicate MAX_TENANTS zero_tenant)
    (replicate MAX_PROCESSES zero_mapping) 0 0 0 0 0.

(** [memset] to zero, then version 1 and the time. *)
Definition fresh_tshm (now : Z) : tenant_shared_memory :=
  mk_tshm (replicate MAX_TENANTS zero_tenant)
    (replicate MAX_PROCESSES zero_mapping) 0 0 0 1 now.

(** [sys_fstat] of the start-up: fstat succeeds and reports the full size. *)
Definition tenant_shm_init (sys : shm_sys) (sys_fstat : bool) (now : Z)
    (h : shm_handle) (obj : option tenant_shared_memory)
    : Z * shm_handle * option tenant_shared_memory :=
  if shm_data_ptr h then (0, h, obj)
  else if sys_shm_open sys <? 0
  then (-1, mk_handle (sys_shm_open sys) false, obj)
  else if sys_ftruncate sys <? 0 then (-1, mk_handle (-1) false, obj)
  else
    let s := default zero_tshm obj in
    if negb (sys_mmap sys) then (-1, mk_handle (-1) false, Some s)
    else
      let h := mk_handle (sys_shm_open sys) true in
      if sys_fstat && (t_version s =? 0) then (0, h, Some (fresh_tshm now))
      else (0, h, Some s).

Definition tenant_shm_destroy (h : shm_handle) (obj : option tenant_shared_memory)
    : Z * shm_handle * option tenant_shared_memory :=
  if negb (shm_data_ptr h) then (0, h, obj) else (0, mk_handle (-1) false, None).

(** The pointer is obtained by initialising on first use. *)
Definition tenant_shm_get_ptr (sys : shm_sys) (sys_fstat : bool) (now : Z)
    (h : shm_handle) (obj : option tenant_shared_memory)
    : bool * shm_handle * option tenant_shared_memory :=
  if shm_data_ptr h then (true, h, obj)
  else let '(_, h, obj) := tenant_shm_init sys sys_fstat now h obj in
       (shm_data_ptr h, h, obj).

(** ** Operations *)

Section ops.
Context (ptr : bool) (now : Z).

Definition default_quota : tenant_quota :=
  mk_quota 100 1000 (1024 * 1024 * 1024) 100 100.

Definition tenant_create (s : tenant_shared_memory) (tid : Z)
    (name : option string) (q : option tenant_quota) : Z * tenant_shared_memory :=
  if (tid =? 0) || (Z.of_nat MAX_TENANTS <=? tid) then (-1, s)
  else if negb ptr then (-1, s)
  else
    let s := tenant_shm_lock s in
    let i := Z.to_nat tid in
    if negb (is_inactive (tenants s !!! i)) then (-1, tenant_shm_unlock now s)
    else
      let t := mk_tenant tid
                 (String.substring 0 (TENANT_NAME_MAX - 1) (default "unnamed"%string name))
                 TENANT_STATUS_ACTIVE (default default_quota q) zero_tusage
                 now now 0 (replicate MAX_PROCESSES 0) in
      let s := set_tenant i t s in
      let s := set_active_count (u32 (active_tenant_count s + 1)) s in
      (0, tenant_shm_unlock now s).

(** The loop that unbinds every process of the tenant. *)
Fixpoint clear_mappings (tid : Z) (ms : list pid_tenant_mapping) (total : Z)
    : list pid_tenant_mapping * Z :=
  match ms with
  | [] => ([], total)
  | m :: ms =>
      let hit := m_tenant_id m =? tid in
      let '(ms, total) :=
        clear_mappings tid ms (if hit then u32 (total - 1) else total) in
      ((if hit then mk_mapping 0 0 (mapped_at m) else m) :: ms, total)
  end.

Definition tenant_delete (s : tenant_shared_memory) (tid : Z)
    : Z * tenant_shared_memory :=
  if (tid =? 0) || (Z.of_nat MAX_TENANTS <=? tid) then (-1, s)
  else if negb ptr then (-1, s)
  else
    let s := tenant_shm_lock s in
    let i := Z.to_nat tid in
    let t := tenants s !!! i in
    if is_inactive t then (-1, tenant_shm_unlock now s)
    else
      let '(ms, total) := clear_mappings tid (pid_mappings s) (total_process_count s) in
      let s := set_mappings ms total s in
      let s := set_tenant i (set_procs 0 (processes t)
                               (set_status TENANT_STATUS_INACTIVE t)) s in
      let s := set_active_count (u32 (active_tenant_count s - 1)) s in
      (0, tenant_shm_unlock now s).

(** Return code and the copied record. *)
Definition tenant_get_info (s : tenant_shared_memory) (tid : Z)
    : Z * tenant_info * tenant_shared_memory :=
  if Z.of_nat MAX_TENANTS <=? tid then (-1, zero_tenant, s)
  else if negb ptr then (-1, zero_tenant, s)
  else
    let s := tenant_shm_lock s in
    let t := tenants s !!! Z.to_nat tid in
    ((if is_inactive t then -1 else 0), t, tenant_shm_unlock now s).

Definition tenant_set_status (s : tenant_shared_memory) (tid : Z)
    (st : tenant_status) : Z * tenant_shared_memory :=
  if Z.of_nat MAX_TENANTS <=? tid then (-1, s)
  else if negb ptr then (-1, s)
  else
    let s := tenant_shm_lock s in
    let i := Z.to_nat tid in
    let t := tenants s !!! i in
    if is_inactive t then (-1, tenant_shm_unlock now s)
    else (0, tenant_shm_unlock now
               (set_tenant i (set_active_at now (set_status st t)) s)).

Definition tenant_update_quota (s : tenant_shared_memory) (tid : Z)
    (q : option tenant_quota) : Z * tenant_shared_memory :=
  match q with
  | None => (-1, s)
  | Some q =>
      if Z.of_nat MAX_TENANTS <=? tid then (-1, s)
      else if negb ptr then (-1, s)
      else
        let s := tenant_shm_lock s in
        let i := Z.to_nat tid in
        let t := tenants s !!! i in
        if is_inactive t then (-1, tenant_shm_unlock now s)
        else (0, tenant_shm_unlock now
                   (set_tenant i (set_active_at now (set_quota q t)) s))
  end.

(** Put [pid] in the first zero entry of a process list, if there is one. *)
Definition add_process (ps : list Z) (pid : Z) : list Z :=
  match find_idx (fun p => p =? 0) ps with
  | Some j => <[j:=pid]> ps
  | None => ps
  end.

Definition tenant_bind_process (s : tenant_shared_memory) (pid tid : Z)
    : Z * tenant_shared_memory :=
  if Z.of_nat MAX_TENANTS <=? tid then (-1, s)
  else if negb ptr then (-1, s)
  else
    let s := tenant_shm_lock s in
    let i := Z.to_nat tid in
    let t := tenants s !!! i in
    if negb (is_active t) then (-1, tenant_shm_unlock now s)
    else
      match scan_slot (fun m => m_pid m =? pid) (fun m => m_pid m =? 0)
              (pid_mappings s) 0 None with
      | (Some idx, _) =>
          let s := set_mappings (<[idx:=mk_mapping pid tid now]> (pid_mappings s))
                     (total_process_count s) s in
          (0, tenant_shm_unlock now (set_tenant i (set_active_at now t) s))
      | (None, Some idx) =>
          let s := set_mappings (<[idx:=mk_mapping pid tid now]> (pid_mappings s))
                     (u32 (total_process_count s + 1)) s in
          let t := set_procs (u32 (process_count t + 1))
                     (add_process (processes t) pid) t in
          (0, tenant_shm_unlock now (set_tenant i (set_active_at now t) s))
      | (None, None) => (-1, tenant_shm_unlock now s)
      end.

(** Zero the first entry of a process list that holds [pid]. *)
Definition remove_process (ps : list Z) (pid : Z) : list Z :=
  match find_idx (fun p => p =? pid) ps with
  | Some j => <[j:=0]> ps
  | None => ps
  end.

Definition tenant_unbind_process (s : tenant_shared_memory) (pid : Z)
    : Z * tenant_shared_memory :=
  if negb ptr then (-1, s)
  else
    let s := tenant_shm_lock s in
    match find_idx (fun m => m_pid m =? pid) (pid_mappings s) with
    | Some idx =>
        let m := pid_mappings s !!! idx in
        let i := Z.to_nat (m_tenant_id m) in
        let t := tenants s !!! i in
        let n := if 0 <? process_count t then u32 (process_count t - 1)
                 else process_count t in
        let s := set_tenant i (set_procs n (remove_process (processes t) pid) t) s in
        let total := if 0 <? total_process_count s
                     then u32 (total_process_count s - 1)
                     else total_process_count s in
        let s := set_mappings
                   (<[idx:=mk_mapping 0 0 (mapped_at m)]> (pid_mappings s)) total s in
        (0, tenant_shm_unlock now s)
    | None => (-1, tenant_shm_unlock now s)
    end.

(** Return code and the tenant id stored through the pointer. *)
Definition tenant_get_process_tenant (s : tenant_shared_memory) (pid : Z)
    : Z * Z * tenant_shared_memory :=
  if negb ptr then (-1, 0, s)
  else
    let s := tenant_shm_lock s in
    match find_idx (fun m => m_pid m =? pid) (pid_mappings s) with
    | Some idx => (0, m_tenant_id (pid_mappings s !!! idx), tenant_shm_unlock now s)
    | None => (-1, 0, tenant_shm_unlock now s)
    end.

Definition tenant_update_resource_usage (s : tenant_shared_memory) (tid : Z)
    (u : option tenant_resource_usage) : Z * tenant_shared_memory :=
  match u with
  | None => (-1, s)
  | Some u =>
      if Z.of_nat MAX_TENANTS <=? tid then (-1, s)
      else if negb ptr then (-1, s)
      else
        let s := tenant_shm_lock s in
        let i := Z.to_nat tid in
        let t := tenants s !!! i in
        if negb (is_active t) then (-1, tenant_shm_unlock now s)
        else (0, tenant_shm_unlock now
                   (set_tenant i (set_active_at now (set_usage u t)) s))
  end.

Definition tenant_get_resource_usage (s : tenant_shared_memory) (tid : Z)
    : Z * tenant_resource_usage * tenant_shared_memory :=
  if Z.of_nat MAX_TENANTS <=? tid then (-1, zero_tusage, s)
  else if negb ptr then (-1, zero_tusage, s)
  else
    let s := tenant_shm_lock s in
    let t := tenants s !!! Z.to_nat tid in
    if negb (is_active t) then (-1, zero_tusage, tenant_shm_unlock now s)
    else (0, usage t, tenant_shm_unlock now s).

(** [int + uint32_t] is computed in [uint32_t]; the memory test in
    [uint64_t]. *)
Definition limit_exceeded (t : tenant_info) (resource_type requested : Z) : bool :=
  if resource_type =? 0
  then max_qp_per_tenant (quota t) <? u32 (u32 (t_qp_count (usage t)) + requested)
  else if resource_type =? 1
  then max_mr_per_tenant (quota t) <? u32 (u32 (t_mr_count (usage t)) + requested)
  else if resource_type =? 2
  then max_memory_per_tenant (quota t) <? u64 (t_memory_used (usage t) + requested)
  else if resource_type =? 3
  then max_cq_per_tenant (quota t) <? u32 (u32 (t_cq_count (usage t)) + requested)
  else if resource_type =? 4
  then max_pd_per_tenant (quota t) <? u32 (u32 (t_pd_count (usage t)) + requested)
  else false.

Definition tenant_check_resource_limit (s : tenant_shared_memory)
    (tid resource_type requested_amount : Z) : bool * tenant_shared_memory :=
  if Z.of_nat MAX_TENANTS <=? tid then (false, s)
  else if negb ptr then (false, s)
  else
    let s := tenant_shm_lock s in
    let t := tenants s !!! Z.to_nat tid in
    if negb (is_active t) then (true, tenant_shm_unlock now s)
    else (limit_exceeded t resource_type requested_amount, tenant_shm_unlock now s).

(** [usage.qp_count++; usage.total_qp_creates++]. *)
Definition charge_qp (u : tenant_resource_usage) : tenant_resource_usage :=
  mk_tusage (i32 (t_qp_count u + 1)) (t_mr_count u) (t_cq_count u) (t_pd_count u)
    (t_memory_used u) (u64 (total_qp_creates u + 1)) (total_qp_destroys u)
    (total_mr_regs u) (total_mr_deregs u).

(** [if (usage.qp_count < 0) usage.qp_count = 0]. *)
Definition clamp_qp (u : tenant_resource_usage) : tenant_resource_usage :=
  if t_qp_count u <? 0
  then mk_tusage 0 (t_mr_count u) (t_cq_count u) (t_pd_count u) (t_memory_used u)
         (total_qp_creates u) (total_qp_destroys u) (total_mr_regs u)
         (total_mr_deregs u)
  else u.

Definition tenant_try_allocate_qp (s : tenant_shared_memory) (tid : Z)
    : bool * tenant_shared_memory :=
  if Z.of_nat MAX_TENANTS <=? tid then (false, s)
  else if negb ptr then (false, s)
  else
    let s := tenant_shm_lock s in
    let i := Z.to_nat tid in
    let t := tenants s !!! i in
    if negb (is_active t) then (false, tenant_shm_unlock now s)
    else
      let u := clamp_qp (usage t) in
      let t := set_usage u t in
      if max_qp_per_tenant (quota t) <=? u32 (t_qp_count u)
      then (false, tenant_shm_unlock now (set_tenant i t s))
      else (true, tenant_shm_unlock now
                    (set_tenant i (set_active_at now (set_usage (charge_qp u) t)) s)).

(** The list is what is stored in the caller's array; its length is the
    return value. *)
Definition tenant_get_active_list (s : tenant_shared_memory) (max_count : Z)
    : Z * list tenant_info * tenant_shared_memory :=
  if max_count <=? 0 then (-1, [], s)
  else if negb ptr then (-1, [], s)
  else
    let s := tenant_shm_lock s in
    let l := take (Z.to_nat max_count) (filter (fun t => is_active t = true) (tenants s)) in
    (Z.of_nat (length l), l, tenant_shm_unlock now s).

Definition tenant_get_statistics (s : tenant_shared_memory) (tid : Z)
    : Z * Z * Z * tenant_shared_memory :=
  if Z.of_nat MAX_TENANTS <=? tid then (-1, 0, 0, s)
  else if negb ptr then (-1, 0, 0, s)
  else
    let s := tenant_shm_lock s in
    let t := tenants s !!! Z.to_nat tid in
    if negb (is_active t) then (-1, 0, 0, tenant_shm_unlock now s)
    else (0, total_qp_creates (usage t), total_mr_regs (usage t), tenant_shm_unlock now s).

(** The debug dump prints the active tenants under the lock. *)
Definition tenant_print_all (s : tenant_shared_memory)
    : list tenant_info * tenant_shared_memory :=
  if negb ptr then ([], s)
  else
    let s := tenant_shm_lock s in
    (filter (fun t => is_active t = true) (tenants s), tenant_shm_unlock now s).
End ops.

(** * Theorems *)

#[global] Opaque MAX_TENANTS.

(** ** The invariant of the tenant table *)

Definition bound (m : pid_tenant_mapping) : bool := negb (m_pid m =? 0).
Definition exists_tenant (t : tenant_info) : bool := negb (is_inactive t).

(** [intact]: no existing tenant was set INACTIVE by [tenant_set_status], which
    neither takes it out of the statistics nor releases its processes. *)
Record tenant_wf (intact : bool) (ts : list tenant_info) (ms : list pid_tenant_mapping)
    (active total : Z) : Prop := {
  wf_tenants_len : length ts = MAX_TENANTS;
  wf_maps_len : length ms = MAX_PROCESSES;
  (** tenant 0 is the default tenant: it is never created *)
  wf_zero : forall t, ts !! 0%nat = Some t -> is_inactive t = true;
  (** a tenant's record carries its own index *)
  wf_ids : forall i t, ts !! i = Some t -> is_inactive t = false ->
    tenant_id t = Z.of_nat i;
  (** an entry of the process map is free, or binds a process to a tenant in
      range, which exists if no tenant was deactivated *)
  wf_maps : forall i m, ms !! i = Some m ->
    (m_pid m = 0 /\ m_tenant_id m = 0) \/
    (0 < m_pid m /\ 0 < m_tenant_id m /\
     exists t, ts !! Z.to_nat (m_tenant_id m) = Some t /\
       (intact = true -> is_inactive t = false));
  (** a process is bound at most once *)
  wf_unique : forall i j m m', ms !! i = Some m -> ms !! j = Some m' ->
    m_pid m = m_pid m' -> m_pid m <> 0 -> i = j;
  (** the two statistics are exact *)
  wf_active : intact = true -> active = zcount exists_tenant ts;
  wf_total : total = zcount bound ms
}.
Arguments wf_tenants_len {intact}.
Arguments wf_maps_len {intact}.
Arguments wf_zero {intact}.
Arguments wf_ids {intact}.
Arguments wf_maps {intact}.
Arguments wf_unique {intact}.
Arguments wf_active {intact}.
Arguments wf_total {intact}.

Definition tenant_inv (intact : bool) (s : tenant_shared_memory) : Prop :=
  tenant_wf intact (tenants s) (pid_mappings s) (active_tenant_count s)
    (total_process_count s) /\ tenant_lock_word s = 0.
Notation tenant_ok := (tenant_inv true).

(** The process map as a finite map from pids to tenants. *)
Definition bindings (ms : list pid_tenant_mapping) : gmap Z Z :=
  delete 0 (list_to_map ((fun m => (m_pid m, m_tenant_id m)) <$> ms)).

Lemma bindings_find ms p :
  p <> 0 ->
  bindings ms !! p =
    (fun i => m_tenant_id (ms !!! i)) <$> find_idx (fun m => m_pid m =? p) ms.
Proof.
  intros Hp. unfold bindings. rewrite lookup_delete_ne by done.
  induction ms as [|m ms IH]; [done|]. csimpl. destruct (m_pid m =? p) eqn:E; tests.
  - subst. by rewrite lookup_insert_eq.
  - rewrite lookup_insert_ne by done. rewrite IH. by destruct (find_idx _ ms).
Qed.

Lemma bindings_zero ms : bindings ms !! 0 = None.
Proof. apply lookup_delete_eq. Qed.

Section wf.
Context {ic : bool} {ts : list tenant_info} {ms : list pid_tenant_mapping} {ac tot : Z}.
Context (Hwf : tenant_wf ic ts ms ac tot).

Lemma find_bound i m :
  ms !! i = Some m -> m_pid m <> 0 ->
  find_idx (fun m' => m_pid m' =? m_pid m) ms = Some i.
Proof using Hwf.
  intros Hi Hne. destruct (find_idx _ ms) as [j|] eqn:E.
  - apply find_idx_lookup in E as (m' & Hj & Hp). tests. f_equal.
    symmetry. by eapply (wf_unique _ _ _ _ Hwf).
  - rewrite find_idx_None in E. specialize (E m (list_elem_of_lookup_2 _ _ _ Hi)).
    by rewrite Z.eqb_refl in E.
Qed.

Lemma bindings_spec p t :
  p <> 0 ->
  bindings ms !! p = Some t <->
  exists i m, ms !! i = Some m /\ m_pid m = p /\ m_tenant_id m = t.
Proof using Hwf.
  intros Hp. rewrite bindings_find by done. split.
  - intros (i & Hi & ->)%fmap_Some. apply find_idx_lookup in Hi as (m & Hm & Hq).
    tests. exists i, m. by rewrite (list_lookup_total_correct _ _ _ Hm).
  - intros (i & m & Hi & <- & <-). rewrite (find_bound i m) by done. simpl.
    by rewrite (list_lookup_total_correct _ _ _ Hi).
Qed.

(** A change to a tenant's record that keeps its identity and existence. *)
Lemma wf_touch i t t' :
  ts !! i = Some t -> is_inactive t' = is_inactive t -> tenant_id t' = tenant_id t ->
  tenant_wf ic (<[i:=t']> ts) ms ac tot.
Proof using Hwf.
  intros Hi Hs Hid. destruct Hwf. split; rewrite ?length_insert; try done.
  - intros u [(-> & <- & _)|[_ Hu]]%list_lookup_insert_Some; [|eauto].
    rewrite Hs. eauto.
  - intros j u [(<- & <- & _)|[_ Hu]]%list_lookup_insert_Some; [|eauto].
    rewrite Hs, Hid. eauto.
  - intros j m Hm. destruct (wf_maps0 j m Hm) as [?|(? & ? & u & Hu & Hx)]; [by left|right].
    split_and!; [done|done|].
    destruct (decide (i = Z.to_nat (m_tenant_id m))) as [->|Hne].
    + exists t'. rewrite list_lookup_insert_eq by (by eapply lookup_lt_Some).
      simplify_eq. by rewrite Hs.
    + exists u. by rewrite list_lookup_insert_ne.
  - intros Hic. rewrite (wf_active0 Hic), (zcount_insert _ _ i t) by done.
    unfold exists_tenant at 3 4. rewrite Hs. lia.
Qed.

(** A tenant is deactivated in place. *)
Lemma wf_deactivate i t t' :
  ts !! i = Some t -> is_inactive t' = true -> ic = false ->
  tenant_wf ic (<[i:=t']> ts) ms ac tot.
Proof using Hwf.
  intros Hi Hin Hic. destruct Hwf. split; rewrite ?length_insert; try done; try congruence.
  - intros u [(-> & <- & _)|[_ Hu]]%list_lookup_insert_Some; eauto.
  - intros j u [(<- & <- & _)|[_ Hu]]%list_lookup_insert_Some; [congruence|eauto].
  - intros j m Hm. destruct (wf_maps0 j m Hm) as [?|(? & ? & u & Hu & _)]; [by left|right].
    split_and!; [done|done|].
    assert (Hlt : (Z.to_nat (m_tenant_id m) < length (<[i:=t']> ts))%nat)
      by (rewrite length_insert; by eapply lookup_lt_Some).
    apply lookup_lt_is_Some_2 in Hlt as [v Hv]. exists v. split; [done|congruence].
Qed.

(** A tenant comes into existence. *)
Lemma wf_create i t t' :
  ts !! i = Some t -> (0 < i)%nat -> is_inactive t = true -> is_inactive t' = false ->
  tenant_id t' = Z.of_nat i ->
  tenant_wf ic (<[i:=t']> ts) ms (u32 (ac + 1)) tot.
Proof using Hwf.
  intros Hi Hpos Hin Hin' Hid. destruct Hwf. split; rewrite ?length_insert; try done.
  - intros u [(? & _)|[_ Hu]]%list_lookup_insert_Some; [lia|eauto].
  - intros j u [(<- & <- & _)|[_ Hu]]%list_lookup_insert_Some; [done|eauto].
  - intros j m Hm. destruct (wf_maps0 j m Hm) as [?|(? & ? & u & Hu & Hx)]; [by left|right].
    split_and!; [done|done|].
    destruct (decide (i = Z.to_nat (m_tenant_id m))) as [->|Hne].
    + exists t'. by rewrite list_lookup_insert_eq by (by eapply lookup_lt_Some).
    + exists u. by rewrite list_lookup_insert_ne.
  - intros Hic. rewrite (zcount_insert _ _ i t) by done. unfold exists_tenant at 2 3.
    rewrite Hin, Hin'. simpl. rewrite (wf_active0 Hic).
    pose proof (zcount_bounds exists_tenant (<[i:=t']> ts)) as Hb.
    rewrite (zcount_insert _ _ i t), length_insert, wf_tenants_len0 in Hb by done.
    unfold exists_tenant at 2 3 5 6 in Hb. rewrite Hin, Hin' in Hb. simpl in Hb.
    assert (Z.of_nat MAX_TENANTS = 128) by reflexivity.
    pose proof (zcount_bounds exists_tenant ts). rewrite u32_small; lia.
Qed.

(** A bound process changes tenant. *)
Lemma wf_rebind k m pid tid t at_ :
  ms !! k = Some m -> m_pid m = pid -> 0 < pid -> 0 < tid ->
  ts !! Z.to_nat tid = Some t -> is_inactive t = false ->
  tenant_wf ic ts (<[k:=mk_mapping pid tid at_]> ms) ac tot.
Proof using Hwf.
  intros Hk Hp Hpid Htid Ht Hin. destruct Hwf. split; rewrite ?length_insert; try done.
  - intros j m' [(<- & <- & _)|[_ Hm]]%list_lookup_insert_Some; [|eauto]. right. eauto.
  - intros i j m1 m2. rewrite !list_lookup_insert_Some.
    intros [(<- & <- & _)|[? H1]] [(<- & <- & _)|[? H2]] Heq Hne; simpl in *;
      try done; eapply wf_unique0; eauto; congruence.
  - rewrite (zcount_insert _ _ k m) by done. unfold bound at 2 3. simpl. rewrite Hp. lia.
Qed.

(** A free entry is taken by a process that is not bound. *)
Lemma wf_bind k m pid tid t at_ :
  ms !! k = Some m -> m_pid m = 0 -> 0 < pid -> 0 < tid ->
  (forall j m', ms !! j = Some m' -> m_pid m' <> pid) ->
  ts !! Z.to_nat tid = Some t -> is_inactive t = false ->
  tenant_wf ic ts (<[k:=mk_mapping pid tid at_]> ms) ac (u32 (tot + 1)).
Proof using Hwf.
  intros Hk Hp Hpid Htid Hnew Ht Hin. destruct Hwf. split; rewrite ?length_insert; try done.
  - intros j m' [(<- & <- & _)|[_ Hm]]%list_lookup_insert_Some; [|eauto]. right. eauto.
  - intros i j m1 m2. rewrite !list_lookup_insert_Some.
    intros [(<- & <- & _)|[? H1]] [(<- & <- & _)|[? H2]] Heq Hne; simpl in *;
      [done|exfalso; eapply Hnew; eauto..|eauto].
  - assert (Hc : zcount bound (<[k:=mk_mapping pid tid at_]> ms) = tot + 1).
    { rewrite (zcount_insert _ _ k m) by done. unfold bound at 2 3. simpl. rewrite Hp.
      replace (pid =? 0) with false by lia. simpl. lia. }
    pose proof (zcount_bounds bound (<[k:=mk_mapping pid tid at_]> ms)) as Hb.
    rewrite length_insert, wf_maps_len0, Hc in Hb.
    assert (Z.of_nat MAX_PROCESSES = 1024) by reflexivity.
    rewrite Hc. apply u32_small. lia.
Qed.

(** A bound process is released. *)
Lemma wf_unbind k m at_ :
  ms !! k = Some m -> m_pid m <> 0 ->
  tenant_wf ic ts (<[k:=mk_mapping 0 0 at_]> ms) ac (tot - 1) /\ 0 < tot < 2 ^ 32.
Proof using Hwf.
  intros Hk Hp. assert (Hc : zcount bound (<[k:=mk_mapping 0 0 at_]> ms) = tot - 1).
  { rewrite (zcount_insert _ _ k m) by done. unfold bound at 2 3. simpl.
    replace (m_pid m =? 0) with false by lia. simpl. destruct Hwf. lia. }
  pose proof (zcount_bounds bound (<[k:=mk_mapping 0 0 at_]> ms)) as Hb.
  rewrite length_insert, (wf_maps_len _ _ _ _ Hwf), Hc in Hb.
  assert (Z.of_nat MAX_PROCESSES = 1024) by reflexivity.
  split; [|lia]. destruct Hwf. split; rewrite ?length_insert; try done.
  - intros j m' [(<- & <- & _)|[_ Hm]]%list_lookup_insert_Some; [by left|eauto].
  - intros i j m1 m2. rewrite !list_lookup_insert_Some.
    intros [(<- & <- & _)|[? H1]] [(<- & <- & _)|[? H2]] Heq Hne; simpl in *;
      [done|done|congruence|eauto].
Qed.
End wf.

(** ** Deleting a tenant *)

Definition unbind_if (tid : Z) (m : pid_tenant_mapping) : pid_tenant_mapping :=
  if m_tenant_id m =? tid then mk_mapping 0 0 (mapped_at m) else m.

(** The loop zeroes the tenant's entries and subtracts their number. *)
Lemma clear_mappings_spec tid ms total :
  zcount (fun m => m_tenant_id m =? tid) ms <= total < 2 ^ 32 ->
  clear_mappings tid ms total =
    (unbind_if tid <$> ms, total - zcount (fun m => m_tenant_id m =? tid) ms).
Proof.
  unfold zcount. revert total. induction ms as [|m ms IH]; intros total Ht.
  - simpl. f_equal. lia.
  - cbn [zsum clear_mappings] in *. rewrite fmap_cons. unfold unbind_if at 1.
    pose proof (zcount_bounds (fun m => m_tenant_id m =? tid) ms) as Hb. unfold zcount in Hb.
    destruct (m_tenant_id m =? tid).
    + rewrite u32_small by lia. rewrite IH by lia. f_equal. lia.
    + rewrite IH by lia. f_equal; lia.
Qed.

Lemma zcount_unbind tid ms :
  tid <> 0 -> (forall m, m ∈ ms -> m_tenant_id m = tid -> m_pid m <> 0) ->
  zcount bound (unbind_if tid <$> ms) =
    zcount bound ms - zcount (fun m => m_tenant_id m =? tid) ms.
Proof.
  intros Htid. unfold zcount. induction ms as [|m ms IH]; intros H; [done|].
  rewrite fmap_cons. cbn [zsum]. rewrite IH by (intros; apply H; [by right|done]).
  unfold bound, unbind_if. destruct (m_tenant_id m =? tid) eqn:E; simpl; tests.
  - specialize (H m). rewrite (proj2 (Z.eqb_neq (m_pid m) 0)); [simpl; lia|].
    apply H; [left|done].
  - lia.
Qed.

Lemma wf_delete {ic} {ts ms ac tot} i t t' :
  tenant_wf ic ts ms ac tot -> ts !! i = Some t -> (0 < i)%nat ->
  is_inactive t = false -> is_inactive t' = true ->
  zcount (fun m => m_tenant_id m =? Z.of_nat i) ms <= tot < 2 ^ 32 /\
  tenant_wf ic (<[i:=t']> ts) (unbind_if (Z.of_nat i) <$> ms) (u32 (ac - 1))
    (tot - zcount (fun m => m_tenant_id m =? Z.of_nat i) ms).
Proof.
  intros Hwf Hi Hpos Hin Hin'.
  assert (Hm : forall m, m ∈ ms -> m_tenant_id m = Z.of_nat i -> m_pid m <> 0).
  { intros m [j Hj]%list_elem_of_lookup_1 Ht.
    destruct (wf_maps _ _ _ _ Hwf j m Hj) as [[? ?]|(? & _)]; lia. }
  pose proof (zcount_unbind (Z.of_nat i) ms ltac:(lia) Hm) as Hu.
  pose proof (zcount_bounds bound (unbind_if (Z.of_nat i) <$> ms)) as Hb.
  pose proof (zcount_bounds bound ms) as Hb'.
  assert (HP : Z.of_nat MAX_PROCESSES = 1024) by reflexivity.
  rewrite (wf_maps_len _ _ _ _ Hwf) in Hb'. pose proof (wf_total _ _ _ _ Hwf) as Htot.
  split; [lia|]. destruct Hwf. split; rewrite ?length_insert, ?length_fmap; try done.
  - intros u [(? & _)|[_ Hu']]%list_lookup_insert_Some; [lia|eauto].
  - intros j u [(<- & <- & _)|[_ Hu']]%list_lookup_insert_Some; [congruence|eauto].
  - intros j m' (m & -> & Hj)%list_lookup_fmap_Some. unfold unbind_if.
    destruct (_ =? _) eqn:E; tests; [by left|].
    destruct (wf_maps0 j m Hj) as [?|(? & ? & u & Hu' & Hx)]; [by left|right].
    split_and!; [done|done|]. exists u. rewrite list_lookup_insert_ne; [done|]. lia.
  - intros j k m1 m2 (n1 & -> & H1)%list_lookup_fmap_Some (n2 & -> & H2)%list_lookup_fmap_Some.
    unfold unbind_if. destruct (_ =? _), (_ =? _); simpl; try done; eauto; congruence.
  - intros Hic. rewrite (wf_active0 Hic), (zcount_insert _ _ i t) by done.
    unfold exists_tenant at 3 4.
    rewrite Hin, Hin'. simpl. pose proof (zcount_bounds exists_tenant (<[i:=t']> ts)) as Hc.
    rewrite (zcount_insert _ _ i t), length_insert, wf_tenants_len0 in Hc by done.
    unfold exists_tenant at 2 3 5 6 in Hc. rewrite Hin, Hin' in Hc. simpl in Hc.
    assert (Z.of_nat MAX_TENANTS = 128) by reflexivity. rewrite u32_small; lia.
  - rewrite Htot, <- Hu. done.
Qed.

(** ** Every operation keeps the invariant *)

(** In range, a tenant index is a valid position of the array. *)
Lemma tenant_lookup {ic} s tid :
  tenant_inv ic s -> 0 <= tid -> (Z.of_nat MAX_TENANTS <=? tid) = false ->
  tenants s !! Z.to_nat tid = Some (tenants s !!! Z.to_nat tid).
Proof.
  intros [Hwf _] H0 Ht. tests. apply arr_lookup. rewrite (wf_tenants_len _ _ _ _ Hwf). lia.
Qed.

Lemma tenant_ok_relock {ic} now s : tenant_inv ic s -> tenant_inv ic (tenant_shm_unlock now (tenant_shm_lock s)).
Proof. by intros [? ?]. Qed.

Lemma tenant_ok_touch {ic} now s tid t' :
  tenant_inv ic s -> 0 <= tid -> (Z.of_nat MAX_TENANTS <=? tid) = false ->
  is_inactive t' = is_inactive (tenants s !!! Z.to_nat tid) ->
  tenant_id t' = tenant_id (tenants s !!! Z.to_nat tid) ->
  tenant_inv ic (tenant_shm_unlock now (set_tenant (Z.to_nat tid) t' (tenant_shm_lock s))).
Proof.
  intros Hok H0 Hr Hs Hid. split; [|done]. simpl.
  eapply wf_touch; [apply Hok|by apply (tenant_lookup s tid Hok)|done|done].
Qed.

#[export] Hint Resolve tenant_ok_relock : mtrdma.

(** A non-zero tenant in range that exists is not tenant 0. *)
Lemma active_positive {ic} s tid :
  tenant_inv ic s -> 0 <= tid -> (Z.of_nat MAX_TENANTS <=? tid) = false ->
  is_inactive (tenants s !!! Z.to_nat tid) = false -> 0 < tid.
Proof.
  intros Hok H0 Hr Hin. destruct (decide (tid = 0)) as [->|]; [|lia].
  pose proof (tenant_lookup s 0 Hok H0 Hr) as Hl. destruct Hok as [Hwf _].
  apply (wf_zero _ _ _ _ Hwf) in Hl. congruence.
Qed.

Lemma is_active_exists t : is_active t = true -> is_inactive t = false.
Proof. unfold is_active, is_inactive. by destruct (status t). Qed.

Lemma tenant_create_ok {ic} ptr now s tid name q :
  tenant_inv ic s -> 0 <= tid -> tenant_inv ic (tenant_create ptr now s tid name q).2.
Proof.
  intros Hok H0. unfold tenant_create.
  destruct (_ || _) eqn:Hr; [done|]. tests. destruct ptr; simpl; [|done].
  destruct (is_inactive _) eqn:Hin; simpl; [|by apply tenant_ok_relock].
  split; [|done]. simpl. eapply wf_create; [apply Hok| |lia|done|done|simpl; lia].
  apply (tenant_lookup s tid Hok); [done|lia].
Qed.

Lemma tenant_delete_ok {ic} ptr now s tid :
  tenant_inv ic s -> 0 <= tid -> tenant_inv ic (tenant_delete ptr now s tid).2.
Proof.
  intros Hok H0. unfold tenant_delete.
  destruct (_ || _) eqn:Hr; [done|]. tests. destruct ptr; simpl; [|done].
  destruct (is_inactive _) eqn:Hin; simpl; [by apply tenant_ok_relock|].
  pose proof (tenant_lookup s tid Hok H0 ltac:(lia)) as Hl.
  edestruct (wf_delete (Z.to_nat tid)
    _ (set_procs 0 (processes (tenants s !!! Z.to_nat tid))
         (set_status TENANT_STATUS_INACTIVE (tenants s !!! Z.to_nat tid))) (proj1 Hok) Hl)
    as [Hc Hwf]; [lia|done|done|].
  rewrite Z2Nat.id in Hc, Hwf by lia.
  rewrite clear_mappings_spec by done. by split.
Qed.

Lemma tenant_set_status_ok {ic} ptr now s tid st :
  tenant_inv ic s -> 0 <= tid -> (ic = true -> st <> TENANT_STATUS_INACTIVE) ->
  tenant_inv ic (tenant_set_status ptr now s tid st).2.
Proof.
  intros Hok H0 Hst. unfold tenant_set_status. destruct (_ <=? _) eqn:Hr; [done|].
  destruct ptr; simpl; [|done]. destruct (is_inactive _) eqn:Hin; [by apply tenant_ok_relock|].
  destruct (decide (st = TENANT_STATUS_INACTIVE)) as [->|Hne].
  - split; [|done]. simpl. eapply wf_deactivate; [apply Hok|by apply (tenant_lookup s tid Hok)|done|].
    destruct ic; [by destruct Hst|done].
  - apply tenant_ok_touch; try done. rewrite Hin. by destruct st.
Qed.

Lemma tenant_update_quota_ok {ic} ptr now s tid q :
  tenant_inv ic s -> 0 <= tid -> tenant_inv ic (tenant_update_quota ptr now s tid q).2.
Proof.
  intros Hok H0. destruct q as [q|]; [|done]. simpl. destruct (_ <=? _) eqn:Hr; [done|].
  destruct ptr; simpl; [|done]. destruct (is_inactive _) eqn:Hin; [by apply tenant_ok_relock|].
  by apply tenant_ok_touch.
Qed.

Lemma tenant_update_usage_ok {ic} ptr now s tid u :
  tenant_inv ic s -> 0 <= tid -> tenant_inv ic (tenant_update_resource_usage ptr now s tid u).2.
Proof.
  intros Hok H0. destruct u as [u|]; [|done]. simpl. destruct (_ <=? _) eqn:Hr; [done|].
  destruct ptr; simpl; [|done]. destruct (is_active _) eqn:Hin; [|by apply tenant_ok_relock].
  by apply tenant_ok_touch.
Qed.

Lemma tenant_try_allocate_ok {ic} ptr now s tid :
  tenant_inv ic s -> 0 <= tid -> tenant_inv ic (tenant_try_allocate_qp ptr now s tid).2.
Proof.
  intros Hok H0. unfold tenant_try_allocate_qp. destruct (_ <=? _) eqn:Hr; [done|].
  destruct ptr; simpl; [|done]. destruct (is_active _) eqn:Hin; [|by apply tenant_ok_relock].
  simpl. destruct (max_qp_per_tenant _ <=? _); by apply tenant_ok_touch.
Qed.

(** What [tenant_bind_process] does to the arrays, on its success paths. *)
Lemma tenant_bind_cases {ic} now s pid tid rc s' :
  tenant_inv ic s -> 0 <= tid -> 0 < pid ->
  tenant_bind_process true now s pid tid = (rc, s') ->
  tenant_inv ic s' /\
  ((rc = -1 /\ pid_mappings s' = pid_mappings s) \/
   (rc = 0 /\ is_active (tenants s !!! Z.to_nat tid) = true /\ 0 < tid /\
    exists k m, pid_mappings s !! k = Some m /\ (m_pid m = pid \/ m_pid m = 0) /\
      (m_pid m = 0 -> bindings (pid_mappings s) !! pid = None) /\
      pid_mappings s' = <[k:=mk_mapping pid tid now]> (pid_mappings s))).
Proof.
  intros Hok H0 Hpid. unfold tenant_bind_process.
  destruct (_ <=? _) eqn:Hr; simpl; [intros; simplify_eq; eauto|].
  destruct (is_active _) eqn:Hact; simpl; [|intros; simplify_eq; eauto with mtrdma].
  pose proof (is_active_exists _ Hact) as Hin.
  pose proof (tenant_lookup s tid Hok H0 Hr) as Hl.
  pose proof (active_positive s tid Hok H0 Hr Hin) as Htid. pose proof Hok as [Hwf _].
  destruct (find_idx (fun m => m_pid m =? pid) (pid_mappings s)) as [k|] eqn:E.
  - pose proof (scan_slot_found _ (fun m => m_pid m =? 0) _ _ E) as Hs.
    destruct (scan_slot _ _ _ _ _) as [f e]; simplify_eq/=.
    apply find_idx_lookup in E as (m & Hm & Hp). tests. intros; simplify_eq. split.
    + split; [|done]. simpl. eapply wf_touch; [|done..].
      eapply wf_rebind; eauto; lia.
    + right. split_and!; [done..|]. exists k, m. split_and!; [done|by left|lia|done].
  - rewrite scan_slot_missing by done.
    destruct (find_idx (fun m => m_pid m =? 0) _) as [k|] eqn:E0;
      [|intros; simplify_eq; eauto with mtrdma].
    apply find_idx_lookup in E0 as (m & Hm & Hp). tests. intros; simplify_eq.
    rewrite find_idx_None in E. split.
    + split; [|done]. simpl. eapply wf_touch; [|done..].
      eapply wf_bind; eauto. intros j m' Hj Heq.
      specialize (E m' (list_elem_of_lookup_2 _ _ _ Hj)). tests. done.
    + right. split_and!; [done..|]. exists k, m. split_and!; [done|by right| |done].
      intros _. rewrite bindings_find by lia. by rewrite (proj2 (find_idx_None _ _) E).
Qed.

Lemma tenant_bind_ok {ic} ptr now s pid tid :
  tenant_inv ic s -> 0 <= tid -> 0 < pid -> tenant_inv ic (tenant_bind_process ptr now s pid tid).2.
Proof.
  intros Hok H0 Hpid. destruct ptr.
  - destruct (tenant_bind_process true now s pid tid) as [rc s'] eqn:E.
    by destruct (tenant_bind_cases now s pid tid rc s' Hok H0 Hpid E).
  - unfold tenant_bind_process. by destruct (_ <=? _).
Qed.

(** What [tenant_unbind_process] does to the process map. *)
Lemma tenant_unbind_cases {ic} now s pid rc s' :
  tenant_inv ic s -> 0 < pid ->
  tenant_unbind_process true now s pid = (rc, s') ->
  tenant_inv ic s' /\
  ((rc = -1 /\ bindings (pid_mappings s) !! pid = None /\
    pid_mappings s' = pid_mappings s) \/
   (rc = 0 /\ exists k m at_, pid_mappings s !! k = Some m /\ m_pid m = pid /\
      pid_mappings s' = <[k:=mk_mapping 0 0 at_]> (pid_mappings s))).
Proof.
  intros Hok Hpid. pose proof Hok as [Hwf Hlk]. unfold tenant_unbind_process. simpl.
  destruct (find_idx _ _) as [k|] eqn:E.
  - apply find_idx_lookup in E as (m & Hm & Hp). tests. intros; simplify_eq.
    rewrite (list_lookup_total_correct _ _ _ Hm). simpl.
    destruct (wf_unbind Hwf k m (mapped_at m) Hm ltac:(lia)) as [Hwf' Htot].
    destruct (wf_maps _ _ _ _ Hwf k m Hm) as [?|(_ & Hmt & t & Ht & Hin)]; [lia|].
    split.
    + split; [|done]. simpl. replace (0 <? total_process_count s) with true by lia.
      rewrite (u32_small (total_process_count s - 1)) by lia.
      eapply wf_touch; [done|exact Ht|by rewrite (list_lookup_total_correct _ _ _ Ht)..].
    + right. split; [done|]. by exists k, m, (mapped_at m).
  - intros; simplify_eq. split; [by apply tenant_ok_relock|]. left.
    split_and!; [done| |done]. rewrite bindings_find by lia. by rewrite E.
Qed.

Lemma tenant_unbind_ok {ic} ptr now s pid :
  tenant_inv ic s -> 0 < pid -> tenant_inv ic (tenant_unbind_process ptr now s pid).2.
Proof.
  intros Hok Hpid. destruct ptr; [|done].
  destruct (tenant_unbind_process true now s pid) as [rc s'] eqn:E.
  by destruct (tenant_unbind_cases now s pid rc s' Hok Hpid E).
Qed.

(** The functions that only read. *)
Lemma tenant_get_info_ok {ic} ptr now s tid :
  tenant_inv ic s -> tenant_inv ic (tenant_get_info ptr now s tid).2.
Proof.
  intros Hok. unfold tenant_get_info. destruct (_ <=? _); [done|].
  destruct ptr; [by apply tenant_ok_relock|done].
Qed.

Lemma tenant_get_process_tenant_ok {ic} ptr now s pid :
  tenant_inv ic s -> tenant_inv ic (tenant_get_process_tenant ptr now s pid).2.
Proof.
  intros Hok. unfold tenant_get_process_tenant. destruct ptr; simpl; [|done].
  destruct (find_idx _ _); by apply tenant_ok_relock.
Qed.

Lemma tenant_get_usage_ok {ic} ptr now s tid :
  tenant_inv ic s -> tenant_inv ic (tenant_get_resource_usage ptr now s tid).2.
Proof.
  intros Hok. unfold tenant_get_resource_usage. destruct (_ <=? _); [done|].
  destruct ptr; simpl; [|done]. destruct (is_active _); by apply tenant_ok_relock.
Qed.

Lemma tenant_check_limit_ok {ic} ptr now s tid ty n :
  tenant_inv ic s -> tenant_inv ic (tenant_check_resource_limit ptr now s tid ty n).2.
Proof.
  intros Hok. unfold tenant_check_resource_limit. destruct (_ <=? _); [done|].
  destruct ptr; simpl; [|done]. destruct (is_active _); by apply tenant_ok_relock.
Qed.

(** ** Reachable tables *)

(** The functions that only list. *)
Lemma tenant_lists_ok {ic} ptr now s max_count tid :
  tenant_inv ic s ->
  tenant_inv ic (tenant_get_active_list ptr now s max_count).2 /\
  tenant_inv ic (tenant_get_statistics ptr now s tid).2 /\
  tenant_inv ic (tenant_print_all ptr now s).2.
Proof.
  intros Hok. pose proof (tenant_ok_relock now s Hok).
  unfold tenant_get_active_list, tenant_get_statistics, tenant_print_all.
  destruct (max_count <=? 0), (_ <=? tid), ptr; simpl; try done;
    destruct (is_active _); simpl; done.
Qed.

(** One call of the API by any process, or the daemon's own write of the
    version and the time.  Tenant ids are [uint32_t] and process ids positive.
    Setting an existing tenant INACTIVE is a step that is not [intact]. *)
Inductive tenant_step (intact : bool) : tenant_shared_memory -> tenant_shared_memory -> Prop :=
  | st_create ptr now s tid name q : 0 <= tid ->
      tenant_step intact s (tenant_create ptr now s tid name q).2
  | st_delete ptr now s tid : 0 <= tid ->
      tenant_step intact s (tenant_delete ptr now s tid).2
  | st_info ptr now s tid :
      tenant_step intact s (tenant_get_info ptr now s tid).2
  | st_status ptr now s tid st : 0 <= tid -> (intact = true -> st <> TENANT_STATUS_INACTIVE) ->
      tenant_step intact s (tenant_set_status ptr now s tid st).2
  | st_quota ptr now s tid q : 0 <= tid ->
      tenant_step intact s (tenant_update_quota ptr now s tid q).2
  | st_bind ptr now s pid tid : 0 <= tid -> 0 < pid ->
      tenant_step intact s (tenant_bind_process ptr now s pid tid).2
  | st_unbind ptr now s pid : 0 < pid ->
      tenant_step intact s (tenant_unbind_process ptr now s pid).2
  | st_tenant_of ptr now s pid :
      tenant_step intact s (tenant_get_process_tenant ptr now s pid).2
  | st_usage ptr now s tid u : 0 <= tid ->
      tenant_step intact s (tenant_update_resource_usage ptr now s tid u).2
  | st_get_usage ptr now s tid :
      tenant_step intact s (tenant_get_resource_usage ptr now s tid).2
  | st_check ptr now s tid ty n :
      tenant_step intact s (tenant_check_resource_limit ptr now s tid ty n).2
  | st_alloc ptr now s tid : 0 <= tid ->
      tenant_step intact s (tenant_try_allocate_qp ptr now s tid).2
  | st_list ptr now s max_count :
      tenant_step intact s (tenant_get_active_list ptr now s max_count).2
  | st_statistics ptr now s tid :
      tenant_step intact s (tenant_get_statistics ptr now s tid).2
  | st_print ptr now s :
      tenant_step intact s (tenant_print_all ptr now s).2
  | st_init sys sys_fstat now h s rc h' s' :
      tenant_shm_init sys sys_fstat now h (Some s) = (rc, h', Some s') -> tenant_step intact s s'
  | st_stamp v now s :
      tenant_step intact s (mk_tshm (tenants s) (pid_mappings s) (active_tenant_count s)
        (total_process_count s) (tenant_lock_word s) v now).

#[export] Hint Resolve tenant_create_ok tenant_delete_ok tenant_get_info_ok
  tenant_set_status_ok tenant_update_quota_ok tenant_bind_ok tenant_unbind_ok
  tenant_get_process_tenant_ok tenant_update_usage_ok tenant_get_usage_ok
  tenant_check_limit_ok tenant_try_allocate_ok : mtrdma.

Lemma fresh_tshm_ok {ic} now : tenant_inv ic (fresh_tshm now).
Proof.
  split; [|done]. split; simpl; try apply length_replicate.
  - by intros t [-> _]%lookup_replicate.
  - by intros i t [-> _]%lookup_replicate.
  - intros i m [-> _]%lookup_replicate. by left.
  - by intros i j m m' [-> _]%lookup_replicate.
  - intros _. unfold zcount. by rewrite zsum_replicate, Z.mul_0_r.
  - unfold zcount. by rewrite zsum_replicate, Z.mul_0_r.
Qed.

Lemma tenant_init_keeps {ic} sys sys_fstat now h s rc h' s' :
  tenant_shm_init sys sys_fstat now h (Some s) = (rc, h', Some s') ->
  tenant_inv ic s -> tenant_inv ic s'.
Proof.
  unfold tenant_shm_init. intros E Hs. pose proof (fresh_tshm_ok (ic:=ic) now).
  repeat case_match; naive_solver.
Qed.

Lemma tenant_step_ok {ic} s s' : tenant_step ic s s' -> tenant_inv ic s -> tenant_inv ic s'.
Proof.
  destruct 1; eauto using tenant_init_keeps with mtrdma; intros Hok.
  - by apply (tenant_lists_ok ptr now s max_count 0).
  - by apply (tenant_lists_ok ptr now s 0 tid).
  - by apply (tenant_lists_ok ptr now s 0 0).
Qed.

(** C10. The tenant table stays consistent.  In every state reachable from a new
    segment by any interleaving of the API's calls: the default tenant 0 never
    comes into existence, every live record carries its own id, a process is
    bound at most once and to a tenant in range, the number of bound processes
    is exact and the lock is free.  If no call set an existing tenant INACTIVE
    ([intact]), moreover every binding leads to a tenant that exists (deleting
    a tenant leaves no process bound to it) and the number of tenants is
    exact; tenant_set_inactive_drifts shows how such a call breaks these two. *)
Theorem tenant_reachable_ok intact now s :
  rtc (tenant_step intact) (fresh_tshm now) s -> tenant_inv intact s.
Proof.
  intros H. pose proof (fresh_tshm_ok (ic:=intact) now) as Hok. revert Hok.
  induction H; eauto using tenant_step_ok.
Qed.

(** ** The process map as a finite map *)

(** Membership in an array after one write, read backwards. *)
Lemma bindings_write {ic} ts ms ac tot ts' ac' tot' k m m' p t :
  tenant_wf ic ts ms ac tot -> tenant_wf ic ts' (<[k:=m']> ms) ac' tot' ->
  ms !! k = Some m -> p <> 0 ->
  bindings (<[k:=m']> ms) !! p = Some t <->
  (m_pid m' = p /\ m_tenant_id m' = t) \/ (m_pid m <> p /\ bindings ms !! p = Some t).
Proof.
  intros Hwf Hwf' Hk Hp. rewrite (bindings_spec Hwf'), (bindings_spec Hwf) by done. split.
  - intros (i & n & [(<- & <- & _)|[Hne Hi]]%list_lookup_insert_Some & Hq & Ht); [by left|].
    right. split; [|by exists i, n]. intros Hm. apply Hne.
    eapply (wf_unique _ _ _ _ Hwf); [done|done|congruence|congruence].
  - intros [[Hq Ht]|(Hm & i & n & Hi & Hq & Ht)].
    + exists k, m'. split; [|done]. apply list_lookup_insert_eq. by eapply lookup_lt_Some.
    + exists i, n. split; [|done]. rewrite list_lookup_insert_ne; [done|].
      intros ->. congruence.
Qed.

Lemma tenant_bind_bindings now s pid tid rc s' :
  tenant_ok s -> 0 <= tid -> 0 < pid ->
  tenant_bind_process true now s pid tid = (rc, s') ->
  tenant_ok s' /\
  bindings (pid_mappings s') =
    (if decide (rc = 0) then <[pid:=tid]> (bindings (pid_mappings s))
     else bindings (pid_mappings s)) /\
  (rc = 0 \/ rc = -1).
Proof.
  intros Hok H0 Hpid E.
  destruct (tenant_bind_cases now s pid tid rc s' Hok H0 Hpid E)
    as (Hok' & [[-> ->]|(-> & _ & _ & k & m & Hk & Hm & Hnew & Hs')]); [by eauto|].
  split_and!; [done| |by left]. rewrite decide_True by done. apply map_eq. intros p.
  destruct (decide (p = 0)) as [->|Hp].
  { by rewrite lookup_insert_ne, !bindings_zero by lia. }
  pose proof (proj1 Hok') as Hwf'. rewrite Hs' in *. apply option_eq. intros t.
  rewrite (bindings_write _ _ _ _ _ _ _ k m _ p t (proj1 Hok) Hwf' Hk Hp). simpl.
  destruct (decide (pid = p)) as [->|Hne].
  - rewrite lookup_insert_eq. destruct Hm as [Hm|Hm]; [naive_solver|].
    rewrite (Hnew Hm). naive_solver.
  - rewrite lookup_insert_ne by done. destruct Hm as [Hm|Hm]; naive_solver lia.
Qed.

(** C21. [tenant_bind_process] binds: on return code 0 the process map gets exactly
    the pair (pid, tenant), replacing an older binding of the process, and on
    -1 it is unchanged.  It succeeds exactly when the tenant id is in range,
    the tenant is ACTIVE (a suspended tenant takes no new process) and the
    process is already bound or an entry is free. *)
Theorem tenant_bind_refines now s pid tid :
  tenant_ok s -> 0 <= tid -> 0 < pid ->
  let '(rc, s') := tenant_bind_process true now s pid tid in
  tenant_ok s' /\
  bindings (pid_mappings s') =
    (if decide (rc = 0) then <[pid:=tid]> (bindings (pid_mappings s))
     else bindings (pid_mappings s)) /\
  (rc = 0 <-> tid < Z.of_nat MAX_TENANTS /\
              is_active (tenants s !!! Z.to_nat tid) = true /\
              exists k m, pid_mappings s !! k = Some m /\ (m_pid m = pid \/ m_pid m = 0)).
Proof.
  intros Hok H0 Hpid. destruct (tenant_bind_process true now s pid tid) as [rc s'] eqn:E.
  destruct (tenant_bind_bindings now s pid tid rc s') as (? & ? & Hrc); [done..|].
  split_and!; [done..|]. split.
  - intros ->. split.
    { unfold tenant_bind_process in E. destruct (_ <=? tid) eqn:Hr; tests; simplify_eq; lia. }
    destruct (tenant_bind_cases now s pid tid 0 s' Hok H0 Hpid E)
      as (_ & [[? _]|(_ & ? & _ & k & m & ? & ? & _)]); [lia|eauto].
  - intros (Hr & Hact & k & m & Hk & Hm). unfold tenant_bind_process in E.
    replace (_ <=? tid) with false in E by lia. simpl in E. rewrite Hact in E. simpl in E.
    destruct (scan_slot _ _ _ _ _) as [[?|] [?|]] eqn:Es; simplify_eq; try done.
    pose proof (scan_slot_fst (fun m => m_pid m =? pid) (fun m => m_pid m =? 0)
      (pid_mappings s) 0 None) as Hf. rewrite Es in Hf. simpl in Hf.
    symmetry in Hf. apply fmap_None in Hf. rewrite scan_slot_missing in Es by done.
    injection Es as Hfree. rewrite find_idx_None in Hf, Hfree.
    apply list_elem_of_lookup_2 in Hk. specialize (Hf _ Hk). specialize (Hfree _ Hk).
    tests. naive_solver.
Qed.

(** [tenant_unbind_process] removes exactly the process's binding and succeeds
    exactly when there is one. *)
Theorem tenant_unbind_refines now s pid :
  tenant_ok s -> 0 < pid ->
  let '(rc, s') := tenant_unbind_process true now s pid in
  tenant_ok s' /\
  bindings (pid_mappings s') = delete pid (bindings (pid_mappings s)) /\
  rc = (if decide (is_Some (bindings (pid_mappings s) !! pid)) then 0 else -1).
Proof.
  intros Hok Hpid. destruct (tenant_unbind_process true now s pid) as [rc s'] eqn:E.
  destruct (tenant_unbind_cases now s pid rc s' Hok Hpid E)
    as (Hok' & [(-> & Hn & ->)|(-> & k & m & at_ & Hk & Hm & Hs')]).
  - split_and!; [done|by rewrite delete_id|]. rewrite decide_False; [done|].
    by intros [? ?%eq_sym]; rewrite Hn in *.
  - pose proof (proj1 Hok') as Hwf'. rewrite Hs' in *. split_and!; [done| |].
    + apply map_eq. intros p. destruct (decide (p = 0)) as [->|Hp].
      { by rewrite lookup_delete_ne, !bindings_zero by lia. }
      apply option_eq. intros t.
      rewrite (bindings_write _ _ _ _ _ _ _ k m _ p t (proj1 Hok) Hwf' Hk Hp). simpl.
      rewrite lookup_delete_Some, Hm. naive_solver.
    + rewrite decide_True; [done|]. exists (m_tenant_id m).
      apply (bindings_spec (proj1 Hok)); [lia|]. by exists k, m.
Qed.

(** C22. [tenant_delete] on an existing tenant (1..127) returns 0, makes the
    tenant INACTIVE and removes from the process map exactly the bindings that
    lead to it; on anything else it returns -1 and removes nothing. *)
Theorem tenant_delete_refines now s tid :
  tenant_ok s -> 0 <= tid ->
  let '(rc, s') := tenant_delete true now s tid in
  tenant_ok s' /\
  if decide (0 < tid < Z.of_nat MAX_TENANTS /\
             is_inactive (tenants s !!! Z.to_nat tid) = false)
  then rc = 0 /\ is_inactive (tenants s' !!! Z.to_nat tid) = true /\
       bindings (pid_mappings s') =
         filter (fun kv => kv.2 <> tid) (bindings (pid_mappings s))
  else rc = -1 /\ tenants s' = tenants s /\ pid_mappings s' = pid_mappings s.
Proof.
  intros Hok H0. pose proof (tenant_delete_ok true now s tid Hok H0) as Hok'.
  destruct (tenant_delete true now s tid) as [rc s'] eqn:E. simpl in Hok'.
  split; [done|]. unfold tenant_delete in E. destruct (_ || _) eqn:Hr.
  { simplify_eq. rewrite decide_False; [done|]. intros [? _]. tests. lia. }
  tests. simpl in E. destruct (is_inactive _) eqn:Hin.
  { simplify_eq. rewrite decide_False; [done|]. naive_solver. }
  rewrite decide_True by (split; [lia|done]).
  pose proof (tenant_lookup s tid Hok H0 ltac:(lia)) as Hl.
  edestruct (wf_delete (Z.to_nat tid) _ (set_status TENANT_STATUS_INACTIVE zero_tenant)
    (proj1 Hok) Hl) as [Hc _]; [lia|done|done|].
  rewrite Z2Nat.id in Hc by lia. rewrite clear_mappings_spec in E by done.
  injection E as <- <-. split_and!; [done|..]; simpl.
  { rewrite arr_insert_eq; [done|]. by eapply lookup_lt_Some. }
  apply map_eq. intros p. destruct (decide (p = 0)) as [->|Hp].
  { rewrite bindings_zero. symmetry. apply map_lookup_filter_None. left. apply bindings_zero. }
  apply option_eq. intros t. rewrite (bindings_spec (proj1 Hok')) by done.
  rewrite map_lookup_filter_Some, (bindings_spec (proj1 Hok)) by done. simpl. split.
  - intros (i & m' & (m & -> & Hi)%list_lookup_fmap_Some & Hq & Ht).
    unfold unbind_if in *. destruct (_ =? _) eqn:Et; simpl in *; tests; [done|].
    split; [by exists i, m|congruence].
  - intros [(i & m & Hi & Hq & Ht) Hne]. exists i, m. split; [|done].
    apply list_lookup_fmap_Some. exists m. split; [|done].
    unfold unbind_if. destruct (_ =? _) eqn:Et; tests; [congruence|done].
Qed.

(** ** Queue-pair quota *)

Lemma try_allocate_other now s a tid :
  0 <= a -> 0 <= tid -> a <> tid ->
  tenants (tenant_try_allocate_qp true now s a).2 !! Z.to_nat tid = tenants s !! Z.to_nat tid.
Proof.
  intros Ha Ht Hne. unfold tenant_try_allocate_qp.
  destruct (_ <=? a); [done|]. simpl. destruct (is_active _); simpl; [|done].
  destruct (max_qp_per_tenant _ <=? _); simpl; rewrite list_lookup_insert_ne by lia; done.
Qed.

(** The call on an active tenant whose count is in range. *)
Lemma try_allocate_self now s tid t :
  0 <= tid < Z.of_nat MAX_TENANTS -> tenants s !! Z.to_nat tid = Some t ->
  is_active t = true -> 0 <= t_qp_count (usage t) < 2 ^ 31 ->
  exists t',
    tenants (tenant_try_allocate_qp true now s tid).2 !! Z.to_nat tid = Some t' /\
    is_active t' = true /\ quota t' = quota t /\
    (tenant_try_allocate_qp true now s tid).1 =
      (t_qp_count (usage t) <? max_qp_per_tenant (quota t)) /\
    t_qp_count (usage t') = i32 (t_qp_count (usage t) +
      if t_qp_count (usage t) <? max_qp_per_tenant (quota t) then 1 else 0).
Proof.
  intros Htid Hl Hact Hc. unfold tenant_try_allocate_qp.
  replace (_ <=? tid) with false by lia. simpl.
  rewrite (list_lookup_total_correct _ _ _ Hl), Hact. simpl. unfold clamp_qp.
  replace (t_qp_count (usage t) <? 0) with false by lia. rewrite u32_small by lia.
  pose proof (lookup_lt_Some _ _ _ Hl) as Hlt.
  destruct (_ <=? _) eqn:E; tests; simpl; rewrite list_lookup_insert_eq by done.
  - replace (_ <? _) with false by lia. eexists. split_and!; [done..|].
    simpl. rewrite Z.add_0_r, i32_small; lia.
  - replace (_ <? _) with true by lia. eexists. by split_and!.
Qed.

(** A schedule: the tenants on whose behalf the calls are made, in the order
    in which the lock serialises them, whichever processes make them. *)
Fixpoint alloc_run (now : Z) (sched : list Z) (s : tenant_shared_memory)
    : list (Z * bool) * tenant_shared_memory :=
  match sched with
  | [] => ([], s)
  | tid :: sched =>
      let '(b, s) := tenant_try_allocate_qp true now s tid in
      let '(l, s) := alloc_run now sched s in
      ((tid, b) :: l, s)
  end.

(** The answers one tenant got. *)
Definition answers_of (tid : Z) (l : list (Z * bool)) : list bool :=
  snd <$> filter (fun x => x.1 = tid) l.

Definition requests_of (tid : Z) (sched : list Z) : Z :=
  zcount (fun x => x =? tid) sched.

(** The ideal answers to [n] requests when [room] queue pairs are left: the
    first [room] are granted, the others refused. *)
Definition grants (n room : Z) : list bool :=
  replicate (Z.to_nat (Z.min n room)) true ++
  replicate (Z.to_nat (n - Z.min n room)) false.

Lemma grants_yes n room :
  0 <= n -> 0 < room -> grants (1 + n) room = true :: grants n (room - 1).
Proof.
  intros Hn Hr. unfold grants.
  replace (Z.to_nat (Z.min (1 + n) room)) with (S (Z.to_nat (Z.min n (room - 1)))) by lia.
  simpl. do 3 f_equal. lia.
Qed.

Lemma grants_no n : 0 <= n -> grants (1 + n) 0 = false :: grants n 0.
Proof.
  intros Hn. unfold grants. rewrite !Z.min_r by lia. simpl.
  replace (Z.to_nat (1 + n - 0)) with (S (Z.to_nat (n - 0))) by lia. done.
Qed.

(** C2. Exact enforcement and isolation of the QP quota.  Take any interleaving
    of allocation requests of any tenants.  An active tenant that holds [used]
    of [max] queue pairs has its first [max - used] requests granted and all
    later ones refused, whatever the other tenants do in between, and its
    count ends at the number it was granted: it never passes the quota and no
    other tenant can consume it. *)
Theorem qp_quota_exact now sched s tid t :
  Forall (fun x => 0 <= x) sched ->
  0 <= tid < Z.of_nat MAX_TENANTS -> tenants s !! Z.to_nat tid = Some t ->
  is_active t = true ->
  0 <= t_qp_count (usage t) <= max_qp_per_tenant (quota t) ->
  max_qp_per_tenant (quota t) < 2 ^ 31 ->
  let n := requests_of tid sched in
  let room := max_qp_per_tenant (quota t) - t_qp_count (usage t) in
  let '(l, s') := alloc_run now sched s in
  answers_of tid l = grants n room /\
  exists t', tenants s' !! Z.to_nat tid = Some t' /\ quota t' = quota t /\
    t_qp_count (usage t') = t_qp_count (usage t) + Z.min n room.
Proof.
  unfold requests_of. revert s t. induction sched as [|a sched IH];
    intros s t Hpos Htid Hl Hact Hu Hmax; simpl.
  { unfold zcount, grants. simpl. rewrite Z.min_l by lia. split; [done|].
    exists t. split_and!; [done|done|lia]. }
  inversion_clear Hpos as [|? ? Ha Hrest].
  destruct (tenant_try_allocate_qp true now s a) as [b s1] eqn:E.
  pose proof (zcount_bounds (fun x => x =? tid) sched) as Hn.
  unfold zcount in *. simpl. set (n := zsum _ sched) in *.
  destruct (decide (a = tid)) as [->|Hne].
  - destruct (try_allocate_self now s tid t) as (t1 & Hl1 & Hact1 & Hq1 & Hb & Hc);
      [done..|lia|]. rewrite E in Hl1, Hb. simpl in Hl1, Hb. rewrite Z.eqb_refl.
    rewrite <- Hb in Hc. symmetry in Hb. rewrite i32_small in Hc by (destruct b; lia).
    specialize (IH s1 t1). rewrite Hq1, Hc in IH. fold n in IH.
    destruct (alloc_run now sched s1) as [l s2].
    destruct IH as (Hans & t2 & Hl2 & Hq2 & Hc2); try done; [destruct b; tests; lia|].
    unfold answers_of in *. rewrite filter_cons_True by done. rewrite fmap_cons, Hans. simpl.
    split; [|exists t2; split_and!; [done|done|destruct b; tests; lia]].
    destruct b; tests.
    + rewrite grants_yes by lia. do 2 f_equal. lia.
    + replace (max_qp_per_tenant (quota t) - t_qp_count (usage t)) with 0 by lia.
      rewrite grants_no by lia. do 2 f_equal. lia.
  - pose proof (try_allocate_other now s a tid Ha ltac:(lia) Hne) as Ho.
    rewrite E in Ho. simpl in Ho. specialize (IH s1 t). rewrite Ho in IH. fold n in IH.
    destruct (alloc_run now sched s1) as [l s2].
    replace (a =? tid) with false by lia. rewrite Z.add_0_l.
    destruct IH as (Hans & Hrest'); [done..|]. split; [|done].
    unfold answers_of in *. by rewrite filter_cons_False.
Qed.

(** ** Life cycle *)

(** Creating a tenant and reading it back: for an id in 1..127 that is not
    in use, [tenant_create] returns 0 and [tenant_get_info] then returns 0 with
    an ACTIVE record that carries the id, the name cut to 63 characters, the
    given quota (or the default one) and zero usage, even if an earlier tenant
    of that id was deleted with resources outstanding; for any other id it
    returns -1 and no record changes. *)
Theorem tenant_create_get_info now s tid name q :
  tenant_ok s -> 0 <= tid ->
  let '(rc, s1) := tenant_create true now s tid name q in
  let '(rc', t, _) := tenant_get_info true now s1 tid in
  if decide (0 < tid < Z.of_nat MAX_TENANTS /\
             is_inactive (tenants s !!! Z.to_nat tid) = true)
  then rc = 0 /\ rc' = 0 /\ tenant_id t = tid /\ status t = TENANT_STATUS_ACTIVE /\
       tenant_name t = String.substring 0 63 (default "unnamed"%string name) /\
       quota t = default (mk_quota 100 1000 (2 ^ 30) 100 100) q /\
       usage t = zero_tusage /\ process_count t = 0
  else rc = -1 /\ tenants s1 = tenants s.
Proof.
  intros Hok H0. unfold tenant_create. destruct (_ || _) eqn:Hr.
  { destruct (tenant_get_info true now s tid) as [[? ?] ?].
    rewrite decide_False; [done|]. intros [? _]. tests. lia. }
  tests. simpl. pose proof (tenant_lookup s tid Hok H0 ltac:(lia)) as Hl.
  destruct (is_inactive _) eqn:Hin; simpl; unfold tenant_get_info;
    replace (_ <=? tid) with false by lia; simpl.
  - rewrite decide_True by (split; [lia|done]).
    rewrite arr_insert_eq by (by eapply lookup_lt_Some). simpl. by destruct q.
  - rewrite decide_False; [done|]. naive_solver.
Qed.

(** [tenant_check_resource_limit] on an active tenant answers "exceeded"
    exactly when current use plus request passes the quota of the resource
    (QP, MR, memory, CQ, PD), as long as the sum fits the width it is computed
    in; a request that makes the sum wrap to zero is never reported as
    exceeded, whatever the quota. *)
Theorem tenant_check_limit_exact now s tid ty n t count max width :
  0 <= tid < Z.of_nat MAX_TENANTS -> tenants s !! Z.to_nat tid = Some t ->
  is_active t = true -> 0 <= n ->
  (ty, count, max, width) ∈
    [(0, t_qp_count (usage t), max_qp_per_tenant (quota t), 2 ^ 32);
     (1, t_mr_count (usage t), max_mr_per_tenant (quota t), 2 ^ 32);
     (2, t_memory_used (usage t), max_memory_per_tenant (quota t), 2 ^ 64);
     (3, t_cq_count (usage t), max_cq_per_tenant (quota t), 2 ^ 32);
     (4, t_pd_count (usage t), max_pd_per_tenant (quota t), 2 ^ 32)] ->
  0 <= count -> 0 <= max ->
  (count + n < width ->
   (tenant_check_resource_limit true now s tid ty n).1 = (max <? count + n)) /\
  (count < width -> n < width -> count + n = width ->
   (tenant_check_resource_limit true now s tid ty n).1 = false).
Proof.
  intros Htid Hl Hact Hn Hin Hc Hm. unfold tenant_check_resource_limit.
  replace (_ <=? tid) with false by lia. simpl.
  rewrite (list_lookup_total_correct _ _ _ Hl), Hact. simpl.
  rewrite !elem_of_cons, elem_of_nil in Hin.
  destruct Hin as [Hin|[Hin|[Hin|[Hin|[Hin|[]]]]]]; injection Hin as -> -> -> ->;
    cbn [limit_exceeded Z.eqb Pos.eqb]; (split; [intros Hs|intros Hcw Hnw Hs]).
  all: try (rewrite ?u32_small, ?u64_small by (rewrite ?u32_small by lia; lia); done).
  all: rewrite ?(u32_small (t_qp_count _)), ?(u32_small (t_mr_count _)),
    ?(u32_small (t_cq_count _)), ?(u32_small (t_pd_count _)) by lia.
  all: rewrite Hs; unfold u32, u64; rewrite Z_mod_same_full; apply Z.ltb_ge; lia.
Qed.

(** ** Where the statistics drift *)

(** Moving a bound process to another tenant re-points its entry but leaves
    both tenants' process counts and process lists as they were: the old
    tenant still counts the process and the new one does not. *)
Theorem tenant_rebind_counts now s pid tid old :
  tenant_ok s -> 0 <= tid < Z.of_nat MAX_TENANTS -> 0 < pid ->
  is_active (tenants s !!! Z.to_nat tid) = true ->
  bindings (pid_mappings s) !! pid = Some old ->
  let '(rc, s') := tenant_bind_process true now s pid tid in
  rc = 0 /\ bindings (pid_mappings s') !! pid = Some tid /\
  total_process_count s' = total_process_count s /\
  process_count (tenants s' !!! Z.to_nat tid) = process_count (tenants s !!! Z.to_nat tid) /\
  processes (tenants s' !!! Z.to_nat tid) = processes (tenants s !!! Z.to_nat tid) /\
  (old <> tid -> 0 <= old ->
   tenants s' !!! Z.to_nat old = tenants s !!! Z.to_nat old).
Proof.
  intros Hok Htid Hpid Hact Hold.
  destruct (tenant_bind_process true now s pid tid) as [rc s'] eqn:E.
  destruct (tenant_bind_bindings now s pid tid rc s') as (_ & Hb & _); [done|lia|done|done|].
  rewrite bindings_find in Hold by lia. apply fmap_Some in Hold as (k & Hk & _).
  pose proof (scan_slot_found _ (fun m => m_pid m =? 0) _ _ Hk) as Hs.
  pose proof (tenant_lookup s tid Hok ltac:(lia) ltac:(lia)) as Hl%lookup_lt_Some.
  unfold tenant_bind_process in E. replace (_ <=? tid) with false in E by lia. simpl in E.
  rewrite Hact in E. simpl in E. destruct (scan_slot _ _ _ _ _) as [f e]; simplify_eq/=.
  rewrite Hb, lookup_insert_eq, arr_insert_eq by done.
  split_and!; [done..|]. intros Hne Ho. rewrite list_lookup_total_insert_ne; [done|lia].
Qed.

(** [tenant_set_status] accepts INACTIVE as the new status of a live tenant:
    it returns 0 and the record becomes free for [tenant_create], but the
    active-tenant count keeps counting it, so the table leaves the consistent
    states of tenant_reachable_ok. *)
Theorem tenant_set_inactive_drifts now s tid :
  tenant_ok s -> 0 <= tid < Z.of_nat MAX_TENANTS ->
  is_inactive (tenants s !!! Z.to_nat tid) = false ->
  let '(rc, s') := tenant_set_status true now s tid TENANT_STATUS_INACTIVE in
  rc = 0 /\ is_inactive (tenants s' !!! Z.to_nat tid) = true /\
  active_tenant_count s' = zcount exists_tenant (tenants s') + 1 /\ ~ tenant_ok s'.
Proof.
  intros Hok Htid Hin. unfold tenant_set_status.
  replace (_ <=? tid) with false by lia. simpl. rewrite Hin.
  pose proof (tenant_lookup s tid Hok ltac:(lia) ltac:(lia)) as Hl.
  pose proof (wf_active _ _ _ _ (proj1 Hok) eq_refl) as Ha.
  assert (Hcnt : active_tenant_count s = zcount exists_tenant
    (<[Z.to_nat tid:=set_active_at now (set_status TENANT_STATUS_INACTIVE
        (tenants s !!! Z.to_nat tid))]> (tenants s)) + 1).
  { rewrite (zcount_insert _ _ _ _ _ Hl). unfold exists_tenant at 2 3. rewrite Hin. simpl. lia. }
  split_and!; [done| |done|].
  - simpl. by rewrite arr_insert_eq by (by eapply lookup_lt_Some).
  - intros [Hwf _]. apply wf_active in Hwf; [|done]. simpl in Hwf. lia.
Qed.

(** ** Operations on one tenant, as equations *)

(** A tenant id the functions accept. *)
Definition tid_ok (tid : Z) : bool := negb (Z.of_nat MAX_TENANTS <=? tid).

(** The tenant table after a function that only reads. *)
Definition relock (now : Z) (s : tenant_shared_memory) : tenant_shared_memory :=
  tenant_shm_unlock now (tenant_shm_lock s).

(** The tenant table after a function that replaces one record. *)
Definition rewrite_tenant (now tid : Z) (t : tenant_info) (s : tenant_shared_memory) :=
  tenant_shm_unlock now (set_tenant (Z.to_nat tid) t (tenant_shm_lock s)).

Lemma set_usage_id t : set_usage (usage t) t = t.
Proof. by destruct t. Qed.

Section one_tenant.
Context (now tid : Z) (s : tenant_shared_memory) (t : tenant_info).
Context (Hr : tid_ok tid = true) (Hl : tenants s !! Z.to_nat tid = Some t).

Lemma try_allocate_run :
  is_active t = true -> 0 <= t_qp_count (usage t) < 2 ^ 31 ->
  tenant_try_allocate_qp true now s tid =
    if t_qp_count (usage t) <? max_qp_per_tenant (quota t)
    then (true, rewrite_tenant now tid (set_active_at now (set_usage (charge_qp (usage t)) t)) s)
    else (false, rewrite_tenant now tid t s).
Proof using Hr Hl.
  intros Ha Hc. unfold tenant_try_allocate_qp, rewrite_tenant. unfold tid_ok in Hr.
  apply negb_true_iff in Hr. rewrite Hr. simpl.
  rewrite (list_lookup_total_correct _ _ _ Hl), Ha. simpl. unfold clamp_qp.
  replace (t_qp_count (usage t) <? 0) with false by lia. rewrite u32_small by lia.
  destruct (max_qp_per_tenant _ <=? _) eqn:E; simpl in E; tests.
  - replace (_ <? _) with false by lia. by rewrite set_usage_id.
  - by replace (_ <? _) with true by lia.
Qed.

Lemma try_allocate_inactive :
  is_active t = false ->
  tenant_try_allocate_qp true now s tid = (false, relock now s).
Proof using Hr Hl.
  intros Ha. unfold tenant_try_allocate_qp. unfold tid_ok in Hr.
  apply negb_true_iff in Hr. rewrite Hr. simpl.
  by rewrite (list_lookup_total_correct _ _ _ Hl), Ha.
Qed.

Lemma get_usage_run :
  is_active t = true ->
  tenant_get_resource_usage true now s tid = (0, usage t, relock now s).
Proof using Hr Hl.
  intros Ha. unfold tenant_get_resource_usage. unfold tid_ok in Hr.
  apply negb_true_iff in Hr. rewrite Hr. simpl.
  by rewrite (list_lookup_total_correct _ _ _ Hl), Ha.
Qed.

Lemma update_usage_run u :
  is_active t = true ->
  tenant_update_resource_usage true now s tid (Some u) =
    (0, rewrite_tenant now tid (set_active_at now (set_usage u t)) s).
Proof using Hr Hl.
  intros Ha. unfold tenant_update_resource_usage. unfold tid_ok in Hr.
  apply negb_true_iff in Hr. rewrite Hr. simpl.
  by rewrite (list_lookup_total_correct _ _ _ Hl), Ha.
Qed.

Lemma get_info_run :
  is_inactive t = false -> tenant_get_info true now s tid = (0, t, relock now s).
Proof using Hr Hl.
  intros Ha. unfold tenant_get_info. unfold tid_ok in Hr.
  apply negb_true_iff in Hr. rewrite Hr. simpl.
  by rewrite (list_lookup_total_correct _ _ _ Hl), Ha.
Qed.
End one_tenant.

(** ** The usage of all tenants *)

Definition usages (s : tenant_shared_memory) : list tenant_resource_usage :=
  usage <$> tenants s.

Lemma usages_relock now s : usages (relock now s) = usages s.
Proof. done. Qed.

Lemma usages_rewrite now tid t s :
  usages (rewrite_tenant now tid t s) = <[Z.to_nat tid := usage t]> (usages s).
Proof. unfold usages. simpl. by rewrite list_fmap_insert. Qed.

Lemma usages_same s tid t u :
  tenants s !! Z.to_nat tid = Some t -> usage t = u ->
  <[Z.to_nat tid := u]> (usages s) = usages s.
Proof. intros Hl <-. apply list_insert_id. unfold usages. by rewrite list_lookup_fmap, Hl. Qed.

Lemma rewrite_tenant_lookup now tid t s t0 :
  tenants s !! Z.to_nat tid = Some t0 ->
  tenants (rewrite_tenant now tid t s) !! Z.to_nat tid = Some t.
Proof. intros H. simpl. apply list_lookup_insert_eq. by eapply lookup_lt_Some. Qed.

#[export] Hint Rewrite usages_relock usages_rewrite : mtrdma.

Lemma get_process_tenant_run now s pid :
  0 < pid ->
  tenant_get_process_tenant true now s pid =
    match bindings (pid_mappings s) !! pid with
    | Some t => (0, t, relock now s)
    | None => (-1, 0, relock now s)
    end.
Proof.
  intros Hp. unfold tenant_get_process_tenant. simpl. rewrite bindings_find by lia.
  by destruct (find_idx _ _).
Qed.

(** ** Witnesses *)

(** Tenant 1 with two queue pairs, tenant 2 with the default quota, process 42
    bound to tenant 1. *)
Definition demo1 : tenant_shared_memory :=
  (tenant_create true 5 (fresh_tshm 0) 1 (Some "a"%string)
     (Some (mk_quota 2 2 4096 2 2))).2.
Definition demo2 : tenant_shared_memory :=
  (tenant_create true 6 demo1 2 None None).2.
Definition demo3 : tenant_shared_memory := (tenant_bind_process true 7 demo2 42 1).2.

Lemma demo1_ok : tenant_ok demo1.
Proof. apply tenant_create_ok; [apply fresh_tshm_ok|lia]. Qed.
Lemma demo2_ok : tenant_ok demo2.
Proof. apply tenant_create_ok; [apply demo1_ok|lia]. Qed.
Lemma demo3_ok : tenant_ok demo3.
Proof. apply tenant_bind_ok; [apply demo2_ok|lia|lia]. Qed.

Lemma demo3_reached ic : rtc (tenant_step ic) (fresh_tshm 0) demo3.
Proof.
  apply rtc_r with demo2; [|apply (st_bind ic true 7 demo2 42 1); lia].
  apply rtc_r with demo1; [|apply (st_create ic true 6 demo1 2 None None); lia].
  apply rtc_once, (st_create ic true 5 (fresh_tshm 0) 1 (Some "a"%string)
    (Some (mk_quota 2 2 4096 2 2))). lia.
Qed.

(** Two creations and a binding; then tenant 1 is deactivated. *)
Lemma tenant_reachable_ok_witness :
  tenant_ok demo3 /\
  tenant_inv false (tenant_set_status true 8 demo3 1 TENANT_STATUS_INACTIVE).2.
Proof.
  split; [apply (tenant_reachable_ok true 0), demo3_reached|].
  apply (tenant_reachable_ok false 0). apply rtc_r with demo3; [apply demo3_reached|].
  apply (st_status false true 8 demo3 1 TENANT_STATUS_INACTIVE); [lia|discriminate].
Defined.

Lemma tenant_bind_refines_witness :
  let '(rc, s') := tenant_bind_process true 7 demo2 42 1 in
  tenant_ok s' /\
  bindings (pid_mappings s') =
    (if decide (rc = 0) then <[42:=1]> (bindings (pid_mappings demo2))
     else bindings (pid_mappings demo2)) /\
  (rc = 0 <-> 1 < Z.of_nat MAX_TENANTS /\
              is_active (tenants demo2 !!! Z.to_nat 1) = true /\
              exists k m, pid_mappings demo2 !! k = Some m /\ (m_pid m = 42 \/ m_pid m = 0)).
Proof. apply (tenant_bind_refines 7 demo2 42 1); [apply demo2_ok|lia|lia]. Defined.

Lemma tenant_unbind_refines_witness :
  let '(rc, s') := tenant_unbind_process true 8 demo3 42 in
  tenant_ok s' /\
  bindings (pid_mappings s') = delete 42 (bindings (pid_mappings demo3)) /\
  rc = (if decide (is_Some (bindings (pid_mappings demo3) !! 42)) then 0 else -1).
Proof. apply (tenant_unbind_refines 8 demo3 42); [apply demo3_ok|lia]. Defined.

Lemma tenant_delete_refines_witness :
  let '(rc, s') := tenant_delete true 8 demo3 1 in
  tenant_ok s' /\
  if decide (0 < 1 < Z.of_nat MAX_TENANTS /\
             is_inactive (tenants demo3 !!! Z.to_nat 1) = false)
  then rc = 0 /\ is_inactive (tenants s' !!! Z.to_nat 1) = true /\
       bindings (pid_mappings s') =
         filter (fun kv => kv.2 <> 1) (bindings (pid_mappings demo3))
  else rc = -1 /\ tenants s' = tenants demo3 /\ pid_mappings s' = pid_mappings demo3.
Proof. apply (tenant_delete_refines 8 demo3 1); [apply demo3_ok|lia]. Defined.

Lemma qp_quota_exact_witness :
  answers_of 1 (alloc_run 9 [1; 2; 1; 2; 1] demo2).1 = [true; true; false].
Proof.
  pose proof (qp_quota_exact 9 [1; 2; 1; 2; 1] demo2 1 (tenants demo2 !!! 1%nat)) as H.
  destruct (alloc_run 9 [1; 2; 1; 2; 1] demo2) as [l s'].
  destruct H as [H _]; [repeat constructor; lia|vm_compute; split; congruence|
    vm_compute; reflexivity|vm_compute; reflexivity|vm_compute; split; congruence|
    vm_compute; reflexivity|].
  cbn [fst]. rewrite H. vm_compute. reflexivity.
Defined.

Lemma tenant_create_get_info_witness :
  let '(rc, s1) := tenant_create true 5 (fresh_tshm 0) 1 (Some "a"%string) None in
  let '(rc', t, _) := tenant_get_info true 5 s1 1 in
  if decide (0 < 1 < Z.of_nat MAX_TENANTS /\
             is_inactive (tenants (fresh_tshm 0) !!! Z.to_nat 1) = true)
  then rc = 0 /\ rc' = 0 /\ tenant_id t = 1 /\ status t = TENANT_STATUS_ACTIVE /\
       tenant_name t = String.substring 0 63 (default "unnamed"%string (Some "a"%string)) /\
       quota t = default (mk_quota 100 1000 (2 ^ 30) 100 100) None /\
       usage t = zero_tusage /\ process_count t = 0
  else rc = -1 /\ tenants s1 = tenants (fresh_tshm 0).
Proof.
  apply (tenant_create_get_info 5 (fresh_tshm 0) 1 (Some "a"%string) None);
    [apply fresh_tshm_ok|lia].
Defined.

Lemma tenant_check_limit_exact_witness :
  (tenant_check_resource_limit true 9 demo2 1 0 3).1 = true.
Proof.
  destruct (tenant_check_limit_exact 9 demo2 1 0 3 (tenants demo2 !!! 1%nat) 0 2 (2 ^ 32))
    as [H _]; [vm_compute; split; congruence|vm_compute; reflexivity|
      vm_compute; reflexivity|lia|vm_compute; left|lia|lia|].
  rewrite H by lia. reflexivity.
Defined.

Lemma tenant_rebind_counts_witness :
  let s' := (tenant_bind_process true 9 demo3 42 2).2 in
  bindings (pid_mappings s') !! 42 = Some 2 /\
  process_count (tenants s' !!! 2%nat) = 0 /\ process_count (tenants s' !!! 1%nat) = 1.
Proof.
  pose proof (tenant_rebind_counts 9 demo3 42 2 1 demo3_ok) as H.
  destruct (tenant_bind_process true 9 demo3 42 2) as [rc s']. cbn [snd].
  destruct H as (_ & H1 & _ & H2 & _ & H3); [vm_compute; split; congruence|lia|
    vm_compute; reflexivity|vm_compute; reflexivity|].
  split; [exact H1|]. change (Z.to_nat 2) with 2%nat in H2. rewrite H2.
  specialize (H3 ltac:(lia) ltac:(lia)). change (Z.to_nat 1) with 1%nat in H3. rewrite H3.
  vm_compute. split; reflexivity.
Defined.

Lemma tenant_set_inactive_drifts_witness :
  let s' := (tenant_set_status true 9 demo2 1 TENANT_STATUS_INACTIVE).2 in
  active_tenant_count s' = zcount exists_tenant (tenants s') + 1 /\ ~ tenant_ok s'.
Proof.
  pose proof (tenant_set_inactive_drifts 9 demo2 1 demo2_ok) as H.
  destruct (tenant_set_status true 9 demo2 1 TENANT_STATUS_INACTIVE) as [rc s']. cbn [snd].
  destruct H as (_ & _ & H); [vm_compute; split; congruence|vm_compute; reflexivity|exact H].
Defined.
