(* ===== verification/Policy.v ===== *)
(** * The dynamic policy manager: src/src/dynamic_policy_manager.c

    The limits per resource, their file format, their copy in the shared
    segment, the checks against them, the per-tenant policies and the thread
    that adjusts them.  The static variables of the file are the record
    [policy_state]; [shm_h] and [shm_obj] are the process's view of the
    segment of the file Shm.

    The two mutexes are part of the state: locking one that is held blocks the
    caller for good, because they are default (non-recursive) mutexes and only
    the holder's own calls can release them while it runs.  An operation is a
    function from a state to an [outcome]: it returns, or it is blocked.
    [option] arguments are pointers that may be NULL; a resource is the number
    of its enumerator, and other numbers take the default branches.  Floats
    are IEEE 754 binary32. *)

From S2P Require Import Prelude CString Shm TenantShm.
From stdpp Require Import base numbers list gmap strings.
From Stdlib Require Import SpecFloat Ascii.
#[local] Open Scope string_scope.
#[local] Open Scope Z_scope.

(** ** Floats *)

Notation float := spec_float.
Definition float_of (z : Z) : float := binary_normalize 24 128 z 0 false.
Definition fdiv : float -> float -> float := SFdiv 24 128.

(** ** Data *)

Definition POLICY_TYPE_STATIC : Z := 0.
Definition RESOURCE_QP : Z := 0.
Definition RESOURCE_MR : Z := 1.
Definition RESOURCE_CQ : Z := 2.
Definition RESOURCE_PD : Z := 3.
Definition RESOURCE_MEMORY : Z := 4.

Record resource_limit := mk_limit {
  max_per_process : Z;
  max_global : Z;
  max_memory : Z
}.

Record policy_rule := mk_rule {
  rule_id : Z;
  rule_type : Z;
  resource : Z;
  limit : resource_limit;
  priority : Z;
  created_at : Z;
  expires_at : Z;
  enabled : bool
}.

Definition set_rule_limit (l : resource_limit) (r : policy_rule) : policy_rule :=
  mk_rule (rule_id r) (rule_type r) (resource r) l (priority r) (created_at r)
    (expires_at r) (enabled r).
Definition set_rule_enabled (b : bool) (r : policy_rule) : policy_rule :=
  mk_rule (rule_id r) (rule_type r) (resource r) (limit r) (priority r) (created_at r)
    (expires_at r) b.

Record dynamic_policy_config := mk_policy {
  qp_policy : policy_rule;
  mr_policy : policy_rule;
  cq_policy : policy_rule;
  pd_policy : policy_rule;
  memory_policy : policy_rule;
  auto_adjust : bool;
  adjust_interval : Z;
  high_watermark : float;
  low_watermark : float
}.

(** The rule the switch statements pick, and a write to it. *)
Definition rule_of (r : Z) (c : dynamic_policy_config) : option policy_rule :=
  if r =? RESOURCE_QP then Some (qp_policy c)
  else if r =? RESOURCE_MR then Some (mr_policy c)
  else if r =? RESOURCE_CQ then Some (cq_policy c)
  else if r =? RESOURCE_PD then Some (pd_policy c)
  else if r =? RESOURCE_MEMORY then Some (memory_policy c)
  else None.

Definition set_rule (r : Z) (p : policy_rule) (c : dynamic_policy_config)
    : dynamic_policy_config :=
  mk_policy
    (if r =? RESOURCE_QP then p else qp_policy c)
    (if r =? RESOURCE_MR then p else mr_policy c)
    (if r =? RESOURCE_CQ then p else cq_policy c)
    (if r =? RESOURCE_PD then p else pd_policy c)
    (if r =? RESOURCE_MEMORY then p else memory_policy c)
    (auto_adjust c) (adjust_interval c) (high_watermark c) (low_watermark c).

Definition set_adjust (b : bool) (i : Z) (hi lo : float) (c : dynamic_policy_config)
    : dynamic_policy_config :=
  mk_policy (qp_policy c) (mr_policy c) (cq_policy c) (pd_policy c) (memory_policy c)
    b i hi lo.

Record tenant_policy := mk_tpolicy {
  tp_tenant_id : Z;
  tp_tenant_name : string;
  tp_policy : dynamic_policy_config;
  tp_last_updated : Z
}.

(** All bytes zero. *)
Definition zero_limit : resource_limit := mk_limit 0 0 0.
Definition zero_rule : policy_rule := mk_rule 0 0 0 zero_limit 0 0 0 false.
Definition zero_policy : dynamic_policy_config :=
  mk_policy zero_rule zero_rule zero_rule zero_rule zero_rule false 0
    (S754_zero false) (S754_zero false).
Definition zero_tpolicy : tenant_policy := mk_tpolicy 0 "" zero_policy 0.
#[export] Instance tenant_policy_inhabited : Inhabited tenant_policy := populate zero_tpolicy.

(** The adjustment thread behind [g_adjust_thread]: there is none to join; it
    is before the test that follows its sleep; it is past that test. *)
Inductive adjust_thread := NoThread | Asleep | Awake.

Record policy_state := mk_pstate {
  g_policy_config : dynamic_policy_config;
  g_policy_mutex : bool;
  g_adjusting : bool;
  g_adjust_thread : adjust_thread;
  g_tenant_policies : list tenant_policy;
  g_tenant_mutex : bool;
  shm_h : shm_handle;
  shm_obj : option shared_memory_data
}.

Definition set_config (c : dynamic_policy_config) (s : policy_state) : policy_state :=
  mk_pstate c (g_policy_mutex s) (g_adjusting s) (g_adjust_thread s)
    (g_tenant_policies s) (g_tenant_mutex s) (shm_h s) (shm_obj s).
Definition set_policy_mutex (b : bool) (s : policy_state) : policy_state :=
  mk_pstate (g_policy_config s) b (g_adjusting s) (g_adjust_thread s)
    (g_tenant_policies s) (g_tenant_mutex s) (shm_h s) (shm_obj s).
Definition set_adjusting (b : bool) (s : policy_state) : policy_state :=
  mk_pstate (g_policy_config s) (g_policy_mutex s) b (g_adjust_thread s)
    (g_tenant_policies s) (g_tenant_mutex s) (shm_h s) (shm_obj s).
Definition set_thread (t : adjust_thread) (s : policy_state) : policy_state :=
  mk_pstate (g_policy_config s) (g_policy_mutex s) (g_adjusting s) t
    (g_tenant_policies s) (g_tenant_mutex s) (shm_h s) (shm_obj s).
Definition set_tenant_policies (l : list tenant_policy) (s : policy_state) : policy_state :=
  mk_pstate (g_policy_config s) (g_policy_mutex s) (g_adjusting s) (g_adjust_thread s)
    l (g_tenant_mutex s) (shm_h s) (shm_obj s).
Definition set_tenant_mutex (b : bool) (s : policy_state) : policy_state :=
  mk_pstate (g_policy_config s) (g_policy_mutex s) (g_adjusting s) (g_adjust_thread s)
    (g_tenant_policies s) b (shm_h s) (shm_obj s).
Definition set_shm (h : shm_handle) (o : option shared_memory_data) (s : policy_state)
    : policy_state :=
  mk_pstate (g_policy_config s) (g_policy_mutex s) (g_adjusting s) (g_adjust_thread s)
    (g_tenant_policies s) (g_tenant_mutex s) h o.

(** ** Operations that may block *)

Inductive outcome (A : Type) :=
  | Returned (a : A) (s : policy_state)
  | Blocked (s : policy_state)         (* it never returns *)
  | Undefined (s : policy_state).      (* undefined behaviour *)
Arguments Returned {A}.
Arguments Blocked {A}.
Arguments Undefined {A}.

Definition PM (A : Type) : Type := policy_state -> outcome A.
Definition pret {A} (a : A) : PM A := fun s => Returned a s.
Definition pbind {A B} (m : PM A) (k : A -> PM B) : PM B := fun s =>
  match m s with
  | Returned a s => k a s
  | Blocked s => Blocked s
  | Undefined s => Undefined s
  end.
Definition pget {A} (f : policy_state -> A) : PM A := fun s => Returned (f s) s.
Definition pmodify (f : policy_state -> policy_state) : PM unit := fun s => Returned tt (f s).

Declare Scope policy_scope.
Delimit Scope policy_scope with policy.
Notation "'do' x '<-' m 'in' k" := (pbind m (fun x => k))
  (at level 200, x binder, m at level 100, k at level 200) : policy_scope.
Notation "m ;; k" := (pbind m (fun _ => k)) (at level 100, right associativity) : policy_scope.
#[local] Open Scope policy_scope.

(** [pthread_mutex_lock] and [pthread_mutex_unlock] on the two mutexes. *)
Definition policy_lock : PM unit := fun s =>
  if g_policy_mutex s then Blocked s else Returned tt (set_policy_mutex true s).
Definition policy_unlock : PM unit := pmodify (set_policy_mutex false).
Definition tenant_lock : PM unit := fun s =>
  if g_tenant_mutex s then Blocked s else Returned tt (set_tenant_mutex true s).
Definition tenant_unlock : PM unit := pmodify (set_tenant_mutex false).

(** ** Defaults *)

Definition DEFAULT_MAX_QP_PER_PROCESS : Z := 100.
Definition DEFAULT_MAX_GLOBAL_QP : Z := 1000.
Definition DEFAULT_MAX_MR_PER_PROCESS : Z := 1000.
Definition DEFAULT_MAX_GLOBAL_MR : Z := 10000.
Definition DEFAULT_MAX_MEMORY_PER_PROCESS : Z := 10 * 1024 * 1024 * 1024.
Definition DEFAULT_ADJUST_INTERVAL : Z := 60.

Definition init_default_rule (now : Z) (r : Z) : policy_rule :=
  mk_rule r POLICY_TYPE_STATIC r zero_limit 1 now 0 true.

(** 0.8f and 0.2f are the correctly rounded quotients. *)
Definition set_default_config (now : Z) : dynamic_policy_config :=
  mk_policy
    (set_rule_limit (mk_limit DEFAULT_MAX_QP_PER_PROCESS DEFAULT_MAX_GLOBAL_QP 0)
       (init_default_rule now RESOURCE_QP))
    (set_rule_limit (mk_limit DEFAULT_MAX_MR_PER_PROCESS DEFAULT_MAX_GLOBAL_MR 0)
       (init_default_rule now RESOURCE_MR))
    (set_rule_limit (mk_limit DEFAULT_MAX_QP_PER_PROCESS DEFAULT_MAX_GLOBAL_QP 0)
       (init_default_rule now RESOURCE_CQ))
    (set_rule_limit (mk_limit 100 1000 0) (init_default_rule now RESOURCE_PD))
    (set_rule_limit (mk_limit 0 0 DEFAULT_MAX_MEMORY_PER_PROCESS)
       (init_default_rule now RESOURCE_MEMORY))
    false DEFAULT_ADJUST_INTERVAL
    (fdiv (float_of 8) (float_of 10)) (fdiv (float_of 2) (float_of 10)).

(** ** The shared segment *)

(** [shm_set_global_limits] with the three limits of the configuration; its
    result is not looked at. *)
Definition sync_limits : PM unit := pmodify (fun s =>
  let c := g_policy_config s in
  match shm_obj s with
  | None => s
  | Some d =>
      let '(_, d) := shm_set_global_limits (shm_get_ptr (shm_h s)) d
        (max_global (limit (qp_policy c))) (max_global (limit (mr_policy c)))
        (max_memory (limit (memory_policy c))) in
      set_shm (shm_h s) (Some d) s
  end).

Definition call_shm_init (sys : shm_sys) (now : Z) : PM Z := fun s =>
  let '(rc, h, o) := shm_init sys now (shm_h s) (shm_obj s) in
  Returned rc (set_shm h o s).

(** [shm_get_global_resources] into a local variable: [junk] is what the
    variable holds when the call fails. *)
Definition call_get_global (junk : resource_usage) : PM resource_usage := fun s =>
  match shm_obj s with
  | None => Returned junk s
  | Some d =>
      let '(rc, u) := shm_get_global_resources (shm_get_ptr (shm_h s)) d in
      Returned (if rc =? 0 then u else junk) s
  end.

(** ** Life cycle *)

(** A failed pthread_create leaves [g_adjust_thread] without a thread to join. *)
Definition dynamic_policy_init (sys : shm_sys) (now : Z) (thread_ok : bool) : PM Z :=
  policy_lock ;;
  pmodify (set_config (set_default_config now)) ;;
  do rc <- call_shm_init sys now in
  if negb (rc =? 0) then policy_unlock ;; pret (-1)
  else
    sync_limits ;;
    policy_unlock ;;
    pmodify (set_adjusting true) ;;
    if negb thread_ok then pmodify (set_thread NoThread) ;; pret (-1)
    else pmodify (set_thread Asleep) ;; pret 0.

(** ** The configuration file *)

Definition set_max_per_process (v : Z) (l : resource_limit) : resource_limit :=
  mk_limit v (max_global l) (max_memory l).
Definition set_max_global (v : Z) (l : resource_limit) : resource_limit :=
  mk_limit (max_per_process l) v (max_memory l).
Definition set_max_memory (v : Z) (l : resource_limit) : resource_limit :=
  mk_limit (max_per_process l) (max_global l) v.

(** An assignment to the limit of one rule. *)
Definition on_limit (r : Z) (f : resource_limit -> resource_limit)
    (c : dynamic_policy_config) : dynamic_policy_config :=
  match rule_of r c with
  | Some p => set_rule r (set_rule_limit (f (limit p)) p) c
  | None => c
  end.

(** The chain of [strcmp]s; unknown keys change nothing. *)
Definition apply_setting (key : string) (val : Z) (c : dynamic_policy_config)
    : dynamic_policy_config :=
  if String.eqb key "max_qp_per_process" then on_limit RESOURCE_QP (set_max_per_process val) c
  else if String.eqb key "max_global_qp" then on_limit RESOURCE_QP (set_max_global val) c
  else if String.eqb key "max_mr_per_process" then on_limit RESOURCE_MR (set_max_per_process val) c
  else if String.eqb key "max_global_mr" then on_limit RESOURCE_MR (set_max_global val) c
  else if String.eqb key "max_memory_mb"
  then on_limit RESOURCE_MEMORY (set_max_memory (u64 (val * 1024 * 1024))) c
  else if String.eqb key "auto_adjust"
  then set_adjust (negb (val =? 0)) (adjust_interval c) (high_watermark c) (low_watermark c) c
  else if String.eqb key "adjust_interval"
  then set_adjust (auto_adjust c) val (high_watermark c) (low_watermark c) c
  else c.

(** One iteration of the loop over the lines. *)
Definition load_line (c : dynamic_policy_config) (line : string) : dynamic_policy_config :=
  match line with
  | String ch _ =>
      if Ascii.eqb ch "#" || Ascii.eqb ch NEWLINE then c
      else match sscanf_word_uint 63 line with
           | Some (key, val) => apply_setting key val c
           | None => c
           end
  | "" => c
  end.

(** [file] is the content of the file, [None] when it cannot be opened. *)
Definition dynamic_policy_load_config (file : option string) : PM Z :=
  match file with
  | None => pret (-1)
  | Some content =>
      policy_lock ;;
      pmodify (fun s =>
        set_config (foldl load_line (g_policy_config s) (file_chunks 256 content)) s) ;;
      policy_unlock ;;
      pret 0
  end.

(** What is written to the file. *)
Definition config_text (c : dynamic_policy_config) : string :=
  unlines
    ["# RDMA Dynamic Policy Configuration";
     setting_line "max_qp_per_process" (max_per_process (limit (qp_policy c)));
     setting_line "max_global_qp" (max_global (limit (qp_policy c)));
     setting_line "max_mr_per_process" (max_per_process (limit (mr_policy c)));
     setting_line "max_global_mr" (max_global (limit (mr_policy c)));
     setting_line "max_memory_mb" (max_memory (limit (memory_policy c)) / (1024 * 1024));
     setting_line "auto_adjust" (if auto_adjust c then 1 else 0);
     setting_line "adjust_interval" (adjust_interval c)].

(** The return code and the content of the new file. *)
Definition dynamic_policy_save_config (can_write : bool) : PM (Z * option string) :=
  policy_lock ;;
  if negb can_write then policy_unlock ;; pret (-1, None)
  else
    do c <- pget g_policy_config in
    policy_unlock ;;
    pret (0, Some (config_text c)).

(** ** Limits *)

Definition dynamic_policy_set_limit (r : Z) (l : option resource_limit) : PM Z :=
  match l with
  | None => pret (-1)
  | Some l =>
      policy_lock ;;
      do c <- pget g_policy_config in
      match rule_of r c with
      | None => policy_unlock ;; pret (-1)
      | Some p =>
          pmodify (set_config (set_rule r (set_rule_limit l p) c)) ;;
          sync_limits ;;
          policy_unlock ;;
          pret 0
      end
  end.

(** The return code and what is stored through [limit], [None] when nothing is;
    [out] says whether the pointer is non-NULL. *)
Definition dynamic_policy_get_limit (r : Z) (out : bool) : PM (Z * option resource_limit) :=
  if negb out then pret (-1, None)
  else
    policy_lock ;;
    do c <- pget g_policy_config in
    match rule_of r c with
    | None => policy_unlock ;; pret (-1, None)
    | Some p => policy_unlock ;; pret (0, Some (limit p))
    end.

(** [true] means that the limit is exceeded. *)
Definition dynamic_policy_check_limit (junk : resource_usage) (r current requested : Z)
    : PM bool :=
  do res <- dynamic_policy_get_limit r true in
  match res.2 with
  | None => pret false
  | Some l =>
    do usage <- call_get_global junk in
    let global_current :=
      if r =? RESOURCE_QP then u32 (qp_count usage)
      else if r =? RESOURCE_MR then u32 (mr_count usage)
      else 0 in
    if max_global l <? u32 (global_current + requested) then pret true
    else if max_per_process l <? u32 (current + requested) then pret true
    else pret false
  end.

Definition dynamic_policy_update (config : option dynamic_policy_config) : PM Z :=
  match config with
  | None => pret (-1)
  | Some c =>
      policy_lock ;;
      pmodify (set_config c) ;;
      sync_limits ;;
      policy_unlock ;;
      pret 0
  end.

Definition dynamic_policy_get_config (out : bool) : PM (Z * option dynamic_policy_config) :=
  if negb out then pret (-1, None)
  else
    policy_lock ;;
    do c <- pget g_policy_config in
    policy_unlock ;;
    pret (0, Some c).

Definition dynamic_policy_enable_rule (r : Z) (enable : bool) : PM Z :=
  policy_lock ;;
  do c <- pget g_policy_config in
  match rule_of r c with
  | None => policy_unlock ;; pret (-1)
  | Some p =>
      pmodify (set_config (set_rule r (set_rule_enabled enable p) c)) ;;
      policy_unlock ;;
      pret 0
  end.

Definition dynamic_policy_set_default (now : Z) : PM Z :=
  policy_lock ;;
  pmodify (set_config (set_default_config now)) ;;
  policy_unlock ;;
  pret 0.

(** ** Adjustment *)

Definition dynamic_policy_set_auto_adjust (enable : bool) (interval : Z) (hi lo : float)
    : PM Z :=
  policy_lock ;;
  pmodify (fun s =>
    let c := g_policy_config s in
    set_config (set_adjust enable
      (if 0 <? interval then interval else adjust_interval c)
      (if SFltb (float_of 0) hi && SFleb hi (float_of 1) then hi else high_watermark c)
      (if SFleb (float_of 0) lo && SFltb lo (float_of 1) then lo else low_watermark c) c) s) ;;
  policy_unlock ;;
  pret 0.

(** What the adjustment prints: usage above the high or below the low
    watermark.  It changes no limit. *)
Inductive advice := TooHigh | TooLow.

Definition adjust_advice (c : dynamic_policy_config) (usage : resource_usage)
    : option advice :=
  let m := max_global (limit (qp_policy c)) in
  if 0 <? m
  then
    let rate := fdiv (float_of (qp_count usage)) (float_of m) in
    if SFltb (high_watermark c) rate then Some TooHigh
    else if SFltb rate (low_watermark c) then Some TooLow
    else None
  else None.

Definition dynamic_policy_adjust (junk : resource_usage) : PM (Z * option advice) :=
  policy_lock ;;
  do usage <- call_get_global junk in
  do c <- pget g_policy_config in
  policy_unlock ;;
  pret (0, adjust_advice c usage).

(** What the adjustment thread does once it is past its test. *)
Definition adjust_body (junk : resource_usage) : PM unit :=
  do c <- pget g_policy_config in
  if auto_adjust c
  then policy_lock ;; dynamic_policy_adjust junk ;; policy_unlock
  else pret tt.

(** One iteration of the adjustment thread after its sleep: [false] when it
    leaves the loop. *)
Definition adjust_thread_step (junk : resource_usage) : PM bool :=
  do running <- pget g_adjusting in
  if negb running then pret false
  else
    pmodify (set_thread Awake) ;;
    adjust_body junk ;;
    pmodify (set_thread Asleep) ;;
    pret true.

(** [pthread_join (g_adjust_thread)]: the thread runs to its end.  Asleep, it
    sees the cleared flag when it wakes up; past its test, it first finishes
    its iteration.  Without a thread to join the call is undefined. *)
Definition join_adjust_thread (junk : resource_usage) : PM unit := fun s =>
  match g_adjust_thread s with
  | NoThread => Undefined s
  | Asleep => if g_adjusting s then Blocked s else Returned tt (set_thread NoThread s)
  | Awake =>
      (adjust_body junk ;;
       do running <- pget g_adjusting in
       if running : bool then (fun s => Blocked s) else pmodify (set_thread NoThread)) s
  end.

Definition dynamic_policy_cleanup (junk : resource_usage) : PM unit :=
  pmodify (set_adjusting false) ;;
  join_adjust_thread junk ;;
  policy_lock ;;
  pmodify (set_config zero_policy) ;;
  policy_unlock.

(** The values of the report, in the order they are printed. *)
Record policy_report := mk_report {
  rep_qp : Z * Z * bool;
  rep_mr : Z * Z * bool;
  rep_memory : Z * bool;
  rep_adjust : bool * Z * float * float
}.

Definition dynamic_policy_print_config : PM policy_report :=
  policy_lock ;;
  do c <- pget g_policy_config in
  policy_unlock ;;
  pret (mk_report
    (max_per_process (limit (qp_policy c)), max_global (limit (qp_policy c)),
     enabled (qp_policy c))
    (max_per_process (limit (mr_policy c)), max_global (limit (mr_policy c)),
     enabled (mr_policy c))
    (max_memory (limit (memory_policy c)), enabled (memory_policy c))
    (auto_adjust c, adjust_interval c, high_watermark c, low_watermark c)).

(** ** Tenant policies *)

Definition dynamic_policy_set_tenant_policy (now : Z) (tid : Z) (policy : option tenant_policy)
    : PM Z :=
  match policy with
  | None => pret (-1)
  | Some p =>
      if Z.of_nat MAX_TENANTS <=? tid then pret (-1)
      else
        tenant_lock ;;
        pmodify (fun s => set_tenant_policies
          (<[Z.to_nat tid := mk_tpolicy (tp_tenant_id p) (tp_tenant_name p) (tp_policy p) now]>
             (g_tenant_policies s)) s) ;;
        tenant_unlock ;;
        pret 0
  end.

Definition dynamic_policy_get_tenant_policy (tid : Z) (out : bool)
    : PM (Z * option tenant_policy) :=
  if negb out || (Z.of_nat MAX_TENANTS <=? tid) then pret (-1, None)
  else
    tenant_lock ;;
    do p <- pget (fun s => g_tenant_policies s !!! Z.to_nat tid) in
    tenant_unlock ;;
    pret (0, Some p).

Definition dynamic_policy_delete_tenant_policy (tid : Z) : PM Z :=
  if Z.of_nat MAX_TENANTS <=? tid then pret (-1)
  else
    tenant_lock ;;
    pmodify (fun s => set_tenant_policies
      (<[Z.to_nat tid := zero_tpolicy]> (g_tenant_policies s)) s) ;;
    tenant_unlock ;;
    pret 0.

(** [true] means that the limit is exceeded. *)
Definition dynamic_policy_check_tenant_limit (tid r current requested : Z) : PM bool :=
  if Z.of_nat MAX_TENANTS <=? tid then pret false
  else
    do res <- dynamic_policy_get_tenant_policy tid true in
    match res.2 with
    | None => pret false
    | Some p =>
        match rule_of r (tp_policy p) with
        | None => pret false
        | Some rule => pret (max_per_process (limit rule) <? u32 (current + requested))
        end
    end.

(** The loop over the array: [count] policies are stored so far. *)
Fixpoint collect_policies (l : list tenant_policy) (count max_count : Z) : list tenant_policy :=
  match l with
  | [] => []
  | p :: l =>
      if count <? max_count
      then if negb (tp_tenant_id p =? 0)
           then p :: collect_policies l (count + 1) max_count
           else collect_policies l count max_count
      else []
  end.

(** The number of policies and what is stored in the caller's array. *)
Definition dynamic_policy_get_all_tenant_policies (max_count : Z) (out : bool)
    : PM (Z * list tenant_policy) :=
  if negb out || (max_count <=? 0) then pret (-1, [])
  else
    tenant_lock ;;
    do ps <- pget (fun s => collect_policies (g_tenant_policies s) 0 max_count) in
    tenant_unlock ;;
    pret (Z.of_nat (length ps), ps).

(** The static variables before any call. *)
Definition static_policy : policy_state :=
  mk_pstate zero_policy false false NoThread (replicate MAX_TENANTS zero_tpolicy) false
    (mk_handle (-1) false) None.

(** Every entry point; results are dropped. *)
Inductive policy_op :=
  | PInit (sys : shm_sys) (now : Z) (thread_ok : bool)
  | PCleanup (junk : resource_usage)
  | PPrint
  | PLoad (file : option string)
  | PSave (can_write : bool)
  | PSetLimit (r : Z) (l : option resource_limit)
  | PGetLimit (r : Z) (out : bool)
  | PCheck (junk : resource_usage) (r current requested : Z)
  | PUpdate (c : option dynamic_policy_config)
  | PGetConfig (out : bool)
  | PEnable (r : Z) (enable : bool)
  | PDefault (now : Z)
  | PAutoAdjust (enable : bool) (interval : Z) (hi lo : float)
  | PAdjust (junk : resource_usage)
  | PTenantSet (now tid : Z) (p : option tenant_policy)
  | PTenantGet (tid : Z) (out : bool)
  | PTenantDelete (tid : Z)
  | PTenantCheck (tid r current requested : Z)
  | PTenantAll (max_count : Z) (out : bool).

Definition policy_call (op : policy_op) : PM unit :=
  match op with
  | PInit sys now ok => dynamic_policy_init sys now ok ;; pret tt
  | PCleanup junk => dynamic_policy_cleanup junk
  | PPrint => dynamic_policy_print_config ;; pret tt
  | PLoad f => dynamic_policy_load_config f ;; pret tt
  | PSave w => dynamic_policy_save_config w ;; pret tt
  | PSetLimit r l => dynamic_policy_set_limit r l ;; pret tt
  | PGetLimit r out => dynamic_policy_get_limit r out ;; pret tt
  | PCheck junk r cur req => dynamic_policy_check_limit junk r cur req ;; pret tt
  | PUpdate c => dynamic_policy_update c ;; pret tt
  | PGetConfig out => dynamic_policy_get_config out ;; pret tt
  | PEnable r b => dynamic_policy_enable_rule r b ;; pret tt
  | PDefault now => dynamic_policy_set_default now ;; pret tt
  | PAutoAdjust b i hi lo => dynamic_policy_set_auto_adjust b i hi lo ;; pret tt
  | PAdjust junk => dynamic_policy_adjust junk ;; pret tt
  | PTenantSet now tid p => dynamic_policy_set_tenant_policy now tid p ;; pret tt
  | PTenantGet tid out => dynamic_policy_get_tenant_policy tid out ;; pret tt
  | PTenantDelete tid => dynamic_policy_delete_tenant_policy tid ;; pret tt
  | PTenantCheck tid r cur req => dynamic_policy_check_tenant_limit tid r cur req ;; pret tt
  | PTenantAll n out => dynamic_policy_get_all_tenant_policies n out ;; pret tt
  end.

(** * Theorems *)

(** ** Locking *)

Definition mutexes_free (s : policy_state) : Prop :=
  g_policy_mutex s = false /\ g_tenant_mutex s = false.

(** [m] returns from every state with free mutexes, and frees them again. *)
Definition returns {A} (m : PM A) : Prop :=
  forall s, mutexes_free s -> exists a s', m s = Returned a s' /\ mutexes_free s'.

(** The same between the lock and the unlock of the policy mutex. *)
Definition returns_locked {A} (m : PM A) : Prop :=
  forall s, g_policy_mutex s = true -> g_tenant_mutex s = false ->
  exists a s', m s = Returned a s' /\ mutexes_free s'.

Lemma returns_ret {A} (a : A) : returns (pret a).
Proof. intros s Hs. by exists a, s. Qed.

Lemma returns_bind {A B} (m : PM A) (k : A -> PM B) :
  returns m -> (forall a, returns (k a)) -> returns (pbind m k).
Proof.
  intros Hm Hk s Hs. destruct (Hm s Hs) as (a & s' & E & Hs').
  destruct (Hk a s' Hs') as (b & s'' & E' & Hs''). exists b, s''. split; [|done].
  unfold pbind. by rewrite E.
Qed.

Lemma returns_lock {A} (m : PM A) : returns_locked m -> returns (policy_lock ;; m).
Proof.
  intros Hm s [Hp Ht]. unfold pbind, policy_lock. rewrite Hp. by apply Hm.
Qed.

Lemma locked_unlock {A} (m : PM A) : returns m -> returns_locked (policy_unlock ;; m).
Proof. intros Hm s Hp Ht. by apply Hm. Qed.

(** A step in the critical section that keeps the mutexes. *)
Lemma locked_modify {A} f (m : PM A) :
  (forall s, g_policy_mutex (f s) = g_policy_mutex s /\ g_tenant_mutex (f s) = g_tenant_mutex s) ->
  returns_locked m -> returns_locked (pmodify f ;; m).
Proof.
  intros Hf Hm s Hp Ht. destruct (Hf s) as [Ep Et]. unfold pbind, pmodify.
  apply Hm; congruence.
Qed.

Lemma locked_get {A B} (f : policy_state -> A) (k : A -> PM B) :
  (forall a, returns_locked (k a)) -> returns_locked (pbind (pget f) k).
Proof. intros Hk s Hp Ht. by apply Hk. Qed.

Lemma locked_sync {A} (m : PM A) : returns_locked m -> returns_locked (sync_limits ;; m).
Proof.
  apply locked_modify. intros s. destruct (shm_obj s) as [d|]; [|done].
  unfold shm_set_global_limits. by destruct (negb (shm_get_ptr (shm_h s))).
Qed.

Lemma returns_global junk : returns (call_get_global junk).
Proof.
  intros s Hs. unfold call_get_global. destruct (shm_obj s) as [d|]; [|by eexists _, _].
  destruct (shm_get_global_resources _ _). by eexists _, _.
Qed.

Lemma returns_tenant {A} (m : PM A) :
  (forall s, g_tenant_mutex s = true -> g_policy_mutex s = false ->
     exists a s', m s = Returned a s' /\ mutexes_free s') -> returns (tenant_lock ;; m).
Proof. intros Hm s [Hp Ht]. unfold pbind, tenant_lock. rewrite Ht. by apply Hm. Qed.

(** [shm_init] inside the critical section. *)
Lemma locked_init {A} sys now (k : Z -> PM A) :
  (forall rc, returns_locked (k rc)) -> returns_locked (pbind (call_shm_init sys now) k).
Proof.
  intros Hk s Hp Ht. unfold pbind, call_shm_init.
  destruct (shm_init _ _ _ _) as [[rc h] o]. by apply Hk.
Qed.

Lemma locked_global {A} junk (k : resource_usage -> PM A) :
  (forall u, returns_locked (k u)) -> returns_locked (pbind (call_get_global junk) k).
Proof.
  intros Hk s Hp Ht. unfold pbind, call_get_global. destruct (shm_obj s) as [d|]; [|by apply Hk].
  destruct (shm_get_global_resources _ _). by apply Hk.
Qed.

Lemma returns_modify f :
  (forall s, g_policy_mutex (f s) = g_policy_mutex s /\ g_tenant_mutex (f s) = g_tenant_mutex s) ->
  returns (pmodify f).
Proof.
  intros Hf s [Hp Ht]. destruct (Hf s) as [Ep Et]. eexists _, _. split; [done|].
  split; congruence.
Qed.

Lemma returns_unlock : returns policy_unlock.
Proof. intros s [Hp Ht]. by eexists _, _. Qed.

Lemma locked_unlock_end : returns_locked policy_unlock.
Proof. intros s Hp Ht. by eexists _, _. Qed.

(** Follow the text of a function through its critical sections. *)
Ltac policy_returns :=
  repeat first
    [ match goal with
      | |- returns (match ?x with _ => _ end) => destruct x
      | |- returns_locked (match ?x with _ => _ end) => destruct x
      end
    | apply returns_ret | apply returns_lock | apply locked_unlock | apply locked_unlock_end
    | apply locked_sync
    | apply locked_get; intros ? | apply locked_init; intros ? | apply locked_global; intros ?
    | apply locked_modify; [done|] | apply returns_modify; done
    | apply returns_global
    | apply returns_tenant; intros ? ? ?; eexists _, _; split; [reflexivity|done]
    | apply returns_bind; [|intros ?] ].

(** There is a thread to join, and it will not meet the mutex. *)
Definition joinable_thread (s : policy_state) : Prop :=
  g_adjust_thread s = Asleep \/
  (g_adjust_thread s = Awake /\ auto_adjust (g_policy_config s) = false).

Definition is_cleanup (op : policy_op) : bool :=
  match op with PCleanup _ => true | _ => false end.

Lemma ops_return op : is_cleanup op = false -> returns (policy_call op).
Proof.
  intros Hop. destruct op; try discriminate Hop; unfold policy_call, dynamic_policy_init,
    dynamic_policy_print_config,
    dynamic_policy_load_config, dynamic_policy_save_config, dynamic_policy_set_limit,
    dynamic_policy_check_limit, dynamic_policy_get_limit, dynamic_policy_update,
    dynamic_policy_get_config, dynamic_policy_enable_rule, dynamic_policy_set_default,
    dynamic_policy_set_auto_adjust, dynamic_policy_adjust, dynamic_policy_set_tenant_policy,
    dynamic_policy_check_tenant_limit, dynamic_policy_get_tenant_policy,
    dynamic_policy_delete_tenant_policy, dynamic_policy_get_all_tenant_policies;
    policy_returns.
Qed.

(** The join, once the flag is cleared and the mutexes are free. *)
Lemma join_outcome junk s :
  mutexes_free s -> g_adjusting s = false ->
  match g_adjust_thread s with
  | NoThread => join_adjust_thread junk s = Undefined s
  | Asleep => join_adjust_thread junk s = Returned tt (set_thread NoThread s)
  | Awake => if auto_adjust (g_policy_config s)
             then join_adjust_thread junk s = Blocked (set_policy_mutex true s)
             else join_adjust_thread junk s = Returned tt (set_thread NoThread s)
  end.
Proof.
  intros [Hp Ht] Hr. unfold join_adjust_thread. destruct (g_adjust_thread s) eqn:E; [done| |].
  - by rewrite Hr.
  - unfold adjust_body, pbind, pget. destruct (auto_adjust _).
    + unfold policy_lock. by rewrite Hp.
    + simpl. by rewrite Hr.
Qed.


(** The calls that take [g_policy_mutex] whatever their arguments. *)
Definition needs_policy_mutex (op : policy_op) : bool :=
  match op with
  | PInit _ _ _ | PCleanup _ | PPrint | PLoad (Some _) | PSave _ | PSetLimit _ (Some _)
  | PGetLimit _ true | PCheck _ _ _ _ | PUpdate (Some _) | PGetConfig true | PEnable _ _
  | PDefault _ | PAutoAdjust _ _ _ _ | PAdjust _ => true
  | _ => false
  end.

(** With the mutex held the clean-up hangs in its join or in its lock. *)
Lemma cleanup_blocked junk s :
  g_policy_mutex s = true -> g_adjust_thread s <> NoThread ->
  exists s', dynamic_policy_cleanup junk s = Blocked s'.
Proof.
  intros Hm Ht. unfold dynamic_policy_cleanup, join_adjust_thread, adjust_body, policy_lock,
    pbind, pmodify, pget. simpl. destruct (g_adjust_thread s); [done| |];
    [|destruct (auto_adjust _)]; simpl; rewrite Hm; eauto.
Qed.

Lemma call_blocked op s :
  g_policy_mutex s = true -> g_adjust_thread s <> NoThread -> needs_policy_mutex op = true ->
  exists s', policy_call op s = Blocked s'.
Proof.
  intros Hm Ht Hop.
  destruct op as [|junk| |[]| |? []|? []| |[]|[]| | | | | | | | |]; try discriminate Hop;
    try (by apply cleanup_blocked);
    unfold policy_call, dynamic_policy_init, dynamic_policy_print_config,
      dynamic_policy_load_config, dynamic_policy_save_config, dynamic_policy_set_limit,
      dynamic_policy_check_limit, dynamic_policy_get_limit, dynamic_policy_update,
      dynamic_policy_get_config, dynamic_policy_enable_rule, dynamic_policy_set_default,
      dynamic_policy_set_auto_adjust, dynamic_policy_adjust, pbind, policy_lock; simpl;
    rewrite Hm; eauto.
Qed.

(** C39. Automatic adjustment deadlocks the policy manager.  The adjustment thread
    takes [g_policy_mutex] and calls [dynamic_policy_adjust], which takes the
    same non-recursive mutex again: the first iteration after its switch is
    turned on never ends, it leaves the mutex held, and from then on every
    call that needs the mutex, the clean-up included, is blocked too. *)
Theorem auto_adjust_deadlocks junk s :
  mutexes_free s -> g_adjusting s = true -> auto_adjust (g_policy_config s) = true ->
  exists s', adjust_thread_step junk s = Blocked s' /\
    forall op, needs_policy_mutex op = true -> exists s'', policy_call op s' = Blocked s''.
Proof.
  intros [Hp Ht] Hr Ha. exists (set_policy_mutex true (set_thread Awake s)). split.
  - unfold adjust_thread_step, adjust_body, pbind, pget, pmodify. rewrite Hr. simpl. rewrite Ha.
    unfold policy_lock. simpl. rewrite Hp. reflexivity.
  - intros op Hop. by apply call_blocked.
Qed.

(** ** The configuration file *)

Section settings.
Implicit Type c : dynamic_policy_config.

Definition u32_ok (z : Z) : Prop := 0 <= z < 2 ^ 32.

(** The values a configuration can hold, as far as the file is concerned. *)
Record config_ok c : Prop := {
  co_qp_pp : u32_ok (max_per_process (limit (qp_policy c)));
  co_qp_gl : u32_ok (max_global (limit (qp_policy c)));
  co_mr_pp : u32_ok (max_per_process (limit (mr_policy c)));
  co_mr_gl : u32_ok (max_global (limit (mr_policy c)));
  co_mem : 0 <= max_memory (limit (memory_policy c)) < 2 ^ 52;
  co_int : u32_ok (adjust_interval c)
}.

(** [c0] with the seven saved fields of [c], the memory limit in whole MB. *)
Definition restored c c0 : dynamic_policy_config :=
  set_adjust (auto_adjust c) (adjust_interval c) (high_watermark c0) (low_watermark c0)
    (on_limit RESOURCE_QP
       (fun l => mk_limit (max_per_process (limit (qp_policy c)))
                          (max_global (limit (qp_policy c))) (max_memory l))
    (on_limit RESOURCE_MR
       (fun l => mk_limit (max_per_process (limit (mr_policy c)))
                          (max_global (limit (mr_policy c))) (max_memory l))
    (on_limit RESOURCE_MEMORY
       (set_max_memory (max_memory (limit (memory_policy c)) / 2 ^ 20 * 2 ^ 20)) c0))).

Lemma load_setting_line c w z :
  word w -> (String.length w <= 63)%nat -> starts_with "#" w = false -> 0 <= z < 2 ^ 64 ->
  load_line c (setting_line w z +:+ String NEWLINE "") = apply_setting w (u32 z) c.
Proof.
  intros Hw Hl Hc Hz. pose proof (sscanf_setting_line 63 w z Hw Hl Hz) as Hs.
  destruct Hw as [Hne Hw]. destruct w as [|x w]; [done|].
  simpl in Hw. apply andb_true_iff in Hw as [Hx _]. apply negb_true_iff in Hx.
  assert (Hxn : Ascii.eqb x NEWLINE = false).
  { apply Ascii.eqb_neq. intros ->. done. }
  assert (Hxh : Ascii.eqb x "#" = false).
  { cbn [starts_with] in Hc. rewrite andb_true_r, Ascii.eqb_sym in Hc. done. }
  change (setting_line (String x w) z +:+ String NEWLINE "") with
    (String x ((w +:+ String " " (dec z)) +:+ String NEWLINE "")) in *.
  unfold load_line. by rewrite Hxh, Hxn, Hs.
Qed.

(** The seven lines of the file, in order, as settings. *)
Definition saved_settings c : list (string * Z) :=
  [("max_qp_per_process", max_per_process (limit (qp_policy c)));
   ("max_global_qp", max_global (limit (qp_policy c)));
   ("max_mr_per_process", max_per_process (limit (mr_policy c)));
   ("max_global_mr", max_global (limit (mr_policy c)));
   ("max_memory_mb", max_memory (limit (memory_policy c)) / (1024 * 1024));
   ("auto_adjust", if auto_adjust c then 1 else 0);
   ("adjust_interval", adjust_interval c)].

Definition key_ok (w : string) : Prop :=
  word w /\ (String.length w <= 63)%nat /\ starts_with "#" w = false.

Lemma saved_keys_ok c : Forall (fun kv => key_ok kv.1) (saved_settings c).
Proof. repeat constructor; try discriminate; simpl; lia. Qed.

Lemma saved_values_ok c :
  config_ok c -> Forall (fun kv => 0 <= kv.2 < 2 ^ 32) (saved_settings c).
Proof.
  intros []. unfold u32_ok in *. repeat constructor; simpl; try lia.
  - apply Z.div_pos; lia.
  - apply Z.div_lt_upper_bound; lia.
  - destruct (auto_adjust c); lia.
  - destruct (auto_adjust c); lia.
Qed.

Lemma config_text_chunks c :
  file_chunks 256 (config_text c) =
    ("# RDMA Dynamic Policy Configuration" +:+ String NEWLINE "") ::
    ((fun kv => setting_line kv.1 kv.2 +:+ String NEWLINE "") <$> saved_settings c).
Proof.
  unfold config_text. rewrite file_chunks_unlines; [done|].
  constructor; [split; [done|simpl; lia]|].
  change (Forall ?P _) with (Forall P ((fun kv => setting_line kv.1 kv.2) <$> saved_settings c)).
  apply Forall_fmap. eapply Forall_impl; [apply saved_keys_ok|].
  intros [w z] (Hw & Hl & _). apply setting_line_ok; [done|]. simpl in *. lia.
Qed.

Lemma load_settings kvs c0 :
  Forall (fun kv => key_ok kv.1) kvs -> Forall (fun kv => 0 <= kv.2 < 2 ^ 32) kvs ->
  foldl load_line c0 ((fun kv => setting_line kv.1 kv.2 +:+ String NEWLINE "") <$> kvs) =
  foldl (fun c kv => apply_setting kv.1 kv.2 c) c0 kvs.
Proof.
  intros Hk Hv. revert c0. induction kvs as [|[w z] kvs IH]; intros c0; [done|].
  apply Forall_cons in Hk as [(Hw & Hl & Hh) Hk]. apply Forall_cons in Hv as [Hz Hv].
  csimpl. simpl in *. rewrite load_setting_line by (done || lia).
  rewrite u32_small by lia. by apply IH.
Qed.

(** The effect of one setting. *)
Lemma apply_qp_pp v c :
  apply_setting "max_qp_per_process" v c = on_limit RESOURCE_QP (set_max_per_process v) c.
Proof. reflexivity. Qed.
Lemma apply_qp_gl v c :
  apply_setting "max_global_qp" v c = on_limit RESOURCE_QP (set_max_global v) c.
Proof. reflexivity. Qed.
Lemma apply_mr_pp v c :
  apply_setting "max_mr_per_process" v c = on_limit RESOURCE_MR (set_max_per_process v) c.
Proof. reflexivity. Qed.
Lemma apply_mr_gl v c :
  apply_setting "max_global_mr" v c = on_limit RESOURCE_MR (set_max_global v) c.
Proof. reflexivity. Qed.
Lemma apply_mem v c :
  apply_setting "max_memory_mb" v c =
    on_limit RESOURCE_MEMORY (set_max_memory (u64 (v * 1024 * 1024))) c.
Proof. reflexivity. Qed.
Lemma apply_auto v c :
  apply_setting "auto_adjust" v c =
    set_adjust (negb (v =? 0)) (adjust_interval c) (high_watermark c) (low_watermark c) c.
Proof. reflexivity. Qed.
Lemma apply_int v c :
  apply_setting "adjust_interval" v c =
    set_adjust (auto_adjust c) v (high_watermark c) (low_watermark c) c.
Proof. reflexivity. Qed.

Lemma on_qp f q m cq pd mem a i h l :
  on_limit RESOURCE_QP f (mk_policy q m cq pd mem a i h l) =
    mk_policy (set_rule_limit (f (limit q)) q) m cq pd mem a i h l.
Proof. reflexivity. Qed.
Lemma on_mr f q m cq pd mem a i h l :
  on_limit RESOURCE_MR f (mk_policy q m cq pd mem a i h l) =
    mk_policy q (set_rule_limit (f (limit m)) m) cq pd mem a i h l.
Proof. reflexivity. Qed.
Lemma on_mem f q m cq pd mem a i h l :
  on_limit RESOURCE_MEMORY f (mk_policy q m cq pd mem a i h l) =
    mk_policy q m cq pd (set_rule_limit (f (limit mem)) mem) a i h l.
Proof. reflexivity. Qed.

Lemma load_config_text c c0 :
  config_ok c -> foldl load_line c0 (file_chunks 256 (config_text c)) = restored c c0.
Proof.
  intros Hc. rewrite config_text_chunks. cbn [foldl].
  change (load_line c0 ("# RDMA Dynamic Policy Configuration" +:+ String NEWLINE "")) with c0.
  rewrite load_settings by auto using saved_keys_ok, saved_values_ok.
  unfold saved_settings, restored. cbn [foldl fst snd].
  assert (Hm : u64 (max_memory (limit (memory_policy c)) / (1024 * 1024) * 1024 * 1024) =
    max_memory (limit (memory_policy c)) / 2 ^ 20 * 2 ^ 20).
  { change (1024 * 1024) with (2 ^ 20). destruct (co_mem c Hc).
    rewrite <- Z.mul_assoc. change (1024 * 1024) with (2 ^ 20). apply u64_small.
    pose proof (Z.mul_div_le (max_memory (limit (memory_policy c))) (2 ^ 20)).
    pose proof (Z.div_pos (max_memory (limit (memory_policy c))) (2 ^ 20)). lia. }
  rewrite apply_qp_pp, apply_qp_gl, apply_mr_pp, apply_mr_gl, apply_mem, apply_auto, apply_int, Hm.
  destruct c0. rewrite !on_qp, !on_mr, !on_mem. by destruct (auto_adjust c).
Qed.
End settings.

(** C23. Saving and loading a configuration is a round trip.  What
    [dynamic_policy_save_config] writes, [dynamic_policy_load_config] reads
    back into any other configuration: the QP and MR limits, the switch and
    the interval of the adjustment come back exactly, the memory limit rounded
    down to whole megabytes; the other fields (CQ and PD limits, watermarks,
    rule flags) are not in the file and stay as they were.  The limits must
    fit their types and the memory limit 2^52, since the file holds it as a
    32-bit number of megabytes. *)
Theorem policy_save_load s s0 :
  mutexes_free s -> mutexes_free s0 -> config_ok (g_policy_config s) ->
  exists text,
    dynamic_policy_save_config true s = Returned (0, Some text) s /\
    dynamic_policy_load_config (Some text) s0 =
      Returned 0 (set_config (restored (g_policy_config s) (g_policy_config s0)) s0).
Proof.
  intros [Hp Ht] [Hp0 Ht0] Hc. exists (config_text (g_policy_config s)). split.
  - destruct s; simpl in *; subst. reflexivity.
  - unfold dynamic_policy_load_config, pbind, policy_lock. rewrite Hp0.
    unfold pmodify, policy_unlock. cbn [g_policy_config set_policy_mutex].
    rewrite load_config_text by done. destruct s0; simpl in *; subst. reflexivity.
Qed.

(** ** The checks *)

(** What the global check compares with: QPs and MRs are counted in the
    segment, the other resources are not. *)
Definition global_count (r : Z) (d : shared_memory_data) : Z :=
  if r =? RESOURCE_QP then qp_count (global_stats d)
  else if r =? RESOURCE_MR then mr_count (global_stats d)
  else 0.

Definition mapped (s : policy_state) (d : shared_memory_data) : Prop :=
  shm_get_ptr (shm_h s) = true /\ shm_obj s = Some d.

Lemma get_limit_run r s p :
  g_policy_mutex s = false -> rule_of r (g_policy_config s) = Some p ->
  dynamic_policy_get_limit r true s = Returned (0, Some (limit p)) s.
Proof.
  intros Hm Hr. unfold dynamic_policy_get_limit, pbind, policy_lock, pget. cbn [negb].
  rewrite Hm. cbn [g_policy_config set_policy_mutex]. rewrite Hr. cbn.
  destruct s; simpl in *; by subst.
Qed.

Lemma check_limit_run junk r cur req s d p :
  g_policy_mutex s = false -> mapped s d -> rule_of r (g_policy_config s) = Some p ->
  dynamic_policy_check_limit junk r cur req s =
    Returned ((max_global (limit p) <? u32 (u32 (global_count r d) + req)) ||
              (max_per_process (limit p) <? u32 (cur + req))) s.
Proof.
  intros Hm [Hptr Ho] Hr. unfold dynamic_policy_check_limit, pbind.
  rewrite (get_limit_run r s p) by done. cbn [snd].
  unfold call_get_global. rewrite Ho, Hptr. cbn [shm_get_global_resources negb].
  change (0 =? 0) with true. cbn [qp_count mr_count]. unfold global_count.
  set (g := if r =? RESOURCE_QP then u32 (qp_count (global_stats d)) else _).
  replace (u32 (if r =? RESOURCE_QP then _ else _)) with g
    by (unfold g; destruct (r =? RESOURCE_QP), (r =? RESOURCE_MR); done).
  destruct (max_global (limit p) <? _); [done|]. by destruct (max_per_process (limit p) <? _).
Qed.

Lemma rule_of_set r p c : rule_of r c <> None -> rule_of r (set_rule r p c) = Some p.
Proof.
  unfold rule_of, set_rule. simpl. intros H.
  destruct (r =? RESOURCE_QP), (r =? RESOURCE_MR), (r =? RESOURCE_CQ), (r =? RESOURCE_PD),
    (r =? RESOURCE_MEMORY); done.
Qed.

(** C25. What a limit check decides.  For a resource with a rule, a mapped segment
    and amounts that do not overflow 32 bits, the check reports an excess
    exactly when the global count plus the request is over the rule's global
    limit or the caller's count plus the request is over the limit per
    process.  Enabling or disabling the rule makes no difference to it. *)
Theorem policy_check_exact junk r cur req s d p :
  mutexes_free s -> mapped s d -> rule_of r (g_policy_config s) = Some p ->
  0 <= global_count r d -> 0 <= cur -> 0 <= req ->
  global_count r d + req < 2 ^ 32 -> cur + req < 2 ^ 32 ->
  exists b, dynamic_policy_check_limit junk r cur req s = Returned b s /\
    (b = true <-> max_global (limit p) < global_count r d + req \/
                  max_per_process (limit p) < cur + req) /\
    forall enable, exists s1, dynamic_policy_enable_rule r enable s = Returned 0 s1 /\
      dynamic_policy_check_limit junk r cur req s1 = Returned b s1.
Proof.
  intros [Hm Ht] Hd Hr Hg Hc Hq H1 H2. eexists. split_and!.
  - by apply check_limit_run.
  - rewrite (u32_small (global_count r d)), !u32_small, orb_true_iff, !Z.ltb_lt by lia. done.
  - intros enable.
    exists (set_config (set_rule r (set_rule_enabled enable p) (g_policy_config s)) s). split.
    + unfold dynamic_policy_enable_rule, pbind, policy_lock, pget. rewrite Hm.
      cbn [g_policy_config set_policy_mutex]. rewrite Hr. cbn.
      destruct s; simpl in *; by subst.
    + rewrite (check_limit_run _ _ _ _ _ d (set_rule_enabled enable p)); [done|done|done|].
      apply rule_of_set. by rewrite Hr.
Qed.

(** The default memory rule has its limit in [max_memory], which the check does
    not look at, and zero elsewhere: every positive amount is refused. *)
Theorem default_memory_refuses junk now cur req s d :
  mutexes_free s -> mapped s d -> 0 <= cur -> 0 < req -> cur + req < 2 ^ 32 ->
  exists s1, dynamic_policy_set_default now s = Returned 0 s1 /\
    dynamic_policy_check_limit junk RESOURCE_MEMORY cur req s1 = Returned true s1.
Proof.
  intros [Hm Ht] Hd Hc Hq Hs. exists (set_config (set_default_config now) s). split.
  - unfold dynamic_policy_set_default, pbind, policy_lock. rewrite Hm. cbn.
    destruct s; simpl in *; by subst.
  - erewrite (check_limit_run _ _ _ _ _ d); [|done|done|reflexivity]. simpl.
    change (u32 (global_count RESOURCE_MEMORY d)) with 0.
    rewrite u32_small by lia. by replace (0 <? 0 + req) with true by lia.
Qed.

(** ** Limits in the segment *)

Definition segment_limits (d : shared_memory_data) : Z * Z * Z :=
  (max_global_qp d, max_global_mr d, max_global_memory d).
Definition config_limits (c : dynamic_policy_config) : Z * Z * Z :=
  (max_global (limit (qp_policy c)), max_global (limit (mr_policy c)),
   max_memory (limit (memory_policy c))).

Lemma sync_limits_run s d :
  mapped s d ->
  exists d', sync_limits s = Returned tt (set_shm (shm_h s) (Some d') s) /\
    segment_limits d' = config_limits (g_policy_config s).
Proof.
  intros [Hptr Ho]. unfold sync_limits, pmodify, shm_set_global_limits. rewrite Ho, Hptr.
  eexists. split; reflexivity.
Qed.

(** Which changes of the policy reach the other processes.  A successful
    [dynamic_policy_set_limit] or [dynamic_policy_update] leaves the limits in
    the shared segment equal to those of the configuration;
    [dynamic_policy_load_config] and [dynamic_policy_set_default] change the
    configuration and leave the segment as it was. *)
Theorem policy_limits_synced s d r l c file now :
  mutexes_free s -> mapped s d -> rule_of r (g_policy_config s) <> None ->
  (exists s1 d1, dynamic_policy_set_limit r (Some l) s = Returned 0 s1 /\
     mapped s1 d1 /\ segment_limits d1 = config_limits (g_policy_config s1)) /\
  (exists s2 d2, dynamic_policy_update (Some c) s = Returned 0 s2 /\
     mapped s2 d2 /\ segment_limits d2 = config_limits c) /\
  (exists s3, dynamic_policy_load_config (Some file) s = Returned 0 s3 /\ mapped s3 d) /\
  (exists s4, dynamic_policy_set_default now s = Returned 0 s4 /\ mapped s4 d).
Proof.
  intros [Hm Ht] Hd Hr. split_and!.
  - destruct (rule_of r (g_policy_config s)) as [p|] eqn:E; [|done].
    set (c1 := set_rule r (set_rule_limit l p) (g_policy_config s)).
    destruct (sync_limits_run (set_config c1 (set_policy_mutex true s)) d Hd) as (d1 & Hs & Hl).
    eexists _, d1. unfold dynamic_policy_set_limit, pbind, policy_lock, pget. rewrite Hm.
    cbn [g_policy_config set_policy_mutex]. rewrite E. unfold pmodify at 1. fold c1.
    rewrite Hs. cbn. split; [reflexivity|]. split; [|exact Hl]. split; [apply Hd|done].
  - destruct (sync_limits_run (set_config c (set_policy_mutex true s)) d Hd) as (d1 & Hs & Hl).
    eexists _, d1. unfold dynamic_policy_update, pbind, policy_lock. rewrite Hm.
    unfold pmodify at 1. rewrite Hs. cbn. split; [reflexivity|]. split; [|exact Hl].
    split; [apply Hd|done].
  - eexists. unfold dynamic_policy_load_config, pbind, policy_lock. rewrite Hm. cbn.
    split; [reflexivity|exact Hd].
  - eexists. unfold dynamic_policy_set_default, pbind, policy_lock. rewrite Hm. cbn.
    split; [reflexivity|exact Hd].
Qed.

(** ** Tenant policies *)

Lemma tenant_check_run tid r cur req s rule :
  g_tenant_mutex s = false -> 0 <= tid < Z.of_nat MAX_TENANTS ->
  rule_of r (tp_policy (g_tenant_policies s !!! Z.to_nat tid)) = Some rule ->
  dynamic_policy_check_tenant_limit tid r cur req s =
    Returned (max_per_process (limit rule) <? u32 (cur + req)) s.
Proof.
  intros Ht Htid Hr. unfold dynamic_policy_check_tenant_limit, dynamic_policy_get_tenant_policy,
    pbind, tenant_lock, pget. replace (Z.of_nat MAX_TENANTS <=? tid) with false by lia.
  cbn [negb orb]. rewrite Ht. cbn. rewrite Hr. destruct s; simpl in *; by subst.
Qed.

(** The life of a tenant policy.  Setting the policy of a tenant below 128
    makes it the one that is read back, with the time of the call, and the one
    the tenant's checks use; deleting it, or never setting it, does not lift
    the limits but sets them to zero, so that every positive request for every
    resource is over the limit.  An id from 128 on is not limited at all. *)
Theorem tenant_policy_lifecycle s now tid r p rule cur req :
  mutexes_free s -> length (g_tenant_policies s) = MAX_TENANTS ->
  rule_of r (tp_policy p) = Some rule -> 0 <= cur -> 0 < req -> cur + req < 2 ^ 32 -> 0 <= tid ->
  if decide (tid < Z.of_nat MAX_TENANTS)
  then
    (exists s1, dynamic_policy_set_tenant_policy now tid (Some p) s = Returned 0 s1 /\
       dynamic_policy_get_tenant_policy tid true s1 =
         Returned (0, Some (mk_tpolicy (tp_tenant_id p) (tp_tenant_name p) (tp_policy p) now)) s1 /\
       dynamic_policy_check_tenant_limit tid r cur req s1 =
         Returned (max_per_process (limit rule) <? cur + req) s1) /\
    (exists s2, dynamic_policy_delete_tenant_policy tid s = Returned 0 s2 /\
       dynamic_policy_check_tenant_limit tid r cur req s2 = Returned true s2)
  else
    dynamic_policy_set_tenant_policy now tid (Some p) s = Returned (-1) s /\
    dynamic_policy_check_tenant_limit tid r cur req s = Returned false s.
Proof.
  intros [Hm Ht] Hl Hr Hc Hq Hs Htid. case_decide as Hlt.
  2:{ unfold dynamic_policy_set_tenant_policy, dynamic_policy_check_tenant_limit.
      by replace (Z.of_nat MAX_TENANTS <=? tid) with true by lia. }
  assert (Hi : (Z.to_nat tid < length (g_tenant_policies s))%nat) by lia.
  assert (E : (Z.of_nat MAX_TENANTS <=? tid) = false) by lia. split.
  - exists (set_tenant_policies (<[Z.to_nat tid := mk_tpolicy (tp_tenant_id p) (tp_tenant_name p)
      (tp_policy p) now]> (g_tenant_policies s)) s).
    unfold dynamic_policy_set_tenant_policy, dynamic_policy_get_tenant_policy, pbind, tenant_lock, pget.
    rewrite E. cbn [negb orb g_tenant_mutex set_tenant_policies]. rewrite Ht. cbn.
    split_and!.
    + destruct s; simpl in *; by subst.
    + rewrite arr_insert_eq by done. destruct s; simpl in *; by subst.
    + rewrite (tenant_check_run _ _ _ _ _ rule); [by rewrite u32_small by lia|done|lia|].
      cbn. by rewrite arr_insert_eq.
  - exists (set_tenant_policies (<[Z.to_nat tid := zero_tpolicy]> (g_tenant_policies s)) s).
    unfold dynamic_policy_delete_tenant_policy, pbind, tenant_lock. rewrite E, Ht. cbn. split.
    + destruct s; simpl in *; by subst.
    + rewrite (tenant_check_run _ _ _ _ _ zero_rule); [|done|lia|].
      * rewrite u32_small by lia. simpl. by replace (0 <? cur + req) with true by lia.
      * cbn. rewrite arr_insert_eq by done. cbn. unfold rule_of in *. revert Hr. by split_ifs.
Qed.

(** The list of policies is the first [max_count] with a tenant id. *)
Theorem all_tenant_policies s max_count :
  g_tenant_mutex s = false -> 0 < max_count ->
  let ps := take (Z.to_nat max_count)
    (filter (fun p => tp_tenant_id p <> 0) (g_tenant_policies s)) in
  dynamic_policy_get_all_tenant_policies max_count true s =
    Returned (Z.of_nat (length ps), ps) s.
Proof.
  intros Ht Hmax. assert (Hgo : forall l count, 0 <= count ->
    collect_policies l count max_count =
      take (Z.to_nat (max_count - count)) (filter (fun p => tp_tenant_id p <> 0) l)).
  { induction l as [|p l IH]; intros count Hc; cbn [collect_policies]; [by rewrite filter_nil, take_nil|].
    destruct (count <? max_count) eqn:E; tests.
    2:{ by replace (Z.to_nat (max_count - count)) with 0%nat by lia. }
    destruct (tp_tenant_id p =? 0) eqn:Ep; tests; simpl.
    - rewrite filter_cons_False by naive_solver. by apply IH.
    - rewrite filter_cons_True by done. rewrite IH by lia.
      replace (Z.to_nat (max_count - count)) with (S (Z.to_nat (max_count - (count + 1)))) by lia.
      done. }
  unfold dynamic_policy_get_all_tenant_policies, pbind, tenant_lock, pget.
  replace (max_count <=? 0) with false by lia. cbn [negb orb]. rewrite Ht. cbn.
  rewrite Hgo by lia. rewrite Z.sub_0_r. destruct s; simpl in *; by subst.
Qed.

(** ** Witnesses *)

(** A manager with the default policy, attached to a fresh segment. *)
Definition demo_policy : policy_state :=
  mk_pstate (set_default_config 100) false true Asleep (replicate MAX_TENANTS zero_tpolicy) false
    (mk_handle 5 true) (Some (shm_reset 7 zero_shm)).

(** The thread of a manager with automatic adjustment on, past its test. *)
Definition demo_awake : policy_state :=
  set_thread Awake (set_config (set_adjust true 60 (float_of 1) (float_of 0)
    (set_default_config 100)) demo_policy).


Definition demo_adjusting : policy_state :=
  set_config (set_adjust true 60 (float_of 1) (float_of 0) (set_default_config 100)) demo_policy.

Lemma auto_adjust_deadlocks_witness :
  exists s', adjust_thread_step zero_usage demo_adjusting = Blocked s' /\
    forall op, needs_policy_mutex op = true -> exists s'', policy_call op s' = Blocked s''.
Proof. apply (auto_adjust_deadlocks zero_usage demo_adjusting); done. Defined.

Lemma policy_save_load_witness :
  exists text,
    dynamic_policy_save_config true demo_policy = Returned (0, Some text) demo_policy /\
    dynamic_policy_load_config (Some text) static_policy =
      Returned 0 (set_config (restored (set_default_config 100) zero_policy) static_policy).
Proof.
  apply (policy_save_load demo_policy static_policy); [done|done|].
  split; unfold u32_ok; vm_compute; split; (discriminate || reflexivity).
Defined.

Lemma policy_check_exact_witness :
  exists b, dynamic_policy_check_limit zero_usage RESOURCE_QP 98 3 demo_policy =
      Returned b demo_policy /\ b = true.
Proof.
  destruct (policy_check_exact zero_usage RESOURCE_QP 98 3 demo_policy (shm_reset 7 zero_shm)
    (qp_policy (set_default_config 100))) as (b & Hb & Hiff & _);
    try done; try (vm_compute; discriminate).
  exists b. split; [exact Hb|]. apply Hiff. right. vm_compute. reflexivity.
Defined.

Lemma policy_limits_synced_witness :
  (exists s1 d1, dynamic_policy_set_limit RESOURCE_QP (Some (mk_limit 1 2 3)) demo_policy =
       Returned 0 s1 /\ mapped s1 d1 /\ segment_limits d1 = config_limits (g_policy_config s1)) /\
  (exists s3, dynamic_policy_load_config (Some (config_text zero_policy)) demo_policy =
       Returned 0 s3 /\ mapped s3 (shm_reset 7 zero_shm)).
Proof.
  destruct (policy_limits_synced demo_policy (shm_reset 7 zero_shm) RESOURCE_QP (mk_limit 1 2 3)
    zero_policy (config_text zero_policy) 100) as (H1 & _ & H3 & _); [done|done|done|].
  split; assumption.
Defined.

Lemma tenant_policy_lifecycle_witness :
  exists s2, dynamic_policy_delete_tenant_policy 20 demo_policy = Returned 0 s2 /\
    dynamic_policy_check_tenant_limit 20 RESOURCE_QP 0 1 s2 = Returned true s2.
Proof.
  pose proof (tenant_policy_lifecycle demo_policy 100 20 RESOURCE_QP
    (mk_tpolicy 20 "demo" (set_default_config 100) 0) (qp_policy (set_default_config 100)) 0 1) as H.
  rewrite decide_True in H by reflexivity. apply H; try done; try lia.
Defined.
