(* ===== verification/Json.v ===== *)
(** * The JSON library the tenant manager calls

    json-c is not part of the repository.  [JsonLib] lists the calls the daemon
    and the client make, [JsonLaws] the documented behaviour the round trip
    between them relies on: objects are maps from keys to values, the number
    and string constructors are inverted by the accessors, and parsing what was
    serialised gives the value back, for values nested no deeper than the
    tokener's default limit allows; what follows the value in the text, such as
    a line end, is ignored.  A NULL [json_object *] (the JSON null) is [None].
    The file ends with an implementation that satisfies the laws. *)

From S2P Require Import Prelude CString.
From stdpp Require Import base numbers list option strings.
From Stdlib Require Import Ascii.
#[local] Open Scope string_scope.
#[local] Open Scope Z_scope.

Class JsonLib := {
  json : Type;
  (** [None]: the text is not valid JSON, or null *)
  json_tokener_parse : string -> option json;
  json_object_to_json_string : json -> string;
  json_object_new_object : json;
  json_object_new_array : json;
  json_object_new_int : Z -> json;
  json_object_new_int64 : Z -> json;
  json_object_new_string : string -> json;
  json_object_new_boolean : bool -> json;
  json_object_object_add : json -> string -> option json -> json;
  json_object_array_add : json -> json -> json;
  json_object_array_length : json -> Z;
  json_object_array_get_idx : json -> Z -> option json;
  json_object_is_object : json -> bool;
  json_object_is_array : json -> bool;
  (** [None] for false; [Some v] for true, with [v] stored through the pointer *)
  json_object_object_get_ex : json -> string -> option (option json);
  json_object_get_int : option json -> Z;
  json_object_get_int64 : option json -> Z;
  (** [None] is the NULL that the null value gives *)
  json_object_get_string : option json -> option string;
  json_object_get_boolean : option json -> bool
}.

Class JsonLaws `{JsonLib} := {
  (** the same value with the fields of its objects in the same order: what a
      reader cannot tell apart (finer than [json_object_equal], which ignores
      the order) *)
  json_equal : relation json;
  json_equal_equiv :: Equivalence json_equal;
  (** how deep objects and arrays are nested; 0 for the other values *)
  json_depth : json -> nat;
  depth_new_object : (json_depth json_object_new_object <= 1)%nat;
  depth_new_array : (json_depth json_object_new_array <= 1)%nat;
  depth_new_int : forall z, json_depth (json_object_new_int z) = 0%nat;
  depth_new_int64 : forall z, json_depth (json_object_new_int64 z) = 0%nat;
  depth_new_string : forall s, json_depth (json_object_new_string s) = 0%nat;
  depth_new_boolean : forall b, json_depth (json_object_new_boolean b) = 0%nat;
  depth_object_add : forall o k v,
    (json_depth (json_object_object_add o k (Some v)) <= max (json_depth o) (S (json_depth v)))%nat;
  depth_array_add : forall a v,
    (json_depth (json_object_array_add a v) <= max (json_depth a) (S (json_depth v)))%nat;
  new_object_is_object : json_object_is_object json_object_new_object = true;
  add_is_object : forall o k v, json_object_is_object o = true ->
    json_object_is_object (json_object_object_add o k v) = true;
  get_new_object : forall k, json_object_object_get_ex json_object_new_object k = None;
  get_add : forall o k v k', json_object_is_object o = true ->
    json_object_object_get_ex (json_object_object_add o k v) k' =
      if String.eqb k k' then Some v else json_object_object_get_ex o k';
  get_int_new : forall z, - 2 ^ 31 <= z < 2 ^ 31 ->
    json_object_get_int (Some (json_object_new_int z)) = z;
  get_int64_new : forall z, - 2 ^ 63 <= z < 2 ^ 63 ->
    json_object_get_int64 (Some (json_object_new_int64 z)) = z;
  get_string_new : forall s, json_object_get_string (Some (json_object_new_string s)) = Some s;
  get_boolean_new : forall b, json_object_get_boolean (Some (json_object_new_boolean b)) = b;
  new_array_is_array : json_object_is_array json_object_new_array = true;
  add_is_array : forall a v, json_object_is_array a = true ->
    json_object_is_array (json_object_array_add a v) = true;
  array_not_object : forall a, json_object_is_array a = true -> json_object_is_object a = false;
  length_new_array : json_object_array_length json_object_new_array = 0;
  length_add : forall a v, json_object_is_array a = true ->
    json_object_array_length (json_object_array_add a v) = json_object_array_length a + 1;
  get_idx_add : forall a v i, json_object_is_array a = true -> 0 <= i ->
    json_object_array_get_idx (json_object_array_add a v) i =
      if i =? json_object_array_length a then Some v else json_object_array_get_idx a i;
  get_string_object : forall j, is_Some (json_object_get_string (Some j));
  get_string_null : json_object_get_string None = None;
  (** equal values look alike *)
  get_ex_proper : forall a b k, json_equal a b ->
    option_Forall2 (option_Forall2 json_equal)
      (json_object_object_get_ex a k) (json_object_object_get_ex b k);
  get_idx_proper : forall a b i, json_equal a b ->
    option_Forall2 json_equal (json_object_array_get_idx a i) (json_object_array_get_idx b i);
  array_length_proper :: Proper (json_equal ==> eq) json_object_array_length;
  is_object_proper :: Proper (json_equal ==> eq) json_object_is_object;
  is_array_proper :: Proper (json_equal ==> eq) json_object_is_array;
  get_boolean_proper :: Proper (option_Forall2 json_equal ==> eq) json_object_get_boolean;
  get_int_proper :: Proper (option_Forall2 json_equal ==> eq) json_object_get_int;
  get_int64_proper :: Proper (option_Forall2 json_equal ==> eq) json_object_get_int64;
  get_string_proper :: Proper (option_Forall2 json_equal ==> eq) json_object_get_string;
  (** JSON_TOKENER_DEFAULT_DEPTH is 32 *)
  parse_print : forall j, (json_depth j < 32)%nat -> exists j',
    json_tokener_parse (json_object_to_json_string j) = Some j' /\ json_equal j j';
  parse_line : forall j,
    json_tokener_parse (json_object_to_json_string j +:+ String NEWLINE "") =
    json_tokener_parse (json_object_to_json_string j);
  parse_empty : json_tokener_parse "" = None
}.

(** ** Objects from a list of fields, in the order they are added *)

Section objects.
Context `{JsonLib}.

Definition build_object (fs : list (string * json)) : json :=
  foldl (fun o f => json_object_object_add o f.1 (Some f.2)) json_object_new_object fs.

(** The last field with a key counts. *)
Fixpoint field (fs : list (string * json)) (k : string) : option json :=
  match fs with
  | [] => None
  | f :: fs => match field fs k with
               | Some v => Some v
               | None => if String.eqb f.1 k then Some f.2 else None
               end
  end.

Context {laws : JsonLaws}.

Lemma build_object_get fs k :
  json_object_object_get_ex (build_object fs) k = Some <$> field fs k.
Proof using laws.
  assert (Hg : forall o, json_object_is_object o = true ->
    json_object_object_get_ex
      (foldl (fun o f => json_object_object_add o f.1 (Some f.2)) o fs) k =
    match field fs k with
    | Some v => Some (Some v)
    | None => json_object_object_get_ex o k
    end).
  { induction fs as [|[k' v] fs IH]; intros o Ho; [done|]. simpl.
    rewrite IH by by apply add_is_object. destruct (field fs k) as [w|]; [done|].
    rewrite get_add by done. by destruct (String.eqb k' k). }
  unfold build_object. rewrite Hg by apply new_object_is_object.
  rewrite get_new_object. by destruct (field fs k).
Qed.

(** An object is one level deeper than its deepest field. *)
Lemma build_object_depth fs n :
  Forall (fun f => json_depth f.2 <= n)%nat fs -> (json_depth (build_object fs) <= S n)%nat.
Proof using laws.
  unfold build_object. assert (Ho : (json_depth json_object_new_object <= S n)%nat).
  { pose proof depth_new_object. lia. }
  intros Hfs. revert Ho. generalize json_object_new_object.
  induction Hfs as [|f fs Hf _ IH]; intros o Ho; [done|]. simpl. apply IH.
  pose proof (depth_object_add o f.1 f.2). lia.
Qed.

(** What a reader finds in the parsed text of an object. *)
Lemma parsed_object fs :
  Forall (fun f => json_depth f.2 <= 30)%nat fs ->
  exists j, json_tokener_parse (json_object_to_json_string (build_object fs)) = Some j /\
    forall k, option_Forall2 (option_Forall2 json_equal)
      (Some <$> field fs k) (json_object_object_get_ex j k).
Proof using laws.
  intros Hd%build_object_depth.
  destruct (parse_print (build_object fs)) as (j & Hp & He); [lia|]. exists j. split; [done|].
  intros k. rewrite <- build_object_get. by apply get_ex_proper.
Qed.
End objects.

(** ** An implementation

    A value is a string, a tag and then the content; the parts of an object or
    an array carry their length in front, in binary, and so does a serialised
    value. *)

(** The binary digits of a number, the lowest first, up to the leading one. *)
Fixpoint bits (p : positive) (s : string) : string :=
  match p with
  | xH => String ":" s
  | xO p => String "0" (bits p s)
  | xI p => String "1" (bits p s)
  end.
Definition enc (s : string) : string := bits (Pos.of_succ_nat (String.length s)) s.

Fixpoint str_take (n : nat) (s : string) : string :=
  match n, s with
  | S n, String c s => String c (str_take n s)
  | _, _ => ""
  end.

Fixpoint read_bits (s : string) : option (positive * string) :=
  match s with
  | "" => None
  | String c r =>
      if Ascii.eqb c ":" then Some (xH, r)
      else match read_bits r with
           | Some (p, r) =>
               if Ascii.eqb c "0" then Some (xO p, r)
               else if Ascii.eqb c "1" then Some (xI p, r) else None
           | None => None
           end
  end.

(** The first part of a sequence of parts, and the rest. *)
Definition unenc (s : string) : option (string * string) :=
  match read_bits s with
  | Some (p, r) =>
      let n := pred (Pos.to_nat p) in Some (str_take n r, str_drop n r)
  | None => None
  end.

Lemma bits_app p s r : bits p s +:+ r = bits p (s +:+ r).
Proof.
  induction p as [p IH|p IH|]; simpl; [| |done].
  - exact (f_equal (String "1") IH).
  - exact (f_equal (String "0") IH).
Qed.

Lemma bits_length p s : (String.length s < String.length (bits p s))%nat.
Proof. induction p; simpl; lia. Qed.

Lemma enc_length s : (String.length s < String.length (enc s))%nat.
Proof. apply bits_length. Qed.

Lemma take_drop_app s r :
  str_take (String.length s) (s +:+ r) = s /\ str_drop (String.length s) (s +:+ r) = r.
Proof.
  induction s as [|c s [IH1 IH2]]; [done|].
  change (String c s +:+ r) with (String c (s +:+ r)). simpl. by rewrite IH1, IH2.
Qed.

Lemma unenc_enc s r : unenc (enc s +:+ r) = Some (s, r).
Proof.
  unfold unenc, enc. rewrite bits_app.
  assert (Hr : forall p t, read_bits (bits p t) = Some (p, t)).
  { induction p as [p IH|p IH|]; intros t; simpl; rewrite ?IH; done. }
  rewrite Hr. cbv zeta. rewrite SuccNat2Pos.id_succ. simpl pred.
  destruct (take_drop_app s r) as [-> ->]. done.
Qed.

Lemma unenc_alone s : unenc (enc s) = Some (s, "").
Proof.
  rewrite <- (unenc_enc s ""). f_equal. symmetry.
  induction (enc s) as [|c r IH]; [done|]. exact (f_equal (String c) IH).
Qed.

(** The value of a key in a sequence of keys and values. *)
Fixpoint find_key (fuel : nat) (k : string) (s : string) : option string :=
  match fuel with
  | O => None
  | S fuel =>
      match unenc s with
      | None => None
      | Some (k', s) =>
          match unenc s with
          | None => None
          | Some (v, s) => if String.eqb k' k then Some v else find_key fuel k s
          end
      end
  end.

Lemma str_drop_length n s : (String.length (str_drop n s) <= String.length s)%nat.
Proof.
  revert n. induction s as [|c s IH]; intros [|n]; simpl; try done. by apply le_S.
Qed.

Lemma unenc_shorter s a r : unenc s = Some (a, r) -> (String.length r < String.length s)%nat.
Proof.
  unfold unenc. assert (Hl : forall s p r, read_bits s = Some (p, r) ->
    (String.length r < String.length s)%nat).
  { clear. induction s as [|c s IH]; intros p r; simpl; [done|].
    destruct (Ascii.eqb c ":"); [naive_solver lia|].
    destruct (read_bits s) as [[q q']|]; [|done]. specialize (IH q q' eq_refl).
    destruct (Ascii.eqb c "0"); [naive_solver lia|].
    destruct (Ascii.eqb c "1"); [naive_solver lia|done]. }
  destruct (read_bits s) as [[p q]|] eqn:E; [|done]. cbv zeta. intros [= <- <-].
  specialize (Hl s p q E). pose proof (str_drop_length (pred (Pos.to_nat p)) q). lia.
Qed.

(** One unit of fuel per character is enough. *)
Lemma find_key_fuel f g k s :
  (String.length s < f)%nat -> (String.length s < g)%nat -> find_key f k s = find_key g k s.
Proof.
  revert g s. induction f as [|f IH]; intros [|g] s Hf Hg; try lia. simpl.
  destruct (unenc s) as [[k' s1]|] eqn:E1; [|done].
  destruct (unenc s1) as [[v s2]|] eqn:E2; [|done].
  apply unenc_shorter in E1, E2. destruct (String.eqb k' k); [done|]. apply IH; lia.
Qed.

Lemma find_key_first fuel k v k' r :
  find_key (S fuel) k' (enc k +:+ (enc v +:+ r)) =
    if String.eqb k k' then Some v else find_key fuel k' r.
Proof. cbn [find_key]. by rewrite unenc_enc, unenc_enc. Qed.

Definition enc_value (v : option string) : string :=
  match v with Some v => String "V" v | None => "N" end.
Definition dec_value (s : string) : option string :=
  match s with String "V" v => Some v | _ => None end.

Definition is_obj (o : string) : bool := match o with String "O" _ => true | _ => false end.
Definition add_field (o k : string) (v : option string) : string :=
  match o with
  | String "O" r => String "O" (enc k +:+ (enc (enc_value v) +:+ r))
  | _ => o
  end.
Definition get_field (o k : string) : option (option string) :=
  match o with
  | String "O" r => dec_value <$> find_key (S (String.length r)) k r
  | _ => None
  end.

Lemma get_add_field o k v k' :
  is_obj o = true ->
  get_field (add_field o k v) k' = if String.eqb k k' then Some v else get_field o k'.
Proof.
  intros Ho. destruct o as [|c r]; [done|]. unfold is_obj in Ho.
  assert (c = "O"%char) as -> by (repeat case_match; congruence).
  unfold add_field, get_field. rewrite find_key_first.
  destruct (String.eqb k k'); [by destruct v|]. f_equal. apply find_key_fuel; [|lia].
  rewrite !slength_app. pose proof (enc_length k). lia.
Qed.

(** The parts of an array; the last one added comes first. *)
Fixpoint parts (fuel : nat) (s : string) : list string :=
  match fuel with
  | O => []
  | S fuel => match unenc s with Some (v, s) => v :: parts fuel s | None => [] end
  end.

Lemma parts_first fuel v r : parts (S fuel) (enc v +:+ r) = v :: parts fuel r.
Proof. cbn [parts]. by rewrite unenc_enc. Qed.

Lemma parts_fuel f g s :
  (String.length s < f)%nat -> (String.length s < g)%nat -> parts f s = parts g s.
Proof.
  revert g s. induction f as [|f IH]; intros [|g] s Hf Hg; try lia. simpl.
  destruct (unenc s) as [[v r]|] eqn:E; [|done]. apply unenc_shorter in E.
  f_equal. apply IH; lia.
Qed.

Definition is_arr (a : string) : bool := match a with String "A" _ => true | _ => false end.
Definition elements (a : string) : list string :=
  match a with String "A" r => reverse (parts (S (String.length r)) r) | _ => [] end.
Definition add_element (a v : string) : string :=
  match a with String "A" r => String "A" (enc v +:+ r) | _ => a end.

Lemma elements_add a v : is_arr a = true -> elements (add_element a v) = (elements a ++ [v])%list.
Proof.
  intros Ha. destruct a as [|c r]; [done|]. unfold is_arr in Ha.
  assert (c = "A"%char) as -> by (repeat case_match; congruence).
  unfold add_element, elements. rewrite <- reverse_cons. f_equal.
  rewrite parts_first. f_equal. apply parts_fuel; [|lia].
  rewrite slength_app. pose proof (enc_length v). lia.
Qed.

Definition print_int (z : Z) : string := String "I" (dec (z + 2 ^ 63)).
Definition read_int (v : option string) : Z :=
  match v with Some (String "I" s) => strtoull s - 2 ^ 63 | _ => 0 end.

#[local] Instance text_json : JsonLib := {
  json := string;
  json_tokener_parse s := fst <$> unenc s;
  json_object_to_json_string j := enc j;
  json_object_new_object := "O";
  json_object_new_array := "A";
  json_object_new_int := print_int;
  json_object_new_int64 := print_int;
  json_object_new_string s := String "S" s;
  json_object_new_boolean b := if b then "T" else "F";
  json_object_object_add := add_field;
  json_object_array_add := add_element;
  json_object_array_length a := Z.of_nat (length (elements a));
  json_object_array_get_idx a i := elements a !! Z.to_nat i;
  json_object_is_object := is_obj;
  json_object_is_array := is_arr;
  json_object_object_get_ex := get_field;
  json_object_get_int := read_int;
  json_object_get_int64 := read_int;
  json_object_get_string v :=
    match v with Some (String "S" s) => Some s | Some s => Some s | None => None end;
  json_object_get_boolean v :=
    match v with Some (String "T" _) => true | _ => false end
}.

Lemma read_print_int z : - 2 ^ 63 <= z < 2 ^ 63 -> read_int (Some (print_int z)) = z.
Proof. intros Hz. unfold read_int, print_int. rewrite strtoull_dec by lia. lia. Qed.

Lemma add_field_obj o k v : is_obj o = true -> is_obj (add_field o k v) = true.
Proof.
  intros Ho. destruct o as [|c r]; [done|]. unfold is_obj in Ho.
  assert (c = "O"%char) as -> by (repeat case_match; congruence). done.
Qed.

Lemma add_element_arr a v : is_arr a = true -> is_arr (add_element a v) = true.
Proof.
  intros Ha. destruct a as [|c r]; [done|]. unfold is_arr in Ha.
  assert (c = "A"%char) as -> by (repeat case_match; congruence). done.
Qed.

Lemma arr_not_obj a : is_arr a = true -> is_obj a = false.
Proof. unfold is_arr, is_obj. intros H. by repeat case_match. Qed.

Lemma lookup_snoc_Z (l : list string) v i :
  0 <= i ->
  (l ++ [v])%list !! Z.to_nat i = if i =? Z.of_nat (length l) then Some v else l !! Z.to_nat i.
Proof.
  intros Hi. destruct (i =? Z.of_nat (length l)) eqn:E; tests.
  - rewrite lookup_app_r by lia. by replace (Z.to_nat i - length l)%nat with 0%nat by lia.
  - destruct (decide (Z.to_nat i < length l)%nat).
    + by rewrite lookup_app_l.
    + rewrite !lookup_ge_None_2; [done|lia|]. rewrite length_app. simpl. lia.
Qed.

#[local] Instance text_json_laws : JsonLaws.
Proof.
  refine {| json_equal := eq; json_depth _ := 0%nat |}; simpl; try done; try lia.
  - apply add_field_obj.
  - apply get_add_field.
  - intros z Hz. apply read_print_int. lia.
  - apply read_print_int.
  - by intros [].
  - apply add_element_arr.
  - apply arr_not_obj.
  - intros a v Ha. rewrite elements_add, length_app by done. simpl. lia.
  - intros a v i Ha Hi. rewrite elements_add by done. by apply lookup_snoc_Z.
  - intros j. repeat case_match; eauto.
  - intros a b k ->. destruct (get_field b k) as [[v|]|]; repeat constructor.
  - intros a b i ->. destruct (elements b !! Z.to_nat i); by constructor.
  - intros a b H. by destruct H; subst.
  - intros a b H. by destruct H; subst.
  - intros a b H. by destruct H; subst.
  - intros a b H. by destruct H; subst.
  - intros j _. exists j. by rewrite unenc_alone.
  - intros j. by rewrite unenc_enc, unenc_alone.
Defined.
