(* ===== verification/Manager.v ===== *)
(** * The tenant manager: src/src/tenant_manager_daemon.c and
      src/src/tenant_manager_client.c

    The daemon owns no state but the mapped tenant table of the file
    TenantShm: it parses one JSON request per connection, runs the command on
    the table and sends one JSON response.  The client turns its command line
    into a request and shows the response.  The JSON library is a parameter
    (file Json); [now] is the clock reading of the request.  A request that
    dereferences a NULL pointer is the outcome [Crashed]; a daemon that dies, by
    that or by SIGPIPE, is the end [Killed] of a connection. *)

From S2P Require Import Prelude CString Shm TenantShm Json.
From stdpp Require Import base numbers list option strings.
From Stdlib Require Import Ascii.
#[local] Open Scope string_scope.
#[local] Open Scope Z_scope.

Definition BUFFER_SIZE : nat := 4096.
Definition DEFAULT_MEMORY : Z := 1073741824.

(** The C string at the start of a buffer of bytes. *)
Fixpoint c_string (s : string) : string :=
  match s with
  | "" => ""
  | String c r => if Ascii.eqb c "000" then "" else String c (c_string r)
  end.

(** What one [recv (fd, buffer, BUFFER_SIZE - 1, 0)] followed by
    [buffer[n] = 0] leaves of the bytes that were sent. *)
Definition received (s : string) : string :=
  c_string (String.substring 0 (BUFFER_SIZE - 1) s).

(** The number of an enumerator of [tenant_status]. *)
Definition status_int (st : tenant_status) : Z :=
  match st with
  | TENANT_STATUS_INACTIVE => 0
  | TENANT_STATUS_ACTIVE => 1
  | TENANT_STATUS_SUSPENDED => 2
  end.

Section daemon.
Context {JL : JsonLib}.

(** ** Responses *)

Definition add_int (o : json) (k : string) (z : Z) : json :=
  json_object_object_add o k (Some (json_object_new_int (i32 z))).
Definition add_int64 (o : json) (k : string) (z : Z) : json :=
  json_object_object_add o k (Some (json_object_new_int64 (i64 z))).
Definition add_string (o : json) (k s : string) : json :=
  json_object_object_add o k (Some (json_object_new_string s)).

Definition build_response (success : bool) (message : string) (data : option json) : string :=
  let resp := json_object_new_object in
  let resp := json_object_object_add resp "success" (Some (json_object_new_boolean success)) in
  let resp := add_string resp "message" message in
  let resp := match data with
              | Some d => json_object_object_add resp "data" (Some d)
              | None => resp
              end in
  json_object_to_json_string resp.

(** ** Requests *)

(** [json_object_object_get_ex (o, k, &v) ? f (v) : d] *)
Definition get_or {A} (o : json) (k : string) (f : option json -> A) (d : A) : A :=
  match json_object_object_get_ex o k with Some v => f v | None => d end.

(** The quota both handlers build; the fields are [uint32_t], so a negative
    number of the request becomes a quota above 2^31. *)
Definition request_quota (qp mr mem : Z) : tenant_quota :=
  mk_quota (u32 qp) (u32 mr) mem (u32 qp) 10.

Definition get_mem (o : json) : Z :=
  get_or o "memory" (fun v => u64 (json_object_get_int64 v)) DEFAULT_MEMORY.

(** The version and time stamp that the daemon writes itself, without the lock. *)
Definition touch (now : Z) (s : tenant_shared_memory) : tenant_shared_memory :=
  mk_tshm (tenants s) (pid_mappings s) (active_tenant_count s) (total_process_count s)
    (tenant_lock_word s) (u64 (t_version s + 1)) now.

Definition handle_update_quota (now : Z) (o : json) (s : tenant_shared_memory)
    : string * tenant_shared_memory :=
  match json_object_object_get_ex o "tenant", json_object_object_get_ex o "qp" with
  | Some tenant_obj, Some qp_obj =>
      let tid := u32 (json_object_get_int tenant_obj) in
      let qp := json_object_get_int qp_obj in
      let mr := get_or o "mr" json_object_get_int qp in
      let quota := request_quota qp mr (get_mem o) in
      let '(rc, s) := tenant_update_quota true now s tid (Some quota) in
      if negb (rc =? 0) then (build_response false "Failed to update quota" None, s)
      else (build_response true ("Quota updated for tenant " +:+ dec tid) None, touch now s)
  | _, _ => (build_response false "Missing required fields: tenant, qp" None, s)
  end.

Definition handle_create (now : Z) (o : json) (s : tenant_shared_memory)
    : string * tenant_shared_memory :=
  match json_object_object_get_ex o "tenant" with
  | None => (build_response false "Missing required field: tenant" None, s)
  | Some tenant_obj =>
      let tid := u32 (json_object_get_int tenant_obj) in
      let name := get_or o "name" json_object_get_string (Some "unnamed") in
      let qp := get_or o "qp" json_object_get_int 100 in
      let mr := get_or o "mr" json_object_get_int 100 in
      let quota := request_quota qp mr (get_mem o) in
      let '(rc, s) := tenant_create true now s tid name (Some quota) in
      if negb (rc =? 0) then (build_response false "Failed to create tenant" None, s)
      else (build_response true ("Tenant " +:+ dec tid +:+ " created") None, s)
  end.

Definition handle_delete (now : Z) (o : json) (s : tenant_shared_memory)
    : string * tenant_shared_memory :=
  match json_object_object_get_ex o "tenant" with
  | None => (build_response false "Missing required field: tenant" None, s)
  | Some tenant_obj =>
      let tid := u32 (json_object_get_int tenant_obj) in
      let '(rc, s) := tenant_delete true now s tid in
      if negb (rc =? 0) then (build_response false "Failed to delete tenant" None, s)
      else (build_response true ("Tenant " +:+ dec tid +:+ " deleted") None, s)
  end.

(** The fields that all three descriptions of a tenant start with. *)
Definition tenant_name_json (t : tenant_info) : json :=
  add_string (add_int json_object_new_object "id" (tenant_id t)) "name" (tenant_name t).
Definition add_usage (o : json) (t : tenant_info) : json :=
  let o := add_int o "qp_used" (t_qp_count (usage t)) in
  let o := add_int o "qp_limit" (max_qp_per_tenant (quota t)) in
  let o := add_int o "mr_used" (t_mr_count (usage t)) in
  add_int o "mr_limit" (max_mr_per_tenant (quota t)).
Definition add_memory (o : json) (t : tenant_info) : json :=
  let o := add_int64 o "memory_used" (t_memory_used (usage t)) in
  add_int64 o "memory_limit" (max_memory_per_tenant (quota t)).

Definition tenant_status_json (t : tenant_info) : json :=
  let o := add_int (tenant_name_json t) "status" (status_int (status t)) in
  add_memory (add_usage o t) t.

(** The loop over the table: one element per tenant that is not inactive. *)
Definition tenants_array (f : tenant_info -> json) (ts : list tenant_info) : json :=
  foldl (fun a t => if is_inactive t then a else json_object_array_add a (f t))
    json_object_new_array ts.

Definition handle_status (now : Z) (o : json) (s : tenant_shared_memory)
    : string * tenant_shared_memory :=
  match json_object_object_get_ex o "tenant" with
  | None =>
      (build_response true "All tenants status"
         (Some (tenants_array tenant_status_json (tenants s))), s)
  | Some tenant_obj =>
      let tid := u32 (json_object_get_int tenant_obj) in
      let '(rc, info, s) := tenant_get_info true now s tid in
      if negb (rc =? 0) then (build_response false "Tenant not found" None, s)
      else
        let data := tenant_status_json info in
        let data := add_int64 data "total_qp_creates" (total_qp_creates (usage info)) in
        let data := add_int64 data "total_mr_regs" (total_mr_regs (usage info)) in
        (build_response true "Tenant status" (Some data), s)
  end.

Definition handle_list_tenants (s : tenant_shared_memory) : string :=
  let a := tenants_array (fun t => add_usage (tenant_name_json t) t) (tenants s) in
  let data := json_object_new_object in
  let data := add_int data "count" (json_object_array_length a) in
  let data := add_int64 data "version" (t_version s) in
  let data := json_object_object_add data "tenants" (Some a) in
  build_response true "Tenant list" (Some data).

Inductive served :=
  | Replied (response : string) (s : tenant_shared_memory)
  | Crashed.

Definition replied (r : string * tenant_shared_memory) : served := Replied r.1 r.2.

Definition process_command (now : Z) (json_str : string) (s : tenant_shared_memory) : served :=
  match json_tokener_parse json_str with
  | None => Replied (build_response false "Invalid JSON" None) s
  | Some o =>
      match json_object_object_get_ex o "cmd" with
      | None => Replied (build_response false "Missing 'cmd' field" None) s
      | Some cmd_obj =>
          match json_object_get_string cmd_obj with
          | None => Crashed
          | Some cmd =>
              if String.eqb cmd "UPDATE_QUOTA" then replied (handle_update_quota now o s)
              else if String.eqb cmd "CREATE" then replied (handle_create now o s)
              else if String.eqb cmd "DELETE" then replied (handle_delete now o s)
              else if String.eqb cmd "STATUS" then replied (handle_status now o s)
              else if String.eqb cmd "LIST_TENANTS" then Replied (handle_list_tenants s) s
              else Replied (build_response false "Unknown command" None) s
          end
      end
  end.

(** ** Connections *)

(** What a [send] does: it takes all the bytes, or some of them (none on an
    error; the result is not looked at), or the peer has closed its end and the
    process gets SIGPIPE, which nobody handles or blocks. *)
Inductive send_result := SentAll | SentSome (n : nat) | PeerClosed.

Definition taken (r : send_result) (bytes : string) : string :=
  match r with
  | SentAll => bytes
  | SentSome n => String.substring 0 n bytes
  | PeerClosed => ""
  end.

Definition is_closed (r : send_result) : bool :=
  match r with PeerClosed => true | _ => false end.

(** A connection ends with what was sent and the table, or the daemon dies. *)
Inductive client_end :=
  | Closed (sent : string) (s : tenant_shared_memory)
  | Killed (s : tenant_shared_memory).

(** [data] is what the client sent, [None] when [recv] fails; [sends] what the
    two calls of [send] meet. *)
Definition handle_client (now : Z) (sends : send_result * send_result) (data : option string)
    (s : tenant_shared_memory) : client_end :=
  match data with
  | None | Some "" => Closed "" s
  | Some bytes =>
      match process_command now (received bytes) s with
      | Replied response s =>
          if is_closed sends.1 then Killed s
          else if is_closed sends.2 then Killed s
          else Closed (taken sends.1 response +:+ taken sends.2 (String NEWLINE "")) s
      | Crashed => Killed s
      end
  end.

(** Both calls take everything. *)
Definition delivered : send_result * send_result := (SentAll, SentAll).

(** What one turn of the main loop meets. *)
Inductive turn :=
  | SignalTerm                       (** SIGTERM or SIGINT: [running = 0] *)
  | SelectError (eintr : bool)
  | SelectTimeout
  | AcceptError
  | Connection (now : Z) (sends : send_result * send_result) (data : option string).

(** The table outlives the daemon. *)
Inductive loop_state :=
  | Serving (s : tenant_shared_memory)
  | Stopped (s : tenant_shared_memory)
  | Dead (s : tenant_shared_memory).

Definition loop_turn (t : turn) (l : loop_state) : loop_state :=
  match l with
  | Serving s =>
      match t with
      | SignalTerm => Stopped s
      | SelectError eintr => if eintr then Serving s else Stopped s
      | SelectTimeout => Serving s
      | AcceptError => Serving s
      | Connection now sends data =>
          match handle_client now sends data s with
          | Closed _ s => Serving s
          | Killed s => Dead s
          end
      end
  | _ => l
  end.

Definition main_loop (ts : list turn) (l : loop_state) : loop_state :=
  foldl (fun l t => loop_turn t l) l ts.

(** ** Start-up of the daemon *)

(** The answers of the system during start-up. *)
Record daemon_sys := mk_dsys {
  ds_shm : shm_sys;
  ds_fstat : bool;
  ds_daemon : Z;
  ds_pid_file : bool;
  ds_socket : Z;
  ds_bind : Z;
  ds_listen : Z
}.

Definition write_pid_file (sys : daemon_sys) : Z := if ds_pid_file sys then 0 else -1.

Definition create_server_socket (sys : daemon_sys) : Z :=
  if ds_socket sys <? 0 then -1
  else if ds_bind sys <? 0 then -1
  else if ds_listen sys <? 0 then -1
  else ds_socket sys.

(** The loop over the arguments: [None] when --help was met. *)
Fixpoint daemon_args (args : list string) (daemon_mode foreground : bool) : option (bool * bool) :=
  match args with
  | [] => Some (daemon_mode, foreground)
  | a :: args =>
      if String.eqb a "--daemon" then daemon_args args true foreground
      else if String.eqb a "--foreground" then daemon_args args daemon_mode true
      else if String.eqb a "--help" then None
      else daemon_args args daemon_mode foreground
  end.

(** [inl] is the exit status of a start that does not reach the main loop. *)
Definition daemon_main (sys : daemon_sys) (now : Z) (args : list string)
    (obj : option tenant_shared_memory) : Z + loop_state :=
  match daemon_args args false false with
  | None => inl 0
  | Some (daemon_mode, foreground) =>
      let '(rc, _, obj) := tenant_shm_init (ds_shm sys) (ds_fstat sys) now
                             (mk_handle (-1) false) obj in
      if negb (rc =? 0) then inl 1
      else if daemon_mode && negb foreground
           && (negb (ds_daemon sys =? 0) || negb (write_pid_file sys =? 0))
      then inl 1
      else if create_server_socket sys <? 0 then inl 1
      else inr (Serving (default zero_tshm obj))
  end.

(** ** The client: requests *)

(** [argv] without the program name; argument i of the code is [argv !! (i - 1)]. *)
Definition arg_int (a : string) : Z := atoi a.
(** [(uint64_t) atoll (s)] *)
Definition arg_mem (a : option string) : Z :=
  match a with Some a => u64 (strtol a) | None => DEFAULT_MEMORY end.

Definition build_create_cmd (argv : list string) : option string :=
  match argv with
  | _ :: id :: qp :: mr :: rest =>
      let mem := arg_mem (rest !! 0%nat) in
      let name := default "unnamed" (rest !! 1%nat) in
      let cmd := add_string json_object_new_object "cmd" "CREATE" in
      let cmd := add_int cmd "tenant" (u32 (arg_int id)) in
      let cmd := add_string cmd "name" name in
      let cmd := add_int cmd "qp" (arg_int qp) in
      let cmd := add_int cmd "mr" (arg_int mr) in
      let cmd := add_int64 cmd "memory" mem in
      Some (json_object_to_json_string cmd)
  | _ => None
  end.

Definition build_delete_cmd (argv : list string) : option string :=
  match argv with
  | _ :: id :: _ =>
      let cmd := add_string json_object_new_object "cmd" "DELETE" in
      let cmd := add_int cmd "tenant" (u32 (arg_int id)) in
      Some (json_object_to_json_string cmd)
  | _ => None
  end.

Definition build_update_cmd (argv : list string) : option string :=
  match argv with
  | _ :: id :: qp :: mr :: rest =>
      let mem := arg_mem (rest !! 0%nat) in
      let cmd := add_string json_object_new_object "cmd" "UPDATE_QUOTA" in
      let cmd := add_int cmd "tenant" (u32 (arg_int id)) in
      let cmd := add_int cmd "qp" (arg_int qp) in
      let cmd := add_int cmd "mr" (arg_int mr) in
      let cmd := add_int64 cmd "memory" mem in
      Some (json_object_to_json_string cmd)
  | _ => None
  end.

Definition build_status_cmd (argv : list string) : option string :=
  let cmd := add_string json_object_new_object "cmd" "STATUS" in
  let cmd := match argv with
             | _ :: id :: _ => add_int cmd "tenant" (u32 (arg_int id))
             | _ => cmd
             end in
  Some (json_object_to_json_string cmd).

Definition build_list_cmd : option string :=
  Some (json_object_to_json_string (add_string json_object_new_object "cmd" "LIST_TENANTS")).

(** The dispatch of [main]; [None] ends the client with status 1. *)
Definition client_request (argv : list string) : option string :=
  match argv with
  | [] => None
  | cmd :: _ =>
      if String.eqb cmd "create" then build_create_cmd argv
      else if String.eqb cmd "delete" then build_delete_cmd argv
      else if String.eqb cmd "update" || String.eqb cmd "set-quota" then build_update_cmd argv
      else if String.eqb cmd "status" then build_status_cmd argv
      else if String.eqb cmd "list" then build_list_cmd
      else None
  end.

(** ** The client: responses *)

Definition lookup_int (o : json) (k : string) (d : Z) : Z := get_or o k json_object_get_int d.
Definition lookup_string (o : json) (k d : string) : string :=
  match json_object_object_get_ex o k with
  | Some v => default "(null)" (json_object_get_string v)
  | None => d
  end.

(** The elements [0 .. n-1] of an array. *)
Definition array_items (a : json) : list json :=
  omap (fun i => json_object_array_get_idx a (Z.of_nat i))
    (seq 0 (Z.to_nat (json_object_array_length a))).

(** One line of the listing of tenants. *)
Definition print_list_item (t : json) : list string :=
  match json_object_object_get_ex t "id" with
  | None => []
  | Some id_obj =>
      ["    [" +:+ dec (u32 (json_object_get_int id_obj)) +:+ "] " +:+
       lookup_string t "name" "?" +:+ ": QP=" +:+
       sdec (lookup_int t "qp_used" 0) +:+ "/" +:+ sdec (lookup_int t "qp_limit" 0) +:+
       ", MR=" +:+
       sdec (lookup_int t "mr_used" 0) +:+ "/" +:+ sdec (lookup_int t "mr_limit" 0)]
  end.

(** One line of the status of all tenants.  When "qp_limit" is missing the
    pointer keeps the object of "qp_used". *)
Definition print_status_item (t : json) : list string :=
  match json_object_object_get_ex t "id", json_object_object_get_ex t "qp_used" with
  | Some id_obj, Some qp_obj =>
      let qp := json_object_get_int qp_obj in
      let qp_limit := lookup_int t "qp_limit" qp in
      ["  Tenant " +:+ dec (u32 (json_object_get_int id_obj)) +:+ " (" +:+
       lookup_string t "name" "?" +:+ "): QP=" +:+ sdec qp +:+ "/" +:+ sdec qp_limit +:+
       match json_object_object_get_ex t "mr_used" with
       | Some mr_obj =>
           ", MR=" +:+ sdec (json_object_get_int mr_obj) +:+ "/" +:+
           sdec (lookup_int t "mr_limit" (json_object_get_int mr_obj))
       | None => ""
       end]
  | _, _ => []
  end.

(** A line that is printed when a field is there. *)
Definition print_field (o : json) (k : string) (f : option json -> string) : list string :=
  match json_object_object_get_ex o k with Some v => [f v] | None => [] end.
Definition print_fields (o : json) (k k' : string) (f : option json -> option json -> string)
    : list string :=
  match json_object_object_get_ex o k, json_object_object_get_ex o k' with
  | Some v, Some v' => [f v v']
  | _, _ => []
  end.

Definition status_text (z : Z) : string :=
  if z =? 1 then "ACTIVE" else if z =? 2 then "SUSPENDED" else "INACTIVE".
Definition print_used (label : string) (v v' : option json) : string :=
  label +:+ sdec (json_object_get_int v) +:+ "/" +:+ sdec (json_object_get_int v').
Definition print_u64 (label : string) (v : option json) : string :=
  label +:+ dec (u64 (json_object_get_int64 v)).

(** The status of one tenant. *)
Definition print_tenant (d : json) : list string :=
  (print_field d "id" (fun v => "  Tenant ID: " +:+ sdec (json_object_get_int v)) ++
   print_field d "name" (fun v => "  Name: " +:+ default "(null)" (json_object_get_string v)) ++
   print_field d "status" (fun v => "  Status: " +:+ status_text (json_object_get_int v)) ++
   print_fields d "qp_used" "qp_limit" (print_used "  QP: ") ++
   print_fields d "mr_used" "mr_limit" (print_used "  MR: ") ++
   print_fields d "memory_used" "memory_limit" (fun v v' =>
     "  Memory: " +:+ dec (u64 (json_object_get_int64 v)) +:+ "/" +:+
     dec (u64 (json_object_get_int64 v')) +:+ " bytes") ++
   print_field d "total_qp_creates" (print_u64 "  Total QP creates: ") ++
   print_field d "total_mr_regs" (print_u64 "  Total MR registers: "))%list.

Definition print_data (d : json) : list string :=
  if json_object_is_array d then array_items d ≫= print_status_item
  else if json_object_is_object d
  then (print_field d "count" (fun v => "  Active tenants: " +:+ sdec (json_object_get_int v)) ++
        print_field d "version" (print_u64 "  Policy version: ") ++
        match json_object_object_get_ex d "tenants" with
        | Some (Some a) =>
            if json_object_is_array a
            then "" :: "  Tenants:" :: (array_items a ≫= print_list_item)
            else print_tenant d
        | _ => print_tenant d
        end)%list
  else [].

(** The lines printed for a response. *)
Definition print_response (response : string) : list string :=
  match json_tokener_parse response with
  | None => ["Response: " +:+ response]
  | Some o =>
      (print_field o "success" (fun v =>
         if json_object_get_boolean v then "✓ Success" else "✗ Failed") ++
       print_field o "message" (fun v =>
         "Message: " +:+ default "(null)" (json_object_get_string v)) ++
       match json_object_object_get_ex o "data" with
       | Some (Some d) => "" :: "Data:" :: print_data d
       | Some None => ["" ; "Data:"]
       | None => []
       end)%list
  end.

(** What the system answers to one [send_command]: the socket, connect and
    send calls, malloc, and the bytes the daemon sends back ([None]: an error). *)
Record client_sys := mk_csys {
  cs_socket : Z;
  cs_connect : Z;
  cs_send : Z;
  cs_malloc : bool;
  cs_reply : string -> option string
}.

Definition send_command (sys : client_sys) (json_cmd : string) : option string :=
  if cs_socket sys <? 0 then None
  else if cs_connect sys <? 0 then None
  else if cs_send sys <? 0 then None
  else if negb (cs_malloc sys) then None
  else
    match cs_reply sys json_cmd with
    | None | Some "" => None
    | Some bytes => Some (received bytes)
    end.

(** The exit status and what is printed. *)
Definition client_main (argv : list string) (sys : client_sys) : Z * list string :=
  match client_request argv with
  | None => (1, [])
  | Some cmd =>
      match send_command sys cmd with
      | None => (1, ["Sending: " +:+ cmd])
      | Some response =>
          (0, ("Sending: " +:+ cmd) :: "" :: "Response:" :: print_response response)
      end
  end.
End daemon.

(** * Theorems *)

(** ** The daemon *)

Section daemon_facts.
Context {JL : JsonLib}.

Lemma touch_ok now s : tenant_ok s -> tenant_ok (touch now s).
Proof. done. Qed.

Ltac reply := by intros [= <- <-].

Lemma process_command_ok now text s response s' :
  tenant_ok s -> process_command now text s = Replied response s' -> tenant_ok s'.
Proof.
  intros Hs. unfold process_command.
  destruct (json_tokener_parse text) as [o|]; [|reply].
  destruct (json_object_object_get_ex o "cmd") as [c|]; [|reply].
  destruct (json_object_get_string c) as [cmd|]; [|done].
  unfold replied, handle_update_quota, handle_create, handle_delete, handle_status.
  split_ifs; try reply.
  - destruct (json_object_object_get_ex o "tenant") as [t|]; [|reply].
    destruct (json_object_object_get_ex o "qp") as [q|]; [|reply].
    pose proof (tenant_update_quota_ok true now s (u32 (json_object_get_int t))
      (Some (request_quota (json_object_get_int q) (get_or o "mr" json_object_get_int
         (json_object_get_int q)) (get_mem o))) Hs ltac:(apply u32_range)) as Hok.
    destruct (tenant_update_quota _ _ _ _ _) as [rc s1]. destruct (negb _); reply.
  - destruct (json_object_object_get_ex o "tenant") as [t|]; [|reply].
    pose proof (tenant_create_ok true now s (u32 (json_object_get_int t))
      (get_or o "name" json_object_get_string (Some "unnamed"))
      (Some (request_quota (get_or o "qp" json_object_get_int 100)
         (get_or o "mr" json_object_get_int 100) (get_mem o))) Hs ltac:(apply u32_range)) as Hok.
    destruct (tenant_create _ _ _ _ _ _) as [rc s1]. destruct (negb _); reply.
  - destruct (json_object_object_get_ex o "tenant") as [t|]; [|reply].
    pose proof (tenant_delete_ok true now s (u32 (json_object_get_int t)) Hs ltac:(apply u32_range)) as Hok.
    destruct (tenant_delete _ _ _ _) as [rc s1]. destruct (negb _); reply.
  - destruct (json_object_object_get_ex o "tenant") as [t|]; [|reply].
    pose proof (tenant_get_info_ok true now s (u32 (json_object_get_int t)) Hs) as Hok.
    destruct (tenant_get_info _ _ _ _) as [[rc info] s1]. destruct (negb _); reply.
Qed.

(** The table beside a loop state. *)
Definition loop_table (l : loop_state) : tenant_shared_memory :=
  match l with Serving s | Stopped s | Dead s => s end.

Definition end_table (c : client_end) : tenant_shared_memory :=
  match c with Closed _ s | Killed s => s end.

(** What becomes of the reply makes no difference to the table. *)
Lemma handle_client_table now sends data s :
  end_table (handle_client now sends data s) = end_table (handle_client now delivered data s).
Proof.
  destruct data as [[|c bytes]|]; [done| |done]. unfold handle_client.
  destruct (process_command _ _ _); [|done]. by destruct (is_closed sends.1), (is_closed sends.2).
Qed.

Lemma handle_client_ok now sends data s :
  tenant_ok s -> tenant_ok (end_table (handle_client now sends data s)).
Proof.
  intros Hs. destruct data as [bytes|]; [|done]. unfold handle_client.
  destruct bytes as [|c bytes]; [done|].
  destruct (process_command now (received (String c bytes)) s) as [r s1|] eqn:E; [|done].
  apply process_command_ok in E; [|done]. by destruct (is_closed sends.1), (is_closed sends.2).
Qed.

Lemma loop_turn_ok t l : tenant_ok (loop_table l) -> tenant_ok (loop_table (loop_turn t l)).
Proof.
  intros Hl. destruct l as [s0|s0|s0]; [|done..]. simpl in Hl.
  destruct t as [|eintr| | |now sends data]; simpl; try done; [by destruct eintr|].
  pose proof (handle_client_ok now sends data s0 Hl) as H.
  by destruct (handle_client now sends data s0).
Qed.

(** C30. No client can corrupt the tenant table through the daemon.  Whatever
    bytes any number of clients send, whatever the JSON library answers, and
    however connections, time-outs, errors and signals follow each other, the
    table the daemon works on keeps its invariant (tenant records in place,
    counters equal to what the table holds, processes bound to one existing
    tenant, the lock released) as long as the daemon runs, when it stops and
    when it dies. *)
Theorem daemon_keeps_table ts s :
  tenant_ok s -> tenant_ok (loop_table (main_loop ts (Serving s))).
Proof.
  intros Hs. assert (Hgo : forall l, tenant_ok (loop_table l) ->
    tenant_ok (loop_table (main_loop ts l))); [|by apply Hgo].
  unfold main_loop. clear. induction ts as [|t ts IH]; intros l Hl; [done|].
  simpl. apply IH. by apply loop_turn_ok.
Qed.
End daemon_facts.

(** ** Replies *)

(** What a reader of the reply finds in it: whether the request succeeded, and
    a message. *)
Definition says {JL : JsonLib} (reply : string) (ok : bool) (msg : string) : Prop :=
  exists o v m, json_tokener_parse reply = Some o /\
    json_object_object_get_ex o "success" = Some v /\ json_object_get_boolean v = ok /\
    json_object_object_get_ex o "message" = Some m /\ json_object_get_string m = Some msg.

Section replies.
Context {JL : JsonLib} {laws : JsonLaws}.

Definition response_fields (ok : bool) (msg : string) (data : option json)
    : list (string * json) :=
  ("success", json_object_new_boolean ok) :: ("message", json_object_new_string msg) ::
  match data with Some d => [("data", d)] | None => [] end.

Lemma build_response_object ok msg data :
  build_response ok msg data = json_object_to_json_string (build_object (response_fields ok msg data)).
Proof. by destruct data. Qed.

Definition shallow (data : option json) : Prop :=
  match data with Some d => (json_depth d <= 30)%nat | None => True end.

Lemma response_fields_depth ok msg data :
  shallow data -> Forall (fun f => json_depth f.2 <= 30)%nat (response_fields ok msg data).
Proof using laws.
  intros Hd. unfold response_fields. repeat apply Forall_cons_2.
  - simpl. rewrite depth_new_boolean. lia.
  - simpl. rewrite depth_new_string. lia.
  - destruct data; [by apply Forall_singleton|constructor].
Qed.

(** A response says what it was built from, with a line end or without. *)
Lemma says_response ok msg data :
  shallow data ->
  says (build_response ok msg data) ok msg /\
  says (build_response ok msg data +:+ String NEWLINE "") ok msg.
Proof using laws.
  intros Hd. rewrite build_response_object. unfold says. rewrite parse_line.
  destruct (parsed_object (response_fields ok msg data)) as (j & -> & Hj);
    [by apply response_fields_depth|].
  pose proof (Hj "success") as Hs. pose proof (Hj "message") as Hm.
  assert (field (response_fields ok msg data) "success" = Some (json_object_new_boolean ok)) as Es
    by (by destruct data).
  assert (field (response_fields ok msg data) "message" = Some (json_object_new_string msg)) as Em
    by (by destruct data).
  rewrite Es in Hs. rewrite Em in Hm.
  inversion Hs as [x v Hv|]; subst. inversion Hm as [y m Hw|]; subst.
  assert (exists o v m, Some j = Some o /\ json_object_object_get_ex o "success" = Some v /\
    json_object_get_boolean v = ok /\ json_object_object_get_ex o "message" = Some m /\
    json_object_get_string m = Some msg) as H; [|done].
  exists j, v, m. split_and!; [done|done| |done|].
  - rewrite <- (get_boolean_proper _ _ Hv). apply get_boolean_new.
  - rewrite <- (get_string_proper _ _ Hw). apply get_string_new.
Qed.

Lemma add_int_depth o k z : (json_depth (add_int o k z) <= max (json_depth o) 1)%nat.
Proof using laws.
  unfold add_int. etrans; [apply depth_object_add|]. rewrite depth_new_int. lia.
Qed.
Lemma add_int64_depth o k z : (json_depth (add_int64 o k z) <= max (json_depth o) 1)%nat.
Proof using laws.
  unfold add_int64. etrans; [apply depth_object_add|]. rewrite depth_new_int64. lia.
Qed.
Lemma add_string_depth o k z : (json_depth (add_string o k z) <= max (json_depth o) 1)%nat.
Proof using laws.
  unfold add_string. etrans; [apply depth_object_add|]. rewrite depth_new_string. lia.
Qed.

(** The depth of an object built from scalars is one. *)
Ltac flat_object :=
  repeat first [ etrans; [apply add_int_depth|apply Nat.max_lub; [|lia]]
               | etrans; [apply add_int64_depth|apply Nat.max_lub; [|lia]]
               | etrans; [apply add_string_depth|apply Nat.max_lub; [|lia]] ];
  pose proof depth_new_object; lia.

Lemma tenant_list_depth t : (json_depth (add_usage (tenant_name_json t) t) <= 1)%nat.
Proof using laws. unfold add_usage, tenant_name_json. flat_object. Qed.

Lemma tenant_status_depth t : (json_depth (tenant_status_json t) <= 1)%nat.
Proof using laws.
  unfold tenant_status_json, add_memory, add_usage, tenant_name_json. flat_object.
Qed.

Lemma tenants_array_depth f ts :
  (forall t, json_depth (f t) <= 1)%nat -> (json_depth (tenants_array f ts) <= 2)%nat.
Proof using laws.
  intros Hf. unfold tenants_array.
  assert (Ha : (json_depth json_object_new_array <= 2)%nat) by (pose proof depth_new_array; lia).
  revert Ha. generalize json_object_new_array.
  induction ts as [|t ts IH]; intros a Ha; [done|]. simpl. apply IH.
  destruct (is_inactive t); [done|]. pose proof (depth_array_add a (f t)).
  specialize (Hf t). lia.
Qed.

Lemma list_data_depth s a :
  (json_depth a <= 2)%nat ->
  (json_depth (json_object_object_add (add_int64 (add_int json_object_new_object "count"
     (json_object_array_length a)) "version" (t_version s)) "tenants" (Some a)) <= 3)%nat.
Proof using laws.
  intros Ha. etrans; [apply depth_object_add|]. apply Nat.max_lub; [|lia].
  transitivity 1%nat; [|lia]. flat_object.
Qed.

Lemma status_data_shallow info :
  shallow (Some (add_int64 (add_int64 (tenant_status_json info) "total_qp_creates"
    (total_qp_creates (usage info))) "total_mr_regs" (total_mr_regs (usage info)))).
Proof using laws.
  simpl. pose proof (tenant_status_depth info).
  etrans; [apply add_int64_depth|]. apply Nat.max_lub; [|lia].
  etrans; [apply add_int64_depth|]. lia.
Qed.

Lemma all_status_shallow ts : shallow (Some (tenants_array tenant_status_json ts)).
Proof using laws.
  simpl. pose proof (tenants_array_depth tenant_status_json ts tenant_status_depth). lia.
Qed.

(** The data of the listing. *)
Definition list_data (s : tenant_shared_memory) : json :=
  let a := tenants_array (fun t => add_usage (tenant_name_json t) t) (tenants s) in
  json_object_object_add (add_int64 (add_int json_object_new_object "count"
     (json_object_array_length a)) "version" (t_version s)) "tenants" (Some a).

Lemma list_data_shallow s : shallow (Some (list_data s)).
Proof using laws.
  simpl. etrans; [apply list_data_depth, tenants_array_depth, tenant_list_depth|lia].
Qed.

(** Every reply is a response. *)
Lemma process_command_replies now text s response s' :
  process_command now text s = Replied response s' ->
  exists ok msg data, response = build_response ok msg data /\ shallow data.
Proof using laws.
  unfold process_command. intros H.
  destruct (json_tokener_parse text) as [o|]; [|injection H as <- _; by eexists _, _, None].
  destruct (json_object_object_get_ex o "cmd") as [c|];
    [|injection H as <- _; by eexists _, _, None].
  destruct (json_object_get_string c) as [cmd|]; [|done].
  revert H. unfold replied, handle_update_quota, handle_create, handle_delete, handle_status.
  split_ifs; try (intros [= <- _]; by eexists _, _, None).
  - destruct (json_object_object_get_ex o "tenant"), (json_object_object_get_ex o "qp");
      try (intros [= <- _]; by eexists _, _, None).
    destruct (tenant_update_quota _ _ _ _ _) as [rc s1].
    destruct (negb _); intros [= <- _]; by eexists _, _, None.
  - destruct (json_object_object_get_ex o "tenant"); [|intros [= <- _]; by eexists _, _, None].
    destruct (tenant_create _ _ _ _ _ _) as [rc s1].
    destruct (negb _); intros [= <- _]; by eexists _, _, None.
  - destruct (json_object_object_get_ex o "tenant"); [|intros [= <- _]; by eexists _, _, None].
    destruct (tenant_delete _ _ _ _) as [rc s1].
    destruct (negb _); intros [= <- _]; by eexists _, _, None.
  - destruct (json_object_object_get_ex o "tenant").
    + destruct (tenant_get_info _ _ _ _) as [[rc info] s1].
      destruct (negb _); intros [= <- _]; [by eexists _, _, None|].
      eexists _, _, (Some _). split; [done|apply status_data_shallow].
    + intros [= <- _]. eexists _, _, (Some _). split; [done|apply all_status_shallow].
  - intros [= <- _]. exists true, "Tenant list", (Some (list_data s)).
    split; [done|apply list_data_shallow].
Qed.

(** A request with a "cmd" whose value is null. *)
Definition null_command (text : string) : Prop :=
  exists o, json_tokener_parse text = Some o /\
    json_object_object_get_ex o "cmd" = Some None.

Lemma process_crashes now text s : process_command now text s = Crashed <-> null_command text.
Proof using laws.
  unfold process_command, null_command, replied.
  destruct (json_tokener_parse text) as [o|]; [|split; [done|]; by intros (? & ? & _)].
  destruct (json_object_object_get_ex o "cmd") as [[c|]|] eqn:Ec.
  - destruct (get_string_object c) as [cmd Hc]. rewrite Hc. split; [by split_ifs|].
    intros (? & [= <-] & ?). congruence.
  - rewrite get_string_null. split; [|done]. intros _. by exists o.
  - split; [done|]. intros (? & [= <-] & ?). congruence.
Qed.

(** C31. What brings the daemon down.  A connection kills it exactly when the
    request is not empty and either is a JSON object whose "cmd" is null (the
    NULL pointer it gets for the command's name goes to [strcmp]) or one of
    the two [send] calls meets a peer that has closed its end (SIGPIPE, which
    is neither handled nor switched off).  A connection that brings no data is
    closed without an answer and without touching the table.  Every other
    request (truncated or invalid JSON, a missing or unknown command, missing
    fields included) is answered, if the sends take it, with a line of JSON
    that says whether it succeeded and why. *)
Theorem daemon_dies_on_null_command now sends data s :
  let request := default "" data in
  ((exists s', loop_turn (Connection now sends data) (Serving s) = Dead s') <->
   request <> "" /\
   (null_command (received request) \/ sends.1 = PeerClosed \/ sends.2 = PeerClosed)) /\
  (request = "" -> handle_client now sends data s = Closed "" s) /\
  (request <> "" -> ~ null_command (received request) ->
   exists reply ok msg s', handle_client now delivered data s = Closed reply s' /\
     says reply ok msg).
Proof using laws.
  intros request. assert (Hc : forall r, is_closed r = true <-> r = PeerClosed) by (by intros []).
  destruct data as [[|c bytes]|].
  1,3: split; [split; [by intros [? ?]|by intros [? _]]|by split].
  unfold request, loop_turn. simpl default. set (req := String c bytes).
  assert (Hh : forall sends, handle_client now sends (Some req) s =
    match process_command now (received req) s with
    | Replied response s =>
        if is_closed sends.1 then Killed s
        else if is_closed sends.2 then Killed s
        else Closed (taken sends.1 response +:+ taken sends.2 (String NEWLINE "")) s
    | Crashed => Killed s
    end) by done.
  rewrite !Hh. pose proof (process_crashes now (received req) s) as Hx.
  destruct (process_command now (received req) s) as [response s1|] eqn:E.
  - split; [|split; [done|]].
    + assert (~ null_command (received req)) by (intros ?%Hx; done).
      rewrite <- !Hc. destruct (is_closed sends.1), (is_closed sends.2);
        (split; [intros [s' ?]|intros [_ ?]]); try done; try (by eexists); naive_solver.
    + intros _ _. destruct (process_command_replies _ _ _ _ _ E) as (ok & msg & d & -> & Hd).
      eexists _, ok, msg, s1. split; [done|]. by apply says_response.
  - assert (null_command (received req)) by (by apply Hx). split; [|split; [done|done]].
    split; [intros _; split; [done|by left]|]. by eexists.
Qed.
End replies.

(** ** From the command line to the table *)

(** What a command line asks for. *)
Inductive command :=
  | CCreate (tid : Z) (name : string) (q : tenant_quota)
  | CUpdate (tid : Z) (q : tenant_quota)
  | CDelete (tid : Z)
  | CStatus (tid : option Z)
  | CList.

(** The quota of a command line: queue pairs, memory regions, memory (1 GB by
    default), as many CQs as queue pairs, ten PDs. *)
Definition quota_of (qp mr : string) (mem : option string) : tenant_quota :=
  mk_quota (u32 (atoi qp)) (u32 (atoi mr))
    match mem with Some m => u64 (strtol m) | None => 1024 * 1024 * 1024 end
    (u32 (atoi qp)) 10.

Definition command_of (argv : list string) : option command :=
  match argv with
  | "create" :: id :: qp :: mr :: rest =>
      Some (CCreate (u32 (atoi id)) (default "unnamed" (rest !! 1%nat))
              (quota_of qp mr (rest !! 0%nat)))
  | "delete" :: id :: _ => Some (CDelete (u32 (atoi id)))
  | "update" :: id :: qp :: mr :: rest | "set-quota" :: id :: qp :: mr :: rest =>
      Some (CUpdate (u32 (atoi id)) (quota_of qp mr (rest !! 0%nat)))
  | "status" :: id :: _ => Some (CStatus (Some (u32 (atoi id))))
  | ["status"] => Some (CStatus None)
  | "list" :: _ => Some CList
  | _ => None
  end.

(** What the reply says about it. *)
Definition command_message (c : command) (ok : bool) : string :=
  match c with
  | CCreate tid _ _ =>
      if ok then "Tenant " +:+ dec tid +:+ " created" else "Failed to create tenant"
  | CUpdate tid _ =>
      if ok then "Quota updated for tenant " +:+ dec tid else "Failed to update quota"
  | CDelete tid =>
      if ok then "Tenant " +:+ dec tid +:+ " deleted" else "Failed to delete tenant"
  | CStatus (Some _) => if ok then "Tenant status" else "Tenant not found"
  | CStatus None => "All tenants status"
  | CList => "Tenant list"
  end.

(** A table with a new version and time stamp. *)
Definition stamped (now : Z) (s : tenant_shared_memory) : tenant_shared_memory :=
  mk_tshm (tenants s) (pid_mappings s) (active_tenant_count s) (total_process_count s)
    (tenant_lock_word s) (u64 (t_version s + 1)) now.

(** What it does to the table, with the return code of the operation. *)
Definition command_effect (now : Z) (c : command) (s : tenant_shared_memory)
    : Z * tenant_shared_memory :=
  match c with
  | CCreate tid name q => tenant_create true now s tid (Some name) (Some q)
  | CUpdate tid q =>
      let '(rc, s) := tenant_update_quota true now s tid (Some q) in
      (rc, if rc =? 0 then stamped now s else s)
  | CDelete tid => tenant_delete true now s tid
  | CStatus (Some tid) => let '(rc, _, s) := tenant_get_info true now s tid in (rc, s)
  | CStatus None => (0, s)
  | CList => (0, s)
  end.

Section round_trip.
Context {JL : JsonLib} {laws : JsonLaws}.

(** What a field of a sent object reads as on the other side. *)
Lemma parsed_get fs j k v :
  (forall k, option_Forall2 (option_Forall2 json_equal)
     (Some <$> field fs k) (json_object_object_get_ex j k)) ->
  field fs k = Some v ->
  exists v', json_object_object_get_ex j k = Some v' /\
    json_object_get_int v' = json_object_get_int (Some v) /\
    json_object_get_int64 v' = json_object_get_int64 (Some v) /\
    json_object_get_string v' = json_object_get_string (Some v).
Proof using laws.
  intros Hj Hf. specialize (Hj k). rewrite Hf in Hj. simpl in Hj.
  inversion Hj as [x v' Hv|]; subst. exists v'. by rewrite Hv.
Qed.

Lemma parsed_none fs j k :
  (forall k, option_Forall2 (option_Forall2 json_equal)
     (Some <$> field fs k) (json_object_object_get_ex j k)) ->
  field fs k = None -> json_object_object_get_ex j k = None.
Proof using laws.
  intros Hj Hf. specialize (Hj k). rewrite Hf in Hj. simpl in Hj. by inversion Hj.
Qed.

Lemma new_int_get z : json_object_get_int (Some (json_object_new_int (i32 z))) = i32 z.
Proof using laws. apply get_int_new, i32_range. Qed.
Lemma new_int64_get z : json_object_get_int64 (Some (json_object_new_int64 (i64 z))) = i64 z.
Proof using laws. apply get_int64_new, i64_range. Qed.
Lemma atoi_i32 s : i32 (atoi s) = atoi s.
Proof. unfold atoi. apply i32_small, i32_range. Qed.
Lemma arg_mem_u64 a : u64 (arg_mem a) = arg_mem a.
Proof. destruct a; simpl; [|done]. apply u64_small, u64_range. Qed.

(** The fields of the requests. *)
Definition cmd_field (c : string) : string * json := ("cmd", json_object_new_string c).
Definition int_field (k : string) (z : Z) : string * json := (k, json_object_new_int (i32 z)).
Definition create_fields (tid : Z) (name : string) (qp mr mem : Z) : list (string * json) :=
  [cmd_field "CREATE"; int_field "tenant" tid; ("name", json_object_new_string name);
   int_field "qp" qp; int_field "mr" mr; ("memory", json_object_new_int64 (i64 mem))].
Definition update_fields (tid qp mr mem : Z) : list (string * json) :=
  [cmd_field "UPDATE_QUOTA"; int_field "tenant" tid; int_field "qp" qp; int_field "mr" mr;
   ("memory", json_object_new_int64 (i64 mem))].

Lemma int_field_depth k z : (json_depth (int_field k z).2 <= 30)%nat.
Proof using laws. simpl. rewrite depth_new_int. lia. Qed.
Lemma int64_field_depth (k : string) z : (json_depth (k, json_object_new_int64 z).2 <= 30)%nat.
Proof using laws. simpl. rewrite depth_new_int64. lia. Qed.
Lemma string_field_depth (k : string) z : (json_depth (k, json_object_new_string z).2 <= 30)%nat.
Proof using laws. simpl. rewrite depth_new_string. lia. Qed.

(** A request is one object of scalars. *)
Ltac flat_fields :=
  repeat first [apply Forall_nil_2 | apply Forall_cons_2
    | apply int_field_depth | apply int64_field_depth | apply string_field_depth].

Lemma update_fields_depth tid qp mr mem :
  Forall (fun f => json_depth f.2 <= 30)%nat (update_fields tid qp mr mem).
Proof using laws. flat_fields. Qed.

(** Read the fields of a parsed request. *)
Ltac read_field Hj k :=
  let v := fresh "v" in let E := fresh "E" in
  let Hi := fresh "Hi" in let Hl := fresh "Hl" in let Hs := fresh "Hs" in
  edestruct (parsed_get _ _ k _ Hj eq_refl) as (v & E & Hi & Hl & Hs);
  rewrite ?E; cbn [fst snd cmd_field int_field] in Hi, Hl, Hs;
  rewrite ?new_int_get in Hi; rewrite ?new_int64_get in Hl; rewrite ?get_string_new in Hs.

Lemma serve_create now tid name qp mr mem s :
  exists r, process_command now
      (json_object_to_json_string (build_object (create_fields tid name qp mr mem))) s =
    Replied (build_response (r.1 =? 0)
      (if r.1 =? 0 then "Tenant " +:+ dec (u32 tid) +:+ " created" else "Failed to create tenant")
      None) r.2 /\
    r = tenant_create true now s (u32 tid) (Some name)
      (Some (request_quota (i32 qp) (i32 mr) (u64 mem))).
Proof using laws.
  destruct (parsed_object (create_fields tid name qp mr mem)) as (j & Hp & Hj); [flat_fields|].
  eexists. split; [|reflexivity]. unfold process_command. rewrite Hp.
  read_field Hj "cmd". rewrite Hs. cbn [String.eqb Ascii.eqb Bool.eqb].
  unfold replied, handle_create, get_mem, get_or.
  read_field Hj "tenant". read_field Hj "name". read_field Hj "qp".
  read_field Hj "mr". read_field Hj "memory".
  rewrite Hi0, Hs1, Hi2, Hi3, Hl4, u32_i32, u64_i64.
  destruct (tenant_create _ _ _ _ _ _) as [rc s']. cbn [fst snd].
  by destruct (rc =? 0).
Qed.

Lemma serve_update now tid qp mr mem s :
  exists r, process_command now
      (json_object_to_json_string (build_object (update_fields tid qp mr mem))) s =
    Replied (build_response (r.1 =? 0)
      (if r.1 =? 0 then "Quota updated for tenant " +:+ dec (u32 tid)
       else "Failed to update quota") None) r.2 /\
    r = command_effect now (CUpdate (u32 tid) (request_quota (i32 qp) (i32 mr) (u64 mem))) s.
Proof using laws.
  destruct (parsed_object (update_fields tid qp mr mem)) as (j & Hp & Hj); [flat_fields|].
  eexists. split; [|reflexivity]. unfold process_command. rewrite Hp.
  read_field Hj "cmd". rewrite Hs. cbn [String.eqb Ascii.eqb Bool.eqb].
  unfold replied, handle_update_quota, get_mem, get_or, command_effect.
  read_field Hj "tenant". read_field Hj "qp". read_field Hj "mr". read_field Hj "memory".
  rewrite Hi0, Hi1, Hi2, Hl3, u32_i32, u64_i64.
  destruct (tenant_update_quota _ _ _ _ _) as [rc s']. cbn [fst snd].
  by destruct (rc =? 0).
Qed.

Lemma serve_delete now tid s :
  exists r, process_command now (json_object_to_json_string
      (build_object [cmd_field "DELETE"; int_field "tenant" tid])) s =
    Replied (build_response (r.1 =? 0)
      (if r.1 =? 0 then "Tenant " +:+ dec (u32 tid) +:+ " deleted" else "Failed to delete tenant")
      None) r.2 /\
    r = tenant_delete true now s (u32 tid).
Proof using laws.
  destruct (parsed_object [cmd_field "DELETE"; int_field "tenant" tid]) as (j & Hp & Hj);
    [flat_fields|].
  eexists. split; [|reflexivity]. unfold process_command. rewrite Hp.
  read_field Hj "cmd". rewrite Hs. cbn [String.eqb Ascii.eqb Bool.eqb].
  unfold replied, handle_delete. read_field Hj "tenant". rewrite Hi0, u32_i32.
  destruct (tenant_delete _ _ _ _) as [rc s']. cbn [fst snd]. by destruct (rc =? 0).
Qed.

Lemma serve_status now tid s :
  exists data, shallow data /\ process_command now (json_object_to_json_string (build_object
      (cmd_field "STATUS" :: match tid with Some t => [int_field "tenant" t] | None => [] end))) s =
    let r := command_effect now (CStatus (u32 <$> tid)) s in
    Replied (build_response (r.1 =? 0) (command_message (CStatus (u32 <$> tid)) (r.1 =? 0)) data) r.2.
Proof using laws.
  destruct (parsed_object (cmd_field "STATUS" ::
    match tid with Some t => [int_field "tenant" t] | None => [] end)) as (j & Hp & Hj);
    [destruct tid; flat_fields|].
  unfold process_command. rewrite Hp.
  destruct tid as [t|]; read_field Hj "cmd"; rewrite Hs;
    cbn [String.eqb Ascii.eqb Bool.eqb]; unfold replied, handle_status.
  - read_field Hj "tenant". rewrite Hi0, u32_i32. cbn [fmap option_fmap option_map command_effect].
    destruct (tenant_get_info _ _ _ _) as [[rc info] s']. cbn [fst snd].
    destruct (rc =? 0).
    + eexists (Some _). split; [|reflexivity]. apply status_data_shallow.
    + by exists None.
  - rewrite (parsed_none _ _ "tenant" Hj eq_refl). eexists (Some _). split; [|reflexivity].
    apply all_status_shallow.
Qed.

Lemma serve_list now s :
  process_command now (json_object_to_json_string (build_object [cmd_field "LIST_TENANTS"])) s =
    Replied (handle_list_tenants s) s.
Proof using laws.
  destruct (parsed_object [cmd_field "LIST_TENANTS"]) as (j & Hp & Hj); [flat_fields|].
  unfold process_command. rewrite Hp. by read_field Hj "cmd"; rewrite Hs.
Qed.

(** A command that is answered is sent back with a line end. *)
Lemma handle_replied now text s (r : Z * tenant_shared_memory) msg data :
  received text = text -> text <> "" -> shallow data ->
  process_command now text s = Replied (build_response (r.1 =? 0) msg data) r.2 ->
  exists reply, let '(rc, s') := r in
    handle_client now delivered (Some text) s = Closed reply s' /\ says reply (rc =? 0) msg.
Proof using laws.
  intros Hrec Hne Hd Hp. destruct r as [rc s']. cbn [fst snd] in *. unfold handle_client.
  destruct text as [|c text]; [done|]. rewrite Hrec, Hp. eexists. split; [done|].
  by apply says_response.
Qed.

(** The daemon's quota is the command line's. *)
Lemma quota_of_request qp mr m :
  quota_of qp mr m = request_quota (atoi qp) (atoi mr) (arg_mem m).
Proof. by destruct m. Qed.

(** A request of the client is not empty. *)
Lemma printed_not_empty fs :
  Forall (fun f => json_depth f.2 <= 30)%nat fs ->
  json_object_to_json_string (build_object fs) <> "".
Proof using laws.
  intros Hd E. destruct (parsed_object fs Hd) as (j & Hp & _). rewrite E, parse_empty in Hp. done.
Qed.

(** C13. The client and the daemon together do what the command line says.  For
    every command line the client accepts, the request it sends, if the
    daemon's one [recv] takes it whole (it fits the 4095 bytes of the buffer)
    and the daemon's sends take the reply, makes the daemon run exactly the
    operation of the tenant table that the command line names, with the
    numbers, the name and the defaults of the command line, and no other
    change; the reply is a line of JSON that says "success" exactly when the
    operation returned 0, with the message that belongs to it.  The JSON
    library is only assumed to have its documented behaviour. *)
Theorem client_request_served now argv text s :
  client_request argv = Some text -> received text = text ->
  exists c reply, command_of argv = Some c /\
    let '(rc, s') := command_effect now c s in
    handle_client now delivered (Some text) s = Closed reply s' /\
    says reply (rc =? 0) (command_message c (rc =? 0)).
Proof using laws.
  intros Hreq Hrec. pose proof (fun r msg data => handle_replied now text s r msg data Hrec) as Hdone.
  destruct argv as [|cmd args]; [done|]. unfold client_request in Hreq.
  destruct (String.eqb_spec cmd "create") as [->|_].
  { destruct args as [|id [|qp [|mr rest]]]; try discriminate Hreq. injection Hreq as <-.
    destruct (serve_create now (u32 (atoi id)) (default "unnamed" (rest !! 1%nat)) (atoi qp)
      (atoi mr) (arg_mem (rest !! 0%nat)) s) as (r & Hr & E).
    rewrite (u32_small (u32 _)), !atoi_i32, arg_mem_u64 in * by apply u32_range.
    pose proof (printed_not_empty (create_fields (u32 (atoi id)) (default "unnamed" (rest !! 1%nat)) (atoi qp)
      (atoi mr) (arg_mem (rest !! 0%nat))) ltac:(flat_fields)) as Hne.
    destruct (Hdone r _ None Hne I Hr) as (reply & H).
    eexists (CCreate _ _ _), reply. split; [reflexivity|]. unfold command_effect.
    rewrite quota_of_request, <- E. by destruct r. }
  destruct (String.eqb_spec cmd "delete") as [->|_].
  { destruct args as [|id args]; try discriminate Hreq. injection Hreq as <-.
    destruct (serve_delete now (u32 (atoi id)) s) as (r & Hr & E).
    rewrite (u32_small (u32 _)) in * by apply u32_range.
    pose proof (printed_not_empty [cmd_field "DELETE"; int_field "tenant" (u32 (atoi id))] ltac:(flat_fields)) as Hne.
    destruct (Hdone r _ None Hne I Hr) as (reply & H).
    eexists (CDelete _), reply. split; [reflexivity|]. unfold command_effect.
    rewrite <- E. by destruct r. }
  destruct (String.eqb cmd "update" || String.eqb cmd "set-quota") eqn:Eu.
  { destruct args as [|id [|qp [|mr rest]]]; try discriminate Hreq. injection Hreq as <-.
    destruct (serve_update now (u32 (atoi id)) (atoi qp) (atoi mr) (arg_mem (rest !! 0%nat)) s)
      as (r & Hr & E).
    rewrite (u32_small (u32 _)), !atoi_i32, arg_mem_u64 in * by apply u32_range.
    pose proof (printed_not_empty (update_fields (u32 (atoi id)) (atoi qp) (atoi mr) (arg_mem (rest !! 0%nat))) ltac:(flat_fields)) as Hne.
    destruct (Hdone r _ None Hne I Hr) as (reply & H).
    eexists (CUpdate _ _), reply. split.
    { apply orb_true_iff in Eu as [->%String.eqb_eq| ->%String.eqb_eq]; reflexivity. }
    rewrite quota_of_request, <- E. by destruct r. }
  destruct (String.eqb_spec cmd "status") as [->|_].
  { destruct args as [|id args]; injection Hreq as <-.
    - destruct (serve_status now None s) as (data & Hd & Hr).
      pose proof (printed_not_empty [cmd_field "STATUS"] ltac:(flat_fields)) as Hne.
      destruct (Hdone _ _ _ Hne Hd Hr) as (reply & H).
      by exists (CStatus None), reply.
    - destruct (serve_status now (Some (u32 (atoi id))) s) as (data & Hd & Hr).
      cbn [fmap option_fmap option_map] in Hr. rewrite (u32_small (u32 _)) in Hr by apply u32_range.
      pose proof (printed_not_empty [cmd_field "STATUS"; int_field "tenant" (u32 (atoi id))]
        ltac:(flat_fields)) as Hne.
      destruct (Hdone _ _ _ Hne Hd Hr) as (reply & H).
      eexists (CStatus (Some _)), reply. split; [reflexivity|].
      by destruct (command_effect _ _ _). }
  destruct (String.eqb_spec cmd "list") as [->|_]; [|discriminate Hreq].
  injection Hreq as <-.
  pose proof (printed_not_empty [cmd_field "LIST_TENANTS"] ltac:(flat_fields)) as Hne.
  destruct (Hdone (0, s) "Tenant list" (Some (list_data s)) Hne (list_data_shallow s)
    (serve_list now s)) as (reply & H).
  by exists CList, reply.
Qed.

(** ** What the client shows *)

(** [j] is, up to [json_equal], the object with these fields. *)
Definition represents (fs : list (string * json)) (j : json) : Prop :=
  forall k, option_Forall2 (option_Forall2 json_equal)
    (Some <$> field fs k) (json_object_object_get_ex j k).

Lemma represents_equal fs j : json_equal (build_object fs) j -> represents fs j.
Proof using laws. intros He k. rewrite <- build_object_get. by apply get_ex_proper. Qed.

Lemma represents_value fs j k v :
  represents fs j -> field fs k = Some v ->
  exists v', json_object_object_get_ex j k = Some (Some v') /\ json_equal v v'.
Proof using laws.
  intros Hj Hf. specialize (Hj k). rewrite Hf in Hj. simpl in Hj.
  inversion Hj as [x v' Hv|]; subst. inversion Hv as [y w Hw|]; subst. eauto.
Qed.

Definition build_array (vs : list json) : json :=
  foldl json_object_array_add json_object_new_array vs.

Lemma build_array_spec vs :
  json_object_is_array (build_array vs) = true /\
  json_object_array_length (build_array vs) = Z.of_nat (length vs) /\
  forall i, (i < length vs)%nat ->
    json_object_array_get_idx (build_array vs) (Z.of_nat i) = vs !! i.
Proof using laws.
  unfold build_array. induction vs as [|v vs (IHa & IHl & IHg)] using rev_ind.
  - split_and!; [apply new_array_is_array|apply length_new_array|]. simpl. lia.
  - rewrite foldl_snoc, length_app, length_add by done. simpl. split_and!; [|lia|].
    + by apply add_is_array.
    + intros i Hi. rewrite get_idx_add, IHl by (done || lia).
      destruct (Z.of_nat i =? Z.of_nat (length vs)) eqn:E; tests.
      * apply Nat2Z.inj in E as ->. by rewrite list_lookup_middle.
      * rewrite lookup_app_l by lia. apply IHg. lia.
Qed.

Lemma omap_seq_lookup {A} (vs : list A) (f : nat -> option A) :
  (forall i, (i < length vs)%nat -> f i = vs !! i) -> omap f (seq 0 (length vs)) = vs.
Proof.
  induction vs as [|v vs IH] using rev_ind; intros Hf; [done|].
  rewrite length_app. simpl. rewrite Nat.add_1_r, seq_S, omap_app. simpl. f_equal.
  - apply IH. intros i Hi. rewrite Hf by (rewrite length_app; simpl; lia).
    by rewrite lookup_app_l.
  - rewrite Hf by (rewrite length_app; simpl; lia). by rewrite list_lookup_middle.
Qed.

Lemma array_items_build vs : array_items (build_array vs) = vs.
Proof using laws.
  destruct (build_array_spec vs) as (_ & Hl & Hg). unfold array_items.
  rewrite Hl, Nat2Z.id. by apply omap_seq_lookup.
Qed.

Lemma array_items_equal a b :
  json_equal a b -> Forall2 json_equal (array_items a) (array_items b).
Proof using laws.
  intros He. unfold array_items. rewrite <- (array_length_proper _ _ He).
  induction (seq 0 _) as [|i l IH]; [constructor|]. simpl.
  by destruct (get_idx_proper a b (Z.of_nat i) He); [constructor|].
Qed.

Lemma tenants_array_build f ts :
  tenants_array f ts = build_array (f <$> filter (fun t => is_inactive t = false) ts).
Proof.
  unfold tenants_array, build_array. generalize json_object_new_array.
  induction ts as [|t ts IH]; intros a; [done|]. simpl. rewrite IH.
  destruct (is_inactive t) eqn:E.
  - by rewrite filter_cons_False by congruence.
  - by rewrite filter_cons_True.
Qed.

(** The line for one tenant. *)
Definition tenant_line (t : tenant_info) : string :=
  "    [" +:+ dec (u32 (tenant_id t)) +:+ "] " +:+ tenant_name t +:+ ": QP=" +:+
  sdec (i32 (t_qp_count (usage t))) +:+ "/" +:+ sdec (i32 (max_qp_per_tenant (quota t))) +:+
  ", MR=" +:+
  sdec (i32 (t_mr_count (usage t))) +:+ "/" +:+ sdec (i32 (max_mr_per_tenant (quota t))).

Definition tenant_fields (t : tenant_info) : list (string * json) :=
  [int_field "id" (tenant_id t); ("name", json_object_new_string (tenant_name t));
   int_field "qp_used" (t_qp_count (usage t)); int_field "qp_limit" (max_qp_per_tenant (quota t));
   int_field "mr_used" (t_mr_count (usage t)); int_field "mr_limit" (max_mr_per_tenant (quota t))].

Lemma print_list_item_tenant t j :
  json_equal (add_usage (tenant_name_json t) t) j -> print_list_item j = [tenant_line t].
Proof using laws.
  intros Hj. apply (represents_equal (tenant_fields t)) in Hj. unfold represents in Hj.
  unfold print_list_item, lookup_string, lookup_int, get_or, tenant_line.
  read_field Hj "id". read_field Hj "name". read_field Hj "qp_used".
  read_field Hj "qp_limit". read_field Hj "mr_used". read_field Hj "mr_limit".
  by rewrite Hi, Hs0, Hi1, Hi2, Hi3, Hi4, u32_i32.
Qed.

Lemma print_items ts js :
  Forall2 json_equal ((fun t => add_usage (tenant_name_json t) t) <$> ts) js ->
  (js ≫= print_list_item) = tenant_line <$> ts.
Proof using laws.
  revert js. induction ts as [|t ts IH]; intros js H; inversion H; subst; [done|].
  csimpl. erewrite print_list_item_tenant by done. simpl. f_equal. by apply IH.
Qed.

Definition list_fields (s : tenant_shared_memory) (a : json) : list (string * json) :=
  [int_field "count" (json_object_array_length a);
   ("version", json_object_new_int64 (i64 (t_version s))); ("tenants", a)].

Lemma print_list_data s a d :
  let ts := filter (fun t => is_inactive t = false) (tenants s) in
  a = build_array ((fun t => add_usage (tenant_name_json t) t) <$> ts) ->
  json_equal (build_object (list_fields s a)) d -> json_object_is_object d = true ->
  print_data d =
    ("  Active tenants: " +:+ sdec (i32 (Z.of_nat (length ts)))) ::
    ("  Policy version: " +:+ dec (u64 (t_version s))) ::
    "" :: "  Tenants:" :: (tenant_line <$> ts).
Proof using laws.
  intros ts Ha Hd Ho. apply represents_equal in Hd.
  destruct (represents_value _ _ "tenants" _ Hd eq_refl) as (a' & Et & Ea).
  pose proof (array_items_equal _ _ Ea) as Hitems.
  pose proof (is_array_proper _ _ Ea) as Hia.
  destruct (build_array_spec ((fun t => add_usage (tenant_name_json t) t) <$> ts)) as (Harr & Hlen & _).
  cbn [snd] in *. rewrite Ha, Harr in Hia. rewrite Ha, array_items_build in Hitems.
  unfold represents in Hd. unfold print_data, print_field, print_u64.
  destruct (json_object_is_array d) eqn:Ed.
  { apply array_not_object in Ed. congruence. }
  rewrite Ho. read_field Hd "count". read_field Hd "version". rewrite Et, <- Hia.
  rewrite Hi, Hl0, u64_i64, (print_items ts) by done.
  by rewrite Ha, Hlen, length_fmap.
Qed.

(** What the client prints for a listing of the table. *)
Definition listing (s : tenant_shared_memory) : list string :=
  let ts := filter (fun t => is_inactive t = false) (tenants s) in
  "✓ Success" :: "Message: Tenant list" :: "" :: "Data:" ::
  ("  Active tenants: " +:+ sdec (i32 (Z.of_nat (length ts)))) ::
  ("  Policy version: " +:+ dec (u64 (t_version s))) ::
  "" :: "  Tenants:" :: (tenant_line <$> ts).

Lemma print_listing s bytes :
  bytes = handle_list_tenants s \/ bytes = handle_list_tenants s +:+ String NEWLINE "" ->
  print_response bytes = listing s.
Proof using laws.
  intros Hb. set (a := tenants_array (fun t => add_usage (tenant_name_json t) t) (tenants s)).
  set (fs := response_fields true "Tenant list" (Some (build_object (list_fields s a)))).
  assert (Hl : handle_list_tenants s = json_object_to_json_string (build_object fs)) by done.
  destruct (parsed_object fs) as (j & Hp & Hj).
  { apply (response_fields_depth true "Tenant list" (Some (list_data s))), list_data_shallow. }
  assert (Hp' : json_tokener_parse bytes = Some j).
  { destruct Hb as [->| ->]; rewrite Hl, ?parse_line; done. }
  unfold print_response. rewrite Hp'. fold (represents fs j) in Hj.
  destruct (represents_value _ _ "success" _ Hj eq_refl) as (vs & Es & Hvs).
  destruct (represents_value _ _ "message" _ Hj eq_refl) as (vm & Em & Hvm).
  destruct (represents_value _ _ "data" _ Hj eq_refl) as (d & Ed & Hd). cbn [snd] in *.
  unfold print_field. rewrite Es, Em, Ed.
  assert (Hbo : json_object_get_boolean (Some vs) = true).
  { transitivity (json_object_get_boolean (Some (json_object_new_boolean true)));
      [|apply get_boolean_new]. symmetry. apply get_boolean_proper. by constructor. }
  assert (Hm : json_object_get_string (Some vm) = Some "Tenant list").
  { transitivity (json_object_get_string (Some (json_object_new_string "Tenant list")));
      [|apply get_string_new]. symmetry. apply get_string_proper. by constructor. }
  rewrite Hbo, Hm. unfold listing.
  rewrite (print_list_data s a d); [done|apply tenants_array_build|done|].
  rewrite <- (is_object_proper _ _ Hd). unfold build_object.
  simpl. repeat apply add_is_object. apply new_object_is_object.
Qed.

(** The client's calls go through and its [recv] returns these bytes. *)
Definition client_receives (sys : client_sys) (request bytes : string) : Prop :=
  0 <= cs_socket sys /\ 0 <= cs_connect sys /\ 0 <= cs_send sys /\ cs_malloc sys = true /\
  cs_reply sys request = Some bytes.

(** Of the daemon's two sends the client's one [recv] returns the first alone
    or both. *)
Definition arrives (reply bytes : string) : Prop :=
  bytes = reply \/ bytes +:+ String NEWLINE "" = reply.

Lemma newline_inj a b : a +:+ String NEWLINE "" = b +:+ String NEWLINE "" -> a = b.
Proof.
  revert b. induction a as [|x a IH]; intros [|y b]; simpl.
  - done.
  - intros [= <- H]. by destruct b.
  - intros [= -> H]. by destruct a.
  - intros [= -> H]. f_equal. by apply IH.
Qed.

Lemma list_request_text rest :
  client_request ("list" :: rest) =
    Some (json_object_to_json_string (build_object [cmd_field "LIST_TENANTS"])).
Proof. done. Qed.

(** C32. What the operator sees of the table.  The request of "list" arrives
    whole at the daemon, which answers it; of the reply, sent in two pieces,
    the client's one [recv] returns the first piece alone or both, and they
    fit the 4095 bytes of its buffer.  Then the table is unchanged and the
    client exits with status 0 and prints, after its request, "Success", the
    number of tenants that exist, the table's version, and then, in the order
    of the table, exactly one line per existing tenant with its id, its name,
    and its QPs and MRs in use and allowed.  (A longer reply is cut.) *)
Theorem client_list_shows now s s' rest text reply bytes sys :
  client_request ("list" :: rest) = Some text -> received text = text ->
  handle_client now delivered (Some text) s = Closed reply s' ->
  arrives reply bytes -> received bytes = bytes -> client_receives sys text bytes ->
  s' = s /\
  client_main ("list" :: rest) sys = (0, ("Sending: " +:+ text) :: "" :: "Response:" :: listing s).
Proof using laws.
  rewrite list_request_text. intros [= <-] Hrec Hh Harr Hb (H1 & H2 & H3 & H4 & H5).
  set (text := json_object_to_json_string _) in *.
  assert (Hne : text <> "") by (apply printed_not_empty; flat_fields).
  assert (Hr : reply = handle_list_tenants s +:+ String NEWLINE "" /\ s' = s).
  { revert Hh. unfold handle_client. destruct text as [|c t] eqn:Et; [done|].
    rewrite Hrec. rewrite <- Et. subst text. rewrite serve_list. by intros [= <- <-]. }
  destruct Hr as [-> ->]. split; [done|].
  assert (Hp : bytes = handle_list_tenants s \/ bytes = handle_list_tenants s +:+ String NEWLINE "").
  { destruct Harr as [->|Ha%newline_inj]; [by right|by left]. }
  assert (Hbn : bytes <> "").
  { intros ->. pose proof (print_listing s "" Hp) as H. unfold print_response in H.
    rewrite parse_empty in H. done. }
  unfold client_main. rewrite list_request_text. fold text. unfold send_command.
  replace (cs_socket sys <? 0) with false by lia. replace (cs_connect sys <? 0) with false by lia.
  replace (cs_send sys <? 0) with false by lia. rewrite H4, H5. cbn [negb].
  destruct bytes as [|c bytes]; [done|]. rewrite Hb. by rewrite (print_listing s _ Hp).
Qed.
End round_trip.

(** ** Witnesses, with the JSON implementation of the file Json *)

#[local] Existing Instance text_json.
#[local] Existing Instance text_json_laws.

Lemma daemon_keeps_table_witness :
  tenant_ok (loop_table (main_loop [Connection 5 delivered (Some "hello"); SelectTimeout;
    Connection 6 (SentAll, PeerClosed) (build_create_cmd ["create"; "20"; "100"; "50"]); SignalTerm]
    (Serving (fresh_tshm 5)))).
Proof.
  apply (daemon_keeps_table [Connection 5 delivered (Some "hello"); SelectTimeout;
    Connection 6 (SentAll, PeerClosed) (build_create_cmd ["create"; "20"; "100"; "50"]); SignalTerm]
    (fresh_tshm 5)).
  apply fresh_tshm_ok.
Defined.

(** A command that is null; and an ordinary client that has closed its end
    after its one [recv], before the line end is sent. *)
Lemma daemon_dies_on_null_command_witness :
  (exists s', loop_turn (Connection 5 delivered (Some (enc (add_field "O" "cmd" None))))
    (Serving (fresh_tshm 5)) = Dead s') /\
  (exists s', loop_turn (Connection 5 (SentAll, PeerClosed) build_list_cmd)
    (Serving (fresh_tshm 5)) = Dead s') /\
  (exists reply ok msg s', handle_client 5 delivered (Some "hello") (fresh_tshm 5) = Closed reply s' /\
     says reply ok msg).
Proof.
  split_and!.
  - apply (daemon_dies_on_null_command 5 delivered (Some (enc (add_field "O" "cmd" None)))
      (fresh_tshm 5)).
    split; [done|]. left. eexists. split; vm_compute; reflexivity.
  - apply (daemon_dies_on_null_command 5 (SentAll, PeerClosed) build_list_cmd (fresh_tshm 5)).
    split; [done|]. right. right. reflexivity.
  - apply (daemon_dies_on_null_command 5 delivered (Some "hello") (fresh_tshm 5)); [done|].
    intros (o & H & _). vm_compute in H. discriminate H.
Defined.

Lemma client_request_served_witness :
  exists text, client_request ["create"; "20"; "100"; "50"] = Some text /\
  exists c reply, command_of ["create"; "20"; "100"; "50"] = Some c /\
    let '(rc, s') := command_effect 5 c (fresh_tshm 5) in
    handle_client 5 delivered (Some text) (fresh_tshm 5) = Closed reply s' /\
    says reply (rc =? 0) (command_message c (rc =? 0)).
Proof.
  eexists. split; [reflexivity|].
  apply (client_request_served 5 ["create"; "20"; "100"; "50"]); vm_compute; reflexivity.
Defined.

(** The daemon's answer, delivered to a client whose calls all succeed. *)
Definition demo_client : client_sys :=
  mk_csys 3 0 10 true (fun text =>
    match handle_client 5 delivered (Some text) demo1 with
    | Closed reply _ => Some reply
    | Killed _ => None
    end).

Lemma client_list_shows_witness :
  (client_main ["list"] demo_client).2 =
    [(client_main ["list"] demo_client).2 !!! 0%nat; ""; "Response:";
     "✓ Success"; "Message: Tenant list"; ""; "Data:"; "  Active tenants: 1";
     "  Policy version: 2"; ""; "  Tenants:"; "    [1] a: QP=0/2, MR=0/2"].
Proof.
  set (text := json_object_to_json_string (build_object [cmd_field "LIST_TENANTS"])).
  set (reply := handle_list_tenants demo1 +:+ String NEWLINE "").
  destruct (client_list_shows 5 demo1 demo1 [] text reply reply demo_client) as [_ H];
    [reflexivity|vm_compute; reflexivity|vm_compute; reflexivity|left; reflexivity
    |vm_compute; reflexivity| |].
  - split; [|split; [|split; [|split]]]; vm_compute; done.
  - rewrite H. vm_compute. reflexivity.
Defined.
