(* ===== verification/Operator.v ===== *)
(** * From the operator's command line to the next allocation

    Composition of the tenant manager (file Manager) with the allocation the
    intercepted verbs make (tenant_try_allocate_qp of
    src/src/shm/shared_memory_tenant.c, called by ibv_create_qp): a quota that
    is changed while processes run, the "hot update" of the client's usage
    text, is what the next request is measured against. *)

From S2P Require Import Prelude CString Shm TenantShm Json Manager.
From stdpp Require Import base numbers list option strings.
#[local] Open Scope string_scope.
#[local] Open Scope Z_scope.

(** The command of the client that changes a quota. *)
Definition quota_command (id qp mr : string) (rest : list string) : list string :=
  "set-quota" :: id :: qp :: mr :: rest.

(** ** The table after the update *)

Section update.
Context (now tid : Z) (q : tenant_quota) (s : tenant_shared_memory) (t : tenant_info).
Context (Htid : 0 <= tid < Z.of_nat MAX_TENANTS).
Context (Hl : tenants s !! Z.to_nat tid = Some t) (Ha : is_active t = true).

Lemma active_not_inactive : is_inactive t = false.
Proof using Ha. unfold is_inactive, is_active in *. by destruct (status t). Qed.

Lemma update_effect :
  exists s', command_effect now (CUpdate tid q) s = (0, s') /\
    tenants s' = <[Z.to_nat tid := set_active_at now (set_quota q t)]> (tenants s).
Proof using Htid Hl Ha.
  unfold command_effect, tenant_update_quota. replace (_ <=? tid) with false by lia.
  simpl. rewrite (list_lookup_total_correct _ _ _ Hl), active_not_inactive by done.
  by eexists.
Qed.

Lemma update_keeps_usages s' :
  tenants s' = <[Z.to_nat tid := set_active_at now (set_quota q t)]> (tenants s) ->
  usages s' = usages s.
Proof using Hl.
  intros E. unfold usages. rewrite E, list_fmap_insert. apply list_insert_id.
  by rewrite list_lookup_fmap, Hl.
Qed.
End update.

(** Whether a request is granted depends on the tenant's record only. *)
Lemma try_allocate_local now s s' tid :
  tenants s' !! Z.to_nat tid = tenants s !! Z.to_nat tid ->
  (tenant_try_allocate_qp true now s' tid).1 = (tenant_try_allocate_qp true now s tid).1.
Proof.
  intros E. unfold tenant_try_allocate_qp. destruct (_ <=? tid); [done|]. simpl.
  rewrite !list_lookup_total_alt, E.
  destruct (is_active _); simpl; [|done]. by destruct (max_qp_per_tenant _ <=? _).
Qed.

Section operator.
Context {JL : JsonLib} {laws : JsonLaws}.

(** C14. A quota changed at run time holds for the next request.  When the request
    of a set-quota command for an active tenant arrives whole, the daemon
    answers it (and the table is the same if the reply cannot be sent), no
    tenant's usage changes, and from then on a request for a
    queue pair on behalf of the tenant is granted exactly when its usage is
    below the number on the command line, also when that number is below what
    the tenant already uses; every other tenant's next request is decided as
    before.  The number is read by [atoi] and stored in 32 unsigned bits, so a
    negative one lifts the limit. *)
Theorem hot_quota_enforced now now' id qp mr rest text s t :
  let tid := u32 (atoi id) in
  client_request (quota_command id qp mr rest) = Some text -> received text = text ->
  tid < Z.of_nat MAX_TENANTS -> tenants s !! Z.to_nat tid = Some t -> is_active t = true ->
  0 <= t_qp_count (usage t) < 2 ^ 31 ->
  exists reply s', handle_client now delivered (Some text) s = Closed reply s' /\
    (forall sends, end_table (handle_client now sends (Some text) s) = s') /\
    usages s' = usages s /\
    (tenant_try_allocate_qp true now' s' tid).1 = (t_qp_count (usage t) <? u32 (atoi qp)) /\
    forall other, 0 <= other -> other <> tid ->
      (tenant_try_allocate_qp true now' s' other).1 = (tenant_try_allocate_qp true now' s other).1.
Proof using laws.
  intros tid Hreq Hrec Hlt Hl Ha Hu. pose proof (u32_range (atoi id)) as Hr. fold tid in Hr.
  injection Hreq as <-.
  destruct (serve_update now tid (atoi qp) (atoi mr) (arg_mem (rest !! 0%nat)) s)
    as (r & Hp & E).
  rewrite (u32_small tid), !atoi_i32, arg_mem_u64 in E by done.
  set (q := request_quota _ _ _) in E.
  destruct (update_effect now tid q s t) as (s' & Hs & Ht); [lia|done|done|].
  rewrite Hs in E. subst r.
  pose proof (printed_not_empty _ (update_fields_depth tid (atoi qp) (atoi mr)
    (arg_mem (rest !! 0%nat)))) as Hne.
  destruct (handle_replied _ _ _ _ _ None Hrec Hne I Hp) as (reply & Hh & _).
  exists reply, s'. split; [exact Hh|].
  split; [intros sends; by rewrite handle_client_table, Hh|].
  split; [by eapply update_keeps_usages|].
  pose proof (lookup_lt_Some _ _ _ Hl) as Hin. split.
  - destruct (try_allocate_self now' s' tid (set_active_at now (set_quota q t)))
      as (_ & _ & _ & _ & Hb & _); [lia| |done|done|exact Hb].
    by rewrite Ht, list_lookup_insert_eq.
  - intros other Ho Hno. apply try_allocate_local. rewrite Ht.
    apply list_lookup_insert_ne. lia.
Qed.
End operator.

(** ** Witness *)

#[local] Existing Instances text_json text_json_laws.

(** Tenant 1 may have two queue pairs; the operator cuts it to none. *)
Lemma hot_quota_enforced_witness :
  exists text reply s',
    client_request (quota_command "1" "0" "2" []) = Some text /\
    handle_client 5 delivered (Some text) demo1 = Closed reply s' /\
    (tenant_try_allocate_qp true 9 demo1 1).1 = true /\
    (tenant_try_allocate_qp true 9 s' 1).1 = false.
Proof.
  destruct (hot_quota_enforced 5 9 "1" "0" "2" []
    (json_object_to_json_string (build_object (update_fields 1 0 2 DEFAULT_MEMORY)))
    demo1 (tenants demo1 !!! 1%nat)) as (reply & s' & Hh & _ & _ & Hb & _);
    [vm_compute; reflexivity|vm_compute; reflexivity|vm_compute; reflexivity
    |vm_compute; reflexivity|vm_compute; reflexivity|vm_compute; split; [discriminate|reflexivity]|].
  exists (json_object_to_json_string (build_object (update_fields 1 0 2 DEFAULT_MEMORY))), reply, s'.
  split; [vm_compute; reflexivity|]. split; [exact Hh|]. split; [vm_compute; reflexivity|].
  exact Hb.
Defined.
