(* ===== verification/Config.v ===== *)
(** * Configuration: src/src/config.c, the record of src/include/rdma_intercept.h
      and its static initialiser in src/src/intercept_core.c

    Environment variables are a parameter [getenv], files a parameter
    [readfile] ([None] when fopen fails).  Every parser of the configuration
    table, the line parser, the environment loader and the loader itself are
    definitions; what the loader logs is left to the logger. *)

From S2P Require Import Prelude CString.
From stdpp Require Import base numbers list strings.
From Stdlib Require Import Ascii.
#[local] Open Scope string_scope.
#[local] Open Scope Z_scope.

Definition MAX_CONFIG_FILE_PATH : nat := 256.
Definition DEFAULT_CONFIG_FILE : string := "/etc/rdma_intercept.conf".
Definition ENV_CONFIG_FILE : string := "RDMA_INTERCEPT_CONFIG".

(** Log levels, in the order of the enumeration. *)
Definition LOG_LEVEL_DEBUG : Z := 0.
Definition LOG_LEVEL_INFO : Z := 1.
Definition LOG_LEVEL_WARN : Z := 2.
Definition LOG_LEVEL_ERROR : Z := 3.
Definition LOG_LEVEL_FATAL : Z := 4.

Record intercept_config := mk_config {
  enable_intercept : bool;
  log_qp_creation : bool;
  log_all_operations : bool;
  log_level : Z;
  log_file_path : string;
  enable_qp_control : bool;
  max_qp_per_process : Z;
  max_send_wr_limit : Z;
  max_recv_wr_limit : Z;
  allow_rc_qp : bool;
  allow_uc_qp : bool;
  allow_ud_qp : bool;
  allow_rq_qp : bool;
  cfg_max_global_qp : Z;
  enable_mr_control : bool;
  max_mr_per_process : Z;
  max_memory_per_process : Z;
  enable_mr_rate_limit : bool;
  max_mr_ops_per_sec : Z;
  mr_rate_limit_window_ms : Z
}.

(** Assignments to fields. *)
Definition set_enable_intercept (v : bool) (c : intercept_config) :=
  mk_config
    v (log_qp_creation c) (log_all_operations c) (log_level c)
    (log_file_path c) (enable_qp_control c) (max_qp_per_process c)
    (max_send_wr_limit c) (max_recv_wr_limit c) (allow_rc_qp c)
    (allow_uc_qp c) (allow_ud_qp c) (allow_rq_qp c) (cfg_max_global_qp c)
    (enable_mr_control c) (max_mr_per_process c) (max_memory_per_process c)
    (enable_mr_rate_limit c) (max_mr_ops_per_sec c)
    (mr_rate_limit_window_ms c).
Definition set_log_qp_creation (v : bool) (c : intercept_config) :=
  mk_config
    (enable_intercept c) v (log_all_operations c) (log_level c)
    (log_file_path c) (enable_qp_control c) (max_qp_per_process c)
    (max_send_wr_limit c) (max_recv_wr_limit c) (allow_rc_qp c)
    (allow_uc_qp c) (allow_ud_qp c) (allow_rq_qp c) (cfg_max_global_qp c)
    (enable_mr_control c) (max_mr_per_process c) (max_memory_per_process c)
    (enable_mr_rate_limit c) (max_mr_ops_per_sec c)
    (mr_rate_limit_window_ms c).
Definition set_log_all_operations (v : bool) (c : intercept_config) :=
  mk_config
    (enable_intercept c) (log_qp_creation c) v (log_level c) (log_file_path c)
    (enable_qp_control c) (max_qp_per_process c) (max_send_wr_limit c)
    (max_recv_wr_limit c) (allow_rc_qp c) (allow_uc_qp c) (allow_ud_qp c)
    (allow_rq_qp c) (cfg_max_global_qp c) (enable_mr_control c)
    (max_mr_per_process c) (max_memory_per_process c) (enable_mr_rate_limit c)
    (max_mr_ops_per_sec c) (mr_rate_limit_window_ms c).
Definition set_log_level (v : Z) (c : intercept_config) :=
  mk_config
    (enable_intercept c) (log_qp_creation c) (log_all_operations c) v
    (log_file_path c) (enable_qp_control c) (max_qp_per_process c)
    (max_send_wr_limit c) (max_recv_wr_limit c) (allow_rc_qp c)
    (allow_uc_qp c) (allow_ud_qp c) (allow_rq_qp c) (cfg_max_global_qp c)
    (enable_mr_control c) (max_mr_per_process c) (max_memory_per_process c)
    (enable_mr_rate_limit c) (max_mr_ops_per_sec c)
    (mr_rate_limit_window_ms c).
Definition set_log_file_path (v : string) (c : intercept_config) :=
  mk_config
    (enable_intercept c) (log_qp_creation c) (log_all_operations c)
    (log_level c) v (enable_qp_control c) (max_qp_per_process c)
    (max_send_wr_limit c) (max_recv_wr_limit c) (allow_rc_qp c)
    (allow_uc_qp c) (allow_ud_qp c) (allow_rq_qp c) (cfg_max_global_qp c)
    (enable_mr_control c) (max_mr_per_process c) (max_memory_per_process c)
    (enable_mr_rate_limit c) (max_mr_ops_per_sec c)
    (mr_rate_limit_window_ms c).
Definition set_enable_qp_control (v : bool) (c : intercept_config) :=
  mk_config
    (enable_intercept c) (log_qp_creation c) (log_all_operations c)
    (log_level c) (log_file_path c) v (max_qp_per_process c)
    (max_send_wr_limit c) (max_recv_wr_limit c) (allow_rc_qp c)
    (allow_uc_qp c) (allow_ud_qp c) (allow_rq_qp c) (cfg_max_global_qp c)
    (enable_mr_control c) (max_mr_per_process c) (max_memory_per_process c)
    (enable_mr_rate_limit c) (max_mr_ops_per_sec c)
    (mr_rate_limit_window_ms c).
Definition set_max_qp_per_process (v : Z) (c : intercept_config) :=
  mk_config
    (enable_intercept c) (log_qp_creation c) (log_all_operations c)
    (log_level c) (log_file_path c) (enable_qp_control c) v
    (max_send_wr_limit c) (max_recv_wr_limit c) (allow_rc_qp c)
    (allow_uc_qp c) (allow_ud_qp c) (allow_rq_qp c) (cfg_max_global_qp c)
    (enable_mr_control c) (max_mr_per_process c) (max_memory_per_process c)
    (enable_mr_rate_limit c) (max_mr_ops_per_sec c)
    (mr_rate_limit_window_ms c).
Definition set_max_send_wr_limit (v : Z) (c : intercept_config) :=
  mk_config
    (enable_intercept c) (log_qp_creation c) (log_all_operations c)
    (log_level c) (log_file_path c) (enable_qp_control c)
    (max_qp_per_process c) v (max_recv_wr_limit c) (allow_rc_qp c)
    (allow_uc_qp c) (allow_ud_qp c) (allow_rq_qp c) (cfg_max_global_qp c)
    (enable_mr_control c) (max_mr_per_process c) (max_memory_per_process c)
    (enable_mr_rate_limit c) (max_mr_ops_per_sec c)
    (mr_rate_limit_window_ms c).
Definition set_max_recv_wr_limit (v : Z) (c : intercept_config) :=
  mk_config
    (enable_intercept c) (log_qp_creation c) (log_all_operations c)
    (log_level c) (log_file_path c) (enable_qp_control c)
    (max_qp_per_process c) (max_send_wr_limit c) v (allow_rc_qp c)
    (allow_uc_qp c) (allow_ud_qp c) (allow_rq_qp c) (cfg_max_global_qp c)
    (enable_mr_control c) (max_mr_per_process c) (max_memory_per_process c)
    (enable_mr_rate_limit c) (max_mr_ops_per_sec c)
    (mr_rate_limit_window_ms c).
Definition set_allow_rc_qp (v : bool) (c : intercept_config) :=
  mk_config
    (enable_intercept c) (log_qp_creation c) (log_all_operations c)
    (log_level c) (log_file_path c) (enable_qp_control c)
    (max_qp_per_process c) (max_send_wr_limit c) (max_recv_wr_limit c) v
    (allow_uc_qp c) (allow_ud_qp c) (allow_rq_qp c) (cfg_max_global_qp c)
    (enable_mr_control c) (max_mr_per_process c) (max_memory_per_process c)
    (enable_mr_rate_limit c) (max_mr_ops_per_sec c)
    (mr_rate_limit_window_ms c).
Definition set_allow_uc_qp (v : bool) (c : intercept_config) :=
  mk_config
    (enable_intercept c) (log_qp_creation c) (log_all_operations c)
    (log_level c) (log_file_path c) (enable_qp_control c)
    (max_qp_per_process c) (max_send_wr_limit c) (max_recv_wr_limit c)
    (allow_rc_qp c) v (allow_ud_qp c) (allow_rq_qp c) (cfg_max_global_qp c)
    (enable_mr_control c) (max_mr_per_process c) (max_memory_per_process c)
    (enable_mr_rate_limit c) (max_mr_ops_per_sec c)
    (mr_rate_limit_window_ms c).
Definition set_allow_ud_qp (v : bool) (c : intercept_config) :=
  mk_config
    (enable_intercept c) (log_qp_creation c) (log_all_operations c)
    (log_level c) (log_file_path c) (enable_qp_control c)
    (max_qp_per_process c) (max_send_wr_limit c) (max_recv_wr_limit c)
    (allow_rc_qp c) (allow_uc_qp c) v (allow_rq_qp c) (cfg_max_global_qp c)
    (enable_mr_control c) (max_mr_per_process c) (max_memory_per_process c)
    (enable_mr_rate_limit c) (max_mr_ops_per_sec c)
    (mr_rate_limit_window_ms c).
Definition set_cfg_max_global_qp (v : Z) (c : intercept_config) :=
  mk_config
    (enable_intercept c) (log_qp_creation c) (log_all_operations c)
    (log_level c) (log_file_path c) (enable_qp_control c)
    (max_qp_per_process c) (max_send_wr_limit c) (max_recv_wr_limit c)
    (allow_rc_qp c) (allow_uc_qp c) (allow_ud_qp c) (allow_rq_qp c) v
    (enable_mr_control c) (max_mr_per_process c) (max_memory_per_process c)
    (enable_mr_rate_limit c) (max_mr_ops_per_sec c)
    (mr_rate_limit_window_ms c).
Definition set_enable_mr_control (v : bool) (c : intercept_config) :=
  mk_config
    (enable_intercept c) (log_qp_creation c) (log_all_operations c)
    (log_level c) (log_file_path c) (enable_qp_control c)
    (max_qp_per_process c) (max_send_wr_limit c) (max_recv_wr_limit c)
    (allow_rc_qp c) (allow_uc_qp c) (allow_ud_qp c) (allow_rq_qp c)
    (cfg_max_global_qp c) v (max_mr_per_process c) (max_memory_per_process c)
    (enable_mr_rate_limit c) (max_mr_ops_per_sec c)
    (mr_rate_limit_window_ms c).
Definition set_max_mr_per_process (v : Z) (c : intercept_config) :=
  mk_config
    (enable_intercept c) (log_qp_creation c) (log_all_operations c)
    (log_level c) (log_file_path c) (enable_qp_control c)
    (max_qp_per_process c) (max_send_wr_limit c) (max_recv_wr_limit c)
    (allow_rc_qp c) (allow_uc_qp c) (allow_ud_qp c) (allow_rq_qp c)
    (cfg_max_global_qp c) (enable_mr_control c) v (max_memory_per_process c)
    (enable_mr_rate_limit c) (max_mr_ops_per_sec c)
    (mr_rate_limit_window_ms c).
Definition set_max_memory_per_process (v : Z) (c : intercept_config) :=
  mk_config
    (enable_intercept c) (log_qp_creation c) (log_all_operations c)
    (log_level c) (log_file_path c) (enable_qp_control c)
    (max_qp_per_process c) (max_send_wr_limit c) (max_recv_wr_limit c)
    (allow_rc_qp c) (allow_uc_qp c) (allow_ud_qp c) (allow_rq_qp c)
    (cfg_max_global_qp c) (enable_mr_control c) (max_mr_per_process c) v
    (enable_mr_rate_limit c) (max_mr_ops_per_sec c)
    (mr_rate_limit_window_ms c).
Definition set_enable_mr_rate_limit (v : bool) (c : intercept_config) :=
  mk_config
    (enable_intercept c) (log_qp_creation c) (log_all_operations c)
    (log_level c) (log_file_path c) (enable_qp_control c)
    (max_qp_per_process c) (max_send_wr_limit c) (max_recv_wr_limit c)
    (allow_rc_qp c) (allow_uc_qp c) (allow_ud_qp c) (allow_rq_qp c)
    (cfg_max_global_qp c) (enable_mr_control c) (max_mr_per_process c)
    (max_memory_per_process c) v (max_mr_ops_per_sec c)
    (mr_rate_limit_window_ms c).
Definition set_max_mr_ops_per_sec (v : Z) (c : intercept_config) :=
  mk_config
    (enable_intercept c) (log_qp_creation c) (log_all_operations c)
    (log_level c) (log_file_path c) (enable_qp_control c)
    (max_qp_per_process c) (max_send_wr_limit c) (max_recv_wr_limit c)
    (allow_rc_qp c) (allow_uc_qp c) (allow_ud_qp c) (allow_rq_qp c)
    (cfg_max_global_qp c) (enable_mr_control c) (max_mr_per_process c)
    (max_memory_per_process c) (enable_mr_rate_limit c) v
    (mr_rate_limit_window_ms c).
Definition set_mr_rate_limit_window_ms (v : Z) (c : intercept_config) :=
  mk_config
    (enable_intercept c) (log_qp_creation c) (log_all_operations c)
    (log_level c) (log_file_path c) (enable_qp_control c)
    (max_qp_per_process c) (max_send_wr_limit c) (max_recv_wr_limit c)
    (allow_rc_qp c) (allow_uc_qp c) (allow_ud_qp c) (allow_rq_qp c)
    (cfg_max_global_qp c) (enable_mr_control c) (max_mr_per_process c)
    (max_memory_per_process c) (enable_mr_rate_limit c) (max_mr_ops_per_sec c)
    v.

(** The initial value of [g_intercept_state.config]; the rate-limit fields are
    not mentioned by the initialiser and are zero. *)
Definition default_config : intercept_config :=
  mk_config true true false LOG_LEVEL_INFO "/tmp/rdma_intercept.log"
    false 100 1024 1024 true true true true 1000 false 1000
    (1024 * 1024 * 1024 * 10) false 0 0.

(** ** Parsers of values: [None] is the return code -1 *)

Definition parse_bool (value : string) : option bool :=
  let value := skip_space value in
  if strcasecmp_eq value "true" || strcasecmp_eq value "yes"
     || strcasecmp_eq value "on" || strcasecmp_eq value "1" then Some true
  else if strcasecmp_eq value "false" || strcasecmp_eq value "no"
     || strcasecmp_eq value "off" || strcasecmp_eq value "0" then Some false
  else None.

Definition parse_log_level_value (value : string) : option Z :=
  let value := skip_space value in
  if strcasecmp_eq value "debug" then Some LOG_LEVEL_DEBUG
  else if strcasecmp_eq value "info" then Some LOG_LEVEL_INFO
  else if strcasecmp_eq value "warn" || strcasecmp_eq value "warning" then Some LOG_LEVEL_WARN
  else if strcasecmp_eq value "error" then Some LOG_LEVEL_ERROR
  else if strcasecmp_eq value "fatal" then Some LOG_LEVEL_FATAL
  else None.

Definition space_or_quote (c : ascii) : bool :=
  isspace c || Ascii.eqb c "034" || Ascii.eqb c "039".

Definition parse_string (value : string) (max_len : nat) : option string :=
  if (max_len =? 0)%nat then None
  else
    let s := strip_right space_or_quote (strip_left space_or_quote value) in
    if (max_len <=? String.length s)%nat then None else Some s.

(** The body shared by the numeric parsers; [lo] is 1 where the code tests
    [val <= 0] and 0 where it tests [val < 0]. *)
Definition parse_number (lo : Z) (value : string) : option Z :=
  let val := strtol value in
  if (val <? lo) || (UINT32_MAX <? val) then None else Some (u32 val).

(** ** The configuration table *)

Definition parse_enable_intercept (value : string) (c : intercept_config) :=
  (fun b => set_enable_intercept b c) <$> parse_bool value.
Definition parse_log_qp_creation (value : string) (c : intercept_config) :=
  (fun b => set_log_qp_creation b c) <$> parse_bool value.
Definition parse_log_all_operations (value : string) (c : intercept_config) :=
  (fun b => set_log_all_operations b c) <$> parse_bool value.
Definition parse_log_level_config (value : string) (c : intercept_config) :=
  (fun l => set_log_level l c) <$> parse_log_level_value value.
Definition parse_log_file_path (value : string) (c : intercept_config) :=
  (fun s => set_log_file_path s c) <$> parse_string value MAX_CONFIG_FILE_PATH.
Definition parse_enable_qp_control (value : string) (c : intercept_config) :=
  (fun b => set_enable_qp_control b c) <$> parse_bool value.
Definition parse_max_qp_per_process (value : string) (c : intercept_config) :=
  (fun n => set_max_qp_per_process n c) <$> parse_number 1 value.
Definition parse_max_send_wr_limit (value : string) (c : intercept_config) :=
  (fun n => set_max_send_wr_limit n c) <$> parse_number 1 value.
Definition parse_max_recv_wr_limit (value : string) (c : intercept_config) :=
  (fun n => set_max_recv_wr_limit n c) <$> parse_number 1 value.
Definition parse_allow_rc_qp (value : string) (c : intercept_config) :=
  (fun b => set_allow_rc_qp b c) <$> parse_bool value.
Definition parse_allow_uc_qp (value : string) (c : intercept_config) :=
  (fun b => set_allow_uc_qp b c) <$> parse_bool value.
Definition parse_allow_ud_qp (value : string) (c : intercept_config) :=
  (fun b => set_allow_ud_qp b c) <$> parse_bool value.
Definition parse_max_global_qp (value : string) (c : intercept_config) :=
  (fun n => set_cfg_max_global_qp n c) <$> parse_number 1 value.
Definition parse_enable_mr_rate_limit (value : string) (c : intercept_config) :=
  (fun b => set_enable_mr_rate_limit b c) <$> parse_bool value.
Definition parse_max_mr_ops_per_sec (value : string) (c : intercept_config) :=
  (fun n => set_max_mr_ops_per_sec n c) <$> parse_number 0 value.
Definition parse_mr_rate_limit_window_ms (value : string) (c : intercept_config) :=
  (fun n => set_mr_rate_limit_window_ms n c) <$> parse_number 0 value.

Definition config_parser : Type := string -> intercept_config -> option intercept_config.

Definition config_table : list (string * config_parser) :=
  [("enable_intercept", parse_enable_intercept);
   ("log_qp_creation", parse_log_qp_creation);
   ("log_all_operations", parse_log_all_operations);
   ("log_level", parse_log_level_config);
   ("log_file_path", parse_log_file_path);
   ("enable_qp_control", parse_enable_qp_control);
   ("max_qp_per_process", parse_max_qp_per_process);
   ("max_send_wr_limit", parse_max_send_wr_limit);
   ("max_recv_wr_limit", parse_max_recv_wr_limit);
   ("allow_rc_qp", parse_allow_rc_qp);
   ("allow_uc_qp", parse_allow_uc_qp);
   ("allow_ud_qp", parse_allow_ud_qp);
   ("max_global_qp", parse_max_global_qp);
   ("enable_mr_rate_limit", parse_enable_mr_rate_limit);
   ("max_mr_ops_per_sec", parse_max_mr_ops_per_sec);
   ("mr_rate_limit_window_ms", parse_mr_rate_limit_window_ms)].

(** First entry whose key matches, ignoring case. *)
Fixpoint find_parser (key : string) (t : list (string * config_parser))
    : option config_parser :=
  match t with
  | [] => None
  | (k, p) :: t => if strcasecmp_eq key k then Some p else find_parser key t
  end.

(** ** Lines *)

Definition trim_whitespace (s : string) : string :=
  strip_right isspace (strip_left isspace s).

(** Return code and the configuration, which a failing parser leaves alone. *)
Definition parse_config_line (line : string) (c : intercept_config)
    : Z * intercept_config :=
  let line := trim_whitespace line in
  match line with
  | "" => (0, c)
  | String ch _ =>
      if Ascii.eqb ch "#" || Ascii.eqb ch ";" then (0, c)
      else
        match strchr "=" line with
        | None => (-1, c)
        | Some (before, after) =>
            let key := trim_whitespace before in
            let value := trim_whitespace after in
            match find_parser key config_table with
            | Some parser =>
                match parser value c with
                | Some c' => (0, c')
                | None => (-1, c)
                end
            | None => (-1, c)
            end
        end
  end.

(** ** Loading *)

Section load.
Context (getenv : string -> option string) (readfile : string -> option string).

(** [env_val = getenv (name); if (env_val) parse (env_val, ...)]. *)
Definition from_env (name : string) (parser : config_parser)
    (c : intercept_config) : intercept_config :=
  match getenv name with
  | None => c
  | Some v => default c (parser v c)
  end.

Definition parse_enable_mr_control (value : string) (c : intercept_config) :=
  (fun b => set_enable_mr_control b c) <$> parse_bool value.
Definition parse_max_mr_per_process (value : string) (c : intercept_config) :=
  (fun n => set_max_mr_per_process n c) <$> parse_number 1 value.
Definition parse_max_memory_per_process (value : string) (c : intercept_config) :=
  let val := strtoull value in
  if 0 <? val then Some (set_max_memory_per_process val c) else None.

Definition load_config_from_env (c : intercept_config) : intercept_config :=
  let c := from_env "RDMA_INTERCEPT_ENABLE_QP_CONTROL" parse_enable_qp_control c in
  let c := from_env "RDMA_INTERCEPT_MAX_QP_PER_PROCESS" parse_max_qp_per_process c in
  let c := from_env "RDMA_INTERCEPT_MAX_GLOBAL_QP" parse_max_global_qp c in
  let c := from_env "RDMA_INTERCEPT_MAX_SEND_WR_LIMIT" parse_max_send_wr_limit c in
  let c := from_env "RDMA_INTERCEPT_MAX_RECV_WR_LIMIT" parse_max_recv_wr_limit c in
  let c := from_env "RDMA_INTERCEPT_ALLOW_RC_QP" parse_allow_rc_qp c in
  let c := from_env "RDMA_INTERCEPT_ALLOW_UC_QP" parse_allow_uc_qp c in
  let c := from_env "RDMA_INTERCEPT_ALLOW_UD_QP" parse_allow_ud_qp c in
  let c := from_env "RDMA_INTERCEPT_ENABLE_MR_CONTROL" parse_enable_mr_control c in
  let c := from_env "RDMA_INTERCEPT_MAX_MR_PER_PROCESS" parse_max_mr_per_process c in
  let c := from_env "RDMA_INTERCEPT_MAX_MEMORY_PER_PROCESS" parse_max_memory_per_process c in
  let c := from_env "RDMA_INTERCEPT_ENABLE_MR_RATE_LIMIT" parse_enable_mr_rate_limit c in
  let c := from_env "RDMA_INTERCEPT_MAX_MR_OPS_PER_SEC" parse_max_mr_ops_per_sec c in
  let c := from_env "RDMA_INTERCEPT_MR_RATE_LIMIT_WINDOW_MS" parse_mr_rate_limit_window_ms c in
  from_env "RDMA_INTERCEPT_LOG_FILE_PATH" parse_log_file_path c.

(** The file that is read: the given one or the default, else the one the
    environment names. *)
Definition open_config (config_file : option string) : option string :=
  match readfile (default DEFAULT_CONFIG_FILE config_file) with
  | Some content => Some content
  | None => match getenv ENV_CONFIG_FILE with
            | Some f => readfile f
            | None => None
            end
  end.

Definition parse_config_chunk (c : intercept_config) (line : string) : intercept_config :=
  (parse_config_line (chop_eol line) c).2.

(** Always returns 0; the result is the configuration put in force. *)
Definition rdma_intercept_load_config (config_file : option string)
    (c : intercept_config) : Z * intercept_config :=
  let temp := load_config_from_env c in
  match open_config config_file with
  | None => (0, temp)
  | Some content => (0, foldl parse_config_chunk temp (file_chunks 1024 content))
  end.
End load.

(** ** Setting and reading at run time *)

(** The new configuration is installed when it is valid; the caller then
    switches the log file (see the logger). *)
Definition rdma_intercept_set_config (new : option intercept_config)
    (c : intercept_config) : Z * intercept_config :=
  match new with
  | None => (-1, c)
  | Some new =>
      if (log_level new <? LOG_LEVEL_DEBUG) || (LOG_LEVEL_FATAL <? log_level new)
      then (-1, c)
      else if (MAX_CONFIG_FILE_PATH <=? String.length (log_file_path new))%nat
      then (-1, c)
      else (0, new)
  end.

Definition rdma_intercept_get_config (c : intercept_config) : intercept_config := c.

(** * Theorems *)

(** ** Bounds *)

(** A configuration the rest of the library can rely on: limits are positive
    and fit their types, the level is one of the five, the path fits its
    buffer with its terminator. *)
Record config_ok (c : intercept_config) : Prop := {
  cok_qp : 1 <= max_qp_per_process c <= UINT32_MAX;
  cok_send : 1 <= max_send_wr_limit c <= UINT32_MAX;
  cok_recv : 1 <= max_recv_wr_limit c <= UINT32_MAX;
  cok_global : 1 <= cfg_max_global_qp c <= UINT32_MAX;
  cok_mr : 1 <= max_mr_per_process c <= UINT32_MAX;
  cok_mem : 1 <= max_memory_per_process c <= UINT64_MAX;
  cok_ops : 0 <= max_mr_ops_per_sec c <= UINT32_MAX;
  cok_window : 0 <= mr_rate_limit_window_ms c <= UINT32_MAX;
  cok_level : LOG_LEVEL_DEBUG <= log_level c <= LOG_LEVEL_FATAL;
  cok_path : (String.length (log_file_path c) < MAX_CONFIG_FILE_PATH)%nat
}.

Lemma parse_number_bounds lo v n :
  0 <= lo -> parse_number lo v = Some n -> lo <= n <= UINT32_MAX.
Proof.
  unfold parse_number. intros Hlo H. destruct (_ || _) eqn:E; [done|]. tests.
  simplify_eq. unfold UINT32_MAX in *. rewrite u32_small; lia.
Qed.

Lemma parse_level_bounds v l :
  parse_log_level_value v = Some l -> LOG_LEVEL_DEBUG <= l <= LOG_LEVEL_FATAL.
Proof. unfold parse_log_level_value. intros H. repeat case_match; simplify_eq; by vm_compute. Qed.

Lemma parse_string_length v n s : parse_string v n = Some s -> (String.length s < n)%nat.
Proof.
  unfold parse_string. intros H. destruct (_ =? _)%nat; [done|].
  destruct (_ <=? _)%nat eqn:E; [done|]. simplify_eq. by apply Nat.leb_gt in E.
Qed.

Lemma strtoull_range s : 0 <= strtoull s <= UINT64_MAX.
Proof.
  unfold strtoull. destruct (signed_digits s) as [neg m] eqn:E.
  assert (Hd : forall s a, 0 <= a -> 0 <= digits s a).
  { clear. induction s as [|c s IH]; simpl; intros a Ha; [done|].
    destruct (isdigit c) eqn:Ec; [|done]. apply IH. unfold isdigit in Ec. tests. lia. }
  assert (0 <= m).
  { unfold signed_digits in E. repeat case_match; simplify_eq; try apply Hd; lia. }
  unfold UINT64_MAX in *. split_ifs; try lia. pose proof (u64_range (- m)). lia.
Qed.

(** A parser keeps valid configurations valid. *)
Definition parser_ok (p : config_parser) : Prop :=
  forall v c c', config_ok c -> p v c = Some c' -> config_ok c'.

Ltac solve_parser :=
  let v := fresh in let d := fresh in let d' := fresh in let H := fresh in
  let x := fresh in let Hx := fresh in
  intros v d d' H (x & Hx & ->)%fmap_Some; destruct H; split; try done;
  first [by eapply parse_number_bounds in Hx; [|lia]
        |by eapply parse_level_bounds|by eapply parse_string_length].

Lemma max_memory_parser_ok : parser_ok parse_max_memory_per_process.
Proof.
  intros v c c' Hok H. unfold parse_max_memory_per_process in H.
  destruct (0 <? strtoull v) eqn:E; [|done]. tests. simplify_eq.
  pose proof (strtoull_range v). destruct Hok. split; try done. simpl. lia.
Qed.

Lemma config_table_ok : Forall (fun kp => parser_ok kp.2) config_table.
Proof.
  unfold config_table.
  repeat (apply Forall_cons_2; [simpl; first [exact max_memory_parser_ok|solve_parser]|]).
  by apply Forall_nil_2.
Qed.

Lemma env_parsers_ok :
  parser_ok parse_enable_mr_control /\ parser_ok parse_max_mr_per_process.
Proof. split; solve_parser. Qed.

Lemma find_parser_ok key t p :
  Forall (fun kp => parser_ok kp.2) t -> find_parser key t = Some p -> parser_ok p.
Proof.
  induction t as [|[k q] t IH]; simpl; intros Ht H; [done|].
  inversion_clear Ht. destruct (strcasecmp_eq key k); [by simplify_eq|auto].
Qed.

(** A line keeps the configuration valid, and one that is rejected does not
    touch it. *)
Lemma parse_config_line_ok line c :
  config_ok c ->
  config_ok (parse_config_line line c).2 /\
  ((parse_config_line line c).1 = 0 \/
   (parse_config_line line c).1 = -1 /\ (parse_config_line line c).2 = c).
Proof.
  intros Hok. unfold parse_config_line. destruct (trim_whitespace line) as [|ch l]; [by auto|].
  destruct (_ || _); [by auto|]. destruct (strchr _ _) as [[b a]|]; [|by auto].
  destruct (find_parser _ _) as [p|] eqn:Ep; [|by auto].
  destruct (p _ c) as [c'|] eqn:Ec; [|by auto]. simpl. split; [|by auto].
  eapply find_parser_ok in Ep; [|apply config_table_ok]. eauto.
Qed.

Lemma from_env_ok getenv name p c : parser_ok p -> config_ok c -> config_ok (from_env getenv name p c).
Proof.
  intros Hp Hok. unfold from_env. destruct (getenv name) as [v|]; [|done].
  destruct (p v c) eqn:E; simpl; eauto.
Qed.

Lemma load_env_ok getenv c : config_ok c -> config_ok (load_config_from_env getenv c).
Proof.
  intros Hok. unfold load_config_from_env. pose proof env_parsers_ok as [H1 H2].
  repeat (apply from_env_ok; [first [exact H1|exact H2|exact max_memory_parser_ok|solve_parser]|]).
  done.
Qed.

(** C29. Whatever the environment and the configuration file contain, loading
    returns 0 and yields a configuration within bounds: every QP, MR and WR
    limit in 1..2^32-1 (a negative, zero or overflowing number never becomes a
    limit), a known log level, and a log path that fits its 256-byte buffer. *)
Theorem load_config_bounds getenv readfile file c :
  config_ok c ->
  let '(rc, c') := rdma_intercept_load_config getenv readfile file c in
  rc = 0 /\ config_ok c'.
Proof.
  intros Hok. unfold rdma_intercept_load_config.
  pose proof (load_env_ok getenv c Hok) as He. revert He.
  generalize (load_config_from_env getenv c) as e. intros e He.
  destruct (open_config _ _ _) as [content|]; [|done]. split; [done|].
  revert e He. induction (file_chunks 1024 content) as [|l ls IH]; intros e He; [done|].
  simpl. apply IH. by apply parse_config_line_ok.
Qed.

(** ** Precedence *)

(** A "key=value" line with a plain key and a plain value. *)
Lemma parse_max_global_qp_line v c :
  1 <= v <= UINT32_MAX ->
  parse_config_line ("max_global_qp=" +:+ dec v) c = (0, set_cfg_max_global_qp v c).
Proof.
  intros Hv. destruct (dec_go_head 20 v "") as (d & r & Hd & E); [lia|lia|].
  pose proof (dec_isdigit v) as Hdig. fold (dec v) in E.
  assert (Hns : str_all (fun c => negb (isspace c)) (dec v) = true).
  { eapply str_all_impl; [|done]. intros ch Hch%isdigit_not_space. by rewrite Hch. }
  assert (Htrim : trim_whitespace (dec v) = dec v).
  { unfold trim_whitespace. rewrite E in *. rewrite strip_left_id; [by apply strip_right_id|].
    simpl in Hns. apply andb_true_iff in Hns as [Hn _]. by apply negb_true_iff in Hn. }
  unfold parse_config_line.
  assert (Ht : trim_whitespace ("max_global_qp=" +:+ dec v) = "max_global_qp=" +:+ dec v).
  { unfold trim_whitespace.
    replace (strip_left isspace ("max_global_qp=" +:+ dec v)) with ("max_global_qp=" +:+ dec v)
      by (symmetry; apply (strip_left_id isspace); reflexivity).
    apply strip_right_id. by rewrite str_all_app, Hns. }
  rewrite Ht. change ("max_global_qp=" +:+ dec v) with ("max_global_qp" +:+ String "=" (dec v)).
  rewrite (strchr_first "=" "max_global_qp") by reflexivity. rewrite Htrim.
  change (trim_whitespace "max_global_qp") with "max_global_qp".
  replace (find_parser "max_global_qp" config_table) with (Some parse_max_global_qp)
    by reflexivity.
  cbn [String.append Ascii.eqb Bool.eqb orb].
  unfold parse_max_global_qp, parse_number, UINT32_MAX in *. rewrite strtol_dec by lia.
  replace (_ || _) with false by (symmetry; apply orb_false_iff; lia).
  simpl. by rewrite u32_small by lia.
Qed.

(** The configuration file has the last word: if the file is one line
    "max_global_qp=v", the limit in force is v whatever the environment says,
    although the loader reads the environment first and its comment calls the
    environment the one with priority. *)
Theorem config_file_overrides_env getenv readfile file c v :
  1 <= v <= UINT32_MAX ->
  readfile (default DEFAULT_CONFIG_FILE file) =
    Some ("max_global_qp=" +:+ dec v +:+ String NEWLINE "") ->
  cfg_max_global_qp (rdma_intercept_load_config getenv readfile file c).2 = v.
Proof.
  intros Hv Hf. unfold rdma_intercept_load_config, open_config. rewrite Hf.
  assert (Hl : str_all (fun ch => negb (Ascii.eqb ch NEWLINE || Ascii.eqb ch "013"))
    ("max_global_qp=" +:+ dec v) = true).
  { rewrite str_all_app. simpl. eapply str_all_impl; [|apply dec_isdigit].
    intros ch Hch. apply negb_true_iff, orb_false_iff.
    split; apply Ascii.eqb_neq; intros ->; discriminate. }
  rewrite <- sapp_assoc.
  replace (file_chunks 1024 _) with [("max_global_qp=" +:+ dec v) +:+ String NEWLINE ""].
  { simpl. unfold parse_config_chunk. rewrite chop_eol_line by done.
    by rewrite parse_max_global_qp_line. }
  unfold file_chunks. cbn [file_chunks_go]. rewrite fgets_line; [by rewrite slength_app|..].
  - clear -Hl. induction ("max_global_qp=" +:+ dec v) as [|ch s IH]; [done|].
    simpl in *. apply andb_true_iff in Hl as [Hc Hs]. apply negb_true_iff, orb_false_iff in Hc as [-> _].
    by apply IH.
  - rewrite slength_app. assert (Hb : forall f z acc,
      (String.length (dec_go f z acc) <= f + String.length acc)%nat).
    { induction f as [|f IH]; intros z acc; simpl; [lia|].
      destruct (z <? 10); simpl; [lia|]. etransitivity; [apply IH|]. simpl. lia. }
    specialize (Hb 20%nat v ""). fold (dec v) in Hb. simpl in *. lia.
Qed.

(** ** Witnesses *)

Lemma default_config_ok : config_ok default_config.
Proof. split; vm_compute; solve [split; congruence|repeat constructor]. Qed.

Lemma load_config_bounds_witness :
  config_ok default_config /\
  let '(rc, c') := rdma_intercept_load_config (fun _ => Some "-5")
    (fun _ => Some "max_qp_per_process = 99999999999") None default_config in
  rc = 0 /\ config_ok c'.
Proof.
  split; [apply default_config_ok|].
  apply (load_config_bounds (fun _ => Some "-5")
    (fun _ => Some "max_qp_per_process = 99999999999") None default_config).
  apply default_config_ok.
Defined.

Lemma config_file_overrides_env_witness :
  cfg_max_global_qp (rdma_intercept_load_config (fun _ => Some "7")
    (fun _ => Some ("max_global_qp=" +:+ dec 9 +:+ String NEWLINE "")) None
    default_config).2 = 9.
Proof.
  apply (config_file_overrides_env (fun _ => Some "7")); [vm_compute; split; congruence|reflexivity].
Defined.
