(* ===== verification/Logger.v ===== *)
(** * The logger: src/src/logger.c

    The part of [g_intercept_state] the logger works on, with the streams and
    files behind it: [streams] are the open streams and the paths they append
    to, [files] the contents of files by path.  A stream that was closed is not
    in [streams] any more; using or closing it again is undefined behaviour,
    which is the outcome [None] of the operations.  Buffering is not modelled:
    what is printed to a stream is in its file.  The answers of the file system
    and the formatted time are parameters; [msg] is the message after
    [vsnprintf] without the truncation, which [log_buffer] does. *)

From S2P Require Import Prelude CString Config.
From stdpp Require Import base numbers list gmap strings.
From Stdlib Require Import Ascii.
#[local] Open Scope string_scope.
#[local] Open Scope Z_scope.

Definition MAX_LOG_BUFFER_SIZE : nat := 4096.
Definition EEXIST : Z := 17.

(** The stream [stdout]. *)
Definition STDOUT : nat := 0.

Record log_state := mk_lstate {
  l_initialized : bool;
  l_config : intercept_config;
  l_file : option nat;
  streams : gmap nat string;
  next_stream : nat;
  files : gmap string string;
  l_stderr : list string;
  l_start_time : Z
}.

Definition set_l_config (c : intercept_config) (s : log_state) : log_state :=
  mk_lstate (l_initialized s) c (l_file s) (streams s) (next_stream s) (files s)
    (l_stderr s) (l_start_time s).
Definition set_l_file (f : option nat) (s : log_state) : log_state :=
  mk_lstate (l_initialized s) (l_config s) f (streams s) (next_stream s) (files s)
    (l_stderr s) (l_start_time s).
Definition set_files (fs : gmap string string) (s : log_state) : log_state :=
  mk_lstate (l_initialized s) (l_config s) (l_file s) (streams s) (next_stream s) fs
    (l_stderr s) (l_start_time s).
Definition set_l_stderr (l : list string) (s : log_state) : log_state :=
  mk_lstate (l_initialized s) (l_config s) (l_file s) (streams s) (next_stream s) (files s)
    l (l_start_time s).
Definition set_l_start (t : Z) (s : log_state) : log_state :=
  mk_lstate (l_initialized s) (l_config s) (l_file s) (streams s) (next_stream s) (files s)
    (l_stderr s) t.

(** What the system answers. *)
Record log_sys := mk_lsys {
  sys_fopen : string -> bool;    (** the path can be opened for appending *)
  sys_stat : string -> bool;     (** the directory exists *)
  sys_mkdir : string -> Z;       (** 0, or the errno of a failure *)
  sys_rename : string -> string -> bool;   (** the first can be renamed to the second *)
  sys_time : string;             (** the formatted time *)
  sys_stamp : string;            (** the time in the name of a backup *)
  sys_pid : Z
}.

(** ** Streams *)

Definition fputs (f : nat) (text : string) (s : log_state) : option log_state :=
  match streams s !! f with
  | None => None
  | Some path =>
      Some (set_files (<[path := default "" (files s !! path) +:+ text]> (files s)) s)
  end.

Definition fclose (f : nat) (s : log_state) : option log_state :=
  match streams s !! f with
  | None => None
  | Some _ =>
      Some (mk_lstate (l_initialized s) (l_config s) (l_file s) (delete f (streams s))
              (next_stream s) (files s) (l_stderr s) (l_start_time s))
  end.

(** [fopen (path, "a")]: a new stream, and the file if there is none. *)
Definition fopen_append (sys : log_sys) (path : string) (s : log_state)
    : option nat * log_state :=
  if sys_fopen sys path
  then (Some (next_stream s),
        mk_lstate (l_initialized s) (l_config s) (l_file s)
          (<[next_stream s := path]> (streams s)) (S (next_stream s))
          (<[path := default "" (files s !! path)]> (files s)) (l_stderr s) (l_start_time s))
  else (None, s).

(** [rename (a, b)]; nothing happens when it fails. *)
Definition rename (sys : log_sys) (a b : string) (s : log_state) : log_state :=
  if sys_rename sys a b then
    match files s !! a with
    | Some content => set_files (<[b := content]> (delete a (files s))) s
    | None => s
    end
  else s.

(** ** Writing *)

Definition get_log_level_string (level : Z) : string :=
  if level =? LOG_LEVEL_DEBUG then "DEBUG"
  else if level =? LOG_LEVEL_INFO then "INFO"
  else if level =? LOG_LEVEL_WARN then "WARN"
  else if level =? LOG_LEVEL_ERROR then "ERROR"
  else if level =? LOG_LEVEL_FATAL then "FATAL"
  else "UNKNOWN".

Definition log_buffer (msg : string) : string :=
  String.substring 0 (MAX_LOG_BUFFER_SIZE - 1) msg.

Definition log_line (sys : log_sys) (level : Z) (msg : string) : string :=
  "[" +:+ sys_time sys +:+ "] [" +:+ get_log_level_string level +:+ "] [PID:" +:+
  sdec (sys_pid sys) +:+ "] " +:+ log_buffer msg +:+ String NEWLINE "".

(** Whether the first test of the functions lets a message through. *)
Definition log_enabled (level : Z) (s : log_state) : bool :=
  l_initialized s && negb (level <? log_level (l_config s)).

Definition rdma_intercept_log (sys : log_sys) (level : Z) (msg : string) (s : log_state)
    : option log_state :=
  if negb (log_enabled level s) then Some s
  else match l_file s with
       | None => Some s
       | Some f => fputs f (log_line sys level msg) s
       end.

(** With the place in the source in debug mode, and a copy of fatal messages on
    the standard error. *)
Definition rdma_intercept_log_internal (sys : log_sys) (level : Z) (file : string) (line : Z)
    (func msg : string) (s : log_state) : option log_state :=
  if negb (log_enabled level s) then Some s
  else
    let text :=
      if log_level (l_config s) <=? LOG_LEVEL_DEBUG
      then "[" +:+ sys_time sys +:+ "] [" +:+ get_log_level_string level +:+ "] [PID:" +:+
           sdec (sys_pid sys) +:+ "] [" +:+ file +:+ ":" +:+ sdec line +:+ "] " +:+ func +:+
           ": " +:+ log_buffer msg +:+ String NEWLINE ""
      else log_line sys level msg in
    match (match l_file s with None => Some s | Some f => fputs f text s end) with
    | None => None
    | Some s =>
        if level =? LOG_LEVEL_FATAL
        then Some (set_l_stderr (l_stderr s ++ ["[RDMA_INTERCEPT] [" +:+
               get_log_level_string level +:+ "] " +:+ log_buffer msg])%list s)
        else Some s
    end.

(** ** Settings *)

(** A return code and the state, unless the behaviour is undefined. *)
Definition rdma_intercept_set_log_level (sys : log_sys) (level : Z) (s : log_state)
    : option (Z * log_state) :=
  if (level <? LOG_LEVEL_DEBUG) || (LOG_LEVEL_FATAL <? level) then Some (-1, s)
  else
    let s := set_l_config (set_log_level level (l_config s)) s in
    (fun s => (0, s)) <$>
      rdma_intercept_log sys LOG_LEVEL_INFO
        ("Log level changed to " +:+ get_log_level_string level) s.

Definition rdma_intercept_get_log_level (s : log_state) : Z := log_level (l_config s).

(** The directory part of a path: what is before the last slash, unless that
    slash is the first character. *)
Definition log_dir (path : string) : option string :=
  let p := String.substring 0 (MAX_CONFIG_FILE_PATH - 1) path in
  match strrchr "/" p with
  | None => None
  | Some suffix =>
      let n := (String.length p - String.length suffix)%nat in
      if (n =? 0)%nat then None else Some (String.substring 0 n p)
  end.

Definition ensure_log_directory (sys : log_sys) (path : string) : Z :=
  match log_dir path with
  | None => 0
  | Some dir =>
      if negb (sys_stat sys dir) && negb (sys_mkdir sys dir =? 0)
         && negb (sys_mkdir sys dir =? EEXIST)
      then -1 else 0
  end.

Definition rdma_intercept_set_log_file (sys : log_sys) (path : option string) (s : log_state)
    : option (Z * log_state) :=
  match path with
  | None => Some (-1, s)
  | Some path =>
      if (MAX_CONFIG_FILE_PATH <=? String.length path)%nat then Some (-1, s)
      else if negb (ensure_log_directory sys path =? 0) then Some (-1, s)
      else
        match (match l_file s with
               | Some f => if (f =? STDOUT)%nat then Some s else fclose f s
               | None => Some s
               end) with
        | None => None
        | Some s =>
            match fopen_append sys path s with
            | (None, s) => Some (-1, s)
            | (Some f, s) =>
                let s := set_l_config (set_log_file_path path (l_config s)) s in
                let s := set_l_file (Some f) s in
                (fun s => (0, s)) <$>
                  rdma_intercept_log sys LOG_LEVEL_INFO ("Log file changed to " +:+ path) s
            end
        end
  end.

Definition rdma_intercept_rotate_log (sys : log_sys) (s : log_state)
    : option (Z * log_state) :=
  let path := log_file_path (l_config s) in
  match l_file s with
  | None => Some (-1, s)
  | Some f =>
      if String.eqb path "" then Some (-1, s)
      else
        match fclose f s with
        | None => None
        | Some s =>
            let backup := path +:+ "." +:+ sys_stamp sys in
            let s := rename sys path backup s in
            match fopen_append sys path s with
            | (None, s) => Some (-1, rename sys backup path s)
            | (Some f, s) =>
                (fun s => (0, s)) <$>
                  rdma_intercept_log sys LOG_LEVEL_INFO ("Log rotated to " +:+ backup)
                    (set_l_file (Some f) s)
            end
        end
  end.

(** The three counters are static variables that nothing increments. *)
Definition rdma_intercept_get_log_stats (now : Z) (s : log_state) : Z * Z * Z * Z * log_state :=
  let s := if l_start_time s =? 0 then set_l_start now s else s in
  (0, 0, 0, l_start_time s, s).

(** [rdma_intercept_set_config] of config.c with its calls of the logger. *)
Definition set_config_and_log (sys : log_sys) (new : option intercept_config) (s : log_state)
    : option (Z * log_state) :=
  match rdma_intercept_set_config new (l_config s) with
  | (rc, c) =>
      if negb (rc =? 0) then Some (rc, s)
      else
        let s := set_l_config c s in
        match (if String.eqb (log_file_path c) "" then Some s
               else snd <$> rdma_intercept_set_log_file sys (Some (log_file_path c)) s) with
        | None => None
        | Some s =>
            (fun s => (0, s)) <$>
              rdma_intercept_log sys LOG_LEVEL_INFO "Configuration updated" s
        end
  end.

(** ** Queue pair creations *)

Record qp_creation_info := mk_qp_info {
  qi_timestamp : Z;
  qi_pid : Z;
  qi_tid : Z;
  qi_context : Z;
  qi_init_attr : Z;
  qi_pd : Z;
  qi_send_cq : Z;
  qi_recv_cq : Z;
  qi_srq : Z;
  qi_qp_type : Z;
  qi_max_send_wr : Z;
  qi_max_recv_wr : Z;
  qi_max_send_sge : Z;
  qi_max_recv_sge : Z;
  qi_max_inline_data : Z
}.

(** The sixteen lines of an event; [ptr] prints a pointer ([%p]). *)
Definition qp_event_text (ptr : Z -> string) (time_str : string) (info : qp_creation_info)
    : string :=
  unlines
    ["===== QP Creation Event =====";
     "[Timestamp] " +:+ time_str;
     "[PID] " +:+ sdec (qi_pid info);
     "[TID] " +:+ dec (qi_tid info);
     "[QP Address] " +:+ ptr (qi_pd info);
     "[Context] " +:+ ptr (qi_context info);
     "[QP Type] " +:+ sdec (qi_qp_type info);
     "[Max Send WR] " +:+ dec (qi_max_send_wr info);
     "[Max Recv WR] " +:+ dec (qi_max_recv_wr info);
     "[Max Send SGE] " +:+ dec (qi_max_send_sge info);
     "[Max Recv SGE] " +:+ dec (qi_max_recv_sge info);
     "[Max Inline Data] " +:+ dec (qi_max_inline_data info) +:+ " bytes";
     "[Send CQ] " +:+ ptr (qi_send_cq info);
     "[Recv CQ] " +:+ ptr (qi_recv_cq info);
     "[SRQ] " +:+ ptr (qi_srq info);
     "============================="].

Definition rdma_intercept_log_qp_creation (ptr : Z -> string) (time_str : Z -> string)
    (info : option qp_creation_info) (s : log_state) : option log_state :=
  match info with
  | None => Some s
  | Some info =>
      if negb (l_initialized s) || negb (log_qp_creation (l_config s)) then Some s
      else match l_file s with
           | None => Some s
           | Some f => fputs f (qp_event_text ptr (time_str (qi_timestamp info)) info) s
           end
  end.

(** * Theorems *)

(** The log file is open and is the file of the configuration. *)
Record log_ok (s : log_state) : Prop := {
  lo_file : exists f, l_file s = Some f /\ streams s !! f = Some (log_file_path (l_config s)) /\
              f <> STDOUT;
  lo_fresh : forall f, is_Some (streams s !! f) -> (f < next_stream s)%nat
}.

(** Some log file is open. *)
Definition log_open (s : log_state) : Prop :=
  exists f path, l_file s = Some f /\ streams s !! f = Some path /\ f <> STDOUT.

Lemma log_ok_open s : log_ok s -> log_open s.
Proof. intros [(f & ? & ? & ?) _]. by eexists _, _. Qed.

(** Append a text to the log. *)
Definition append_log (text : string) (s : log_state) : log_state :=
  let path := log_file_path (l_config s) in
  set_files (<[path := default "" (files s !! path) +:+ text]> (files s)) s.

Lemma append_log_ok text s : log_ok s -> log_ok (append_log text s).
Proof. by intros []. Qed.

Lemma log_run sys level msg s :
  log_ok s ->
  rdma_intercept_log sys level msg s =
    Some (if log_enabled level s then append_log (log_line sys level msg) s else s).
Proof.
  intros [(f & Hf & Hs & _) _]. unfold rdma_intercept_log, fputs. rewrite Hf, Hs.
  by destruct (log_enabled level s).
Qed.

(** The level filter of the log is exact.  With the log open, a call of
    [rdma_intercept_log] appends exactly one formatted line, with the level's
    name and the message cut at 4095 characters, to the configured file and
    changes nothing else when the library is initialised and the level is at
    least the configured one; otherwise it does nothing at all. *)
Theorem log_filter_exact sys level msg s :
  log_ok s ->
  exists s', rdma_intercept_log sys level msg s = Some s' /\ log_ok s' /\
    (forall path, files s' !! path =
       if decide (path = log_file_path (l_config s) /\ l_initialized s = true /\
                  log_level (l_config s) <= level)
       then Some (default "" (files s !! path) +:+ log_line sys level msg)
       else files s !! path) /\
    l_config s' = l_config s /\ l_file s' = l_file s /\ streams s' = streams s.
Proof.
  intros Hs. rewrite (log_run sys level msg s Hs). eexists. split; [done|].
  unfold log_enabled. destruct (l_initialized s) eqn:Hi; simpl.
  2:{ split_and!; try done. intros path. by rewrite decide_False by naive_solver. }
  destruct (level <? log_level (l_config s)) eqn:E; tests; simpl.
  { split_and!; try done. intros path. rewrite decide_False; [done|]. lia. }
  split_and!; try done; [by apply append_log_ok|]. intros path.
  destruct (decide (path = log_file_path (l_config s))) as [->|Hne].
  - rewrite decide_True by done. by rewrite lookup_insert_eq.
  - rewrite decide_False by naive_solver. by rewrite lookup_insert_ne.
Qed.

(** ** Failing to open *)

(** A log file pointer that is neither NULL nor open. *)
Definition dangling (s : log_state) : Prop :=
  exists f, l_file s = Some f /\ streams s !! f = None /\ f <> STDOUT.

Lemma dangling_log sys level msg s :
  dangling s -> log_enabled level s = true -> rdma_intercept_log sys level msg s = None.
Proof.
  intros (f & Hf & Hs & _) He. unfold rdma_intercept_log, fputs. by rewrite He, Hf, Hs.
Qed.

Lemma set_log_file_fails sys path s :
  log_open s -> (String.length path < MAX_CONFIG_FILE_PATH)%nat ->
  ensure_log_directory sys path = 0 -> sys_fopen sys path = false ->
  exists s', rdma_intercept_set_log_file sys (Some path) s = Some (-1, s') /\ dangling s' /\
    l_config s' = l_config s /\ l_initialized s' = l_initialized s.
Proof.
  intros (f & old & Hf & Hs & Hne) Hl Hd Ho. unfold rdma_intercept_set_log_file.
  replace (MAX_CONFIG_FILE_PATH <=? String.length path)%nat with false
    by (symmetry; apply Nat.leb_gt; lia).
  rewrite Hd, Hf. cbn [Z.eqb negb]. replace (f =? STDOUT)%nat with false
    by (symmetry; by apply Nat.eqb_neq).
  unfold fclose, fopen_append. rewrite Hs, Ho. eexists. split; [reflexivity|].
  split; [|done]. exists f. split_and!; [done| |done]. apply lookup_delete_eq.
Qed.

Lemma dangling_switch sys path s :
  dangling s -> (String.length path < MAX_CONFIG_FILE_PATH)%nat ->
  ensure_log_directory sys path = 0 -> rdma_intercept_set_log_file sys (Some path) s = None.
Proof.
  intros (f & Hf & Hs & Hne) Hl Hd. unfold rdma_intercept_set_log_file.
  replace (MAX_CONFIG_FILE_PATH <=? String.length path)%nat with false
    by (symmetry; apply Nat.leb_gt; lia).
  rewrite Hd, Hf. cbn [Z.eqb negb]. replace (f =? STDOUT)%nat with false
    by (symmetry; by apply Nat.eqb_neq).
  unfold fclose. by rewrite Hs.
Qed.

(** Failing to switch the log file leaves a dangling stream.  When the new
    file cannot be opened, [rdma_intercept_set_log_file] returns -1 after it
    closed the old stream and without clearing the pointer to it: every later
    message that passes the level filter writes to the closed stream, and so
    does every later switch by closing it again.  [rdma_intercept_set_config]
    runs into this by itself: with a configuration whose log file cannot be
    opened and whose level lets informational messages through, the call
    itself has undefined behaviour. *)
Theorem failed_log_switch_dangles sys path s :
  log_open s -> (String.length path < MAX_CONFIG_FILE_PATH)%nat -> path <> "" ->
  ensure_log_directory sys path = 0 -> sys_fopen sys path = false ->
  (exists s', rdma_intercept_set_log_file sys (Some path) s = Some (-1, s') /\
     (forall sys' level msg, log_enabled level s' = true ->
        rdma_intercept_log sys' level msg s' = None) /\
     (forall sys' path', (String.length path' < MAX_CONFIG_FILE_PATH)%nat ->
        ensure_log_directory sys' path' = 0 ->
        rdma_intercept_set_log_file sys' (Some path') s' = None)) /\
  (forall c, l_initialized s = true -> log_file_path c = path ->
     LOG_LEVEL_DEBUG <= log_level c <= LOG_LEVEL_INFO ->
     set_config_and_log sys (Some c) s = None).
Proof.
  intros Hs Hl Hne Hd Ho. split.
  - destruct (set_log_file_fails sys path s) as (s' & E & Hdang & _ & _); [done..|].
    exists s'. split_and!; [done| |].
    + intros. by apply dangling_log.
    + intros. by apply dangling_switch.
  - intros c Hi <- Hlev. unfold set_config_and_log, rdma_intercept_set_config.
    unfold LOG_LEVEL_DEBUG, LOG_LEVEL_INFO, LOG_LEVEL_FATAL in *.
    replace (log_level c <? 0) with false by lia. replace (4 <? log_level c) with false by lia.
    replace (MAX_CONFIG_FILE_PATH <=? String.length (log_file_path c))%nat with false
      by (symmetry; apply Nat.leb_gt; lia). cbn [orb Z.eqb negb].
    destruct (set_log_file_fails sys (log_file_path c) (set_l_config c s))
      as (s' & E & Hdang & Hc & Hini); [done..|].
    rewrite (proj2 (String.eqb_neq _ _) Hne), E. cbn [fmap option_fmap option_map snd].
    rewrite dangling_log; [done|done|]. unfold log_enabled. rewrite Hini, Hc. simpl. rewrite Hi.
    unfold LOG_LEVEL_INFO. by replace (1 <? log_level c) with false by lia.
Qed.

(** ** Rotation *)

Lemma rename_lookup sys a b s content path :
  files s !! a = Some content ->
  files (rename sys a b s) !! path =
    if sys_rename sys a b then
      if decide (path = b) then Some content
      else if decide (path = a) then None else files s !! path
    else files s !! path.
Proof.
  intros Ha. unfold rename. destruct (sys_rename sys a b); [|done]. rewrite Ha. simpl.
  case_decide as Eb.
  - subst. apply lookup_insert_eq.
  - rewrite lookup_insert_ne by done. case_decide as Ea.
    + subst. apply lookup_delete_eq.
    + by apply lookup_delete_ne.
Qed.

Lemma rename_frame sys a b s :
  let s' := rename sys a b s in
  l_config s' = l_config s /\ l_initialized s' = l_initialized s /\
  streams s' = streams s /\ next_stream s' = next_stream s /\ l_file s' = l_file s.
Proof. unfold rename. destruct (sys_rename sys a b); [|done]. by destruct (files s !! a). Qed.

(** A log file just opened. *)
Lemma reopened_ok s path fs :
  log_file_path (l_config s) = path -> next_stream s <> STDOUT ->
  (forall g, is_Some (streams s !! g) -> (g < next_stream s)%nat) ->
  log_ok (set_l_file (Some (next_stream s))
    (mk_lstate (l_initialized s) (l_config s) (l_file s)
       (<[next_stream s := path]> (streams s)) (S (next_stream s)) fs
       (l_stderr s) (l_start_time s))).
Proof.
  intros Hp Hn Hfresh. split; simpl.
  - exists (next_stream s). split_and!; [done| |done]. by rewrite lookup_insert_eq, Hp.
  - intros g. destruct (decide (g = next_stream s)) as [->|Hg]; [lia|].
    rewrite lookup_insert_ne by done. intros H%Hfresh. lia.
Qed.

Lemma append_nil s : s +:+ "" = s.
Proof. induction s as [|c s IH]; [done|]. exact (f_equal (String c) IH). Qed.

(** The log after the first half of a rotation: closed, and renamed if that
    succeeds. *)
Lemma rotate_unfold sys s f content :
  l_file s = Some f -> is_Some (streams s !! f) ->
  let path := log_file_path (l_config s) in
  let backup := path +:+ "." +:+ sys_stamp sys in
  path <> "" -> files s !! path = Some content ->
  exists s2, rdma_intercept_rotate_log sys s =
      match fopen_append sys path s2 with
      | (None, s) => Some (-1, rename sys backup path s)
      | (Some f, s) =>
          (fun s => (0, s)) <$>
            rdma_intercept_log sys LOG_LEVEL_INFO ("Log rotated to " +:+ backup)
              (set_l_file (Some f) s)
      end /\
    l_config s2 = l_config s /\ l_initialized s2 = l_initialized s /\ l_file s2 = Some f /\
    streams s2 = delete f (streams s) /\ next_stream s2 = next_stream s /\
    forall p, files s2 !! p =
      if sys_rename sys path backup then
        if decide (p = backup) then Some content
        else if decide (p = path) then None else files s !! p
      else files s !! p.
Proof.
  intros Hf [x Hs] path backup Hp Hc.
  unfold rdma_intercept_rotate_log. cbv zeta. fold path.
  rewrite Hf, (proj2 (String.eqb_neq _ _) Hp). unfold fclose. rewrite Hs.
  fold backup. set (s1 := mk_lstate _ _ _ _ _ _ _ _).
  destruct (rename_frame sys path backup s1) as (Ec & Ei & Es & En & Ef).
  exists (rename sys path backup s1). rewrite Ec, Ei, Es, En, Ef.
  split_and!; [reflexivity|reflexivity|reflexivity|exact Hf|reflexivity|reflexivity|].
  intros p. by rewrite (rename_lookup sys path backup s1 content).
Qed.

(** C36. Rotating the log loses nothing.  If the log can be opened again,
    [rdma_intercept_rotate_log] returns 0 and the log is open for further
    messages.  If the renaming succeeded, the backup (the path with the time
    stamp) holds exactly what the log held and the log starts again with at
    most the message about the rotation; if it failed, which the code does not
    look at, there is no backup and the log goes on where it was, with that
    message appended.  No other file changes.  If the log cannot be opened
    again, the function returns -1 and the library is left with the closed
    stream; what the log held is in the log or, if the renaming back failed, in
    the backup (unless the first renaming failed and there was a backup with
    the same time stamp before, which may then replace the log). *)
Theorem rotate_log_keeps sys s content :
  log_ok s -> log_file_path (l_config s) <> "" ->
  files s !! log_file_path (l_config s) = Some content ->
  let path := log_file_path (l_config s) in
  let backup := path +:+ "." +:+ sys_stamp sys in
  let renamed := sys_rename sys path backup in
  if sys_fopen sys path
  then exists s', rdma_intercept_rotate_log sys s = Some (0, s') /\ log_ok s' /\
    files s' !! backup = (if renamed then Some content else files s !! backup) /\
    files s' !! path = Some ((if renamed then "" else content) +:+
      if log_enabled LOG_LEVEL_INFO s
      then log_line sys LOG_LEVEL_INFO ("Log rotated to " +:+ backup) else "") /\
    (forall p, p <> path -> p <> backup -> files s' !! p = files s !! p)
  else exists s' f, rdma_intercept_rotate_log sys s = Some (-1, s') /\
    l_file s' = Some f /\ streams s' !! f = None /\
    (renamed = true \/ files s !! backup = None ->
     files s' !! (if renamed && negb (sys_rename sys backup path) then backup else path)
       = Some content).
Proof.
  intros [(f & Hf & Hs & Hne) Hfresh] Hp Hc path backup renamed. fold path in Hp, Hc.
  assert (Hpb : path <> backup).
  { unfold backup. intros E. apply (f_equal String.length) in E.
    rewrite slength_app in E. simpl in E. lia. }
  destruct (rotate_unfold sys s f content Hf ltac:(by eexists) Hp Hc)
    as (s2 & -> & Ec & Ei & Ef & Es & En & Hfiles).
  fold path backup renamed in Hfiles |- *. unfold fopen_append.
  destruct (sys_fopen sys path).
  2: { exists (rename sys backup path s2), f. split; [done|].
       destruct (rename_frame sys backup path s2) as (_ & _ & Es2 & _ & Ef2).
       rewrite Es2, Ef2, Es, Ef, lookup_delete_eq. split; [done|]. split; [done|].
       unfold rename. intros Hold. destruct renamed; cbn [andb].
       - destruct (sys_rename sys backup path); cbn [negb].
         + rewrite Hfiles, decide_True by done. simpl. by rewrite lookup_insert_eq.
         + by rewrite Hfiles, decide_True.
       - destruct Hold as [?|Hold]; [done|]. rewrite (Hfiles backup), Hold.
         by destruct (sys_rename sys backup path); rewrite Hfiles. }
  set (s3 := set_l_file _ _).
  assert (Hs3 : log_ok s3).
  { apply reopened_ok; [by rewrite Ec|rewrite En|rewrite Es, En]; simpl.
    - intros E. specialize (Hfresh f ltac:(eauto)). unfold STDOUT in *. lia.
    - intros g [p [_ Hg]%lookup_delete_Some]. eauto. }
  rewrite log_run by done. cbn [fmap option_fmap option_map]. eexists. split; [reflexivity|].
  assert (Hf3 : forall p, files s3 !! p =
    if decide (p = path) then Some (if renamed then "" else content)
    else if decide (p = backup) then (if renamed then Some content else files s !! backup)
    else files s !! p).
  { intros p. unfold s3. simpl. destruct (decide (p = path)) as [->|Hpp].
    - rewrite lookup_insert_eq, Hfiles. destruct renamed; [|by rewrite Hc].
      by rewrite decide_False, decide_True.
    - rewrite lookup_insert_ne, Hfiles by done. destruct renamed.
      + case_decide; [done|]. by rewrite decide_False.
      + by case_decide; subst. }
  assert (Hlog : log_enabled LOG_LEVEL_INFO s3 = log_enabled LOG_LEVEL_INFO s).
  { unfold log_enabled, s3. simpl. by rewrite Ei, Ec. }
  assert (Hpath : log_file_path (l_config s3) = path) by (unfold s3; simpl; by rewrite Ec).
  rewrite Hlog. destruct (log_enabled LOG_LEVEL_INFO s).
  - split_and!; [by apply append_log_ok|..]; unfold append_log; rewrite Hpath; simpl.
    + rewrite lookup_insert_ne, Hf3 by done. by rewrite decide_False, decide_True.
    + by rewrite lookup_insert_eq, Hf3, decide_True.
    + intros p H1 H2. rewrite lookup_insert_ne, Hf3 by done. by rewrite !decide_False.
  - split_and!; [done|..].
    + rewrite Hf3. by rewrite decide_False, decide_True.
    + rewrite Hf3, decide_True by done. by destruct renamed; simpl; rewrite ?append_nil.
    + intros p H1 H2. rewrite Hf3. by rewrite !decide_False.
Qed.

(** ** Witnesses *)

Definition demo_sys (can_open : bool) : log_sys :=
  mk_lsys (fun _ => can_open) (fun _ => true) (fun _ => 0) (fun _ _ => true) "2025-01-01 10:00:00.000"
    "20250101-100000" 42.

(** The default configuration with its log file open as stream 3. *)
Definition demo_log : log_state :=
  let path := log_file_path default_config in
  mk_lstate true default_config (Some 3%nat) {[3%nat := path]} 4 {[path := "old"]} [] 0.

Lemma demo_log_ok : log_ok demo_log.
Proof.
  split.
  - exists 3%nat. by vm_compute.
  - intros f [p Hp]. unfold demo_log in Hp. simpl in Hp.
    apply lookup_singleton_Some in Hp as [<- _]. simpl. lia.
Qed.

Lemma log_filter_exact_witness :
  exists s', rdma_intercept_log (demo_sys true) LOG_LEVEL_ERROR "boom" demo_log = Some s' /\
    files s' !! log_file_path default_config =
      Some ("old" +:+ log_line (demo_sys true) LOG_LEVEL_ERROR "boom").
Proof.
  destruct (log_filter_exact (demo_sys true) LOG_LEVEL_ERROR "boom" demo_log demo_log_ok)
    as (s' & E & _ & Hf & _). exists s'. split; [exact E|]. rewrite Hf. vm_compute. reflexivity.
Defined.

Lemma failed_log_switch_dangles_witness :
  set_config_and_log (demo_sys false)
    (Some (set_log_file_path "/none/x.log" (set_log_level LOG_LEVEL_INFO default_config)))
    demo_log = None.
Proof.
  apply (failed_log_switch_dangles (demo_sys false) "/none/x.log" demo_log);
    [apply log_ok_open, demo_log_ok|vm_compute; lia|discriminate|reflexivity..|].
  vm_compute. split; discriminate.
Defined.

(** A system on which nothing can be renamed. *)
Definition stuck_sys : log_sys :=
  mk_lsys (fun _ => true) (fun _ => true) (fun _ => 0) (fun _ _ => false)
    "2025-01-01 10:00:00.000" "20250101-100000" 42.

Lemma rotate_log_keeps_witness :
  (exists s', rdma_intercept_rotate_log (demo_sys true) demo_log = Some (0, s') /\
    files s' !! (log_file_path default_config +:+ "." +:+ "20250101-100000") = Some "old") /\
  (exists s', rdma_intercept_rotate_log stuck_sys demo_log = Some (0, s') /\
    files s' !! (log_file_path default_config +:+ "." +:+ "20250101-100000") = None).
Proof.
  split.
  - destruct (rotate_log_keeps (demo_sys true) demo_log "old") as (s' & E & _ & Hb & _);
      [apply demo_log_ok|discriminate|vm_compute; reflexivity|].
    exists s'. split; [exact E|exact Hb].
  - destruct (rotate_log_keeps stuck_sys demo_log "old") as (s' & E & _ & Hb & _);
      [apply demo_log_ok|discriminate|vm_compute; reflexivity|].
    exists s'. split; [exact E|]. etransitivity; [exact Hb|]. vm_compute. reflexivity.
Defined.
