(* ===== verification/Core.v ===== *)
(** * The interception library's state and its start-up: src/src/intercept_core.c

    The state a process that preloads the library works on: the statics of
    intercept_core.c and rdma_hooks_tenant.c, its mappings of the two shared
    segments, and the segments themselves.  Functions of the library are
    actions of a state monad over it.

    What is not code of the repository is a parameter: [env] collects what the
    operating system answers during one call (process id, environment
    variables, files, clocks, the dynamic linker, /proc, the system calls that
    map the segments) and the real verbs.  The real verbs may answer anything:
    an answer is a function of the calls made so far and of the present call,
    and a call is recorded, so that theorems can say which calls were made. *)

From S2P Require Import Prelude CString Shm TenantShm Config.
From stdpp Require Import base numbers list gmap strings.
From Stdlib Require Import Ascii.
#[local] Open Scope string_scope.
#[local] Open Scope Z_scope.

(** ** The verbs interface *)

(** [enum ibv_qp_type]; the library only tells three of them apart. *)
Inductive qp_type := IBV_QPT_RC | IBV_QPT_UC | IBV_QPT_UD | IBV_QPT_OTHER (n : Z).

Record qp_cap := mk_cap {
  max_send_wr : Z;
  max_recv_wr : Z;
  max_send_sge : Z;
  max_recv_sge : Z;
  max_inline_data : Z
}.

(** [struct ibv_qp_init_attr] and [ibv_qp_init_attr_ex]: the fields the library
    reads or writes, and the protection domain of the extended one. *)
Record qp_init_attr := mk_attr { attr_type : qp_type; attr_cap : qp_cap; attr_pd : Z }.

(** A pointer to a create_qp_ex callback: NULL, a provider's function or
    [create_qp_ex_wrapper]. *)
Inductive create_qp_ex_ptr := CbNull | CbDriver (f : Z) | CbWrapper.

(** A call of a real verb.  Pointers are integers, NULL is 0. *)
Inductive verb_call :=
  | Create_qp (pd : Z) (attr : qp_init_attr)
  | Create_qp_ex (original : create_qp_ex_ptr) (context : Z) (attr : qp_init_attr)
  | Open_device (device : Z)
  | Destroy_qp (qp : Z)
  | Reg_mr (pd addr length access : Z)
  | Dereg_mr (mr : Z)
  | Create_cq (context cqe cq_context channel comp_vector : Z)
  | Destroy_cq (cq : Z)
  | Alloc_pd (context : Z)
  | Dealloc_pd (pd : Z).

(** ** What the library is given *)

Record env := mk_env {
  getpid : Z;
  getenv : string -> option string;
  readfile : string -> option string;  (* contents of a file fopen opens for reading *)
  can_append : string -> bool;         (* whether fopen (path, "a") succeeds *)
  dlopen_ok : bool;                    (* dlopen ("libibverbs.so") *)
  dlsym : string -> bool;              (* whether it has the symbol *)
  mono_first : Z * Z;                  (* CLOCK_MONOTONIC, first reading of the call *)
  mono_second : Z * Z;                 (* and the second one *)
  now_ns : Z;
  proc_stat : Z -> option string;
  sys_shm : shm_sys;
  sys_ten : shm_sys;
  ten_fstat : bool;
  (* the real verbs: result (pointer or int) and errno after the call *)
  driver : list verb_call -> verb_call -> Z * Z;
  (* verbs_get_ctx of a context just opened: None when it is not extended *)
  new_callback : Z -> option create_qp_ex_ptr;
  (* mr->length *)
  mr_length : Z -> Z
}.

(** ** State *)

(** A FILE pointer that was closed and not reset dangles. *)
Inductive file_ptr := FNull | FOpen | FClosed.

Record world := mk_world {
  w_initialized : bool;  (* g_intercept_state.initialized *)
  w_config : intercept_config;  (* g_intercept_state.config *)
  w_log_file : file_ptr;  (* g_intercept_state.log_file *)
  w_qp_count : Z;
  w_mr_count : Z;
  w_memory_used : Z;
  w_once : bool;  (* hooks_init_once has run *)
  w_real : list string;  (* the real_* pointers that are not NULL *)
  w_ebpf_initialized : bool;
  w_tenant_initialized : bool;
  w_cached_pid : Z;
  w_mandatory : Z;  (* static mandatory of check_tenant_qp_limit *)
  w_mr_op_count : Z;  (* mr_op_count_in_window *)
  w_window_start : Z * Z;  (* mr_rate_window_start, seconds and nanoseconds *)
  w_verb_ctx : list (Z * create_qp_ex_ptr);  (* the first g_verb_ctx_count entries of g_verb_ctx_table *)
  w_callbacks : gmap Z create_qp_ex_ptr;  (* vctx->create_qp_ex of each extended context *)
  w_errno : Z;
  w_calls : list verb_call;  (* calls made to the real verbs so far *)
  w_shm_h : shm_handle;  (* this process's mapping of the process table *)
  w_ten_h : shm_handle;  (* this process's mapping of the tenant table *)
  w_shm : option shared_memory_data;  (* the process table *)
  w_ten : option tenant_shared_memory  (* the tenant table *)
}.

(** Assignments to one field. *)
Definition set_w_initialized (v : bool) (w : world) : world :=
  mk_world
    v (w_config w) (w_log_file w) (w_qp_count w) (w_mr_count w) (w_memory_used
    w) (w_once w) (w_real w) (w_ebpf_initialized w) (w_tenant_initialized w)
    (w_cached_pid w) (w_mandatory w) (w_mr_op_count w) (w_window_start w)
    (w_verb_ctx w) (w_callbacks w) (w_errno w) (w_calls w) (w_shm_h w)
    (w_ten_h w) (w_shm w) (w_ten w).
Definition set_w_config (v : intercept_config) (w : world) : world :=
  mk_world
    (w_initialized w) v (w_log_file w) (w_qp_count w) (w_mr_count w)
    (w_memory_used w) (w_once w) (w_real w) (w_ebpf_initialized w)
    (w_tenant_initialized w) (w_cached_pid w) (w_mandatory w) (w_mr_op_count
    w) (w_window_start w) (w_verb_ctx w) (w_callbacks w) (w_errno w) (w_calls
    w) (w_shm_h w) (w_ten_h w) (w_shm w) (w_ten w).
Definition set_w_log_file (v : file_ptr) (w : world) : world :=
  mk_world
    (w_initialized w) (w_config w) v (w_qp_count w) (w_mr_count w)
    (w_memory_used w) (w_once w) (w_real w) (w_ebpf_initialized w)
    (w_tenant_initialized w) (w_cached_pid w) (w_mandatory w) (w_mr_op_count
    w) (w_window_start w) (w_verb_ctx w) (w_callbacks w) (w_errno w) (w_calls
    w) (w_shm_h w) (w_ten_h w) (w_shm w) (w_ten w).
Definition set_w_qp_count (v : Z) (w : world) : world :=
  mk_world
    (w_initialized w) (w_config w) (w_log_file w) v (w_mr_count w)
    (w_memory_used w) (w_once w) (w_real w) (w_ebpf_initialized w)
    (w_tenant_initialized w) (w_cached_pid w) (w_mandatory w) (w_mr_op_count
    w) (w_window_start w) (w_verb_ctx w) (w_callbacks w) (w_errno w) (w_calls
    w) (w_shm_h w) (w_ten_h w) (w_shm w) (w_ten w).
Definition set_w_mr_count (v : Z) (w : world) : world :=
  mk_world
    (w_initialized w) (w_config w) (w_log_file w) (w_qp_count w) v
    (w_memory_used w) (w_once w) (w_real w) (w_ebpf_initialized w)
    (w_tenant_initialized w) (w_cached_pid w) (w_mandatory w) (w_mr_op_count
    w) (w_window_start w) (w_verb_ctx w) (w_callbacks w) (w_errno w) (w_calls
    w) (w_shm_h w) (w_ten_h w) (w_shm w) (w_ten w).
Definition set_w_memory_used (v : Z) (w : world) : world :=
  mk_world
    (w_initialized w) (w_config w) (w_log_file w) (w_qp_count w) (w_mr_count
    w) v (w_once w) (w_real w) (w_ebpf_initialized w) (w_tenant_initialized w)
    (w_cached_pid w) (w_mandatory w) (w_mr_op_count w) (w_window_start w)
    (w_verb_ctx w) (w_callbacks w) (w_errno w) (w_calls w) (w_shm_h w)
    (w_ten_h w) (w_shm w) (w_ten w).
Definition set_w_once (v : bool) (w : world) : world :=
  mk_world
    (w_initialized w) (w_config w) (w_log_file w) (w_qp_count w) (w_mr_count
    w) (w_memory_used w) v (w_real w) (w_ebpf_initialized w)
    (w_tenant_initialized w) (w_cached_pid w) (w_mandatory w) (w_mr_op_count
    w) (w_window_start w) (w_verb_ctx w) (w_callbacks w) (w_errno w) (w_calls
    w) (w_shm_h w) (w_ten_h w) (w_shm w) (w_ten w).
Definition set_w_real (v : list string) (w : world) : world :=
  mk_world
    (w_initialized w) (w_config w) (w_log_file w) (w_qp_count w) (w_mr_count
    w) (w_memory_used w) (w_once w) v (w_ebpf_initialized w)
    (w_tenant_initialized w) (w_cached_pid w) (w_mandatory w) (w_mr_op_count
    w) (w_window_start w) (w_verb_ctx w) (w_callbacks w) (w_errno w) (w_calls
    w) (w_shm_h w) (w_ten_h w) (w_shm w) (w_ten w).
Definition set_w_ebpf_initialized (v : bool) (w : world) : world :=
  mk_world
    (w_initialized w) (w_config w) (w_log_file w) (w_qp_count w) (w_mr_count
    w) (w_memory_used w) (w_once w) (w_real w) v (w_tenant_initialized w)
    (w_cached_pid w) (w_mandatory w) (w_mr_op_count w) (w_window_start w)
    (w_verb_ctx w) (w_callbacks w) (w_errno w) (w_calls w) (w_shm_h w)
    (w_ten_h w) (w_shm w) (w_ten w).
Definition set_w_tenant_initialized (v : bool) (w : world) : world :=
  mk_world
    (w_initialized w) (w_config w) (w_log_file w) (w_qp_count w) (w_mr_count
    w) (w_memory_used w) (w_once w) (w_real w) (w_ebpf_initialized w) v
    (w_cached_pid w) (w_mandatory w) (w_mr_op_count w) (w_window_start w)
    (w_verb_ctx w) (w_callbacks w) (w_errno w) (w_calls w) (w_shm_h w)
    (w_ten_h w) (w_shm w) (w_ten w).
Definition set_w_cached_pid (v : Z) (w : world) : world :=
  mk_world
    (w_initialized w) (w_config w) (w_log_file w) (w_qp_count w) (w_mr_count
    w) (w_memory_used w) (w_once w) (w_real w) (w_ebpf_initialized w)
    (w_tenant_initialized w) v (w_mandatory w) (w_mr_op_count w)
    (w_window_start w) (w_verb_ctx w) (w_callbacks w) (w_errno w) (w_calls w)
    (w_shm_h w) (w_ten_h w) (w_shm w) (w_ten w).
Definition set_w_mandatory (v : Z) (w : world) : world :=
  mk_world
    (w_initialized w) (w_config w) (w_log_file w) (w_qp_count w) (w_mr_count
    w) (w_memory_used w) (w_once w) (w_real w) (w_ebpf_initialized w)
    (w_tenant_initialized w) (w_cached_pid w) v (w_mr_op_count w)
    (w_window_start w) (w_verb_ctx w) (w_callbacks w) (w_errno w) (w_calls w)
    (w_shm_h w) (w_ten_h w) (w_shm w) (w_ten w).
Definition set_w_mr_op_count (v : Z) (w : world) : world :=
  mk_world
    (w_initialized w) (w_config w) (w_log_file w) (w_qp_count w) (w_mr_count
    w) (w_memory_used w) (w_once w) (w_real w) (w_ebpf_initialized w)
    (w_tenant_initialized w) (w_cached_pid w) (w_mandatory w) v
    (w_window_start w) (w_verb_ctx w) (w_callbacks w) (w_errno w) (w_calls w)
    (w_shm_h w) (w_ten_h w) (w_shm w) (w_ten w).
Definition set_w_window_start (v : Z * Z) (w : world) : world :=
  mk_world
    (w_initialized w) (w_config w) (w_log_file w) (w_qp_count w) (w_mr_count
    w) (w_memory_used w) (w_once w) (w_real w) (w_ebpf_initialized w)
    (w_tenant_initialized w) (w_cached_pid w) (w_mandatory w) (w_mr_op_count
    w) v (w_verb_ctx w) (w_callbacks w) (w_errno w) (w_calls w) (w_shm_h w)
    (w_ten_h w) (w_shm w) (w_ten w).
Definition set_w_verb_ctx (v : list (Z * create_qp_ex_ptr)) (w : world) : world :=
  mk_world
    (w_initialized w) (w_config w) (w_log_file w) (w_qp_count w) (w_mr_count
    w) (w_memory_used w) (w_once w) (w_real w) (w_ebpf_initialized w)
    (w_tenant_initialized w) (w_cached_pid w) (w_mandatory w) (w_mr_op_count
    w) (w_window_start w) v (w_callbacks w) (w_errno w) (w_calls w) (w_shm_h
    w) (w_ten_h w) (w_shm w) (w_ten w).
Definition set_w_callbacks (v : gmap Z create_qp_ex_ptr) (w : world) : world :=
  mk_world
    (w_initialized w) (w_config w) (w_log_file w) (w_qp_count w) (w_mr_count
    w) (w_memory_used w) (w_once w) (w_real w) (w_ebpf_initialized w)
    (w_tenant_initialized w) (w_cached_pid w) (w_mandatory w) (w_mr_op_count
    w) (w_window_start w) (w_verb_ctx w) v (w_errno w) (w_calls w) (w_shm_h w)
    (w_ten_h w) (w_shm w) (w_ten w).
Definition set_w_errno (v : Z) (w : world) : world :=
  mk_world
    (w_initialized w) (w_config w) (w_log_file w) (w_qp_count w) (w_mr_count
    w) (w_memory_used w) (w_once w) (w_real w) (w_ebpf_initialized w)
    (w_tenant_initialized w) (w_cached_pid w) (w_mandatory w) (w_mr_op_count
    w) (w_window_start w) (w_verb_ctx w) (w_callbacks w) v (w_calls w)
    (w_shm_h w) (w_ten_h w) (w_shm w) (w_ten w).
Definition set_w_calls (v : list verb_call) (w : world) : world :=
  mk_world
    (w_initialized w) (w_config w) (w_log_file w) (w_qp_count w) (w_mr_count
    w) (w_memory_used w) (w_once w) (w_real w) (w_ebpf_initialized w)
    (w_tenant_initialized w) (w_cached_pid w) (w_mandatory w) (w_mr_op_count
    w) (w_window_start w) (w_verb_ctx w) (w_callbacks w) (w_errno w) v
    (w_shm_h w) (w_ten_h w) (w_shm w) (w_ten w).
Definition set_w_shm_h (v : shm_handle) (w : world) : world :=
  mk_world
    (w_initialized w) (w_config w) (w_log_file w) (w_qp_count w) (w_mr_count
    w) (w_memory_used w) (w_once w) (w_real w) (w_ebpf_initialized w)
    (w_tenant_initialized w) (w_cached_pid w) (w_mandatory w) (w_mr_op_count
    w) (w_window_start w) (w_verb_ctx w) (w_callbacks w) (w_errno w) (w_calls
    w) v (w_ten_h w) (w_shm w) (w_ten w).
Definition set_w_ten_h (v : shm_handle) (w : world) : world :=
  mk_world
    (w_initialized w) (w_config w) (w_log_file w) (w_qp_count w) (w_mr_count
    w) (w_memory_used w) (w_once w) (w_real w) (w_ebpf_initialized w)
    (w_tenant_initialized w) (w_cached_pid w) (w_mandatory w) (w_mr_op_count
    w) (w_window_start w) (w_verb_ctx w) (w_callbacks w) (w_errno w) (w_calls
    w) (w_shm_h w) v (w_shm w) (w_ten w).
Definition set_w_shm (v : option shared_memory_data) (w : world) : world :=
  mk_world
    (w_initialized w) (w_config w) (w_log_file w) (w_qp_count w) (w_mr_count
    w) (w_memory_used w) (w_once w) (w_real w) (w_ebpf_initialized w)
    (w_tenant_initialized w) (w_cached_pid w) (w_mandatory w) (w_mr_op_count
    w) (w_window_start w) (w_verb_ctx w) (w_callbacks w) (w_errno w) (w_calls
    w) (w_shm_h w) (w_ten_h w) v (w_ten w).
Definition set_w_ten (v : option tenant_shared_memory) (w : world) : world :=
  mk_world
    (w_initialized w) (w_config w) (w_log_file w) (w_qp_count w) (w_mr_count
    w) (w_memory_used w) (w_once w) (w_real w) (w_ebpf_initialized w)
    (w_tenant_initialized w) (w_cached_pid w) (w_mandatory w) (w_mr_op_count
    w) (w_window_start w) (w_verb_ctx w) (w_callbacks w) (w_errno w) (w_calls
    w) (w_shm_h w) (w_ten_h w) (w_shm w) v.

(** The state of a process that has just loaded the library: the statics'
    initialisers. *)
Definition initial_world (callbacks : gmap Z create_qp_ex_ptr)
    (shm : option shared_memory_data) (ten : option tenant_shared_memory) : world :=
  mk_world false default_config FNull 0 0 0 false [] false false 0 (-1) 0 (0, 0) []
    callbacks 0 [] (mk_handle (-1) false) (mk_handle (-1) false) shm ten.

(** errno values. *)
Definition EPERM : Z := 1.
Definition EIO : Z := 5.
Definition EAGAIN : Z := 11.
Definition ENOSYS : Z := 38.

(** ** The state monad *)

Definition M (A : Type) : Type := world -> A * world.

Definition ret {A} (a : A) : M A := fun w => (a, w).
Definition bind {A B} (m : M A) (k : A -> M B) : M B :=
  fun w => let '(a, w) := m w in k a w.
Definition get {A} (f : world -> A) : M A := fun w => (f w, w).
Definition modify (f : world -> world) : M unit := fun w => (tt, f w).

Declare Scope hook_scope.
Delimit Scope hook_scope with hook.
Notation "'let!' x := m 'in' k" := (bind m (fun x => k))
  (at level 200, x name, m at level 100, k at level 200, right associativity) : hook_scope.
Notation "m ;; k" := (bind m (fun _ => k))
  (at level 100, k at level 200, right associativity) : hook_scope.
#[global] Open Scope hook_scope.

(** [errno = e; return r;] *)
Definition fail_with (err r : Z) : M Z := modify (set_w_errno err);; ret r.

Section core.
Context (e : env).

(** ** Calls into the shared segments *)

(** A function of shared_memory.c; it works on the mapped segment or sees a
    NULL pointer. *)
Definition shm_call {A} (f : bool -> shared_memory_data -> A * shared_memory_data)
    : M A := fun w =>
  let ptr := shm_data_ptr (w_shm_h w) in
  let '(a, d) := f ptr (default zero_shm (w_shm w)) in
  (a, if ptr then set_w_shm (Some d) w else w).

(** A function of shared_memory_tenant.c: unless its arguments are refused
    first, it obtains the pointer with [tenant_shm_get_ptr], which maps the
    segment on first use. *)
Definition tenant_call {A} (args_ok : bool)
    (f : bool -> tenant_shared_memory -> A * tenant_shared_memory) : M A := fun w =>
  if args_ok then
    let '(ptr, h, obj) := tenant_shm_get_ptr (sys_ten e) (ten_fstat e) (now_ns e)
                            (w_ten_h w) (w_ten w) in
    let '(a, s) := f ptr (default zero_tshm obj) in
    (a, set_w_ten (if ptr then Some s else obj) (set_w_ten_h h w))
  else ((f false zero_tshm).1, w).

Definition call_shm_init : M Z := fun w =>
  let '(rc, h, obj) := shm_init (sys_shm e) (now_ns e) (w_shm_h w) (w_shm w) in
  (rc, set_w_shm obj (set_w_shm_h h w)).

Definition call_tenant_shm_init : M Z := fun w =>
  let '(rc, h, obj) := tenant_shm_init (sys_ten e) (ten_fstat e) (now_ns e)
                         (w_ten_h w) (w_ten w) in
  (rc, set_w_ten obj (set_w_ten_h h w)).

(** ** intercept_core.c *)

(** Load the configuration, open the log, look the original verbs up; a
    failure leaves the library disabled.  The pointers this file keeps are
    only printed; those the hooks call are looked up again by
    [init_function_pointers]. *)
Definition rdma_intercept_init : M Z :=
  let! initialized := get w_initialized in
  if initialized then ret 0
  else
    modify (set_w_errno 0);;
    modify (fun w => set_w_config
      (rdma_intercept_load_config (getenv e) (readfile e) None (w_config w)).2 w);;
    let! config := get w_config in
    if negb (can_append e (log_file_path config)) then
      modify (set_w_log_file FNull);; fail_with EIO (-1)
    else
      modify (set_w_log_file FOpen);;
      if negb (dlopen_ok e) then
        modify (set_w_log_file FClosed);; fail_with ENOSYS (-1)
      else if negb (dlsym e "ibv_create_qp") then
        modify (set_w_log_file FClosed);; fail_with ENOSYS (-1)
      else if negb (dlsym e "ibv_reg_mr") then
        modify (set_w_log_file FClosed);; fail_with ENOSYS (-1)
      else if negb (dlsym e "ibv_dereg_mr") then
        modify (set_w_log_file FClosed);; fail_with ENOSYS (-1)
      else
        modify (set_w_initialized true);; ret 0.

Definition env_is_1 (name : string) : bool :=
  match getenv e name with
  | Some v => String.eqb v "1"
  | None => false
  end.

Definition init_if_needed : M unit :=
  if env_is_1 "RDMA_INTERCEPT_ENABLE" || env_is_1 "RDMA_INTERCEPT_ENABLE_QP_CONTROL"
  then rdma_intercept_init;; ret tt
  else ret tt.

Definition rdma_intercept_cleanup : M unit :=
  let! initialized := get w_initialized in
  if negb initialized then ret tt
  else
    let! log_file := get w_log_file in
    match log_file with
    | FNull => ret tt
    | _ => modify (set_w_log_file FNull)
    end;;
    modify (set_w_initialized false).

Definition rdma_intercept_is_enabled : M bool :=
  get (fun w => w_initialized w && enable_intercept (w_config w)).

(** ** ebpf_monitor_shm.c: the library's access to the process table *)

Definition ebpf_monitor_init : M Z :=
  let! rc := call_shm_init in
  if negb (rc =? 0) then ret (-1) else ret 0.

Definition get_process_resources_via_shared_memory (pid : Z) : M (Z * resource_usage) :=
  let! r := shm_call (fun ptr d => (shm_get_process_resources ptr d pid, d)) in
  ret (if r.1 =? 0 then r else (r.1, zero_usage)).

Definition get_global_resources_via_shared_memory : M (Z * resource_usage) :=
  let! r := shm_call (fun ptr d => (shm_get_global_resources ptr d, d)) in
  ret (if r.1 =? 0 then r else (r.1, zero_usage)).

Definition ebpf_get_process_resources (pid : Z) := get_process_resources_via_shared_memory pid.
Definition ebpf_get_global_resources := get_global_resources_via_shared_memory.

Definition ebpf_update_process_resources (pid : Z) (usage : option resource_usage) : M Z :=
  match usage with
  | None => ret (-1)
  | Some _ =>
      shm_call (fun ptr d =>
        shm_update_process_resources (proc_stat e) ptr (now_ns e) d pid usage)
  end.

Definition ebpf_update_global_resources (usage : option resource_usage) : M Z :=
  match usage with
  | None => ret (-1)
  | Some _ => shm_call (fun ptr d => shm_update_global_resources ptr (now_ns e) d usage)
  end.

(** ** The real verbs *)

Definition driver_call (c : verb_call) : M Z := fun w =>
  let '(r, err) := driver e (w_calls w) c in
  (r, set_w_errno err (set_w_calls (w_calls w ++ [c]) w)).
End core.

(** * Reasoning about actions *)

#[global] Arguments tenant_call : simpl never.
#[global] Arguments shm_call : simpl never.
#[global] Arguments driver_call : simpl never.

(** One step of symbolic execution. *)
Lemma bind_run {A B} (m : M A) (k : A -> M B) w a w' :
  m w = (a, w') -> bind m k w = k a w'.
Proof. unfold bind. by intros ->. Qed.

(** [triple P m Q]: run from a state satisfying P, the action yields a result
    and a state related by Q. *)
Definition triple {A} (P : world -> Prop) (m : M A) (Q : A -> world -> Prop) : Prop :=
  forall w, P w -> let '(a, w') := m w in Q a w'.

Definition keeps {A} (P : world -> Prop) (m : M A) : Prop := triple P m (fun _ => P).

Section triples.
Context {A B : Type} (P : world -> Prop).

Lemma triple_bind (m : M A) (k : A -> M B) Q R :
  triple P m Q -> (forall a, triple (Q a) (k a) R) -> triple P (bind m k) R.
Proof.
  intros Hm Hk w Hw. specialize (Hm w Hw). unfold bind. destruct (m w) as [a w'].
  by apply Hk.
Qed.

Lemma triple_ret (a : A) (Q : A -> world -> Prop) :
  (forall w, P w -> Q a w) -> triple P (ret a) Q.
Proof. intros H w. apply H. Qed.

Lemma triple_weaken (m : M A) (Q R : A -> world -> Prop) :
  triple P m Q -> (forall a w, Q a w -> R a w) -> triple P m R.
Proof.
  intros Hm HQ w Hw. specialize (Hm w Hw). destruct (m w). by apply HQ.
Qed.

Lemma triple_seq (m : M A) (k : A -> M B) R :
  keeps P m -> (forall a, triple P (k a) R) -> triple P (bind m k) R.
Proof. apply triple_bind. Qed.

Lemma keeps_bind (m : M A) (k : A -> M B) :
  keeps P m -> (forall a, keeps P (k a)) -> keeps P (bind m k).
Proof. apply triple_bind. Qed.

Lemma keeps_ret (a : A) : keeps P (ret a).
Proof. by intros w. Qed.

Lemma keeps_get (f : world -> A) : keeps P (get f).
Proof. by intros w. Qed.

Lemma keeps_modify f : (forall w, P w -> P (f w)) -> keeps P (modify f).
Proof. intros H w. apply H. Qed.

Lemma keeps_if (b : bool) (m n : M A) : keeps P m -> keeps P n -> keeps P (if b then m else n).
Proof. by destruct b. Qed.
End triples.

#[export] Hint Resolve keeps_ret keeps_get keeps_if : mtrdma.

(** ** The invariant of a process's view of the system *)

(** [cn]: nobody has overwritten the global counters of the process table;
    [ic]: nobody has set an existing tenant INACTIVE. *)
Record world_inv (cn ic : bool) (w : world) : Prop := {
  wok_shm : forall d, w_shm w = Some d -> shm_inv cn d;
  wok_ten : forall s, w_ten w = Some s -> tenant_inv ic s;
  (** what is mapped exists *)
  wok_shm_ptr : shm_data_ptr (w_shm_h w) = true -> is_Some (w_shm w);
  wok_ten_ptr : shm_data_ptr (w_ten_h w) = true -> is_Some (w_ten w);
  (** the counters are in the range of their types *)
  wok_qp : 0 <= w_qp_count w < 2 ^ 32;
  wok_mr : 0 <= w_mr_count w < 2 ^ 32;
  wok_mem : 0 <= w_memory_used w < 2 ^ 64;
  (** the table of callbacks is not overrun *)
  wok_ctx : (length (w_verb_ctx w) <= 16)%nat
}.
Arguments wok_shm {cn ic}.
Arguments wok_ten {cn ic}.

Lemma zero_tshm_ok {ic} : tenant_inv ic zero_tshm.
Proof. by destruct (fresh_tshm_ok (ic:=ic) 0). Qed.

Lemma shm_init_ok {cn} sys now h obj rc h' obj' :
  (forall d, obj = Some d -> shm_inv cn d) ->
  shm_init sys now h obj = (rc, h', obj') ->
  (forall d, obj' = Some d -> shm_inv cn d) /\
  ((shm_data_ptr h = true -> is_Some obj) -> shm_data_ptr h' = true -> is_Some obj').
Proof.
  intros Hd. unfold shm_init.
  assert (Hok : shm_inv cn (default zero_shm obj)).
  { destruct obj; [by apply Hd|apply zero_shm_ok]. }
  assert (Hr : shm_inv cn (shm_reset now (default zero_shm obj))).
  { apply zero_shm_lengths; apply Hok. }
  intros H. repeat case_match; simplify_eq; simpl; naive_solver.
Qed.

Lemma tenant_shm_init_ok {ic} sys st now h obj rc h' obj' :
  (forall s, obj = Some s -> tenant_inv ic s) ->
  tenant_shm_init sys st now h obj = (rc, h', obj') ->
  (forall s, obj' = Some s -> tenant_inv ic s) /\
  ((shm_data_ptr h = true -> is_Some obj) -> shm_data_ptr h' = true -> is_Some obj').
Proof.
  intros Hs. unfold tenant_shm_init.
  assert (Hok : tenant_inv ic (default zero_tshm obj)).
  { destruct obj; [by apply Hs|apply zero_tshm_ok]. }
  pose proof (fresh_tshm_ok (ic:=ic) now).
  intros H'. repeat case_match; simplify_eq; simpl; naive_solver.
Qed.

Lemma tenant_get_ptr_ok {ic} sys st now h obj ptr h' obj' :
  (forall s, obj = Some s -> tenant_inv ic s) ->
  (shm_data_ptr h = true -> is_Some obj) ->
  tenant_shm_get_ptr sys st now h obj = (ptr, h', obj') ->
  ptr = shm_data_ptr h' /\
  (forall s, obj' = Some s -> tenant_inv ic s) /\ (shm_data_ptr h' = true -> is_Some obj').
Proof.
  intros Hs Hp. unfold tenant_shm_get_ptr. destruct (shm_data_ptr h) eqn:E.
  - intros; simplify_eq. naive_solver.
  - destruct (tenant_shm_init _ _ _ _ _) as [[rc h1] o1] eqn:Ei. intros; simplify_eq.
    apply (tenant_shm_init_ok (ic:=ic)) in Ei as [H1 H2]; [|done].
    split; [done|]. split; [done|]. apply H2. by rewrite E.
Qed.

Section keeps_ok.
Context {cn ic : bool} (e : env).

Lemma keeps_shm_call {A} (f : bool -> shared_memory_data -> A * shared_memory_data) :
  (forall ptr d, shm_inv cn d -> shm_inv cn (f ptr d).2) -> keeps (world_inv cn ic) (shm_call f).
Proof.
  intros Hf w Hw. unfold shm_call. specialize (Hf (shm_data_ptr (w_shm_h w))).
  assert (Hok : shm_inv cn (default zero_shm (w_shm w))).
  { destruct (w_shm w) eqn:E; [by apply (wok_shm w Hw)|apply zero_shm_ok]. }
  specialize (Hf _ Hok). destruct (f _ _) as [a d].
  destruct (shm_data_ptr _) eqn:E; [|done]. destruct Hw. split; try done; simpl; naive_solver.
Qed.

Lemma keeps_tenant_call {A} ok (f : bool -> tenant_shared_memory -> A * tenant_shared_memory) :
  (forall ptr s, tenant_inv ic s -> tenant_inv ic (f ptr s).2) -> keeps (world_inv cn ic) (tenant_call e ok f).
Proof.
  intros Hf w Hw. unfold tenant_call. destruct ok; [|done].
  destruct (tenant_shm_get_ptr _ _ _ _ _) as [[ptr h] obj] eqn:E.
  apply (tenant_get_ptr_ok (ic:=ic)) in E as (-> & Hs & Hp); [|apply Hw..].
  assert (Hok : tenant_inv ic (default zero_tshm obj)).
  { destruct obj eqn:Eo; [by apply Hs|apply zero_tshm_ok]. }
  specialize (Hf (shm_data_ptr h) _ Hok). destruct (f _ _) as [a s].
  destruct Hw. split; try done; simpl; destruct (shm_data_ptr h); naive_solver.
Qed.

Lemma keeps_shm_init : keeps (world_inv cn ic) (call_shm_init e).
Proof.
  intros w Hw. unfold call_shm_init. destruct (shm_init _ _ _ _) as [[rc h] obj] eqn:E.
  apply (shm_init_ok (cn:=cn)) in E as [H1 H2]; [|apply Hw].
  specialize (H2 (wok_shm_ptr _ _ _ Hw)). destruct Hw. by split.
Qed.

Lemma keeps_tenant_shm_init : keeps (world_inv cn ic) (call_tenant_shm_init e).
Proof.
  intros w Hw. unfold call_tenant_shm_init.
  destruct (tenant_shm_init _ _ _ _ _) as [[rc h] obj] eqn:E.
  apply (tenant_shm_init_ok (ic:=ic)) in E as [H1 H2]; [|apply Hw].
  specialize (H2 (wok_ten_ptr _ _ _ Hw)). destruct Hw. by split.
Qed.

Lemma keeps_driver_call c : keeps (world_inv cn ic) (driver_call e c).
Proof.
  intros w Hw. unfold driver_call. destruct (driver _ _ _). destruct Hw. by split.
Qed.
End keeps_ok.

(** A field that the invariant does not constrain, or constrains alone. *)
Ltac world_field := apply keeps_modify; intros w []; repeat case_match; by split.

(** Walk through an action of the monad. *)
Ltac keeps_step :=
  lazymatch goal with
  | |- keeps _ (bind _ _) => apply keeps_bind; [|intros ?]
  | |- keeps _ (ret _) => apply keeps_ret
  | |- keeps _ (get _) => apply keeps_get
  | |- keeps _ (modify _) => world_field
  | |- keeps _ (driver_call _ _) => apply keeps_driver_call
  | |- keeps _ (call_shm_init _) => apply keeps_shm_init
  | |- keeps _ (call_tenant_shm_init _) => apply keeps_tenant_shm_init
  | |- keeps _ (tenant_call _ _ _) => apply keeps_tenant_call; intros; eauto with mtrdma
  | |- keeps _ (shm_call _) => apply keeps_shm_call; intros; eauto with mtrdma
  | |- keeps _ (fail_with _ _) => unfold fail_with
  | |- keeps _ (if ?b then _ else _) => destruct b
  | |- keeps _ (match ?x with _ => _ end) => destruct x
  end.
Ltac keeps_auto := repeat keeps_step.

Lemma keeps_init_if_needed {cn ic} e : keeps (world_inv cn ic) (init_if_needed e).
Proof. unfold init_if_needed, rdma_intercept_init. keeps_auto. Qed.

Lemma keeps_cleanup {cn ic} : keeps (world_inv cn ic) rdma_intercept_cleanup.
Proof. unfold rdma_intercept_cleanup. keeps_auto. Qed.

Lemma keeps_monitor_init {cn ic} e : keeps (world_inv cn ic) (ebpf_monitor_init e).
Proof. unfold ebpf_monitor_init. keeps_auto. Qed.

Lemma keeps_read_process {cn ic} pid : keeps (world_inv cn ic) (get_process_resources_via_shared_memory pid).
Proof. unfold get_process_resources_via_shared_memory. by keeps_auto. Qed.

Lemma keeps_read_global {cn ic} : keeps (world_inv cn ic) get_global_resources_via_shared_memory.
Proof. unfold get_global_resources_via_shared_memory. by keeps_auto. Qed.

#[export] Hint Resolve keeps_init_if_needed keeps_monitor_init keeps_read_process
  keeps_read_global keeps_driver_call keeps_tenant_shm_init shm_update_ok : mtrdma.
