(* ===== verification/Hooks.v ===== *)
(** * The intercepted verbs: src/src/rdma_hooks_tenant.c

    Every function of the file is an action on the state of Core.v: tenant
    resolution, the admission checks, the accounting after the real verb and
    the roll-back when it fails.  The process-local mutexes protect single
    counters and are not modelled; a hook runs as one action. *)

From S2P Require Import Prelude CString Shm TenantShm Config Core.
From stdpp Require Import base numbers list gmap strings.
From Stdlib Require Import Ascii.
#[local] Open Scope string_scope.
#[local] Open Scope Z_scope.
#[local] Open Scope hook_scope.

Definition MAX_VERBS_CONTEXTS : nat := 16.

(** The symbols [init_function_pointers] looks up. *)
Definition hooked_symbols : list string :=
  ["ibv_create_qp"; "ibv_destroy_qp"; "ibv_create_cq"; "ibv_destroy_cq";
   "ibv_alloc_pd"; "ibv_dealloc_pd"; "ibv_dereg_mr"; "ibv_reg_mr"; "ibv_open_device"].

(** ** Pure parts *)

(** Milliseconds of a clock reading, in [uint64_t]. *)
Definition get_time_ms (ts : Z * Z) : Z := u64 (u64 (ts.1 * 1000) + ts.2 / 1000000).

(** The switch on the QP type. *)
Definition qp_type_allowed (c : intercept_config) (t : qp_type) : bool :=
  match t with
  | IBV_QPT_RC => allow_rc_qp c
  | IBV_QPT_UC => allow_uc_qp c
  | IBV_QPT_UD => allow_ud_qp c
  | IBV_QPT_OTHER _ => true
  end.

Definition set_recv_wr (v : Z) (a : qp_init_attr) : qp_init_attr :=
  let c := attr_cap a in
  mk_attr (attr_type a)
    (mk_cap (max_send_wr c) v (max_send_sge c) (max_recv_sge c) (max_inline_data c))
    (attr_pd a).
Definition set_send_wr (v : Z) (a : qp_init_attr) : qp_init_attr :=
  let c := attr_cap a in
  mk_attr (attr_type a)
    (mk_cap v (max_recv_wr c) (max_send_sge c) (max_recv_sge c) (max_inline_data c))
    (attr_pd a).

(** The clipping of the work-request depths, in place. *)
Definition clip_wr (c : intercept_config) (a : qp_init_attr) : qp_init_attr :=
  if negb (enable_qp_control c) then a
  else
    let a := if (0 <? max_recv_wr_limit c)
                && (max_recv_wr_limit c <? max_recv_wr (attr_cap a))
             then set_recv_wr (max_recv_wr_limit c) a else a in
    if (0 <? max_send_wr_limit c)
       && (max_send_wr_limit c <? max_send_wr (attr_cap a))
    then set_send_wr (max_send_wr_limit c) a else a.

(** The switch of [update_tenant_resource_count]. *)
Definition adjust_usage (resource_type delta : Z) (u : tenant_resource_usage)
    : tenant_resource_usage :=
  if resource_type =? 0 then
    let q := i32 (t_qp_count u + delta) in
    mk_tusage (if q <? 0 then 0 else q) (t_mr_count u) (t_cq_count u) (t_pd_count u)
      (t_memory_used u)
      (if 0 <? delta then u64 (total_qp_creates u + 1) else total_qp_creates u)
      (if 0 <? delta then total_qp_destroys u
       else if delta <? 0 then u64 (total_qp_destroys u + 1) else total_qp_destroys u)
      (total_mr_regs u) (total_mr_deregs u)
  else if resource_type =? 1 then
    mk_tusage (t_qp_count u) (i32 (t_mr_count u + delta)) (t_cq_count u) (t_pd_count u)
      (t_memory_used u) (total_qp_creates u) (total_qp_destroys u)
      (if 0 <? delta then u64 (total_mr_regs u + 1) else total_mr_regs u)
      (if 0 <? delta then total_mr_deregs u
       else if delta <? 0 then u64 (total_mr_deregs u + 1) else total_mr_deregs u)
  else if resource_type =? 3 then
    mk_tusage (t_qp_count u) (t_mr_count u) (i32 (t_cq_count u + delta)) (t_pd_count u)
      (t_memory_used u) (total_qp_creates u) (total_qp_destroys u)
      (total_mr_regs u) (total_mr_deregs u)
  else if resource_type =? 4 then
    mk_tusage (t_qp_count u) (t_mr_count u) (t_cq_count u) (i32 (t_pd_count u + delta))
      (t_memory_used u) (total_qp_creates u) (total_qp_destroys u)
      (total_mr_regs u) (total_mr_deregs u)
  else u.

(** The roll-back of a reserved QP. *)
Definition rollback_usage (u : tenant_resource_usage) : tenant_resource_usage :=
  mk_tusage (if 0 <? t_qp_count u then i32 (t_qp_count u - 1) else t_qp_count u)
    (t_mr_count u) (t_cq_count u) (t_pd_count u) (t_memory_used u)
    (if 0 <? total_qp_creates u then u64 (total_qp_creates u - 1) else total_qp_creates u)
    (total_qp_destroys u) (total_mr_regs u) (total_mr_deregs u).

(** ** Rate limiting *)

(** The window's state: operations counted and start of the window. *)
Definition rate_window (c : intercept_config) : Z :=
  if 0 <? mr_rate_limit_window_ms c then mr_rate_limit_window_ms c else 1000.

Definition rate_max_ops (c : intercept_config) : Z :=
  let m := u64 (max_mr_ops_per_sec c * rate_window c) / 1000 in
  if m <? 1 then 1 else m.

(** One check: [first] is the reading the test uses, [second] the one stored
    when the window restarts. *)
Definition rate_step (c : intercept_config) (first second : Z * Z)
    (count : Z) (start : Z * Z) : bool * Z * (Z * Z) :=
  let '(count, start) :=
    if (start.1 =? 0) && (start.2 =? 0) then (0, second)
    else if rate_window c <=? u64 (get_time_ms first - get_time_ms start)
    then (0, second)
    else (count, start) in
  if count <? rate_max_ops c then (true, u64 (count + 1), start)
  else (false, count, start).

Section hooks.
Context (e : env).

Definition check_mr_rate_limit : M bool :=
  let! c := get w_config in
  if negb (enable_mr_rate_limit c) || (max_mr_ops_per_sec c =? 0) then ret true
  else fun w =>
    let '(allowed, count, start) :=
      rate_step c (mono_first e) (mono_second e) (w_mr_op_count w) (w_window_start w) in
    (allowed, set_w_mr_op_count count (set_w_window_start start w)).

(** ** Tenant resolution *)

Definition call_bind_process (tid : Z) : M Z :=
  tenant_call e (tid_ok tid) (fun ptr s =>
    tenant_bind_process ptr (now_ns e) s (getpid e) tid).

(** The loop over the lines of /proc/self/cgroup: the first line that names a
    tenant the process can be bound to decides. *)
Fixpoint scan_cgroup (lines : list string) : M unit :=
  match lines with
  | [] => ret tt
  | line :: lines =>
      match strstr line "rdma:/tenant" with
      | None => scan_cgroup lines
      | Some seg =>
          let t := u32 (strtoull (str_drop (String.length "rdma:/tenant") seg)) in
          if t =? 0 then scan_cgroup lines
          else
            let! rc := call_tenant_shm_init e in
            if negb (rc =? 0) then scan_cgroup lines
            else
              let! rc := call_bind_process t in
              if rc =? 0 then modify (set_w_tenant_initialized true)
              else scan_cgroup lines
      end
  end.

(** RDMA_TENANT_ID, converted with [atoi]. *)
Definition bind_from_env : M unit :=
  match getenv e "RDMA_TENANT_ID" with
  | None => ret tt
  | Some v =>
      let tid := u32 (atoi v) in
      if 0 <? tid then call_bind_process tid;; ret tt else ret tt
  end.

Definition get_current_tenant_id : M Z :=
  match readfile e "/proc/self/cgroup" with
  | Some content => scan_cgroup (file_chunks 512 content)
  | None => ret tt
  end;;
  let! initialized := get w_tenant_initialized in
  if negb initialized then ret 0
  else
    let! cached := get w_cached_pid in
    (if negb (getpid e =? cached) then
       bind_from_env;; modify (set_w_cached_pid (getpid e))
     else ret tt);;
    let! r := tenant_call e true (fun ptr s =>
      tenant_get_process_tenant ptr (now_ns e) s (getpid e)) in
    ret (if r.1 =? 0 then r.2 else 0).

(** ** Start-up *)

Definition init_function_pointers : M unit :=
  init_if_needed e;;
  if negb (dlopen_ok e) then ret tt
  else
    modify (set_w_real (filter (fun s => dlsym e s = true) hooked_symbols));;
    let! ebpf_err := ebpf_monitor_init e in
    modify (set_w_ebpf_initialized (ebpf_err =? 0));;
    let! rc := call_tenant_shm_init e in
    modify (set_w_tenant_initialized (rc =? 0));;
    (if rc =? 0 then bind_from_env else ret tt);;
    modify (set_w_cached_pid (getpid e)).

(** [pthread_once (&hooks_init_once, init_function_pointers)]. *)
Definition hooks_init : M unit :=
  let! once := get w_once in
  if once then ret tt else init_function_pointers;; modify (set_w_once true).

(** ** Counting and checking *)

Definition update_tenant_resource_count (tid resource_type delta : Z) : M unit :=
  let! initialized := get w_tenant_initialized in
  if (tid =? 0) || negb initialized then ret tt
  else
    let! r := tenant_call e (tid_ok tid) (fun ptr s =>
      tenant_get_resource_usage ptr (now_ns e) s tid) in
    if negb (r.1 =? 0) then ret tt
    else
      tenant_call e (tid_ok tid) (fun ptr s =>
        tenant_update_resource_usage ptr (now_ns e) s tid
          (Some (adjust_usage resource_type delta r.2)));;
      ret tt.

(** The mandatory-mode prologue: the tenant the check goes on with. *)
Definition mandatory_rebind (tid : Z) : M Z :=
  match getenv e "RDMA_TENANT_ID" with
  | None => ret tid
  | Some v =>
      let! rc := call_tenant_shm_init e in
      if negb (rc =? 0) then ret tid
      else
        let t := u32 (strtoull v) in
        if t =? 0 then ret tid
        else
          let! rc := call_bind_process t in
          if rc =? 0 then modify (set_w_tenant_initialized true);; ret t
          else ret tid
  end.

Definition check_tenant_qp_limit (tid : Z) : M bool :=
  modify (fun w => if w_mandatory w =? -1
    then set_w_mandatory (match getenv e "RDMA_INTERCEPT_MANDATORY" with
                          | Some _ => 1 | None => 0 end) w
    else w);;
  let! mandatory := get (fun w => negb (w_mandatory w =? 0)) in
  let! tid := (if mandatory && (tid =? 0) then mandatory_rebind tid else ret tid) in
  let! initialized := get w_tenant_initialized in
  if mandatory && ((tid =? 0) || negb initialized) then ret false
  else if (tid =? 0) || negb initialized then ret true
  else tenant_call e (tid_ok tid) (fun ptr s =>
         tenant_try_allocate_qp ptr (now_ns e) s tid).

Definition check_tenant_mr_limit_inline (tid length : Z) : M bool :=
  let! initialized := get w_tenant_initialized in
  if (tid =? 0) || negb initialized then ret true
  else
    let! r := tenant_call e (tid_ok tid) (fun ptr s =>
      tenant_get_info ptr (now_ns e) s tid) in
    let info := r.2 in
    if negb (r.1 =? 0) then ret false
    else if max_mr_per_tenant (quota info) <=? u32 (t_mr_count (usage info)) then ret false
    else if (0 <? max_memory_per_tenant (quota info))
            && (max_memory_per_tenant (quota info)
                <? u64 (t_memory_used (usage info) + length))
    then ret false
    else ret true.

(** The per-process test, shared by the two variants of the check. *)
Definition process_limit_reached (c : intercept_config) : M bool :=
  let! r := get_process_resources_via_shared_memory (getpid e) in
  ret ((r.1 =? 0) && (max_qp_per_process c <? u32 (u32 (qp_count r.2) + 1))).

Definition global_limit_reached (c : intercept_config) : M bool :=
  let! r := get_global_resources_via_shared_memory in
  ret ((r.1 =? 0) && (cfg_max_global_qp c <=? u32 (qp_count r.2))).

Definition check_qp_creation_restrictions (attr : qp_init_attr) : M bool :=
  let! c := get w_config in
  if negb (enable_qp_control c) then ret true
  else if negb (qp_type_allowed c (attr_type attr)) then ret false
  else
    let! process_full := process_limit_reached c in
    if process_full then ret false
    else if max_send_wr_limit c <? max_send_wr (attr_cap attr) then ret false
    else if max_recv_wr_limit c <? max_recv_wr (attr_cap attr) then ret false
    else
      let! global_full := global_limit_reached c in
      ret (negb global_full).

(** The extended variant has no work-request test. *)
Definition check_qp_creation_restrictions_extended (attr : qp_init_attr) : M bool :=
  let! c := get w_config in
  if negb (enable_qp_control c) then ret true
  else if negb (qp_type_allowed c (attr_type attr)) then ret false
  else
    let! process_full := process_limit_reached c in
    if process_full then ret false
    else
      let! global_full := global_limit_reached c in
      ret (negb global_full).

(** ** Creating queue pairs *)

(** After the real verb succeeded: count the QP and publish the process's
    counters. *)
Definition account_create : M unit :=
  modify (fun w => set_w_qp_count (u32 (w_qp_count w + 1)) w);;
  let! new_usage := get (fun w => mk_usage (i32 (w_qp_count w)) (i32 (w_mr_count w))
                                    (w_memory_used w)) in
  shm_call (fun ptr d =>
    shm_update_process_resources (proc_stat e) ptr (now_ns e) d (getpid e)
      (Some new_usage));;
  ret tt.

(** After it failed: give the reserved QP back. *)
Definition rollback_qp (tid : Z) : M unit :=
  let! r := tenant_call e (tid_ok tid) (fun ptr s =>
    tenant_get_resource_usage ptr (now_ns e) s tid) in
  if r.1 =? 0 then
    tenant_call e (tid_ok tid) (fun ptr s =>
      tenant_update_resource_usage ptr (now_ns e) s tid (Some (rollback_usage r.2)));;
    ret tt
  else ret tt.

(** With the tenant's quota reserved: clip, call the real verb, account or
    roll back.  The result carries the caller's attributes, which the clipping
    writes in place. *)
Definition create_reserved (call : qp_init_attr -> verb_call) (attr : qp_init_attr)
    (tid : Z) (tenant_ok : bool) : M (Z * qp_init_attr) :=
  let! c := get w_config in
  let attr := clip_wr c attr in
  let! qp := driver_call e (call attr) in
  (if negb (qp =? 0) then account_create
   else if tenant_ok then rollback_qp tid else ret tt);;
  ret (qp, attr).

(** The common part of the two creation hooks after the side-effect-free
    checks. *)
Definition create_checked (call : qp_init_attr -> verb_call) (attr : qp_init_attr)
    : M (Z * qp_init_attr) :=
  let! tid := get_current_tenant_id in
  let! initialized := get w_tenant_initialized in
  let tenant_ok := negb (tid =? 0) && initialized in
  let! granted := (if tenant_ok then check_tenant_qp_limit tid else ret true) in
  if negb granted then
    modify (set_w_errno EPERM);; ret (0, attr)
  else create_reserved call attr tid tenant_ok.

(** The test every hook starts with: when interception is off, or the real
    verb was not found, pass the call on or fail with ENOSYS. *)
Definition intercept {A} (symbol : string) (pass : M A) (missing : A) (body : M A) : M A :=
  hooks_init;;
  let! enabled := rdma_intercept_is_enabled in
  let! found := get (fun w => bool_decide (symbol ∈ w_real w)) in
  if negb enabled || negb found then
    if found then pass
    else modify (set_w_errno ENOSYS);; ret missing
  else body.

Definition ibv_create_qp (pd : Z) (attr : qp_init_attr) : M (Z * qp_init_attr) :=
  intercept "ibv_create_qp"
    (let! qp := driver_call e (Create_qp pd attr) in ret (qp, attr)) (0, attr)
    (let! ok := check_qp_creation_restrictions attr in
     if negb ok then modify (set_w_errno EPERM);; ret (0, attr)
     else create_checked (Create_qp pd) attr).

Definition find_original_create_qp_ex (context : Z) : M create_qp_ex_ptr :=
  get (fun w => match list_find (fun p => p.1 = context) (w_verb_ctx w) with
                | Some (_, p) => p.2
                | None => CbNull
                end).

Definition create_qp_ex_wrapper (context : Z) (attr : qp_init_attr)
    : M (Z * qp_init_attr) :=
  let! original := find_original_create_qp_ex context in
  match original with
  | CbNull => modify (set_w_errno ENOSYS);; ret (0, attr)
  | _ =>
      let! enabled := rdma_intercept_is_enabled in
      if negb enabled then
        let! qp := driver_call e (Create_qp_ex original context attr) in ret (qp, attr)
      else
        let! ok := check_qp_creation_restrictions_extended attr in
        if negb ok then modify (set_w_errno EPERM);; ret (0, attr)
        else create_checked (Create_qp_ex original context) attr
  end.

(** ** Opening a device *)

(** The real verb returns a context whose callback table the provider filled. *)
Definition real_open_device (device : Z) : M Z :=
  let! ctx := driver_call e (Open_device device) in
  (if negb (ctx =? 0) then
     modify (fun w => set_w_callbacks
       (partial_alter (fun _ => new_callback e ctx) ctx (w_callbacks w)) w)
   else ret tt);;
  ret ctx.

(** Remember the provider's callback and put the wrapper in its place.  The
    replacement also happens when the table is full. *)
Definition hook_context (ctx : Z) : M unit := fun w =>
  match w_callbacks w !! ctx with
  | Some (CbDriver f) =>
      let w := if (length (w_verb_ctx w) <? MAX_VERBS_CONTEXTS)%nat
               then set_w_verb_ctx (w_verb_ctx w ++ [(ctx, CbDriver f)]) w
               else w in
      (tt, set_w_callbacks (<[ctx:=CbWrapper]> (w_callbacks w)) w)
  | _ => (tt, w)
  end.

Definition ibv_open_device (device : Z) : M Z :=
  intercept "ibv_open_device" (real_open_device device) 0
    (let! ctx := real_open_device device in
     (if negb (ctx =? 0) then hook_context ctx else ret tt);;
     ret ctx).

(** ** The other verbs *)

Definition ibv_destroy_qp (qp : Z) : M Z :=
  intercept "ibv_destroy_qp" (driver_call e (Destroy_qp qp)) (-1)
    (let! result := driver_call e (Destroy_qp qp) in
     (if result =? 0 then
        modify (fun w => if 0 <? w_qp_count w
                         then set_w_qp_count (u32 (w_qp_count w - 1)) w else w);;
        let! tid := get_current_tenant_id in
        update_tenant_resource_count tid 0 (-1)
      else ret tt);;
     ret result).

Definition ibv_reg_mr (pd addr length access : Z) : M Z :=
  intercept "ibv_reg_mr" (driver_call e (Reg_mr pd addr length access)) 0
    (let! tid := get_current_tenant_id in
     let! ok := check_tenant_mr_limit_inline tid length in
     if negb ok then fail_with EPERM 0
     else
       let! ok := check_mr_rate_limit in
       if negb ok then fail_with EAGAIN 0
       else
         let! mr := driver_call e (Reg_mr pd addr length access) in
         (if negb (mr =? 0) then
            modify (fun w => set_w_mr_count (u32 (w_mr_count w + 1))
                               (set_w_memory_used (u64 (w_memory_used w + length)) w));;
            update_tenant_resource_count tid 1 1
          else ret tt);;
         ret mr).

Definition ibv_dereg_mr (mr : Z) : M Z :=
  intercept "ibv_dereg_mr" (driver_call e (Dereg_mr mr)) (-1)
    (let! ok := check_mr_rate_limit in
     if negb ok then fail_with EAGAIN (-1)
     else
       let len := if mr =? 0 then 0 else mr_length e mr in
       let! result := driver_call e (Dereg_mr mr) in
       (if result =? 0 then
          modify (fun w =>
            let w := if 0 <? w_mr_count w
                     then set_w_mr_count (u32 (w_mr_count w - 1)) w else w in
            if len <=? w_memory_used w
            then set_w_memory_used (u64 (w_memory_used w - len)) w else w);;
          let! tid := get_current_tenant_id in
          update_tenant_resource_count tid 1 (-1)
        else ret tt);;
       ret result).

(** A verb whose only bookkeeping is one counter of the tenant: the delta is
    applied when the result counts as a success. *)
Definition counted (symbol : string) (call : verb_call) (missing : Z)
    (success : Z -> bool) (resource_type delta : Z) : M Z :=
  intercept symbol (driver_call e call) missing
    (let! result := driver_call e call in
     (if success result then
        let! tid := get_current_tenant_id in
        update_tenant_resource_count tid resource_type delta
      else ret tt);;
     ret result).

Definition ibv_create_cq (context cqe cq_context channel comp_vector : Z) : M Z :=
  counted "ibv_create_cq" (Create_cq context cqe cq_context channel comp_vector) 0
    (fun r => negb (r =? 0)) 3 1.
Definition ibv_destroy_cq (cq : Z) : M Z :=
  counted "ibv_destroy_cq" (Destroy_cq cq) (-1) (fun r => r =? 0) 3 (-1).
Definition ibv_alloc_pd (context : Z) : M Z :=
  counted "ibv_alloc_pd" (Alloc_pd context) 0 (fun r => negb (r =? 0)) 4 1.
Definition ibv_dealloc_pd (pd : Z) : M Z :=
  counted "ibv_dealloc_pd" (Dealloc_pd pd) (-1) (fun r => r =? 0) 4 (-1).
End hooks.

(** * The invariant *)

Section inv.
Context {cn ic : bool} (e : env) (Hpid : 0 < getpid e).

Lemma keeps_bind_process tid : 0 <= tid -> keeps (world_inv cn ic) (call_bind_process e tid).
Proof using Hpid. intros. unfold call_bind_process. keeps_auto. Qed.

Lemma keeps_bind_from_env : keeps (world_inv cn ic) (bind_from_env e).
Proof using Hpid.
  unfold bind_from_env. destruct (getenv e _); [|keeps_auto]. keeps_auto.
  apply keeps_bind_process, u32_range.
Qed.

Lemma keeps_scan_cgroup lines : keeps (world_inv cn ic) (scan_cgroup e lines).
Proof using Hpid.
  induction lines as [|l ls IH]; simpl; [keeps_auto|]. destruct (strstr _ _); [|done].
  keeps_auto; [done..| |done]. apply keeps_bind_process, u32_range.
Qed.

(** The tenant the library works for is a valid [uint32_t]. *)
Lemma current_tenant_ok :
  triple (world_inv cn ic) (get_current_tenant_id e) (fun tid w => (world_inv cn ic) w /\ 0 <= tid).
Proof using Hpid.
  unfold get_current_tenant_id.
  apply triple_seq.
  { destruct (readfile e _); [apply keeps_scan_cgroup|keeps_auto]. }
  intros _. apply triple_seq; [keeps_auto|]. intros init.
  destruct (negb init); [by apply triple_ret|].
  apply triple_seq; [keeps_auto|]. intros cached.
  apply triple_seq.
  { destruct (negb _); keeps_auto. apply keeps_bind_from_env. }
  intros _. apply triple_bind with (fun r w => (world_inv cn ic) w /\ 0 <= r.2).
  - intros w Hw. pose proof (keeps_tenant_call (cn:=cn) (ic:=ic) e true (fun ptr s =>
      tenant_get_process_tenant ptr (now_ns e) s (getpid e))) as H.
    specialize (H ltac:(eauto with mtrdma) w Hw). revert H. unfold tenant_call.
    destruct (tenant_shm_get_ptr _ _ _ _ _) as [[ptr h] obj] eqn:E.
    apply (tenant_get_ptr_ok (ic:=ic)) in E as (-> & Hs & Hp); [|apply Hw..].
    unfold tenant_get_process_tenant. destruct (shm_data_ptr h) eqn:Eh; simpl; [|done].
    destruct (Hp eq_refl) as [s ->]. simpl.
    destruct (find_idx _ _) as [i|] eqn:Ei; simpl; [|done]. split; [done|].
    apply find_idx_lookup in Ei as (m & Hm & _). rewrite (list_lookup_total_correct _ _ _ Hm).
    destruct (wf_maps _ _ _ _ (proj1 (Hs s eq_refl)) i m Hm); lia.
  - intros r. apply triple_ret. intros w [Hw Hr]. split; [done|]. destruct (_ =? 0); lia.
Qed.

Lemma keeps_update_count tid ty delta :
  0 <= tid -> keeps (world_inv cn ic) (update_tenant_resource_count e tid ty delta).
Proof using. intros. unfold update_tenant_resource_count. keeps_auto. Qed.

(** What is done on behalf of the current tenant. *)
Lemma keeps_with_tenant {A} (k : Z -> M A) :
  (forall tid, 0 <= tid -> keeps (world_inv cn ic) (k tid)) ->
  keeps (world_inv cn ic) (bind (get_current_tenant_id e) k).
Proof using Hpid.
  intros Hk. eapply triple_bind; [apply current_tenant_ok|]. intros tid w [Hw Ht].
  by apply Hk.
Qed.

Lemma keeps_hooks_init : keeps (world_inv cn ic) (hooks_init e).
Proof using Hpid.
  unfold hooks_init, init_function_pointers. keeps_auto; eauto with mtrdma.
  apply keeps_bind_from_env.
Qed.

Lemma keeps_intercept {A} name pass (missing : A) body :
  keeps (world_inv cn ic) pass -> keeps (world_inv cn ic) body ->
  keeps (world_inv cn ic) (intercept e name pass missing body).
Proof using Hpid.
  intros. unfold intercept, rdma_intercept_is_enabled. keeps_auto; [|done..].
  apply keeps_hooks_init.
Qed.

Lemma keeps_check_limit tid : 0 <= tid -> keeps (world_inv cn ic) (check_tenant_qp_limit e tid).
Proof using Hpid.
  intros Ht. unfold check_tenant_qp_limit.
  apply triple_seq; [keeps_auto|]. intros _. apply triple_seq; [keeps_auto|]. intros b.
  apply triple_bind with (fun tid w => (world_inv cn ic) w /\ 0 <= tid).
  - destruct (_ && _); [|by apply triple_ret]. unfold mandatory_rebind.
    destruct (getenv e _); [|by apply triple_ret].
    apply triple_seq; [apply keeps_tenant_shm_init|]. intros rc.
    destruct (negb _); [by apply triple_ret|]. destruct (_ =? 0); [by apply triple_ret|].
    apply triple_seq; [apply keeps_bind_process, u32_range|]. intros rc'.
    destruct (_ =? 0); [|by apply triple_ret].
    eapply triple_seq; [keeps_auto|].
    intros _. apply triple_ret. intros w Hw. split; [done|]. apply u32_range.
  - intros tid' w [Hw Ht']. revert w Hw. match goal with
      | |- forall w, (world_inv cn ic) w -> let '(_, _) := ?m w in _ => change (keeps (world_inv cn ic) m) end.
    keeps_auto.
Qed.

Lemma keeps_process_limit c : keeps (world_inv cn ic) (process_limit_reached e c).
Proof using. unfold process_limit_reached. keeps_auto. apply keeps_read_process. Qed.

Lemma keeps_global_limit c : keeps (world_inv cn ic) (global_limit_reached c).
Proof using. unfold global_limit_reached. keeps_auto. apply keeps_read_global. Qed.

Lemma keeps_restrictions attr : keeps (world_inv cn ic) (check_qp_creation_restrictions e attr).
Proof using.
  unfold check_qp_creation_restrictions.
  keeps_auto; auto using keeps_process_limit, keeps_global_limit.
Qed.

Lemma keeps_restrictions_ext attr :
  keeps (world_inv cn ic) (check_qp_creation_restrictions_extended e attr).
Proof using.
  unfold check_qp_creation_restrictions_extended.
  keeps_auto; auto using keeps_process_limit, keeps_global_limit.
Qed.

Lemma keeps_account_create : keeps (world_inv cn ic) (account_create e).
Proof using.
  unfold account_create. keeps_auto.
  apply keeps_modify. intros w []. split; try done. apply u32_range.
Qed.

Lemma keeps_rollback tid : 0 <= tid -> keeps (world_inv cn ic) (rollback_qp e tid).
Proof using. intros. unfold rollback_qp. keeps_auto. Qed.

Lemma keeps_create_checked call attr : keeps (world_inv cn ic) (create_checked e call attr).
Proof using Hpid.
  unfold create_checked, create_reserved. apply keeps_with_tenant. intros tid Ht.
  keeps_auto; auto using keeps_check_limit, keeps_account_create, keeps_rollback.
Qed.

Lemma keeps_create_qp pd attr : keeps (world_inv cn ic) (ibv_create_qp e pd attr).
Proof using Hpid.
  apply keeps_intercept; keeps_auto;
    auto using keeps_restrictions, keeps_create_checked.
Qed.

Lemma keeps_create_qp_ex ctx attr : keeps (world_inv cn ic) (create_qp_ex_wrapper e ctx attr).
Proof using Hpid.
  unfold create_qp_ex_wrapper, find_original_create_qp_ex, rdma_intercept_is_enabled.
  keeps_auto; auto using keeps_restrictions_ext, keeps_create_checked.
Qed.

Lemma keeps_real_open device : keeps (world_inv cn ic) (real_open_device e device).
Proof using. unfold real_open_device. keeps_auto. Qed.

Lemma keeps_hook_context ctx : keeps (world_inv cn ic) (hook_context ctx).
Proof using.
  intros w Hw. unfold hook_context. destruct (_ !! ctx) as [[]|]; [done| |done|done].
  destruct (_ <? _)%nat eqn:E; destruct Hw; split; try done; simpl.
  apply Nat.ltb_lt in E. rewrite length_app. simpl. unfold MAX_VERBS_CONTEXTS in E. lia.
Qed.

Lemma keeps_open_device device : keeps (world_inv cn ic) (ibv_open_device e device).
Proof using Hpid.
  apply keeps_intercept; [apply keeps_real_open|].
  keeps_auto; auto using keeps_real_open, keeps_hook_context.
Qed.

Lemma keeps_counted symbol call missing success ty delta :
  keeps (world_inv cn ic) (counted e symbol call missing success ty delta).
Proof using Hpid.
  apply keeps_intercept; [keeps_auto|].
  apply keeps_bind; [keeps_auto|]. intros r. apply keeps_bind; [|intros; apply keeps_ret].
  destruct (success r); [|keeps_auto].
  apply keeps_with_tenant; auto using keeps_update_count.
Qed.

Lemma keeps_destroy_qp qp : keeps (world_inv cn ic) (ibv_destroy_qp e qp).
Proof using Hpid.
  apply keeps_intercept; [keeps_auto|].
  apply keeps_bind; [keeps_auto|]. intros r. apply keeps_bind; [|intros; apply keeps_ret].
  destruct (_ =? 0); [|keeps_auto]. apply keeps_bind.
  - apply keeps_modify. intros w []. destruct (0 <? _); split; try done. apply u32_range.
  - intros _. apply keeps_with_tenant; auto using keeps_update_count.
Qed.

Lemma keeps_rate_limit : keeps (world_inv cn ic) (check_mr_rate_limit e).
Proof using.
  unfold check_mr_rate_limit. apply keeps_bind; [keeps_auto|]. intros c.
  destruct (_ || _); [keeps_auto|]. intros w Hw.
  destruct (rate_step _ _ _ _ _) as [[b n] t]. destruct Hw. by split.
Qed.

Lemma keeps_mr_limit tid len : keeps (world_inv cn ic) (check_tenant_mr_limit_inline e tid len).
Proof using. unfold check_tenant_mr_limit_inline. keeps_auto. Qed.

Lemma keeps_reg_mr pd addr len access : keeps (world_inv cn ic) (ibv_reg_mr e pd addr len access).
Proof using Hpid.
  apply keeps_intercept; [keeps_auto|]. apply keeps_with_tenant. intros tid Ht.
  keeps_auto; auto using keeps_mr_limit, keeps_rate_limit, keeps_update_count.
  apply keeps_modify. intros w []. split; try done; [apply u32_range|apply u64_range].
Qed.

Lemma keeps_dereg_mr mr : keeps (world_inv cn ic) (ibv_dereg_mr e mr).
Proof using Hpid.
  apply keeps_intercept; [keeps_auto|].
  apply keeps_bind; [apply keeps_rate_limit|]. intros b.
  destruct (negb b); [keeps_auto|]. apply keeps_bind; [keeps_auto|]. intros r.
  apply keeps_bind; [|intros; apply keeps_ret]. destruct (r =? 0); [|keeps_auto].
  apply keeps_bind; [|intros; apply keeps_with_tenant; auto using keeps_update_count].
  apply keeps_modify. intros w [].
  cbv zeta. repeat case_match; split; try done; first [apply u32_range|apply u64_range].
Qed.
End inv.

(** One step of the system as a process sees it: a hook called under any
    environment, the clean-up, or an operation of another process on a shared
    segment. *)
Inductive hook_step (cn ic : bool) : world -> world -> Prop :=
  | hs_create_qp e pd attr w : 0 < getpid e ->
      hook_step cn ic w (ibv_create_qp e pd attr w).2
  | hs_create_qp_ex e ctx attr w : 0 < getpid e ->
      hook_step cn ic w (create_qp_ex_wrapper e ctx attr w).2
  | hs_open_device e device w : 0 < getpid e ->
      hook_step cn ic w (ibv_open_device e device w).2
  | hs_destroy_qp e qp w : 0 < getpid e ->
      hook_step cn ic w (ibv_destroy_qp e qp w).2
  | hs_reg_mr e pd addr len access w : 0 < getpid e ->
      hook_step cn ic w (ibv_reg_mr e pd addr len access w).2
  | hs_dereg_mr e mr w : 0 < getpid e ->
      hook_step cn ic w (ibv_dereg_mr e mr w).2
  | hs_create_cq e ctx cqe cqc ch vec w : 0 < getpid e ->
      hook_step cn ic w (ibv_create_cq e ctx cqe cqc ch vec w).2
  | hs_destroy_cq e cq w : 0 < getpid e ->
      hook_step cn ic w (ibv_destroy_cq e cq w).2
  | hs_alloc_pd e ctx w : 0 < getpid e ->
      hook_step cn ic w (ibv_alloc_pd e ctx w).2
  | hs_dealloc_pd e pd w : 0 < getpid e ->
      hook_step cn ic w (ibv_dealloc_pd e pd w).2
  | hs_cleanup w : hook_step cn ic w (rdma_intercept_cleanup w).2
  | hs_other_shm w d d' : w_shm w = Some d -> shm_step cn d d' ->
      hook_step cn ic w (set_w_shm (Some d') w)
  | hs_other_ten w s s' : w_ten w = Some s -> tenant_step ic s s' ->
      hook_step cn ic w (set_w_ten (Some s') w)
  | hs_other_creates sys now h rc h' d w :
      shm_init sys now h (w_shm w) = (rc, h', Some d) ->
      hook_step cn ic w (set_w_shm (Some d) w)
  | hs_other_creates_ten sys st now h rc h' s w :
      tenant_shm_init sys st now h (w_ten w) = (rc, h', Some s) ->
      hook_step cn ic w (set_w_ten (Some s) w).

Section reach.
Context {cn ic : bool}.

Lemma keeps_run {A} (m : M A) w :
  keeps (world_inv cn ic) m -> world_inv cn ic w -> world_inv cn ic (m w).2.
Proof. intros Hm Hw. specialize (Hm w Hw). by destruct (m w). Qed.

Lemma world_set_shm w d :
  world_inv cn ic w -> shm_inv cn d -> world_inv cn ic (set_w_shm (Some d) w).
Proof. intros [] Hd. split; try done; simpl. by intros ? [= <-]. Qed.

Lemma world_set_ten w s :
  world_inv cn ic w -> tenant_inv ic s -> world_inv cn ic (set_w_ten (Some s) w).
Proof. intros [] Hs. split; try done; simpl. by intros ? [= <-]. Qed.

Lemma hook_step_ok w w' : hook_step cn ic w w' -> world_inv cn ic w -> world_inv cn ic w'.
Proof.
  destruct 1 as [| | | | | | | | | | |w d d' Hd Hs|w s s' Hd Hs|sys now h rc h' d w E
    |sys st now h rc h' s w E]; intros Hw; try (apply keeps_run; [|done]);
    eauto using keeps_create_qp, keeps_create_qp_ex, keeps_open_device, keeps_destroy_qp,
      keeps_reg_mr, keeps_dereg_mr, keeps_counted, keeps_cleanup.
  - apply world_set_shm; [done|]. eapply shm_step_ok; [|done]. by apply (wok_shm w Hw).
  - apply world_set_ten; [done|]. eapply tenant_step_ok; [done|]. by apply (wok_ten w Hw).
  - apply world_set_shm; [done|]. eapply shm_init_ok; [apply Hw|exact E|done].
  - apply world_set_ten; [done|]. eapply tenant_shm_init_ok; [apply Hw|exact E|done].
Qed.

Lemma initial_world_ok cbs shm ten :
  (forall d, shm = Some d -> shm_inv cn d) -> (forall s, ten = Some s -> tenant_inv ic s) ->
  world_inv cn ic (initial_world cbs shm ten).
Proof. intros H1 H2. split; simpl; try done; lia. Qed.
End reach.

(** C3. The library never corrupts the shared state.  From process start, any
    sequence of intercepted verbs, whatever the real verbs, the environment
    variables, /proc, the dynamic linker and the system calls answer, and
    whatever calls other processes make on the two segments in between,
    overwriting the global counters and deactivating tenants included, keeps
    the structure of both segments (one slot per process, empty free slots,
    one binding per process to a tenant in range, exact number of bound
    processes, free locks), the local counters inside their types and the
    table of device contexts inside its 16 entries.  If no other process
    overwrites the global counters ([cn]) these are the sums of the table, and
    if none deactivates a tenant ([ic]) every binding is to an existing
    tenant and the number of tenants is exact. *)
Theorem hooks_keep_invariant cn ic cbs shm ten w :
  (forall d, shm = Some d -> shm_inv cn d) -> (forall s, ten = Some s -> tenant_inv ic s) ->
  rtc (hook_step cn ic) (initial_world cbs shm ten) w -> world_inv cn ic w.
Proof.
  intros Hs Ht Hr. pose proof (initial_world_ok cbs shm ten Hs Ht) as Hok. revert Hok.
  induction Hr; eauto using hook_step_ok.
Qed.

(** * The rate limiter *)

(** The number of operations granted by a sequence of checks, each with the
    clock readings of its environment. *)
Fixpoint rate_granted (es : list env) (w : world) : Z :=
  match es with
  | [] => 0
  | e :: es =>
      let '(allowed, w) := check_mr_rate_limit e w in
      (if allowed then 1 else 0) + rate_granted es w
  end.

(** A reading of the monotonic clock, after the machine's first second. *)
Definition reading_ok (ts : Z * Z) : Prop := 0 < ts.1 < 2 ^ 50 /\ 0 <= ts.2 < 10 ^ 9.

(** The readings of a sequence of checks follow one another from time [a] on
    and the checks start before time [b]. *)
Fixpoint chronological (a b : Z) (es : list env) : Prop :=
  match es with
  | [] => True
  | e :: es =>
      reading_ok (mono_first e) /\ reading_ok (mono_second e) /\
      a <= get_time_ms (mono_first e) < b /\
      get_time_ms (mono_first e) <= get_time_ms (mono_second e) /\
      chronological (get_time_ms (mono_second e)) b es
  end.

Definition rate_on (c : intercept_config) : Prop :=
  enable_mr_rate_limit c = true /\ 1 <= max_mr_ops_per_sec c <= UINT32_MAX /\
  0 <= mr_rate_limit_window_ms c <= UINT32_MAX.

Lemma get_time_ms_range ts : reading_ok ts -> 0 < get_time_ms ts < 2 ^ 63.
Proof.
  intros [H1 H2]. unfold get_time_ms.
  assert (0 <= ts.2 / 1000000 < 1000).
  { split; [apply Z.div_pos; lia|apply Z.div_lt_upper_bound; lia]. }
  rewrite (u64_small (ts.1 * 1000)), u64_small by lia. lia.
Qed.

Lemma rate_max_ops_pos c : 1 <= rate_max_ops c.
Proof. unfold rate_max_ops. split_ifs; lia. Qed.

Section rate.
Context (c : intercept_config) (Hon : rate_on c).

Lemma check_rate_run e w :
  w_config w = c ->
  check_mr_rate_limit e w =
    let '(allowed, count, start) := rate_step c (mono_first e) (mono_second e)
      (w_mr_op_count w) (w_window_start w) in
    (allowed, set_w_mr_op_count count (set_w_window_start start w)).
Proof using Hon.
  intros Hc. unfold check_mr_rate_limit, bind, get. rewrite Hc.
  destruct Hon as (-> & H & _). by replace (max_mr_ops_per_sec c =? 0) with false by lia.
Qed.

(** Inside a window nothing is reset: the grants are those that are left. *)
Lemma rate_same_window es w a b :
  w_config w = c -> reading_ok (w_window_start w) ->
  get_time_ms (w_window_start w) <= a -> b <= get_time_ms (w_window_start w) + rate_window c ->
  0 <= w_mr_op_count w <= rate_max_ops c -> rate_max_ops c < 2 ^ 64 ->
  chronological a b es ->
  rate_granted es w = Z.min (Z.of_nat (length es)) (rate_max_ops c - w_mr_op_count w).
Proof using Hon.
  intros Hc Hr Ha Hb Hn Hm. revert w a Hc Hr Ha Hb Hn.
  induction es as [|e es IH]; intros w a Hc Hr Ha Hb Hn Hch; [simpl; lia|].
  cbn [rate_granted chronological length] in *. destruct Hch as (Hf & Hs & Hab & Hfs & Hch).
  rewrite check_rate_run by done. unfold rate_step.
  pose proof (get_time_ms_range _ Hf). pose proof (get_time_ms_range _ Hr).
  replace ((w_window_start w).1 =? 0) with false by (destruct Hr; lia). simpl.
  rewrite u64_small by lia. replace (rate_window c <=? _) with false by lia.
  destruct (_ <? _) eqn:E; tests; rewrite (IH _ (get_time_ms (mono_second e))); try done;
    simpl; try lia.
  - rewrite u64_small; lia.
  - rewrite u64_small; lia.
Qed.

(** A check that restarts the window. *)
Definition restarts (e : env) (w : world) : Prop :=
  w_window_start w = (0, 0) \/
  rate_window c <= u64 (get_time_ms (mono_first e) - get_time_ms (w_window_start w)).

Lemma rate_restart e es w a b :
  w_config w = c -> restarts e w -> rate_max_ops c < 2 ^ 64 ->
  b <= a + rate_window c -> chronological a b (e :: es) ->
  rate_granted (e :: es) w = Z.min (Z.of_nat (length (e :: es))) (rate_max_ops c).
Proof using Hon.
  intros Hc Hrs Hm Hb. cbn [rate_granted chronological length].
  intros (Hf & Hs & Hab & Hfs & Hch). rewrite check_rate_run by done. unfold rate_step.
  match goal with |- context [if _ && _ then ?x else ?y] =>
    replace (if _ && _ then x else y) with x end.
  2: { destruct Hrs as [->|Hrs]; [done|]. destruct (_ && _); [done|].
       by replace (rate_window c <=? _) with true by lia. }
  pose proof (rate_max_ops_pos c). replace (0 <? rate_max_ops c) with true by lia.
  erewrite rate_same_window; [| | | | | |done|exact Hch]; try done; simpl;
    rewrite ?u64_small; lia.
Qed.

Lemma rate_any es w a b :
  w_config w = c -> w_window_start w = (0, 0) \/ reading_ok (w_window_start w) ->
  0 <= w_mr_op_count w <= rate_max_ops c -> rate_max_ops c < 2 ^ 64 ->
  b <= a + rate_window c -> chronological a b es ->
  rate_granted es w <= 2 * rate_max_ops c - w_mr_op_count w.
Proof using Hon.
  intros Hc Hst Hn Hm. revert w a Hc Hst Hn.
  induction es as [|e es IH]; intros w a Hc Hst Hn Hb Hch; [simpl; lia|].
  destruct (decide (w_window_start w = (0, 0) \/ rate_window c <=
    u64 (get_time_ms (mono_first e) - get_time_ms (w_window_start w)))) as [Hrs|Hrs].
  { erewrite rate_restart; [|done..]. lia. }
  apply Decidable.not_or in Hrs as [Hz Hrs]. destruct Hst as [?|Hst]; [done|].
  cbn [rate_granted chronological] in *. destruct Hch as (Hf & Hs & Hab & Hfs & Hch).
  rewrite check_rate_run by done. unfold rate_step.
  replace ((w_window_start w).1 =? 0) with false by (destruct Hst; lia). simpl.
  replace (rate_window c <=? _) with false by lia.
  assert (Hb' : b <= get_time_ms (mono_second e) + rate_window c) by lia.
  destruct (_ <? _) eqn:E; tests; simpl.
  - match goal with |- context [rate_granted es ?w'] =>
      specialize (IH w' _ Hc (or_intror Hst) ltac:(simpl; rewrite u64_small; lia) Hb' Hch) end.
    pose proof (u64_small (w_mr_op_count w + 1) ltac:(lia)) as Hu.
    cbn [w_mr_op_count set_w_mr_op_count] in IH. lia.
  - match goal with |- context [rate_granted es ?w'] =>
      specialize (IH w' _ Hc (or_intror Hst) ltac:(simpl; lia) Hb' Hch) end.
    cbn [w_mr_op_count set_w_mr_op_count] in IH. lia.
Qed.
End rate.

Lemma rate_max_ops_bound c : rate_on c -> rate_max_ops c < 2 ^ 64.
Proof.
  intros (_ & H1 & H2). unfold rate_max_ops.
  assert (u64 (max_mr_ops_per_sec c * rate_window c) / 1000 < 2 ^ 64).
  { apply Z.div_lt_upper_bound; [lia|].
    pose proof (u64_range (max_mr_ops_per_sec c * rate_window c)). lia. }
  split_ifs; lia.
Qed.

(** C28. The MR rate limit.  Consider the checks made during any period shorter
    than the configured window, with a clock that does not go back.  However
    the period lies, they grant at most twice the operations a window allows
    (two windows can meet inside it); and if the first check opens a new
    window, they grant exactly the first [rate_max_ops] requests and refuse the
    rest. *)
Theorem rate_limit_window c es w a b :
  rate_on c -> w_config w = c ->
  w_window_start w = (0, 0) \/ reading_ok (w_window_start w) ->
  0 <= w_mr_op_count w <= rate_max_ops c ->
  b <= a + rate_window c -> chronological a b es ->
  rate_granted es w <= 2 * rate_max_ops c /\
  (forall e es', es = e :: es' -> restarts c e w ->
   rate_granted es w = Z.min (Z.of_nat (length es)) (rate_max_ops c)).
Proof.
  intros Hon Hc Hst Hn Hb Hch. pose proof (rate_max_ops_bound c Hon) as Hm. split.
  - pose proof (rate_any c Hon es w a b Hc Hst Hn Hm Hb Hch). lia.
  - intros e es' -> Hrs. by eapply rate_restart.
Qed.

(** ** Witnesses *)

Definition rate_env (sec : Z) : env :=
  mk_env 42 (fun _ => None) (fun _ => None) (fun _ => true) true (fun _ => true)
    (sec, 0) (sec, 0) 7 (fun _ => None) (mk_sys 3 0 true 0) (mk_sys 4 0 true 0) true
    (fun _ _ => (1, 0)) (fun _ => None) (fun _ => 0).

(** One operation per second, two in a window of two seconds. *)
Definition rate_config : intercept_config :=
  set_enable_mr_rate_limit true
    (set_max_mr_ops_per_sec 1 (set_mr_rate_limit_window_ms 2000 default_config)).
Definition rate_world : world := set_w_config rate_config (initial_world ∅ None None).

(** A protection domain is allocated, then another process overwrites the
    global counters of the process table. *)
Lemma hooks_keep_invariant_witness :
  world_inv true true (ibv_alloc_pd (rate_env 1) 5 (initial_world ∅ None None)).2 /\
  world_inv false true (set_w_shm (Some (shm_update_global_resources true 9
    (shm_reset 7 zero_shm) (Some demo_usage)).2) (initial_world ∅ (Some (shm_reset 7 zero_shm)) None)).
Proof.
  split.
  - apply (hooks_keep_invariant true true ∅ None None); [done|done|].
    apply rtc_once, (hs_alloc_pd true true (rate_env 1) 5). simpl. lia.
  - apply (hooks_keep_invariant false true ∅ (Some (shm_reset 7 zero_shm)) None);
      [intros ? [= <-]; apply zero_shm_reset_ok|done|].
    apply rtc_once. eapply hs_other_shm; [reflexivity|]. by apply step_update_global.
Defined.

Lemma rate_limit_window_witness :
  rate_granted [rate_env 10; rate_env 10; rate_env 11] rate_world <= 2 * 2 /\
  (forall e es', [rate_env 10; rate_env 10; rate_env 11] = e :: es' ->
   restarts rate_config e rate_world ->
   rate_granted [rate_env 10; rate_env 10; rate_env 11] rate_world = 2).
Proof.
  apply (rate_limit_window rate_config [rate_env 10; rate_env 10; rate_env 11] rate_world
    10000 12000).
  - vm_compute. split; [reflexivity|]. split; split; congruence.
  - reflexivity.
  - left. reflexivity.
  - vm_compute. split; congruence.
  - vm_compute. congruence.
  - vm_compute. repeat split; congruence.
Defined.
