(* ===== verification/HooksSpec.v ===== *)
(** * What the intercepted verbs guarantee: theorems on src/src/rdma_hooks_tenant.c

    Symbolic execution of the hooks in the steady state of a running process
    (library initialised, both segments mapped), and the theorems: which
    requests are admitted, what an admitted request changes, what a failure
    of the real verb gives back, whose tenant is charged, and the places where
    the enforcement leaks. *)

From S2P Require Import Prelude CString Shm TenantShm Config Core Hooks.
From stdpp Require Import base numbers list gmap strings.
From Stdlib Require Import Ascii.
#[local] Open Scope string_scope.
#[local] Open Scope Z_scope.
#[local] Open Scope hook_scope.

(** Charging and rolling back cancel. *)
Lemma rollback_charge u :
  0 <= t_qp_count u < 2 ^ 31 - 1 -> 0 <= total_qp_creates u < 2 ^ 64 - 1 ->
  rollback_usage (charge_qp u) = u.
Proof.
  intros H1 H2. unfold rollback_usage, charge_qp. simpl.
  rewrite (i32_small (t_qp_count u + 1)), (u64_small (total_qp_creates u + 1)) by lia.
  replace (0 <? t_qp_count u + 1) with true by lia.
  replace (0 <? total_qp_creates u + 1) with true by lia.
  rewrite i32_small, u64_small by lia. destruct u; simpl. f_equal; lia.
Qed.

(** ** The steady state *)

(** No line of /proc/self/cgroup names a tenant. *)
Definition cgroup_silent (e : env) : Prop :=
  match readfile e "/proc/self/cgroup" with
  | None => True
  | Some content => Forall (fun l => strstr l "rdma:/tenant" = None) (file_chunks 512 content)
  end.

Record running (e : env) (w : world) (d : shared_memory_data)
    (s : tenant_shared_memory) : Prop := {
  run_once : w_once w = true;
  run_enabled : w_initialized w = true /\ enable_intercept (w_config w) = true;
  run_real : forall name, name ∈ hooked_symbols -> name ∈ w_real w;
  run_shm_ptr : shm_data_ptr (w_shm_h w) = true;
  run_shm : w_shm w = Some d;
  run_ten_ptr : shm_data_ptr (w_ten_h w) = true;
  run_ten : w_ten w = Some s;
  run_tenant : w_tenant_initialized w = true;
  run_shm_ok : shm_ok d;
  run_ten_ok : tenant_ok s;
  run_pid : 0 < getpid e
}.

(** Setting a field to its value. *)
Lemma set_w_shm_id w x : w_shm w = x -> set_w_shm x w = w.
Proof. destruct w; simpl. by intros <-. Qed.
Lemma set_w_ten_h_id w : set_w_ten_h (w_ten_h w) w = w.
Proof. by destruct w. Qed.

Lemma shm_call_mapped {A} (f : bool -> shared_memory_data -> A * shared_memory_data) w d :
  shm_data_ptr (w_shm_h w) = true -> w_shm w = Some d ->
  shm_call f w = ((f true d).1, set_w_shm (Some (f true d).2) w).
Proof. intros Hp Hd. unfold shm_call. rewrite Hp, Hd. simpl. by destruct (f true d). Qed.

Lemma shm_read_mapped {A} (f : bool -> shared_memory_data -> A) w d :
  shm_data_ptr (w_shm_h w) = true -> w_shm w = Some d ->
  shm_call (fun ptr d => (f ptr d, d)) w = (f true d, w).
Proof.
  intros Hp Hd. erewrite shm_call_mapped by done. simpl. by rewrite set_w_shm_id.
Qed.

Lemma tenant_call_mapped e {A} (f : bool -> tenant_shared_memory -> A * tenant_shared_memory) w s :
  shm_data_ptr (w_ten_h w) = true -> w_ten w = Some s ->
  tenant_call e true f w = ((f true s).1, set_w_ten (Some (f true s).2) w).
Proof.
  intros Hp Hs. unfold tenant_call, tenant_shm_get_ptr. rewrite Hp, Hs. simpl.
  destruct (f true s). by rewrite set_w_ten_h_id.
Qed.

Lemma scan_cgroup_silent e ls w :
  Forall (fun l => strstr l "rdma:/tenant" = None) ls -> scan_cgroup e ls w = (tt, w).
Proof. induction 1 as [|l ls H _ IH]; [done|]. simpl. by rewrite H. Qed.

(** The tenant the process is bound to. *)
Definition bound_tenant (e : env) (s : tenant_shared_memory) : Z :=
  default 0 (bindings (pid_mappings s) !! getpid e).

Lemma bound_tenant_lookup e s :
  tenant_ok s -> 0 < getpid e -> bound_tenant e s <> 0 ->
  0 < bound_tenant e s /\ tid_ok (bound_tenant e s) = true /\
  exists t, tenants s !! Z.to_nat (bound_tenant e s) = Some t /\ is_inactive t = false.
Proof.
  intros [Hwf _] Hp Hb. unfold bound_tenant in *.
  destruct (bindings _ !! _) as [t|] eqn:E; [|done]. simpl in *.
  apply (bindings_spec Hwf) in E as (i & m & Hm & Hpid & <-); [|lia].
  destruct (wf_maps _ _ _ _ Hwf i m Hm) as [?|(_ & Ht & x & Hx & Hin)]; [lia|].
  split_and!; [done| |by exists x; auto]. unfold tid_ok. apply negb_true_iff.
  apply lookup_lt_Some in Hx. rewrite (wf_tenants_len _ _ _ _ Hwf) in Hx. lia.
Qed.

Section steady.
Context (e : env) (w : world) (d : shared_memory_data) (s : tenant_shared_memory).
Context (Hrun : running e w d s).

Lemma run_intercept {A} name (pass : M A) missing body :
  name ∈ hooked_symbols -> intercept e name pass missing body w = body w.
Proof using Hrun.
  intros Hn. unfold intercept, hooks_init, rdma_intercept_is_enabled, bind, get, ret.
  rewrite (run_once _ _ _ _ Hrun). destruct (run_enabled _ _ _ _ Hrun) as [-> ->].
  rewrite bool_decide_eq_true_2 by (by apply (run_real _ _ _ _ Hrun)). done.
Qed.

Lemma run_tenant_call {A} (f : bool -> tenant_shared_memory -> A * tenant_shared_memory) :
  tenant_call e true f w = ((f true s).1, set_w_ten (Some (f true s).2) w).
Proof using Hrun. apply tenant_call_mapped; apply Hrun. Qed.

(** A running process keeps running when its tenant table is rewritten. *)
Lemma run_set_ten s' : tenant_ok s' -> running e (set_w_ten (Some s') w) d s'.
Proof using Hrun. intros. destruct Hrun. by split. Qed.

Lemma run_current_tenant :
  cgroup_silent e -> w_cached_pid w = getpid e ->
  get_current_tenant_id e w =
    (bound_tenant e s, set_w_ten (Some (relock (now_ns e) s)) w).
Proof using Hrun.
  intros Hcg Hc. unfold get_current_tenant_id.
  rewrite (bind_run _ _ w tt w).
  2: { unfold cgroup_silent in Hcg. destruct (readfile e _); [by apply scan_cgroup_silent|done]. }
  unfold bind, get, ret. rewrite (run_tenant _ _ _ _ Hrun). simpl.
  rewrite Hc, Z.eqb_refl. simpl.
  rewrite run_tenant_call, get_process_tenant_run by apply Hrun. unfold bound_tenant.
  by destruct (bindings _ !! _).
Qed.

(** ** The side-effect-free checks *)

(** No process is recorded with a negative count and the total fits an int. *)
Definition counts_small (d : shared_memory_data) : Prop :=
  (forall u, u ∈ process_stats d -> 0 <= qp_count u) /\
  zsum qp_count (process_stats d) < 2 ^ 31.

Definition recorded (d : shared_memory_data) (pid : Z) : Z :=
  qp_count (default zero_usage (ledger d !! pid)).
Definition recorded_total (d : shared_memory_data) : Z := zsum qp_count (process_stats d).

Lemma recorded_bounds pid :
  counts_small d -> 0 < pid -> 0 <= recorded d pid <= recorded_total d.
Proof using Hrun.
  intros [Hpos Hsum] Hp. unfold recorded, recorded_total.
  pose proof (zsum_nonneg _ _ Hpos) as Hn.
  rewrite ledger_lookup by first [apply Hrun|lia].
  destruct (find_idx _ _) as [i|] eqn:E; simpl; [|lia].
  apply find_idx_lt in E. rewrite (ok_pids_len d), <- (ok_stats_len d) in E by apply Hrun.
  assert (Hin : process_stats d !!! i ∈ process_stats d).
  { eapply list_elem_of_lookup_2. by apply arr_lookup. }
  split; [by apply Hpos|by apply zsum_elem].
Qed.

Lemma run_process_limit c :
  counts_small d ->
  process_limit_reached e c w = (max_qp_per_process c <? recorded d (getpid e) + 1, w).
Proof using Hrun.
  intros Hs. pose proof (recorded_bounds (getpid e) Hs (run_pid _ _ _ _ Hrun)) as Hb.
  destruct Hs as [_ Hs]. unfold recorded_total in Hb.
  unfold process_limit_reached, get_process_resources_via_shared_memory, bind.
  rewrite (shm_read_mapped _ _ d) by apply Hrun.
  rewrite shm_get_process_eq by apply Hrun.
  rewrite decide_True by (split; [done|apply Hrun]). simpl. fold (recorded d (getpid e)).
  unfold ret. by rewrite !u32_small by (rewrite ?u32_small; lia).
Qed.

Lemma run_global_limit c :
  counts_small d -> global_limit_reached c w = (cfg_max_global_qp c <=? recorded_total d, w).
Proof using Hrun.
  intros Hs. pose proof (recorded_bounds (getpid e) Hs (run_pid _ _ _ _ Hrun)) as Hb.
  destruct Hs as [_ Hs]. unfold recorded_total in *.
  unfold global_limit_reached, get_global_resources_via_shared_memory, bind.
  rewrite (shm_read_mapped _ _ d) by apply Hrun. simpl.
  rewrite (ok_qp d (run_shm_ok _ _ _ _ Hrun)) by done. unfold ret.
  rewrite i32_small, u32_small by lia. done.
Qed.

#[local] Opaque process_limit_reached global_limit_reached.

(** The policy on a request, as a function of the configuration, the queue
    pairs recorded for the process and those recorded in total. *)
Definition qp_policy (c : intercept_config) (mine total : Z) (attr : qp_init_attr) : bool :=
  negb (enable_qp_control c) ||
  (qp_type_allowed c (attr_type attr) && (mine + 1 <=? max_qp_per_process c) &&
   (max_send_wr (attr_cap attr) <=? max_send_wr_limit c) &&
   (max_recv_wr (attr_cap attr) <=? max_recv_wr_limit c) &&
   (total <? cfg_max_global_qp c)).

Definition admits (attr : qp_init_attr) : bool :=
  qp_policy (w_config w) (recorded d (getpid e)) (recorded_total d) attr.

Lemma run_restrictions attr :
  counts_small d -> check_qp_creation_restrictions e attr w = (admits attr, w).
Proof using Hrun.
  intros Hs. unfold check_qp_creation_restrictions, admits, qp_policy, bind, get, ret.
  destruct (enable_qp_control _); simpl; [|done].
  destruct (qp_type_allowed _ _); simpl; [|done].
  rewrite run_process_limit by done.
  rewrite (Z.leb_antisym _ (recorded _ _ + 1)).
  destruct (_ <? recorded _ _ + 1); simpl; [done|].
  rewrite (Z.leb_antisym _ (max_send_wr _)).
  destruct (_ <? max_send_wr _); simpl; [done|]. rewrite (Z.leb_antisym _ (max_recv_wr _)).
  destruct (_ <? max_recv_wr _); simpl; [done|]. rewrite run_global_limit by done.
  by rewrite (Z.leb_antisym (recorded_total d)), negb_involutive.
Qed.

(** A request that passes is not clipped. *)
Lemma admits_unclipped attr : admits attr = true -> clip_wr (w_config w) attr = attr.
Proof using.
  unfold admits, qp_policy, clip_wr. destruct (enable_qp_control _); simpl; [|done].
  intros H. tests. replace (max_recv_wr_limit _ <? _) with false by lia.
  rewrite andb_false_r. replace (max_send_wr_limit _ <? _) with false by lia.
  by rewrite andb_false_r.
Qed.
End steady.

(** ** Reserving the tenant's quota *)

(** The state after the static of [check_tenant_qp_limit] is initialised. *)
Definition mand_set (e : env) (w : world) : world :=
  if w_mandatory w =? -1
  then set_w_mandatory (match getenv e "RDMA_INTERCEPT_MANDATORY" with
                        | Some _ => 1 | None => 0 end) w
  else w.

Lemma run_mand_set e w d s : running e w d s -> running e (mand_set e w) d s.
Proof. intros []. unfold mand_set. by destruct (_ =? _). Qed.

Lemma run_check_limit e w d s tid :
  running e w d s -> tid <> 0 -> tid_ok tid = true ->
  check_tenant_qp_limit e tid w =
    ((tenant_try_allocate_qp true (now_ns e) s tid).1,
     set_w_ten (Some (tenant_try_allocate_qp true (now_ns e) s tid).2) (mand_set e w)).
Proof.
  intros Hrun Htid Hok. apply run_mand_set in Hrun as Hrun'.
  unfold check_tenant_qp_limit. rewrite (bind_run _ _ w tt (mand_set e w)) by done.
  unfold bind, get. replace (tid =? 0) with false by lia. rewrite andb_false_r. cbn [ret].
  unfold ret. rewrite (run_tenant _ _ _ _ Hrun'). replace (tid =? 0) with false by lia.
  simpl. rewrite andb_false_r, Hok. by apply (run_tenant_call e _ d s).
Qed.

(** Room in the tenants' counters. *)
Definition usages_small (s : tenant_shared_memory) : Prop :=
  forall t, t ∈ tenants s -> 0 <= t_qp_count (usage t) < 2 ^ 31 - 1 /\
                             0 <= total_qp_creates (usage t) < 2 ^ 64 - 1.

Definition current_record (e : env) (s : tenant_shared_memory) : tenant_info :=
  tenants s !!! Z.to_nat (bound_tenant e s).

(** An unbound process is not limited; a bound one is admitted while its tenant
    is active and below its quota. *)
Definition tenant_admits (e : env) (s : tenant_shared_memory) : bool :=
  (bound_tenant e s =? 0) ||
  (is_active (current_record e s) &&
   (t_qp_count (usage (current_record e s)) <?
    max_qp_per_tenant (quota (current_record e s)))).

(** The usage of all tenants with one more queue pair for the current one. *)
Definition charged (e : env) (s : tenant_shared_memory) : list tenant_resource_usage :=
  if bound_tenant e s =? 0 then usages s
  else <[Z.to_nat (bound_tenant e s) := charge_qp (usage (current_record e s))]> (usages s).

(** What a hook did to the state, compared with [w]. *)
Record effect (w w' : world) (calls : list verb_call) (err qps : Z)
    (d' : shared_memory_data) (us : list tenant_resource_usage) : Prop := {
  ef_calls : w_calls w' = (w_calls w ++ calls)%list;
  ef_errno : w_errno w' = err;
  ef_qps : w_qp_count w' = qps;
  ef_shm : w_shm w' = Some d';
  ef_ten : usages (default zero_tshm (w_ten w')) = us
}.

(** The state in which the real verb is called. *)
Record reserved (e : env) (w w2 : world) (d : shared_memory_data)
    (s s2 : tenant_shared_memory) : Prop := {
  rs_running : running e w2 d s2;
  rs_calls : w_calls w2 = w_calls w;
  rs_config : w_config w2 = w_config w;
  rs_counts : w_qp_count w2 = w_qp_count w /\ w_mr_count w2 = w_mr_count w /\
    w_memory_used w2 = w_memory_used w;
  rs_usages : usages s2 = charged e s;
  rs_tenant : bound_tenant e s <> 0 ->
    tid_ok (bound_tenant e s) = true /\ exists t,
    tenants s2 !! Z.to_nat (bound_tenant e s) = Some t /\ is_active t = true /\
    usage t = charge_qp (usage (current_record e s))
}.

Section create.
Context (e : env) (w : world) (d : shared_memory_data) (s : tenant_shared_memory).
Context (Hrun : running e w d s).
Context (Hcg : cgroup_silent e) (Hcached : w_cached_pid w = getpid e).
Context (Hsmall : usages_small s).

Lemma current_record_lookup :
  bound_tenant e s <> 0 ->
  tid_ok (bound_tenant e s) = true /\
  tenants s !! Z.to_nat (bound_tenant e s) = Some (current_record e s).
Proof using Hrun.
  intros Hb. destruct (bound_tenant_lookup e s) as (_ & Hr & t & Ht & _); [apply Hrun..|done|].
  split; [done|]. unfold current_record. by rewrite (list_lookup_total_correct _ _ _ Ht).
Qed.

Lemma run_set_record s' now t :
  running e w d s -> tenant_ok (rewrite_tenant now (bound_tenant e s) t s) ->
  s' = rewrite_tenant now (bound_tenant e s) t s -> running e (set_w_ten (Some s') w) d s'.
Proof using. intros [] ? ->. by split. Qed.

Let w1 : world := set_w_ten (Some (relock (now_ns e) s)) w.

Lemma run_relocked : running e w1 d (relock (now_ns e) s).
Proof using Hrun. apply (run_set_ten e w d s Hrun). apply tenant_ok_relock, Hrun. Qed.

Lemma create_unbound call attr :
  bound_tenant e s = 0 ->
  create_checked e call attr w = create_reserved e call attr 0 false w1 /\
  reserved e w w1 d s (relock (now_ns e) s).
Proof using Hrun Hcg Hcached.
  intros Hb. unfold create_checked.
  rewrite (bind_run _ _ _ _ _ (run_current_tenant e w d s Hrun Hcg Hcached)), Hb. split; [done|].
  split; try done; [apply run_relocked|]. unfold charged. by rewrite Hb.
Qed.

Let try := tenant_try_allocate_qp true (now_ns e) (relock (now_ns e) s) (bound_tenant e s).

Lemma create_bound call attr :
  bound_tenant e s <> 0 ->
  create_checked e call attr w =
    if try.1 then create_reserved e call attr (bound_tenant e s) true
                    (set_w_ten (Some try.2) (mand_set e w1))
    else ((0, attr), set_w_errno EPERM (set_w_ten (Some try.2) (mand_set e w1))).
Proof using Hrun Hcg Hcached.
  intros Hb. destruct (current_record_lookup Hb) as [Hr _]. unfold create_checked.
  rewrite (bind_run _ _ _ _ _ (run_current_tenant e w d s Hrun Hcg Hcached)).
  unfold bind at 1, get. fold w1. rewrite (run_tenant _ _ _ _ run_relocked). replace (bound_tenant e s =? 0) with false by lia.
  cbn [negb andb]. unfold bind at 1.
  rewrite (run_check_limit e w1 d _ _ run_relocked Hb Hr). fold try. by destruct try.1.
Qed.

Lemma current_small : bound_tenant e s <> 0 ->
  0 <= t_qp_count (usage (current_record e s)) < 2 ^ 31 - 1 /\
  0 <= total_qp_creates (usage (current_record e s)) < 2 ^ 64 - 1.
Proof using Hrun Hsmall.
  intros Hb. destruct (current_record_lookup Hb) as [_ Hl]. apply Hsmall.
  by eapply list_elem_of_lookup_2.
Qed.

Lemma create_denied call attr :
  tenant_admits e s = false ->
  exists w', create_checked e call attr w = ((0, attr), w') /\
    effect w w' [] EPERM (w_qp_count w) d (usages s).
Proof using Hrun Hcg Hcached Hsmall.
  unfold tenant_admits. intros [Hb%Z.eqb_neq Had%andb_false_iff]%orb_false_iff.
  destruct (current_record_lookup Hb) as [Hr Hl]. destruct (current_small Hb) as [Hc _].
  rewrite create_bound by done.
  assert (exists s2, try = (false, s2) /\ usages s2 = usages s) as (s2 & -> & Hu).
  { unfold try. destruct (is_active (current_record e s)) eqn:Ha.
    - destruct Had as [?|Had]; [done|]. rewrite (try_allocate_run _ _ _ (current_record e s))
        by first [done|lia].
      rewrite Had. eexists. split; [done|]. rewrite usages_rewrite. by apply (usages_same (relock (now_ns e) s) _ _ _ Hl).
    - erewrite try_allocate_inactive by done. by eexists. }
  eexists. split; [done|]. split; simpl; try done; unfold mand_set; destruct (_ =? -1);
    simpl; rewrite ?app_nil_r; first [done|apply Hrun].
Qed.

Lemma create_granted call attr :
  tenant_admits e s = true ->
  exists w2 s2, reserved e w w2 d s s2 /\
    create_checked e call attr w =
      create_reserved e call attr (bound_tenant e s) (negb (bound_tenant e s =? 0)) w2.
Proof using Hrun Hcg Hcached Hsmall.
  intros Had. destruct (decide (bound_tenant e s = 0)) as [Hb|Hb].
  { destruct (create_unbound call attr Hb) as [-> Hres]. rewrite Hb. by eexists _, _. }
  unfold tenant_admits in Had. replace (bound_tenant e s =? 0) with false in * by lia.
  simpl in Had. tests. destruct (current_record_lookup Hb) as [Hr Hl].
  destruct (current_small Hb) as [Hc _]. rewrite create_bound by done.
  assert (Ht : try = (true, rewrite_tenant (now_ns e) (bound_tenant e s)
    (set_active_at (now_ns e) (set_usage (charge_qp (usage (current_record e s)))
       (current_record e s))) (relock (now_ns e) s))).
  { unfold try. rewrite (try_allocate_run _ _ _ (current_record e s)) by first [done|lia].
    by replace (_ <? _) with true by lia. }
  assert (Hok : tenant_ok try.2).
  { apply tenant_try_allocate_ok; [apply tenant_ok_relock, Hrun|].
    by destruct (bound_tenant_lookup e s) as (? & _); [apply Hrun..|done|lia]. }
  exists (set_w_ten (Some try.2) (mand_set e w1)), try.2.
  split; [|by rewrite Ht]. pose proof run_relocked as Hr1. split.
  - eapply run_set_ten; [by apply run_mand_set|done].
  - unfold mand_set. by destruct (_ =? -1).
  - unfold mand_set. by destruct (_ =? -1).
  - unfold mand_set. by destruct (_ =? -1).
  - rewrite Ht. simpl. rewrite usages_rewrite. unfold charged.
    by replace (bound_tenant e s =? 0) with false by lia.
  - intros _. split; [done|]. rewrite Ht. eexists.
    split; [by eapply (rewrite_tenant_lookup _ _ _ (relock (now_ns e) s))|]. done.
Qed.
End create.

Section reserved.
Context (e : env) (w w2 : world) (d : shared_memory_data) (s s2 : tenant_shared_memory).
Context (Hres : reserved e w w2 d s s2).
Context (call : qp_init_attr -> verb_call) (attr : qp_init_attr).
Let attr' := clip_wr (w_config w) attr.

(** The record the process publishes after a creation. *)
Definition published (w : world) : resource_usage :=
  mk_usage (i32 (u32 (w_qp_count w + 1))) (i32 (w_mr_count w)) (w_memory_used w).

Lemma reserved_success qp err tid tenant_ok :
  driver e (w_calls w) (call attr') = (qp, err) -> qp <> 0 ->
  exists w', create_reserved e call attr tid tenant_ok w2 = ((qp, attr'), w') /\
    effect w w' [call attr'] err (u32 (w_qp_count w + 1))
      (shm_update_process_resources (proc_stat e) true (now_ns e) d (getpid e)
         (Some (published w))).2 (charged e s).
Proof using Hres.
  intros Hd Hq. destruct Hres as [Hrun Hc Hcfg (Hqc & Hmc & Hmem) Hus _].
  unfold create_reserved, bind, get. rewrite Hcfg. fold attr'.
  unfold driver_call. rewrite Hc, Hd. replace (qp =? 0) with false by lia. cbn [negb].
  unfold account_create, bind, modify, get, ret. rewrite (shm_call_mapped _ _ d) by apply Hrun.
  eexists. split; [done|]. split; simpl; rewrite ?Hqc, ?Hmc, ?Hmem, ?Hc; try done.
  rewrite (run_ten _ _ _ _ Hrun). done.
Qed.

Lemma reserved_failure err :
  usages_small s -> tenants s !! Z.to_nat (bound_tenant e s) = Some (current_record e s) ->
  driver e (w_calls w) (call attr') = (0, err) ->
  exists w', create_reserved e call attr (bound_tenant e s) (negb (bound_tenant e s =? 0)) w2 =
      ((0, attr'), w') /\
    effect w w' [call attr'] err (w_qp_count w) d (usages s).
Proof using Hres.
  intros Hsmall Hl Hd. destruct Hres as [Hrun Hc Hcfg (Hqc & Hmc & Hmem) Hus Htn].
  unfold create_reserved, bind, get. rewrite Hcfg. fold attr'.
  unfold driver_call. rewrite Hc, Hd. cbn [negb Z.eqb]. unfold charged in Hus.
  destruct (bound_tenant e s =? 0) eqn:Hb; cbn [negb]; tests.
  { unfold ret. eexists. split; [done|].
    split; simpl; rewrite ?(run_shm _ _ _ _ Hrun), ?(run_ten _ _ _ _ Hrun), ?Hc; done. }
  destruct (Htn Hb) as (Hr & t & Ht & Ha & Hu).
  destruct (Hsmall (current_record e s)) as [Hs1 Hs2]; [by eapply list_elem_of_lookup_2|].
  unfold rollback_qp. rewrite Hr. unfold bind, ret.
  rewrite (tenant_call_mapped _ _ _ s2) by apply Hrun.
  rewrite (get_usage_run _ _ _ t) by done. cbn [fst snd Z.eqb].
  rewrite (tenant_call_mapped _ _ _ (relock (now_ns e) s2)) by first [done|apply Hrun].
  rewrite (update_usage_run _ _ _ t) by done. cbn [fst snd].
  eexists. split; [done|]. split; [done|done|done|apply Hrun|].
  - simpl. rewrite usages_rewrite. simpl. rewrite Hu, rollback_charge by done.
    change (usages (relock (now_ns e) s2)) with (usages s2). rewrite Hus.
    rewrite list_insert_insert_eq. by eapply usages_same.
Qed.
End reserved.

(** ** Theorems on [ibv_create_qp] *)

Section create_qp.
Context (e : env) (w : world) (d : shared_memory_data) (s : tenant_shared_memory).
Context (Hrun : running e w d s) (Hcounts : counts_small d).

Lemma run_create_qp pd attr :
  ibv_create_qp e pd attr w =
    if admits e w d attr then create_checked e (Create_qp pd) attr w
    else ((0, attr), set_w_errno EPERM w).
Proof using Hrun Hcounts.
  unfold ibv_create_qp. rewrite (run_intercept e w d s Hrun) by (repeat constructor).
  unfold bind at 1. rewrite (run_restrictions e w d s Hrun) by done.
  by destruct (admits e w d attr).
Qed.
End create_qp.

(** A bound process's tenant record, also when the id is 0. *)
Lemma current_lookup e s :
  tenant_ok s -> 0 < getpid e ->
  tenants s !! Z.to_nat (bound_tenant e s) = Some (current_record e s).
Proof.
  intros Hok Hp. unfold current_record. destruct (decide (bound_tenant e s = 0)) as [->|Hb].
  - apply arr_lookup. rewrite (wf_tenants_len _ _ _ _ (proj1 Hok)). by apply Nat.ltb_lt.
  - destruct (bound_tenant_lookup e s) as (_ & _ & t & Ht & _); [done..|].
    by rewrite (list_lookup_total_correct _ _ _ Ht).
Qed.

(** C1. Exactly which queue-pair requests reach the device.  For a running
    process, [ibv_create_qp] calls the real verb if and only if the policy of
    the configuration admits the request (QP type, queue pairs recorded for
    the process, work-request depths, queue pairs recorded in total) and the
    process's tenant is active and below its quota; it passes the caller's
    attributes on unchanged.  A refused request returns NULL with EPERM and
    leaves the process table, every tenant's usage and the process's own
    counter as they were. *)
Theorem create_qp_decision e w d s pd attr :
  running e w d s -> cgroup_silent e -> w_cached_pid w = getpid e ->
  counts_small d -> usages_small s ->
  let '(qp, attr', w') := ibv_create_qp e pd attr w in
  attr' = attr /\
  if admits e w d attr && tenant_admits e s
  then w_calls w' = (w_calls w ++ [Create_qp pd attr])%list
  else qp = 0 /\ effect w w' [] EPERM (w_qp_count w) d (usages s).
Proof.
  intros Hrun Hcg Hca Hcs Hus. rewrite (run_create_qp e w d s) by done.
  destruct (admits e w d attr) eqn:Had; simpl.
  2: { split_and!; [done|done|]. split; simpl; rewrite ?app_nil_r; try done; [apply Hrun|].
       by rewrite (run_ten _ _ _ _ Hrun). }
  destruct (tenant_admits e s) eqn:Ht.
  - destruct (create_granted e w d s Hrun Hcg Hca Hus (Create_qp pd) attr Ht)
      as (w2 & s2 & Hres & ->).
    destruct (driver e (w_calls w) (Create_qp pd (clip_wr (w_config w) attr))) as [qp err] eqn:Ed.
    pose proof (admits_unclipped e w d attr Had) as Hclip.
    destruct (decide (qp = 0)) as [->|Hq].
    + edestruct (reserved_failure e w w2 d s s2 Hres (Create_qp pd) attr err)
        as (w' & -> & Hef); [done|apply current_lookup; apply Hrun|done|].
      rewrite Hclip in *. by destruct Hef.
    + edestruct (reserved_success e w w2 d s s2 Hres (Create_qp pd) attr qp err
        (bound_tenant e s)) as (w' & -> & Hef); [done|done|].
      rewrite Hclip in *. by destruct Hef.
  - destruct (create_denied e w d s Hrun Hcg Hca Hus (Create_qp pd) attr Ht) as (w' & -> & Hef).
    done.
Qed.

(** C7. What a created queue pair costs.  When the request is admitted and the
    real verb returns a queue pair, the hook returns it with errno as the verb
    left it, the process's own counter and its tenant's usage grow by exactly
    one, no other tenant's usage changes, and the process table records the
    process's counters (its entry in the map of live processes is replaced, all
    others stay) provided the table has an entry or a free slot for it. *)
Theorem create_qp_created e w d s pd attr qp err :
  running e w d s -> cgroup_silent e -> w_cached_pid w = getpid e ->
  counts_small d -> usages_small s ->
  admits e w d attr = true -> tenant_admits e s = true ->
  driver e (w_calls w) (Create_qp pd attr) = (qp, err) -> qp <> 0 ->
  getpid e ∈ process_pids d \/ 0 ∈ process_pids d ->
  exists w' d',
    ibv_create_qp e pd attr w = ((qp, attr), w') /\
    effect w w' [Create_qp pd attr] err (u32 (w_qp_count w + 1)) d' (charged e s) /\
    shm_ok d' /\ ledger d' = <[getpid e := published w]> (ledger d).
Proof.
  intros Hrun Hcg Hca Hcs Hus Had Ht Hd Hq Hroom. rewrite (run_create_qp e w d s) by done.
  rewrite Had. destruct (create_granted e w d s Hrun Hcg Hca Hus (Create_qp pd) attr Ht)
    as (w2 & s2 & Hres & ->).
  pose proof (admits_unclipped e w d attr Had) as Hclip.
  edestruct (reserved_success e w w2 d s s2 Hres (Create_qp pd) attr qp err
    (bound_tenant e s)) as (w' & -> & Hef); [by rewrite Hclip|done|].
  rewrite Hclip in *.
  destruct (shm_update_bind (c:=true) (proc_stat e) (now_ns e) d (getpid e) (published w))
    as (d' & Hup & Hok' & Hled); [apply Hrun..|done|].
  rewrite Hup in Hef. by exists w', d'.
Qed.

(** C8. A failed creation costs nothing.  When the real verb returns NULL, the
    hook returns NULL with the verb's errno; the process table and the process's
    counter are untouched, and the quota reserved beforehand is given back: the
    usage of every tenant is exactly what it was before the call. *)
Theorem create_qp_failed e w d s pd attr err :
  running e w d s -> cgroup_silent e -> w_cached_pid w = getpid e ->
  counts_small d -> usages_small s ->
  admits e w d attr = true -> tenant_admits e s = true ->
  driver e (w_calls w) (Create_qp pd attr) = (0, err) ->
  exists w',
    ibv_create_qp e pd attr w = ((0, attr), w') /\
    effect w w' [Create_qp pd attr] err (w_qp_count w) d (usages s).
Proof.
  intros Hrun Hcg Hca Hcs Hus Had Ht Hd. rewrite (run_create_qp e w d s) by done.
  rewrite Had. destruct (create_granted e w d s Hrun Hcg Hca Hus (Create_qp pd) attr Ht)
    as (w2 & s2 & Hres & ->).
  pose proof (admits_unclipped e w d attr Had) as Hclip.
  edestruct (reserved_failure e w w2 d s s2 Hres (Create_qp pd) attr err)
    as (w' & -> & Hef); [done|apply current_lookup; apply Hrun|by rewrite Hclip|].
  rewrite Hclip in *. by exists w'.
Qed.

(** ** Whose tenant is charged *)

(** The tenant a line of /proc/self/cgroup names; 0 when it names none. *)
Definition cgroup_tenant (line : string) : Z :=
  match strstr line "rdma:/tenant" with
  | None => 0
  | Some seg => u32 (strtoull (str_drop (String.length "rdma:/tenant") seg))
  end.

(** The first line that names a tenant names [n]. *)
Definition cgroup_names (e : env) (n : Z) : Prop :=
  exists content pre line post,
    readfile e "/proc/self/cgroup" = Some content /\
    file_chunks 512 content = (pre ++ line :: post)%list /\
    Forall (fun l => cgroup_tenant l = 0) pre /\ cgroup_tenant line = n /\ n <> 0.

(** No other line names a tenant. *)
Definition cgroup_only (e : env) (n : Z) : Prop :=
  exists content pre line post,
    readfile e "/proc/self/cgroup" = Some content /\
    file_chunks 512 content = (pre ++ line :: post)%list /\
    Forall (fun l => cgroup_tenant l = 0) pre /\ cgroup_tenant line = n /\ n <> 0 /\
    Forall (fun l => cgroup_tenant l = 0) post.

Lemma cgroup_tenant_range line : 0 <= cgroup_tenant line.
Proof. unfold cgroup_tenant. destruct (strstr _ _); [apply u32_range|done]. Qed.

Section identity.
Context (e : env) (w : world) (d : shared_memory_data) (s : tenant_shared_memory).
Context (Hrun : running e w d s).

Lemma run_tenant_shm_init : call_tenant_shm_init e w = (0, w).
Proof using Hrun.
  unfold call_tenant_shm_init, tenant_shm_init. rewrite (run_ten_ptr _ _ _ _ Hrun).
  rewrite set_w_ten_h_id. by destruct w.
Qed.

Lemma run_bind_process tid :
  tid_ok tid = true ->
  call_bind_process e tid w =
    ((tenant_bind_process true (now_ns e) s (getpid e) tid).1,
     set_w_ten (Some (tenant_bind_process true (now_ns e) s (getpid e) tid).2) w).
Proof using Hrun.
  intros Hr. unfold call_bind_process. rewrite Hr. by apply (run_tenant_call e w d s).
Qed.

(** Binding the process, when it succeeds. *)
Lemma run_bound tid s' :
  0 <= tid -> tenant_bind_process true (now_ns e) s (getpid e) tid = (0, s') ->
  tid_ok tid = true /\ running e (set_w_ten (Some s') w) d s' /\
  bindings (pid_mappings s') = <[getpid e := tid]> (bindings (pid_mappings s)).
Proof using Hrun.
  intros H0 E. destruct (tenant_bind_bindings _ _ _ _ _ _ (run_ten_ok _ _ _ _ Hrun) H0
    (run_pid _ _ _ _ Hrun) E) as (Hok & Hb & _).
  rewrite decide_True in Hb by done. split_and!; [| |done].
  - unfold tid_ok. apply negb_true_iff. unfold tenant_bind_process in E.
    by destruct (_ <=? tid).
  - by apply (run_set_ten e w d s).
Qed.

Lemma scan_cgroup_hit pre line post n s' :
  Forall (fun l => cgroup_tenant l = 0) pre -> cgroup_tenant line = n -> n <> 0 ->
  tenant_bind_process true (now_ns e) s (getpid e) n = (0, s') ->
  scan_cgroup e (pre ++ line :: post) w =
    (tt, set_w_tenant_initialized true (set_w_ten (Some s') w)).
Proof using Hrun.
  intros Hpre Hn Hne E. destruct (run_bound n s') as (Hr & _ & _);
    [subst; apply cgroup_tenant_range|done|].
  induction Hpre as [|l ls Hl _ IH]; cbn [scan_cgroup app].
  - unfold cgroup_tenant in Hn. destruct (strstr line _) as [seg|]; [|done].
    rewrite Hn. replace (n =? 0) with false by lia.
    unfold bind. rewrite run_tenant_shm_init. cbn [Z.eqb negb].
    rewrite run_bind_process by done. by rewrite E.
  - unfold cgroup_tenant in Hl. destruct (strstr l _) as [seg|]; [|done].
    by rewrite Hl.
Qed.

Lemma run_mark_tenant : running e (set_w_tenant_initialized true w) d s.
Proof using Hrun. destruct Hrun. by split. Qed.

(** The end of the function, for a bound process whose pid is the cached one. *)
Lemma run_lookup_tenant :
  bindings (pid_mappings s) !! getpid e = Some (bound_tenant e s) ->
  tenant_call e true (fun ptr s => tenant_get_process_tenant ptr (now_ns e) s (getpid e)) w
  = ((0, bound_tenant e s), set_w_ten (Some (relock (now_ns e) s)) w).
Proof using Hrun.
  intros Hb. rewrite (run_tenant_call e w d s) by done.
  rewrite get_process_tenant_run by apply Hrun. by rewrite Hb.
Qed.
End identity.

Lemma bound_tenant_insert e s n m :
  bindings (pid_mappings s) = <[getpid e := n]> m ->
  bindings (pid_mappings s) !! getpid e = Some (bound_tenant e s) /\ bound_tenant e s = n.
Proof. intros H. unfold bound_tenant. by rewrite H, lookup_insert_eq. Qed.

(** The tenant RDMA_TENANT_ID claims; 0 when it claims none. *)
Definition claimed_tenant (e : env) : Z :=
  match getenv e "RDMA_TENANT_ID" with Some v => u32 (atoi v) | None => 0 end.

(** A claim that the table refuses leaves every binding as it is. *)
Lemma bind_from_env_refused e w d s :
  running e w d s ->
  claimed_tenant e = 0 \/
    (tenant_bind_process true (now_ns e) s (getpid e) (claimed_tenant e)).1 <> 0 ->
  exists s', bind_from_env e w = (tt, set_w_ten (Some s') w) /\ tenant_ok s' /\
    bindings (pid_mappings s') = bindings (pid_mappings s).
Proof.
  intros Hrun Hcl. unfold bind_from_env. unfold claimed_tenant in Hcl.
  pose proof (run_ten_ok _ _ _ _ Hrun) as Hok.
  assert (Hid : set_w_ten (Some s) w = w)
    by (pose proof (run_ten _ _ _ _ Hrun); destruct w; simpl in *; by subst).
  destruct (getenv e _) as [v|]; [|exists s; by rewrite Hid].
  pose proof (u32_range (atoi v)) as Hr. destruct (0 <? u32 (atoi v)) eqn:E0; tests.
  2: { exists s. by rewrite Hid. }
  destruct Hcl as [?|Hrc]; [lia|]. unfold bind, ret.
  destruct (tid_ok (u32 (atoi v))) eqn:Ht.
  - rewrite (run_bind_process e w d s Hrun _ Ht).
    destruct (tenant_bind_process true (now_ns e) s _ _) as [rc s'] eqn:E. simpl in *.
    destruct (tenant_bind_bindings _ _ _ _ _ _ Hok (proj1 Hr) (run_pid _ _ _ _ Hrun) E)
      as (Hok' & Hb & _). rewrite decide_False in Hb by done. by exists s'.
  - exists s. unfold call_bind_process, tenant_call. rewrite Ht.
    by rewrite Hid.
Qed.

(** The end of the resolution, once the process is bound to [n]. *)
Definition resolve_rest (e : env) : M Z :=
  let! initialized := get w_tenant_initialized in
  if negb initialized then ret 0
  else
    let! cached := get w_cached_pid in
    (if negb (getpid e =? cached) then
       bind_from_env e;; modify (set_w_cached_pid (getpid e))
     else ret tt);;
    let! r := tenant_call e true (fun ptr s =>
      tenant_get_process_tenant ptr (now_ns e) s (getpid e)) in
    ret (if r.1 =? 0 then r.2 else 0).

Lemma run_resolve_rest e w d s :
  running e w d s ->
  w_cached_pid w = getpid e \/ claimed_tenant e = 0 \/
    (tenant_bind_process true (now_ns e) s (getpid e) (claimed_tenant e)).1 <> 0 ->
  exists w' s', resolve_rest e w = (bound_tenant e s, w') /\ w_ten w' = Some s' /\
    bindings (pid_mappings s') = bindings (pid_mappings s).
Proof.
  intros Hrun Hcl. unfold resolve_rest, bind, get, ret. rewrite (run_tenant _ _ _ _ Hrun).
  cbn [negb]. destruct (getpid e =? w_cached_pid w) eqn:Ec; tests; cbn [negb].
  - rewrite (run_tenant_call e w d s Hrun), get_process_tenant_run by apply Hrun.
    unfold bound_tenant. destruct (bindings _ !! _); eexists _, _; by split_and!.
  - destruct Hcl as [?|Hcl]; [congruence|].
    destruct (bind_from_env_refused e w d s Hrun Hcl) as (s' & -> & Hok & Hb).
    unfold modify. rewrite (tenant_call_mapped _ _ _ s') by first [done|apply Hrun].
    rewrite get_process_tenant_run by apply Hrun. unfold bound_tenant. rewrite Hb.
    destruct (bindings (pid_mappings s) !! _); eexists _, _; by split_and!.
Qed.

Lemma scan_cgroup_none e ls w :
  Forall (fun l => cgroup_tenant l = 0) ls -> scan_cgroup e ls w = (tt, w).
Proof.
  induction 1 as [|l ls Hl _ IH]; [done|]. cbn [scan_cgroup]. unfold cgroup_tenant in Hl.
  destruct (strstr l _); [|done]. by rewrite Hl.
Qed.

(** A cgroup whose tenant refuses the process leaves every binding as it is. *)
Lemma scan_cgroup_refused e w d s pre line post n rc s1 :
  running e w d s ->
  Forall (fun l => cgroup_tenant l = 0) pre -> cgroup_tenant line = n -> n <> 0 ->
  Forall (fun l => cgroup_tenant l = 0) post ->
  tenant_bind_process true (now_ns e) s (getpid e) n = (rc, s1) -> rc <> 0 ->
  exists s2, scan_cgroup e (pre ++ line :: post) w = (tt, set_w_ten (Some s2) w) /\
    tenant_ok s2 /\ bindings (pid_mappings s2) = bindings (pid_mappings s).
Proof.
  intros Hrun Hpre Hn Hne Hpost E Hrc.
  assert (H0 : 0 <= n) by (subst; apply cgroup_tenant_range).
  destruct (tenant_bind_bindings _ _ _ _ _ _ (run_ten_ok _ _ _ _ Hrun) H0
    (run_pid _ _ _ _ Hrun) E) as (Hok & Hb & _). rewrite decide_False in Hb by done.
  induction Hpre as [|l ls Hl _ IH]; cbn [scan_cgroup app].
  - unfold cgroup_tenant in Hn. destruct (strstr line _) as [seg|]; [|done].
    rewrite Hn. replace (n =? 0) with false by lia.
    unfold bind. rewrite (run_tenant_shm_init e w d s Hrun). cbn [Z.eqb negb].
    destruct (tid_ok n) eqn:Ht.
    + rewrite (run_bind_process e w d s Hrun) by done. rewrite E. cbn [fst snd].
      replace (rc =? 0) with false by lia. exists s1. by rewrite scan_cgroup_none.
    + unfold call_bind_process, tenant_call. rewrite Ht. exists s.
      pose proof (run_ten _ _ _ _ Hrun) as Hw.
      unfold tenant_bind_process. unfold tid_ok in Ht. apply negb_false_iff in Ht.
      rewrite Ht. cbn [fst snd Z.eqb]. rewrite scan_cgroup_none by done.
      split_and!; [|apply Hrun|done]. destruct w; simpl in *; by subst.
  - unfold cgroup_tenant in Hl. destruct (strstr l _) as [seg|]; [|done].
    by rewrite Hl.
Qed.


(** C40. Right after a fork the identity can be spoofed.  In a child process that
    the library has not seen yet (its pid differs from the cached one) the call
    first binds the child to its cgroup's tenant n and then rebinds it to the
    tenant m that RDMA_TENANT_ID names, so the first operation of the child is
    charged to the tenant of its choice. *)
Theorem fork_spoofs_tenant e w d s n v m s1 s2 :
  running e w d s -> w_cached_pid w <> getpid e -> cgroup_names e n ->
  getenv e "RDMA_TENANT_ID" = Some v -> m = u32 (atoi v) -> m <> 0 ->
  tenant_bind_process true (now_ns e) s (getpid e) n = (0, s1) ->
  tenant_bind_process true (now_ns e) s1 (getpid e) m = (0, s2) ->
  exists w' s', get_current_tenant_id e w = (m, w') /\ w_ten w' = Some s' /\
    bindings (pid_mappings s') = <[getpid e := m]> (bindings (pid_mappings s)).
Proof.
  intros Hrun Hca (content & pre & line & post & Hf & Hch & Hpre & Hn & Hne) Hv Hm Hm0 E E2.
  assert (H0 : 0 <= n) by (subst; apply cgroup_tenant_range).
  destruct (run_bound e w d s Hrun n s1 H0 E) as (Hr & Hrun1 & Hb). apply run_mark_tenant in Hrun1.
  pose proof (u32_range (atoi v)). rewrite <- Hm in *.
  destruct (run_bound e _ d s1 Hrun1 m s2 ltac:(lia) E2) as (Hr2 & Hrun2 & Hb2).
  unfold get_current_tenant_id. rewrite Hf, Hch.
  rewrite (bind_run _ _ _ _ _ (scan_cgroup_hit e w d s Hrun pre line post n s1 Hpre Hn Hne E)).
  unfold bind, get, ret. cbn [w_tenant_initialized set_w_tenant_initialized negb].
  cbn [w_cached_pid set_w_tenant_initialized set_w_ten].
  replace (getpid e =? w_cached_pid w) with false by lia. cbn [negb].
  unfold bind_from_env. rewrite Hv, <- Hm. replace (0 <? m) with true by lia. unfold bind, ret.
  rewrite (run_bind_process e _ d s1 Hrun1 m Hr2), E2. cbn [fst snd modify].
  destruct (bound_tenant_insert e s2 m _ Hb2) as [Hb3 Hb4].
  rewrite (tenant_call_mapped _ _ _ s2); [|apply Hrun2|done].
  rewrite get_process_tenant_run by apply Hrun2. rewrite Hb3. simpl. rewrite Hb4.
  eexists _, _. split_and!; [done..|]. simpl. rewrite Hb2, Hb. by rewrite insert_insert_eq.
Qed.

(** ** Mandatory mode *)

(** Mandatory mode is not fail-closed.  With RDMA_INTERCEPT_MANDATORY set,
    the quota check refuses a process without a tenant, but [ibv_create_qp]
    does not consult it for such a process: an unbound process whose request
    passes the configured policy reaches the device. *)
Theorem mandatory_unbound_passes e w d s pd attr m :
  running e w d s -> cgroup_silent e -> w_cached_pid w = getpid e ->
  counts_small d -> usages_small s ->
  getenv e "RDMA_INTERCEPT_MANDATORY" = Some m -> w_mandatory w <> 0 ->
  getenv e "RDMA_TENANT_ID" = None -> bound_tenant e s = 0 ->
  admits e w d attr = true ->
  (check_tenant_qp_limit e 0 w).1 = false /\
  w_calls (ibv_create_qp e pd attr w).2 = (w_calls w ++ [Create_qp pd attr])%list.
Proof.
  intros Hrun Hcg Hca Hcs Hus Hm Hw Ht Hb Had. split.
  - unfold check_tenant_qp_limit. rewrite (bind_run _ _ w tt (mand_set e w)) by done.
    assert (Hmand : w_mandatory (mand_set e w) =? 0 = false).
    { unfold mand_set. rewrite Hm. destruct (w_mandatory w =? -1); simpl; lia. }
    unfold bind, get. rewrite Hmand. cbn [negb andb Z.eqb].
    unfold mandatory_rebind. rewrite Ht. done.
  - rewrite (run_create_qp e w d s), Had by done.
    destruct (create_unbound e w d s Hrun Hcg Hca (Create_qp pd) attr Hb) as [-> Hres].
    pose proof (admits_unclipped e w d attr Had) as Hclip.
    unfold create_reserved, bind, get. simpl w_config. rewrite Hclip.
    unfold driver_call. simpl w_calls.
    destruct (driver e (w_calls w) _) as [qp err] eqn:Ed.
    destruct (qp =? 0) eqn:Eq; cbn [negb]; [done|]. unfold account_create, bind, modify, get.
    by rewrite (shm_call_mapped _ _ d) by apply Hrun.
Qed.

(** ** Destroying queue pairs *)

Lemma run_update_count e w d s tid t ty delta :
  running e w d s -> tid <> 0 -> tid_ok tid = true -> tenants s !! Z.to_nat tid = Some t ->
  update_tenant_resource_count e tid ty delta w =
    (tt, set_w_ten (Some (if is_active t
      then rewrite_tenant (now_ns e) tid (set_active_at (now_ns e)
             (set_usage (adjust_usage ty delta (usage t)) t)) (relock (now_ns e) s)
      else relock (now_ns e) s)) w).
Proof.
  intros Hrun Hne Hr Hl. unfold update_tenant_resource_count, bind, get, ret.
  rewrite (run_tenant _ _ _ _ Hrun), Hr. replace (tid =? 0) with false by lia. cbn [orb negb].
  rewrite (run_tenant_call e w d s) by done. destruct (is_active t) eqn:Ha.
  - rewrite (get_usage_run _ _ _ t) by done. cbn [fst snd Z.eqb negb].
    rewrite (tenant_call_mapped _ _ _ (relock (now_ns e) s)) by first [done|apply Hrun].
    by rewrite (update_usage_run _ _ _ t).
  - unfold tenant_get_resource_usage. unfold tid_ok in Hr. apply negb_true_iff in Hr.
    rewrite Hr. simpl. by rewrite (list_lookup_total_correct _ _ _ Hl), Ha.
Qed.

(** The usage of all tenants after the current tenant's counters moved. *)
Definition moved (e : env) (s : tenant_shared_memory) (ty delta : Z)
    : list tenant_resource_usage :=
  if (bound_tenant e s =? 0) || negb (is_active (current_record e s)) then usages s
  else <[Z.to_nat (bound_tenant e s) :=
         adjust_usage ty delta (usage (current_record e s))]> (usages s).

(** The bookkeeping of the verbs that resolve the tenant and move one counter. *)
Lemma run_count_current e w d s ty delta :
  running e w d s -> cgroup_silent e -> w_cached_pid w = getpid e ->
  exists s', (let! tid := get_current_tenant_id e in
              update_tenant_resource_count e tid ty delta) w
    = (tt, set_w_ten (Some s') w) /\ tenant_ok s' /\ usages s' = moved e s ty delta.
Proof.
  intros Hrun Hcg Hca.
  rewrite (bind_run _ _ _ _ _ (run_current_tenant e w d s Hrun Hcg Hca)). unfold moved.
  assert (Hrun1 : running e (set_w_ten (Some (relock (now_ns e) s)) w) d (relock (now_ns e) s)).
  { apply (run_set_ten e w d s Hrun). apply tenant_ok_relock, Hrun. }
  destruct (bound_tenant e s =? 0) eqn:Hb; tests; simpl.
  { rewrite Hb. eexists. split_and!; [done|apply tenant_ok_relock, Hrun|done]. }
  destruct (bound_tenant_lookup e s) as (Hpos & Hr & _); [apply Hrun..|done|].
  pose proof (current_lookup e s ltac:(apply Hrun) ltac:(apply Hrun)) as Hl.
  rewrite (run_update_count e _ d (relock (now_ns e) s) _ (current_record e s)) by done.
  eexists. split; [done|]. destruct (is_active (current_record e s)) eqn:Ha; simpl.
  - split; [|by rewrite usages_rewrite]. unfold rewrite_tenant.
    unfold tid_ok in Hr. apply negb_true_iff in Hr.
    apply tenant_ok_touch; [apply Hrun1|lia|done| |];
      simpl; unfold current_record; try done.
  - split; [apply tenant_ok_relock, Hrun1|done].
Qed.

(** Destroying a queue pair frees the tenant's quota but not the process's
    share of the process table.  When the real verb succeeds, the process's
    own counter and the current tenant's usage go down by one; the process
    table is not updated.  So a process that had reached its limit stays
    refused: with QP control on and the table recording max_qp_per_process
    queue pairs, the next creation fails with EPERM although a queue pair has
    just been destroyed. *)
Theorem destroy_qp_keeps_record e w d s qp pd attr err :
  running e w d s -> cgroup_silent e -> w_cached_pid w = getpid e -> counts_small d ->
  driver e (w_calls w) (Destroy_qp qp) = (0, err) -> 0 < w_qp_count w < 2 ^ 32 ->
  enable_qp_control (w_config w) = true ->
  max_qp_per_process (w_config w) <= recorded d (getpid e) ->
  let '(rc, w1) := ibv_destroy_qp e qp w in
  rc = 0 /\ effect w w1 [Destroy_qp qp] err (w_qp_count w - 1) d (moved e s 0 (-1)) /\
  let '(qp', _, w2) := ibv_create_qp e pd attr w1 in
  qp' = 0 /\ w_errno w2 = EPERM /\ w_calls w2 = w_calls w1.
Proof.
  intros Hrun Hcg Hca Hcs Hd Hq Hctl Hmax.
  unfold ibv_destroy_qp. rewrite (run_intercept e w d s Hrun) by (repeat constructor).
  unfold bind at 1, driver_call. rewrite Hd. cbn [Z.eqb].
  set (w0 := set_w_errno err (set_w_calls (w_calls w ++ [Destroy_qp qp]) w)).
  set (wq := set_w_qp_count (u32 (w_qp_count w - 1)) w0).
  assert (Hq' : running e wq d s) by (destruct Hrun; by split).
  destruct (run_count_current e wq d s 0 (-1) Hq' Hcg Hca) as (s' & Hs' & Hok & Hus).
  assert (Hb : ((modify (fun w => if 0 <? w_qp_count w
                  then set_w_qp_count (u32 (w_qp_count w - 1)) w else w);;
           let! tid := get_current_tenant_id e in
           update_tenant_resource_count e tid 0 (-1)) : M unit) w0
         = (tt, set_w_ten (Some s') wq)).
  { rewrite <- Hs'. unfold bind at 1, modify. simpl w_qp_count.
    by replace (0 <? w_qp_count w) with true by lia. }
  rewrite (bind_run _ _ _ _ _ Hb). unfold ret. split; [done|].
  assert (Hrun1 : running e (set_w_ten (Some s') wq) d s') by (by apply (run_set_ten e wq d s)).
  split.
  - split; try done; [simpl; rewrite u32_small; lia|apply Hrun].
  - rewrite (run_create_qp e _ d s' Hrun1 Hcs).
    replace (admits _ _ _ _) with false; [done|]. symmetry. unfold admits, qp_policy.
    simpl w_config. rewrite Hctl. simpl.
    replace (recorded d (getpid e) + 1 <=? _) with false by lia. by rewrite andb_false_r.
Qed.

(** ** Memory regions *)

Definition mr_admits (e : env) (s : tenant_shared_memory) (length : Z) : bool :=
  (bound_tenant e s =? 0) ||
  (let t := current_record e s in
   (u32 (t_mr_count (usage t)) <? max_mr_per_tenant (quota t)) &&
   negb ((0 <? max_memory_per_tenant (quota t)) &&
         (max_memory_per_tenant (quota t) <? u64 (t_memory_used (usage t) + length)))).

Lemma run_mr_limit e w d s s0 length :
  running e w d s -> tenants s = tenants s0 -> pid_mappings s = pid_mappings s0 ->
  exists s', tenants s' = tenants s0 /\ pid_mappings s' = pid_mappings s0 /\ tenant_ok s' /\
    check_tenant_mr_limit_inline e (bound_tenant e s0) length w =
      (mr_admits e s0 length, set_w_ten (Some s') w).
Proof.
  intros Hrun Ht Hm. unfold check_tenant_mr_limit_inline, mr_admits, bind, get, ret.
  rewrite (run_tenant _ _ _ _ Hrun).
  assert (Hb : bound_tenant e s = bound_tenant e s0) by (unfold bound_tenant; by rewrite Hm).
  destruct (bound_tenant e s0 =? 0) eqn:E0; tests; cbn [orb negb].
  { exists s. split_and!; [done|done|apply Hrun|]. f_equal. pose proof (run_ten _ _ _ _ Hrun).
    destruct w; simpl in *; by subst. }
  destruct (bound_tenant_lookup e s) as (_ & Hr & t & Hl & Hin); [apply Hrun..|congruence|].
  rewrite Hb in *. rewrite Hr, (run_tenant_call e w d s) by done.
  rewrite (get_info_run _ _ _ t) by done. cbn [fst snd Z.eqb negb].
  assert (current_record e s0 = t) as ->.
  { unfold current_record. rewrite <- Ht. by rewrite (list_lookup_total_correct _ _ _ Hl). }
  exists (relock (now_ns e) s). split_and!; [done|done|apply tenant_ok_relock, Hrun|].
  rewrite Z.leb_antisym. destruct (_ <? max_mr_per_tenant _); simpl; [|done].
  by destruct ((0 <? _) && _).
Qed.

Lemma rate_limit_off e w :
  enable_mr_rate_limit (w_config w) = false -> check_mr_rate_limit e w = (true, w).
Proof. intros H. unfold check_mr_rate_limit, bind, get. by rewrite H. Qed.

(** Counting for a tenant resolved earlier in the call. *)
Lemma run_count_resolved e w d s s0 ty delta :
  running e w d s -> tenants s = tenants s0 -> tenant_ok s0 ->
  exists s', update_tenant_resource_count e (bound_tenant e s0) ty delta w =
      (tt, set_w_ten (Some s') w) /\ usages s' = moved e s0 ty delta.
Proof.
  intros Hrun Ht Hok0. pose proof (run_pid _ _ _ _ Hrun) as Hp. unfold moved.
  destruct (bound_tenant e s0 =? 0) eqn:Hb; tests; cbn [orb].
  - exists s. unfold update_tenant_resource_count, bind, get, ret. rewrite Hb. cbn [Z.eqb orb].
    split; [|unfold usages; by rewrite Ht]. f_equal. pose proof (run_ten _ _ _ _ Hrun).
    destruct w; simpl in *; by subst.
  - destruct (bound_tenant_lookup e s0) as (_ & Hr & _); [done..|].
    pose proof (current_lookup e s0 Hok0 Hp) as Hl. rewrite <- Ht in Hl.
    rewrite (run_update_count e w d s _ (current_record e s0)) by done.
    eexists. split; [done|]. destruct (is_active _); cbn [negb]; rewrite ?usages_rewrite;
      unfold usages; simpl; by rewrite Ht.
Qed.

(** One more registered region: the count, at the width of an [int], and the
    number of registrations; nothing else moves, the memory in particular. *)
Definition one_more_mr (u : tenant_resource_usage) : tenant_resource_usage :=
  mk_tusage (t_qp_count u) (i32 (t_mr_count u + 1)) (t_cq_count u) (t_pd_count u)
    (t_memory_used u) (total_qp_creates u) (total_qp_destroys u)
    (u64 (total_mr_regs u + 1)) (total_mr_deregs u).

(** The usages of all tenants after a registration: only the current tenant,
    if there is one and it is active, is charged. *)
Definition mr_charged (e : env) (s : tenant_shared_memory) : list tenant_resource_usage :=
  if (bound_tenant e s =? 0) || negb (is_active (current_record e s)) then usages s
  else alter one_more_mr (Z.to_nat (bound_tenant e s)) (usages s).

Lemma moved_mr e s : tenant_ok s -> 0 < getpid e -> moved e s 1 1 = mr_charged e s.
Proof.
  intros Hok Hp. unfold moved, mr_charged. destruct (_ || _); [done|].
  pose proof (current_lookup e s Hok Hp) as Hl. symmetry. apply list_eq. intros i.
  destruct (decide (i = Z.to_nat (bound_tenant e s))) as [->|Hne].
  - rewrite list_lookup_alter_eq. unfold usages.
    rewrite list_lookup_insert_eq by (rewrite length_fmap; by eapply lookup_lt_Some).
    by rewrite list_lookup_fmap, Hl.
  - by rewrite list_lookup_alter_ne, list_lookup_insert_ne by done.
Qed.

(** A registration leaves every tenant's memory as it is. *)
Lemma mr_charged_memory e s : t_memory_used <$> mr_charged e s = t_memory_used <$> usages s.
Proof.
  unfold mr_charged. destruct (_ || _); [done|]. apply list_eq. intros i.
  rewrite !list_lookup_fmap.
  destruct (decide (i = Z.to_nat (bound_tenant e s))) as [->|Hne].
  - rewrite list_lookup_alter_eq. by destruct (usages s !! _).
  - by rewrite list_lookup_alter_ne.
Qed.

(** C26. Registering memory, for a running process that its cgroup does not
    name and that has not just been forked, with the rate limit off.
    [ibv_reg_mr] calls the real verb exactly when the process has no tenant or
    its tenant is below its MR count and this one region would not exceed the
    memory quota; the result and errno are then the real verb's.  If the real
    verb succeeds, the tenant (when it is active) has one MR and one
    registration more and every other figure of every tenant is as before,
    and the process's own counters grow by the region; if it fails, no counter
    of the process or of a tenant moves.  A refused request returns NULL with
    EPERM and moves no counter.  In no case is the process table updated or
    any tenant's memory charged, so the memory quota bounds single regions and
    not their sum. *)
Theorem reg_mr_decision e w d s pd addr len access :
  running e w d s -> cgroup_silent e -> w_cached_pid w = getpid e ->
  enable_mr_rate_limit (w_config w) = false ->
  let '(mr, w') := ibv_reg_mr e pd addr len access w in
  let us := usages (default zero_tshm (w_ten w')) in
  (if mr_admits e s len
   then (mr, w_errno w') = driver e (w_calls w) (Reg_mr pd addr len access) /\
        w_calls w' = (w_calls w ++ [Reg_mr pd addr len access])%list /\
        (mr <> 0 ->
         w_mr_count w' = u32 (w_mr_count w + 1) /\
         w_memory_used w' = u64 (w_memory_used w + len) /\ us = mr_charged e s) /\
        (mr = 0 ->
         w_mr_count w' = w_mr_count w /\ w_memory_used w' = w_memory_used w /\ us = usages s)
   else mr = 0 /\ w_errno w' = EPERM /\ w_calls w' = w_calls w /\
        w_mr_count w' = w_mr_count w /\ w_memory_used w' = w_memory_used w /\ us = usages s) /\
  w_qp_count w' = w_qp_count w /\ w_shm w' = Some d /\
  t_memory_used <$> us = t_memory_used <$> usages s.
Proof.
  intros Hrun Hcg Hca Hrate.
  unfold ibv_reg_mr. rewrite (run_intercept e w d s Hrun) by (repeat constructor).
  rewrite (bind_run _ _ _ _ _ (run_current_tenant e w d s Hrun Hcg Hca)).
  assert (Hrun1 : running e (set_w_ten (Some (relock (now_ns e) s)) w) d (relock (now_ns e) s)).
  { apply (run_set_ten e w d s Hrun). apply tenant_ok_relock, Hrun. }
  destruct (run_mr_limit e _ d _ s len Hrun1 eq_refl eq_refl) as (s2 & Ht2 & Hm2 & Hok2 & Hc).
  assert (Hus2 : usages s2 = usages s) by (unfold usages; by rewrite Ht2).
  rewrite (bind_run _ _ _ _ _ Hc). destruct (mr_admits e s len); cbn [negb].
  2: { simpl. rewrite Hus2. by split_and!; try apply Hrun. }
  assert (Hrun2 : running e (set_w_ten (Some s2) w) d s2) by (by apply (run_set_ten e w d s)).
  rewrite (bind_run _ _ _ _ _ (rate_limit_off e (set_w_ten (Some s2) w) Hrate)). cbn [negb].
  unfold bind at 1, driver_call. simpl w_calls.
  destruct (driver e (w_calls w) _) as [mr err] eqn:Ed.
  destruct (mr =? 0) eqn:Em; tests; cbn [negb].
  { simpl. rewrite Hus2. split_and!; done || apply Hrun. }
  match goal with |- context [bind (bind (modify ?f) _) _ ?x] => set (w3 := f x) end.
  assert (Hrun3 : running e w3 d s2) by (destruct Hrun2; by split).
  destruct (run_count_resolved e w3 d s2 s 1 1 Hrun3 Ht2 ltac:(apply Hrun)) as (s' & Hup & Hus).
  rewrite moved_mr in Hus by apply Hrun.
  unfold bind, modify. fold w3. rewrite Hup. unfold ret. simpl. rewrite Hus, mr_charged_memory.
  by split_and!; try apply Hrun.
Qed.

(** ** Interception switched off *)

Definition switched_off (w : world) : Prop :=
  w_initialized w = false \/ enable_intercept (w_config w) = false.

Lemma off_test w : switched_off w -> w_initialized w && enable_intercept (w_config w) = false.
Proof. intros [-> | ->]; by rewrite ?andb_false_r. Qed.

Lemma off_intercept {A} e w name (pass : M A) missing body :
  switched_off (hooks_init e w).2 -> name ∈ w_real (hooks_init e w).2 ->
  intercept e name pass missing body w = pass (hooks_init e w).2.
Proof.
  intros Hoff Hn. unfold intercept, bind at 1. destruct (hooks_init e w) as [[] w1].
  unfold rdma_intercept_is_enabled, bind, get.
  by rewrite (off_test w1 Hoff), bool_decide_eq_true_2.
Qed.

(** The initialisation of the library calls no verb and counts nothing. *)
Definition idle_part (w : world) : list verb_call * (Z * Z * Z) :=
  (w_calls w, (w_qp_count w, w_mr_count w, w_memory_used w)).

Definition idle {A} (m : M A) : Prop := forall w, idle_part (m w).2 = idle_part w.

Lemma idle_bind {A B} (m : M A) (k : A -> M B) : idle m -> (forall x, idle (k x)) -> idle (bind m k).
Proof.
  intros Hm Hk w. unfold bind. specialize (Hm w). destruct (m w) as [x w1]. simpl in *.
  by rewrite Hk.
Qed.

Lemma idle_tenant_call e {A} b (f : bool -> tenant_shared_memory -> A * tenant_shared_memory) :
  idle (tenant_call e b f).
Proof. intros w. unfold tenant_call. repeat case_match; by simplify_eq. Qed.

Lemma idle_shm_init e : idle (call_shm_init e).
Proof. intros w. unfold call_shm_init. by repeat case_match. Qed.

Lemma idle_tenant_init e : idle (call_tenant_shm_init e).
Proof. intros w. unfold call_tenant_shm_init. by repeat case_match. Qed.

Ltac idle_auto :=
  repeat first
    [ apply idle_bind; [|intros ?] | apply idle_tenant_call | apply idle_shm_init
    | apply idle_tenant_init
    | match goal with |- idle (if ?b then _ else _) => destruct b end
    | match goal with |- idle (match ?b with _ => _ end) => destruct b end
    | by intros ? ].

Lemma idle_hooks_init e : idle (hooks_init e).
Proof.
  unfold hooks_init, init_function_pointers, init_if_needed, rdma_intercept_init,
    ebpf_monitor_init, bind_from_env, call_bind_process, fail_with. idle_auto.
Qed.


(** ** Devices and their create_qp_ex callbacks *)

Lemma list_find_app_miss {A} (P : A -> Prop) `{forall x, Decision (P x)} l x :
  Forall (fun y => ~ P y) l -> P x -> list_find P (l ++ [x]) = Some (length l, x).
Proof.
  intros Hl Hx. induction Hl as [|y l Hy Hl IH]; simpl; [by rewrite decide_True|].
  rewrite decide_False by done. by rewrite IH.
Qed.

Lemma list_find_miss {A} (P : A -> Prop) `{forall x, Decision (P x)} l :
  Forall (fun y => ~ P y) l -> list_find P l = None.
Proof.
  induction 1 as [|y l Hy Hl IH]; simpl; [done|]. rewrite decide_False by done. by rewrite IH.
Qed.

(** Opening a device.  [ibv_open_device] puts the wrapper in the place of
    the provider's create_qp_ex callback of the new context, and while the
    table of 16 contexts has room the wrapper later finds that provider's
    callback again.  For the seventeenth context the callback is replaced all
    the same but not remembered: every later create_qp_ex on that device fails
    with ENOSYS without reaching the provider. *)
Theorem open_device_hooks e e' w d s device ctx err f :
  running e w d s -> driver e (w_calls w) (Open_device device) = (ctx, err) -> ctx <> 0 ->
  new_callback e ctx = Some (CbDriver f) -> Forall (fun p => p.1 <> ctx) (w_verb_ctx w) ->
  let '(ctx', w') := ibv_open_device e device w in
  ctx' = ctx /\ w_callbacks w' !! ctx = Some CbWrapper /\
  if (length (w_verb_ctx w) <? MAX_VERBS_CONTEXTS)%nat
  then find_original_create_qp_ex ctx w' = (CbDriver f, w')
  else forall attr, create_qp_ex_wrapper e' ctx attr w' = ((0, attr), set_w_errno ENOSYS w').
Proof.
  intros Hrun Hd Hc Hcb Hmiss.
  unfold ibv_open_device. rewrite (run_intercept e w d s Hrun) by (repeat constructor).
  unfold real_open_device, bind, driver_call. rewrite Hd.
  replace (ctx =? 0) with false by lia. cbn [negb]. unfold modify, ret, hook_context.
  replace (ctx =? 0) with false by lia.
  cbn [negb w_callbacks set_w_callbacks set_w_errno set_w_calls w_verb_ctx].
  rewrite lookup_partial_alter_eq, Hcb.
  destruct (_ <? _)%nat eqn:El.
  - split_and!; [done|simpl; by rewrite lookup_insert_eq|].
    unfold find_original_create_qp_ex, get. simpl.
    rewrite (list_find_app_miss _ (w_verb_ctx w)) by done. done.
  - split_and!; [done|simpl; by rewrite lookup_insert_eq|]. intros attr.
    unfold create_qp_ex_wrapper, bind, find_original_create_qp_ex, get. simpl.
    by rewrite list_find_miss.
Qed.

(** The policy of the extended verb: the work-request depths are not tested. *)
Definition admits_ex (e : env) (w : world) (d : shared_memory_data) (attr : qp_init_attr) : bool :=
  let c := w_config w in
  negb (enable_qp_control c) ||
  (qp_type_allowed c (attr_type attr) && (recorded d (getpid e) + 1 <=? max_qp_per_process c) &&
   (recorded_total d <? cfg_max_global_qp c)).

#[local] Opaque process_limit_reached global_limit_reached.

Lemma run_restrictions_ex e w d s attr :
  running e w d s -> counts_small d ->
  check_qp_creation_restrictions_extended e attr w = (admits_ex e w d attr, w).
Proof.
  intros Hrun Hs. unfold check_qp_creation_restrictions_extended, admits_ex, bind, get, ret.
  destruct (enable_qp_control _); simpl; [|done].
  destruct (qp_type_allowed _ _); simpl; [|done]. rewrite (run_process_limit e w d s) by done.
  rewrite (Z.leb_antisym _ (recorded _ _ + 1)).
  destruct (_ <? recorded _ _ + 1); simpl; [done|].
  rewrite (run_global_limit e w d s) by done.
  by rewrite (Z.leb_antisym (recorded_total d)), negb_involutive.
Qed.

Lemma clip_wr_bounds c attr :
  enable_qp_control c = true -> 0 < max_send_wr_limit c -> 0 < max_recv_wr_limit c ->
  max_send_wr (attr_cap (clip_wr c attr)) =
    Z.min (max_send_wr (attr_cap attr)) (max_send_wr_limit c) /\
  max_recv_wr (attr_cap (clip_wr c attr)) =
    Z.min (max_recv_wr (attr_cap attr)) (max_recv_wr_limit c).
Proof.
  intros Hc Hs Hr. unfold clip_wr. rewrite Hc. cbn [negb].
  replace (0 <? max_recv_wr_limit c) with true by lia.
  replace (0 <? max_send_wr_limit c) with true by lia. cbn [andb].
  destruct (max_recv_wr_limit c <? _) eqn:E1; tests; simpl;
    destruct (max_send_wr_limit c <? _) eqn:E2; tests; simpl; lia.
Qed.

(** C27. Exactly which extended requests reach the device, and with what depth.
    The wrapper calls the provider's callback if and only if the type, the
    recorded counts and the tenant's quota admit the request; unlike
    [ibv_create_qp] it does not refuse deep work queues but cuts them, in the
    caller's own attributes, to the configured limits. *)
Theorem create_qp_ex_decision e w d s ctx f attr :
  running e w d s -> cgroup_silent e -> w_cached_pid w = getpid e ->
  counts_small d -> usages_small s ->
  enable_qp_control (w_config w) = true ->
  0 < max_send_wr_limit (w_config w) -> 0 < max_recv_wr_limit (w_config w) ->
  find_original_create_qp_ex ctx w = (CbDriver f, w) ->
  let '(qp, attr', w') := create_qp_ex_wrapper e ctx attr w in
  if admits_ex e w d attr && tenant_admits e s
  then w_calls w' = (w_calls w ++ [Create_qp_ex (CbDriver f) ctx attr'])%list /\
       max_send_wr (attr_cap attr') =
         Z.min (max_send_wr (attr_cap attr)) (max_send_wr_limit (w_config w)) /\
       max_recv_wr (attr_cap attr') =
         Z.min (max_recv_wr (attr_cap attr)) (max_recv_wr_limit (w_config w))
  else qp = 0 /\ attr' = attr /\ effect w w' [] EPERM (w_qp_count w) d (usages s).
Proof.
  intros Hrun Hcg Hca Hcs Hus Hctl Hsl Hrl Hf. unfold create_qp_ex_wrapper.
  rewrite (bind_run _ _ _ _ _ Hf). unfold bind at 1, rdma_intercept_is_enabled, get.
  destruct (run_enabled _ _ _ _ Hrun) as [-> ->]. cbn [andb negb].
  rewrite (bind_run _ _ _ _ _ (run_restrictions_ex e w d s attr Hrun Hcs)).
  destruct (admits_ex e w d attr); cbn [negb andb].
  2: { split_and!; [done|done|]. split; simpl; rewrite ?app_nil_r; try done; [apply Hrun|].
       by rewrite (run_ten _ _ _ _ Hrun). }
  destruct (tenant_admits e s) eqn:Ht.
  2: { destruct (create_denied e w d s Hrun Hcg Hca Hus (Create_qp_ex (CbDriver f) ctx) attr Ht)
         as (w' & -> & Hef). done. }
  destruct (create_granted e w d s Hrun Hcg Hca Hus (Create_qp_ex (CbDriver f) ctx) attr Ht)
    as (w2 & s2 & Hres & ->).
  destruct (driver e (w_calls w) (Create_qp_ex (CbDriver f) ctx (clip_wr (w_config w) attr)))
    as [qp err] eqn:Ed.
  pose proof (clip_wr_bounds (w_config w) attr Hctl Hsl Hrl) as Hclip.
  destruct (decide (qp = 0)) as [->|Hq].
  - edestruct (reserved_failure e w w2 d s s2 Hres (Create_qp_ex (CbDriver f) ctx) attr err)
      as (w' & -> & []); [done|apply current_lookup; apply Hrun|done|]. done.
  - edestruct (reserved_success e w w2 d s s2 Hres (Create_qp_ex (CbDriver f) ctx) attr qp err
      (bound_tenant e s)) as (w' & -> & []); [done|done|]. done.
Qed.

(** ** Witnesses

    Process 42, bound to tenant 1 with room for two queue pairs, under a
    device that accepts everything. *)
Definition demo_driver (calls : list verb_call) (c : verb_call) : Z * Z :=
  match c with
  | Destroy_qp _ | Dereg_mr _ | Destroy_cq _ | Dealloc_pd _ => (0, 0)
  | _ => (77, 0)
  end.

Definition demo_sys : shm_sys := mk_sys 3 0 true 0.

Definition demo_env_with (pid : Z) (env_var file : string -> option string)
    (drv : list verb_call -> verb_call -> Z * Z) : env :=
  mk_env pid env_var file (fun _ => true) true (fun _ => true) (10, 0) (10, 0) 7
    (fun _ => None) demo_sys demo_sys true drv (fun _ => Some (CbDriver 5)) (fun _ => 0).

Definition demo_env : env := demo_env_with 42 (fun _ => None) (fun _ => None) demo_driver.

Definition demo_config : intercept_config := set_enable_qp_control true default_config.
Definition demo_shm : shared_memory_data := shm_reset 7 zero_shm.

Definition demo_world_with (c : intercept_config) (qps cached : Z)
    (d : shared_memory_data) (s : tenant_shared_memory) : world :=
  mk_world true c FOpen qps 0 0 true hooked_symbols true true cached (-1) 0 (0, 0) [] ∅ 0 []
    (mk_handle 3 true) (mk_handle 4 true) (Some d) (Some s).
Definition demo_world : world := demo_world_with demo_config 0 42 demo_shm demo3.
Definition demo_attr : qp_init_attr := mk_attr IBV_QPT_RC (mk_cap 16 2000 1 1 0) 9.
Definition demo_attr_ok : qp_init_attr := mk_attr IBV_QPT_RC (mk_cap 16 16 1 1 0) 9.

Lemma demo_running pid env_var file drv c qps cached d s :
  0 < pid -> enable_intercept c = true -> shm_ok d -> tenant_ok s ->
  running (demo_env_with pid env_var file drv) (demo_world_with c qps cached d s) d s.
Proof. intros. by split. Qed.

Lemma demo_shm_ok : shm_ok demo_shm.
Proof. apply zero_shm_reset_ok. Qed.

Lemma demo_counts : counts_small demo_shm.
Proof.
  split; [|vm_compute; done].
  intros u (? & -> & _)%list_elem_of_fmap. done.
Qed.

Definition small_usage (t : tenant_info) : bool :=
  (0 <=? t_qp_count (usage t)) && (t_qp_count (usage t) <? 2 ^ 31 - 1) &&
  (0 <=? total_qp_creates (usage t)) && (total_qp_creates (usage t) <? 2 ^ 64 - 1).

Lemma usages_small_check s : forallb small_usage (tenants s) = true -> usages_small s.
Proof.
  intros H t Ht. rewrite forallb_forall in H. specialize (H t).
  rewrite list_elem_of_In in Ht. specialize (H Ht). unfold small_usage in H. tests. lia.
Qed.

Lemma demo_usages : usages_small demo3.
Proof. apply usages_small_check. vm_compute. reflexivity. Qed.

Lemma create_qp_decision_witness :
  let '(qp, attr', w') := ibv_create_qp demo_env 1 demo_attr demo_world in
  attr' = demo_attr /\
  if admits demo_env demo_world demo_shm demo_attr && tenant_admits demo_env demo3
  then w_calls w' = [Create_qp 1 demo_attr]
  else qp = 0 /\ effect demo_world w' [] EPERM 0 demo_shm (usages demo3).
Proof.
  apply (create_qp_decision demo_env demo_world demo_shm demo3 1 demo_attr).
  - apply demo_running; [done|done|apply demo_shm_ok|apply demo3_ok].
  - exact I.
  - reflexivity.
  - apply demo_counts.
  - apply demo_usages.
Defined.

Lemma create_qp_created_witness :
  exists w' d',
    ibv_create_qp demo_env 1 demo_attr_ok demo_world = ((77, demo_attr_ok), w') /\
    effect demo_world w' [Create_qp 1 demo_attr_ok] 0 1 d' (charged demo_env demo3) /\
    shm_ok d' /\ ledger d' = <[42 := mk_usage 1 0 0]> (ledger demo_shm).
Proof.
  apply (create_qp_created demo_env demo_world demo_shm demo3 1 demo_attr_ok 77 0).
  - apply demo_running; [done|done|apply demo_shm_ok|apply demo3_ok].
  - exact I.
  - reflexivity.
  - apply demo_counts.
  - apply demo_usages.
  - vm_compute. reflexivity.
  - vm_compute. reflexivity.
  - reflexivity.
  - lia.
  - right. apply (list_elem_of_lookup_2 _ 0%nat). vm_compute. reflexivity.
Defined.

Definition failing_env : env :=
  demo_env_with 42 (fun _ => None) (fun _ => None) (fun _ _ => (0, 12)).

Lemma create_qp_failed_witness :
  exists w', ibv_create_qp failing_env 1 demo_attr_ok demo_world = ((0, demo_attr_ok), w') /\
    effect demo_world w' [Create_qp 1 demo_attr_ok] 12 0 demo_shm (usages demo3).
Proof.
  apply (create_qp_failed failing_env demo_world demo_shm demo3 1 demo_attr_ok 12).
  - apply demo_running; [done|done|apply demo_shm_ok|apply demo3_ok].
  - exact I.
  - reflexivity.
  - apply demo_counts.
  - apply demo_usages.
  - vm_compute. reflexivity.
  - vm_compute. reflexivity.
  - reflexivity.
Defined.

(** Process 43 is in tenant 1's cgroup and claims tenant 2. *)
Definition cgroup_file : string := "9:rdma:/tenant1".
Definition spoof_env (pid : Z) : env :=
  demo_env_with pid (fun v => if String.eqb v "RDMA_TENANT_ID" then Some "2" else None)
    (fun f => if String.eqb f "/proc/self/cgroup" then Some cgroup_file else None) demo_driver.

Lemma spoof_cgroup pid : cgroup_names (spoof_env pid) 1.
Proof.
  exists cgroup_file, [], cgroup_file, []. split_and!; [done|vm_compute; done|done| |done].
  vm_compute. reflexivity.
Qed.

(** Process 42 is in the cgroup of tenant 9, which does not exist. *)
Definition lost_env : env :=
  demo_env_with 42 (fun _ => None)
    (fun f => if String.eqb f "/proc/self/cgroup" then Some "9:rdma:/tenant9" else None)
    demo_driver.

Lemma lost_cgroup : cgroup_names lost_env 9 /\ cgroup_only lost_env 9.
Proof.
  split; exists "9:rdma:/tenant9", [], "9:rdma:/tenant9", [];
    split_and!; try done; by vm_compute.
Qed.


Lemma fork_spoofs_tenant_witness :
  exists w' s', get_current_tenant_id (spoof_env 43) demo_world = (2, w') /\
    w_ten w' = Some s' /\
    bindings (pid_mappings s') = <[43 := 2]> (bindings (pid_mappings demo3)).
Proof.
  apply (fork_spoofs_tenant (spoof_env 43) demo_world demo_shm demo3 1 "2" 2
    (tenant_bind_process true 7 demo3 43 1).2
    (tenant_bind_process true 7 (tenant_bind_process true 7 demo3 43 1).2 43 2).2).
  - apply demo_running; [done|done|apply demo_shm_ok|apply demo3_ok].
  - simpl. lia.
  - apply spoof_cgroup.
  - reflexivity.
  - vm_compute. reflexivity.
  - lia.
  - vm_compute. reflexivity.
  - vm_compute. reflexivity.
Defined.

Definition mandatory_env : env :=
  demo_env_with 50 (fun v => if String.eqb v "RDMA_INTERCEPT_MANDATORY" then Some "1" else None)
    (fun _ => None) demo_driver.
Definition world50 : world := demo_world_with demo_config 0 50 demo_shm demo3.

Lemma mandatory_unbound_passes_witness :
  (check_tenant_qp_limit mandatory_env 0 world50).1 = false /\
  w_calls (ibv_create_qp mandatory_env 1 demo_attr_ok world50).2 = [Create_qp 1 demo_attr_ok].
Proof.
  apply (mandatory_unbound_passes mandatory_env world50 demo_shm demo3 1 demo_attr_ok "1").
  - apply demo_running; [done|done|apply demo_shm_ok|apply demo3_ok].
  - exact I.
  - reflexivity.
  - apply demo_counts.
  - apply demo_usages.
  - reflexivity.
  - simpl. lia.
  - reflexivity.
  - vm_compute. reflexivity.
  - vm_compute. reflexivity.
Defined.

(** One queue pair allowed per process, and process 42 has it. *)
Definition full_config : intercept_config := set_max_qp_per_process 1 demo_config.
Definition full_shm : shared_memory_data :=
  (shm_update_process_resources (fun _ => None) true 8 demo_shm 42 (Some (mk_usage 1 0 0))).2.
Definition full_world : world := demo_world_with full_config 1 42 full_shm demo3.

Lemma full_shm_ok : shm_ok full_shm.
Proof. apply shm_update_ok, demo_shm_ok. Qed.

Lemma full_counts : counts_small full_shm.
Proof.
  split; [|vm_compute; done]. intros u Hu.
  assert (H : forallb (fun u => 0 <=? qp_count u) (process_stats full_shm) = true)
    by (vm_compute; reflexivity).
  rewrite forallb_forall in H. apply list_elem_of_In in Hu. specialize (H u Hu). lia.
Qed.

Lemma destroy_qp_keeps_record_witness :
  let '(rc, w1) := ibv_destroy_qp demo_env 77 full_world in
  rc = 0 /\
  effect full_world w1 [Destroy_qp 77] 0 0 full_shm (moved demo_env demo3 0 (-1)) /\
  let '(qp', _, w2) := ibv_create_qp demo_env 1 demo_attr_ok w1 in
  qp' = 0 /\ w_errno w2 = EPERM /\ w_calls w2 = w_calls w1.
Proof.
  apply (destroy_qp_keeps_record demo_env full_world full_shm demo3 77 1 demo_attr_ok 0).
  - apply demo_running; [done|done|apply full_shm_ok|apply demo3_ok].
  - exact I.
  - reflexivity.
  - apply full_counts.
  - reflexivity.
  - simpl. lia.
  - reflexivity.
  - vm_compute. congruence.
Defined.

Lemma reg_mr_decision_witness :
  let '(mr, w') := ibv_reg_mr demo_env 1 0 4096 7 demo_world in
  let us := usages (default zero_tshm (w_ten w')) in
  (if mr_admits demo_env demo3 4096
   then (mr, w_errno w') = (77, 0) /\ w_calls w' = [Reg_mr 1 0 4096 7] /\
        (mr <> 0 -> w_mr_count w' = 1 /\ w_memory_used w' = 4096 /\
          us = mr_charged demo_env demo3) /\
        (mr = 0 -> w_mr_count w' = 0 /\ w_memory_used w' = 0 /\ us = usages demo3)
   else mr = 0 /\ w_errno w' = EPERM /\ w_calls w' = [] /\
        w_mr_count w' = 0 /\ w_memory_used w' = 0 /\ us = usages demo3) /\
  w_qp_count w' = 0 /\ w_shm w' = Some demo_shm /\
  t_memory_used <$> us = t_memory_used <$> usages demo3.
Proof.
  apply (reg_mr_decision demo_env demo_world demo_shm demo3 1 0 4096 7).
  - apply demo_running; [done|done|apply demo_shm_ok|apply demo3_ok].
  - exact I.
  - reflexivity.
  - reflexivity.
Defined.

Definition off_world : world :=
  demo_world_with (set_enable_intercept false demo_config) 0 42 demo_shm demo3.

(** A process that has not initialised the library and starts it switched off
    through the environment: the first call binds it to tenant 2 all the same. *)
Definition first_env : env :=
  demo_env_with 43 (fun v => if String.eqb v "RDMA_TENANT_ID" then Some "2"
    else None) (fun _ => None) demo_driver.
Definition first_world : world := initial_world ∅ (Some demo_shm) (Some demo3).


(** Interception is off, yet the first call has bound the process. *)
Example first_call_binds :
  let w1 := (hooks_init first_env first_world).2 in
  switched_off w1 /\ bindings (pid_mappings demo3) !! 43 = None /\
  bindings (pid_mappings (default zero_tshm (w_ten w1))) !! 43 = Some 2.
Proof. split_and!; [left|..]; by vm_compute. Qed.

(** Sixteen devices are open already. *)
Definition crowded_world : world :=
  set_w_verb_ctx ((fun i => (Z.of_nat i + 100, CbDriver 5)) <$> seq 0 16) demo_world.

Lemma crowded_running : running demo_env crowded_world demo_shm demo3.
Proof.
  assert (H : running demo_env demo_world demo_shm demo3).
  { apply demo_running; [done|done|apply demo_shm_ok|apply demo3_ok]. }
  destruct H. split; assumption.
Qed.

Lemma open_device_hooks_witness :
  let '(ctx', w') := ibv_open_device demo_env 3 crowded_world in
  ctx' = 77 /\ w_callbacks w' !! 77 = Some CbWrapper /\
  forall attr, create_qp_ex_wrapper demo_env 77 attr w' = ((0, attr), set_w_errno ENOSYS w').
Proof.
  apply (open_device_hooks demo_env demo_env crowded_world demo_shm demo3 3 77 0 5).
  - apply crowded_running.
  - reflexivity.
  - lia.
  - reflexivity.
  - apply Forall_forall. intros p (i & -> & _)%list_elem_of_fmap. simpl. lia.
Defined.

Definition hooked_world : world := set_w_verb_ctx [(77, CbDriver 5)] demo_world.

Lemma create_qp_ex_decision_witness :
  let '(qp, attr', w') := create_qp_ex_wrapper demo_env 77 demo_attr hooked_world in
  if admits_ex demo_env hooked_world demo_shm demo_attr && tenant_admits demo_env demo3
  then w_calls w' = [Create_qp_ex (CbDriver 5) 77 attr'] /\
       max_send_wr (attr_cap attr') = 16 /\ max_recv_wr (attr_cap attr') = 1024
  else qp = 0 /\ attr' = demo_attr /\ effect hooked_world w' [] EPERM 0 demo_shm (usages demo3).
Proof.
  apply (create_qp_ex_decision demo_env hooked_world demo_shm demo3 77 5 demo_attr).
  - assert (H : running demo_env demo_world demo_shm demo3).
    { apply demo_running; [done|done|apply demo_shm_ok|apply demo3_ok]. }
    destruct H. split; assumption.
  - exact I.
  - reflexivity.
  - apply demo_counts.
  - apply demo_usages.
  - reflexivity.
  - vm_compute. reflexivity.
  - vm_compute. reflexivity.
  - reflexivity.
Defined.
