(* ===== verification/Collector.v ===== *)
(** * The collector: src/src/collector_server_shm.c

    The server that copies the eBPF counters into the process table and
    reclaims the entries of processes that have died.  Its state is the table
    of registered pidfds, the file descriptors it holds open and the interest
    list of its epoll instance; it works on the process table and, for the
    tenants' counters, on the tenant table.

    The kernel is a parameter: what /proc/<pid>/status contains, which
    descriptor pidfd_open returns, whether epoll_ctl accepts it, what
    epoll_wait reports and what the eBPF maps hold. *)

From S2P Require Import Prelude CString Shm TenantShm.
From stdpp Require Import base numbers list gmap strings.
From Stdlib Require Import Ascii.
#[local] Open Scope string_scope.
#[local] Open Scope Z_scope.

(** ** State *)

(** An entry of [gc_pidfd_table]; the pidfd is -1 when nothing is registered. *)
Record gc_entry := mk_gc { gc_pidfd : Z; gc_pid : Z; gc_start_time : Z }.

Definition no_entry : gc_entry := mk_gc (-1) 0 0.
(** What [memset] with zero leaves. *)
Definition zero_entry : gc_entry := mk_gc 0 0 0.

#[export] Instance gc_entry_inhabited : Inhabited gc_entry := populate no_entry.

Record gc_state := mk_gcs {
  gc_pidfd_table : list gc_entry;
  gc_fds : gset Z;                (* open descriptors of the process *)
  gc_interest : gmap Z Z          (* epoll: descriptor to slot *)
}.

(** What the kernel answers during one pass of the GC thread. *)
Record kernel := mk_kernel {
  k_status : Z -> option string;             (* /proc/<pid>/status *)
  k_pidfd_open : gset Z -> Z -> Z;           (* SYS_pidfd_open: negative on failure *)
  k_epoll_add : Z -> bool                    (* EPOLL_CTL_ADD succeeds *)
}.

Definition set_entry (i : nat) (x : gc_entry) (g : gc_state) : gc_state :=
  mk_gcs (<[i:=x]> (gc_pidfd_table g)) (gc_fds g) (gc_interest g).

(** [epoll_ctl (EPOLL_CTL_DEL, fd)]. *)
Definition epoll_del (fd : Z) (g : gc_state) : gc_state :=
  mk_gcs (gc_pidfd_table g) (gc_fds g) (delete fd (gc_interest g)).

(** [close (fd)] also takes the descriptor off the interest list. *)
Definition close_fd (fd : Z) (g : gc_state) : gc_state :=
  mk_gcs (gc_pidfd_table g) (gc_fds g ∖ {[fd]}) (delete fd (gc_interest g)).

(** ** Liveness of a process *)

(** The inner loop over the characters after "State:". *)
Fixpoint state_alive (s : string) : bool :=
  match s with
  | "" => false
  | String c s =>
      if Ascii.eqb c "Z" || Ascii.eqb c "X" then false
      else if Ascii.eqb c "S" || Ascii.eqb c "R" || Ascii.eqb c "D" || Ascii.eqb c "T" then true
      else state_alive s
  end.

(** The loop over the lines of the file. *)
Fixpoint status_alive (lines : list string) : bool :=
  match lines with
  | [] => false
  | l :: ls => if starts_with "State:" l then state_alive (str_drop 6 l) else status_alive ls
  end.

Definition gc_is_process_really_alive (k : kernel) (pid : Z) : bool :=
  match k_status k pid with
  | None => false
  | Some content => status_alive (file_chunks 256 content)
  end.

(** ** Registering *)

(** Forget the registration of a slot, closing its pidfd. *)
Definition gc_unregister (slot : nat) (g : gc_state) : gc_state :=
  let fd := gc_pidfd (gc_pidfd_table g !!! slot) in
  let g := if 0 <=? fd then close_fd fd (epoll_del fd g) else g in
  set_entry slot no_entry g.

Definition gc_register_pidfd (k : kernel) (slot : Z) (pid start_time : Z) (g : gc_state)
    : gc_state :=
  if (slot <? 0) || (Z.of_nat MAX_PROCESSES <=? slot) then g
  else
    let i := Z.to_nat slot in
    let old := gc_pidfd (gc_pidfd_table g !!! i) in
    let g := if 0 <=? old then close_fd old (epoll_del old g) else g in
    let fd := k_pidfd_open k (gc_fds g) pid in
    if fd <? 0 then set_entry i no_entry g
    else
      let g := mk_gcs (gc_pidfd_table g) (gc_fds g ∪ {[fd]}) (gc_interest g) in
      if k_epoll_add k fd
      then set_entry i (mk_gc fd pid start_time)
             (mk_gcs (gc_pidfd_table g) (gc_fds g) (<[fd:=slot]> (gc_interest g)))
      else set_entry i no_entry (close_fd fd g).

(** ** Reclaiming *)

(** The block the three reclaiming branches share: empty the slot, take its
    usage out of the global counters, bump the version. *)
Definition gc_reclaim (slot : nat) (d : shared_memory_data) : shared_memory_data :=
  let dead := process_stats d !!! slot in
  let d := set_stat slot zero_usage d in
  let d := set_pid slot 0 d in
  let d := set_start slot 0 d in
  bump_version (set_global (usage_sub (global_stats d) dead) d).

(** [(a > b) ? a - b : 0], at the width of an [int] and of a [uint64_t]. *)
Definition monus32 (a b : Z) : Z := if b <? a then i32 (a - b) else 0.
Definition monus64 (a b : Z) : Z := if b <? a then u64 (a - b) else 0.

Definition release_dead (dead : resource_usage) (u : tenant_resource_usage)
    : tenant_resource_usage :=
  mk_tusage (monus32 (t_qp_count u) (qp_count dead)) (monus32 (t_mr_count u) (mr_count dead))
    (t_cq_count u) (t_pd_count u) (monus64 (t_memory_used u) (memory_used dead))
    (total_qp_creates u) (total_qp_destroys u) (total_mr_regs u) (total_mr_deregs u).

(** The adjustment of the dead process's tenant. *)
Definition gc_adjust_tenant (ptr : bool) (now pid : Z) (dead : resource_usage)
    (s : tenant_shared_memory) : tenant_shared_memory :=
  let '(rc, tid, s) := tenant_get_process_tenant ptr now s pid in
  if (rc =? 0) && (0 <? tid) then
    let '(rc, tu, s) := tenant_get_resource_usage ptr now s tid in
    if rc =? 0
    then (tenant_update_resource_usage ptr now s tid (Some (release_dead dead tu))).2
    else s
  else s.

(** A pidfd became readable. *)
Definition gc_handle_process_exit (ptr tptr : bool) (now : Z) (slot : nat)
    (g : gc_state) (d : shared_memory_data) (s : tenant_shared_memory)
    : gc_state * shared_memory_data * tenant_shared_memory :=
  if negb ptr then (g, d, s)
  else
    let entry := gc_pidfd_table g !!! slot in
    let d := shm_lock d in
    let pid := process_pids d !!! slot in
    let slot_changed := negb (pid =? gc_pid entry)
                        || negb (process_start_times d !!! slot =? gc_start_time entry) in
    let dead := process_stats d !!! slot in
    let hit := negb slot_changed && negb (pid =? 0) in
    let d := shm_unlock (if hit then gc_reclaim slot d else d) in
    let s := if hit && (0 <? pid) && (0 <? qp_count dead)
             then gc_adjust_tenant tptr now pid dead s else s in
    (gc_unregister slot g, d, s).

(** One slot of the scan. *)
Definition gc_scan_slot (k : kernel) (slot : nat) (g : gc_state) (d : shared_memory_data)
    : gc_state * shared_memory_data :=
  let pid := process_pids d !!! slot in
  let st := process_start_times d !!! slot in
  let entry := gc_pidfd_table g !!! slot in
  if pid =? 0 then
    (* case 0: the slot is free *)
    ((if 0 <=? gc_pidfd entry then gc_unregister slot g else g), d)
  else if gc_pidfd entry <? 0 then
    (* case 1: not registered yet *)
    let g := gc_register_pidfd k (Z.of_nat slot) pid st g in
    if (gc_pidfd (gc_pidfd_table g !!! slot) <? 0) && negb (gc_is_process_really_alive k pid)
    then (g, gc_reclaim slot d)
    else (g, d)
  else if negb (gc_pid entry =? pid) || negb (gc_start_time entry =? st) then
    (* case 2: the slot changed hands *)
    let g := set_entry slot no_entry (close_fd (gc_pidfd entry) g) in
    (gc_register_pidfd k (Z.of_nat slot) pid st g, d)
  else if negb (gc_is_process_really_alive k pid) then
    (* case 3: registered, but dead *)
    (gc_unregister slot g, gc_reclaim slot d)
  else (g, d).

Fixpoint gc_scan_from (k : kernel) (slots : list nat) (g : gc_state) (d : shared_memory_data)
    : gc_state * shared_memory_data :=
  match slots with
  | [] => (g, d)
  | i :: slots => let '(g, d) := gc_scan_slot k i g d in gc_scan_from k slots g d
  end.

Definition gc_scan_and_register (ptr : bool) (k : kernel) (g : gc_state)
    (d : shared_memory_data) : gc_state * shared_memory_data :=
  if negb ptr then (g, d)
  else
    let '(g, d) := gc_scan_from k (seq 0 MAX_PROCESSES) g (shm_lock d) in
    (g, shm_unlock d).

(** ** The GC thread *)

(** One pass of the loop: the slots epoll_wait reported readable, then a scan. *)
Fixpoint gc_events (ptr tptr : bool) (now : Z) (slots : list Z)
    (st : gc_state * shared_memory_data * tenant_shared_memory)
    : gc_state * shared_memory_data * tenant_shared_memory :=
  match slots with
  | [] => st
  | i :: slots =>
      let '(g, d, s) := st in
      gc_events ptr tptr now slots (gc_handle_process_exit ptr tptr now (Z.to_nat i) g d s)
  end.

Definition gc_pass (ptr tptr : bool) (now : Z) (k : kernel) (events : list Z)
    (st : gc_state * shared_memory_data * tenant_shared_memory)
    : gc_state * shared_memory_data * tenant_shared_memory :=
  let '(g, d, s) := gc_events ptr tptr now events st in
  let '(g, d) := gc_scan_and_register ptr k g d in
  (g, d, s).

(** The start of the thread: the table is zeroed with [memset], then scanned. *)
Definition gc_start (ptr : bool) (k : kernel) (g : gc_state) (d : shared_memory_data)
    : gc_state * shared_memory_data :=
  gc_scan_and_register ptr k
    (mk_gcs (replicate MAX_PROCESSES zero_entry) (gc_fds g) (gc_interest g)) d.

(** The loop, one element of the list per return of epoll_wait; [None] is an
    error, which ends it. *)
Fixpoint gc_loop (ptr tptr : bool) (waits : list (Z * kernel * option (list Z)))
    (st : gc_state * shared_memory_data * tenant_shared_memory)
    : gc_state * shared_memory_data * tenant_shared_memory :=
  match waits with
  | [] => st
  | (_, _, None) :: _ => st
  | (now, k, Some events) :: waits => gc_loop ptr tptr waits (gc_pass ptr tptr now k events st)
  end.

(** ** Copying the eBPF counters *)

(** The walk over the process map: [next_key] is bpf_map_get_next_key,
    [lookup] bpf_map_lookup_elem.  One unit of fuel per key. *)
Fixpoint sync_processes (proc_stat : Z -> option string) (now : Z)
    (next_key : Z -> option Z) (lookup : Z -> option resource_usage)
    (fuel : nat) (current_pid : Z) (d : shared_memory_data) : shared_memory_data :=
  match fuel with
  | O => d
  | S fuel =>
      match next_key current_pid with
      | None => d
      | Some next_pid =>
          let d := match lookup next_pid with
                   | Some u => (shm_update_process_resources proc_stat true now d next_pid
                                  (Some u)).2
                   | None => d
                   end in
          sync_processes proc_stat now next_key lookup fuel next_pid d
      end
  end.

(** [global] is the element of the global map, when the map is open and has it;
    [processes] the process map, when it is open. *)
Definition sync_ebpf_data_to_shared_memory (ptr : bool) (proc_stat : Z -> option string)
    (now : Z) (global : option resource_usage)
    (processes : option ((Z -> option Z) * (Z -> option resource_usage))) (fuel : nat)
    (d : shared_memory_data) : shared_memory_data :=
  if negb ptr then d
  else
    let d := match global with
             | Some u => shm_unlock (bump_version (set_global
                 (mk_usage (qp_count u) (mr_count u) (memory_used u)) (shm_lock d)))
             | None => d
             end in
    match processes with
    | Some (next_key, lookup) => sync_processes proc_stat now next_key lookup fuel 0 d
    | None => d
    end.

(** ** Start-up *)

(** The global limits and the descriptors of the two eBPF maps. *)
Record collector := mk_collector {
  c_max_global_qp : Z;
  c_max_global_memory : Z;
  process_resources_map_fd : Z;
  global_resources_map_fd : Z
}.

Definition initial_collector : collector :=
  mk_collector 10 (1024 * 1024 * 1024 * 10) (-1) (-1).

Definition update_max_global_qp (getenv : string -> option string) (c : collector) : collector :=
  match getenv "RDMA_INTERCEPT_MAX_GLOBAL_QP" with
  | None => c
  | Some v => let new_max := u32 (atoi v) in
              if 0 <? new_max
              then mk_collector new_max (c_max_global_memory c) (process_resources_map_fd c)
                     (global_resources_map_fd c)
              else c
  end.

(** [atoll] is [strtol] on LP64, converted to [uint64_t]. *)
Definition update_max_global_memory (getenv : string -> option string) (c : collector)
    : collector :=
  match getenv "RDMA_INTERCEPT_MAX_GLOBAL_MEMORY" with
  | None => c
  | Some v => let new_max := u64 (strtol v) in
              if 0 <? new_max
              then mk_collector (c_max_global_qp c) new_max (process_resources_map_fd c)
                     (global_resources_map_fd c)
              else c
  end.

(** [bpf_obj_get] opens a pinned map, negative on failure; [sync_ok] and
    [gc_ok]: the two pthread_create calls succeed.  The last component of the
    result says which threads run. *)
Definition initialize_service (getenv : string -> option string) (sys : shm_sys) (now : Z)
    (bpf_obj_get : string -> Z) (sync_ok gc_ok : bool)
    (c : collector) (h : shm_handle) (obj : option shared_memory_data)
    : Z * collector * shm_handle * option shared_memory_data * (bool * bool) :=
  let '(rc, h, obj) := shm_init sys now h obj in
  if negb (rc =? 0) then (-1, c, h, obj, (false, false))
  else
    let c := update_max_global_memory getenv (update_max_global_qp getenv c) in
    let obj := (fun d => (shm_set_global_limits (shm_get_ptr h) d (c_max_global_qp c) 1000
                            (c_max_global_memory c)).2) <$> obj in
    let c := mk_collector (c_max_global_qp c) (c_max_global_memory c)
               (bpf_obj_get "/sys/fs/bpf/process_resources")
               (bpf_obj_get "/sys/fs/bpf/global_resources") in
    if negb sync_ok then (-1, c, h, obj, (false, false))
    else if negb gc_ok then (-1, c, h, obj, (true, false))
    else (0, c, h, obj, (true, true)).

(** * Theorems *)

(** ** Reclaiming one slot *)

Lemma gc_reclaim_write d i :
  shm_lock_word d = 0 -> slot_write d i 0 zero_usage (gc_reclaim i d).
Proof.
  intros Hl. unfold gc_reclaim. split; simpl; rewrite ?length_insert; try done.
  apply usage_sub_move.
Qed.

Lemma gc_reclaim_ok {c} d i :
  let owner := process_pids d !!! i in
  shm_inv c d -> (i < MAX_PROCESSES)%nat -> owner <> 0 ->
  shm_inv c (gc_reclaim i d) /\ ledger d !! owner = Some (process_stats d !!! i) /\
  ledger (gc_reclaim i d) = delete owner (ledger d) /\
  process_pids (gc_reclaim i d) !! i = Some 0.
Proof.
  intros owner Hok Hi Ho. apply slot_write_forget; [done|done|done|].
  by apply gc_reclaim_write, (ok_lock d Hok).
Qed.

(** Reclaiming a slot is what [shm_clear_process_entry] does to it. *)
Lemma gc_reclaim_clears d i :
  (i < MAX_PROCESSES)%nat -> process_pids d !!! i <> 0 ->
  gc_reclaim i d = (shm_clear_process_entry true d (Z.of_nat i)).2.
Proof.
  intros Hi Hp. unfold shm_clear_process_entry. cbn [negb orb].
  rewrite (proj2 (Z.ltb_ge (Z.of_nat i) 0)), (proj2 (Z.leb_gt _ _)) by lia. cbn [orb].
  rewrite Nat2Z.id. by replace (process_pids d !!! i =? 0) with false by lia.
Qed.

Lemma gc_reclaim_locked {c} d i :
  shm_inv c d -> shm_unlock (gc_reclaim i (shm_lock d)) = gc_reclaim i d.
Proof. intros Hok. unfold gc_reclaim. pose proof (ok_lock _ Hok). destruct d; simpl in *. by subst. Qed.

(** The lock word plays no part in the scan. *)
Lemma gc_scan_slot_lock k i g d l :
  gc_scan_slot k i g (set_lock l d) =
    let '(g', d') := gc_scan_slot k i g d in (g', set_lock l d').
Proof.
  unfold gc_scan_slot. simpl.
  repeat match goal with |- context [if ?b then _ else _] => destruct b end; reflexivity.
Qed.

Lemma gc_scan_from_lock k js g d l :
  gc_scan_from k js g (set_lock l d) =
    let '(g', d') := gc_scan_from k js g d in (g', set_lock l d').
Proof.
  revert g d. induction js as [|i js IH]; intros g d; simpl; [done|].
  rewrite gc_scan_slot_lock. destruct (gc_scan_slot k i g d). apply IH.
Qed.

Lemma gc_scan_slot_word k i g d :
  shm_lock_word (gc_scan_slot k i g d).2 = shm_lock_word d.
Proof.
  unfold gc_scan_slot.
  repeat match goal with |- context [if ?b then _ else _] => destruct b end; reflexivity.
Qed.

Lemma gc_scan_from_word k js g d : shm_lock_word (gc_scan_from k js g d).2 = shm_lock_word d.
Proof.
  revert g d. induction js as [|i js IH]; intros g d; simpl; [done|].
  pose proof (gc_scan_slot_word k i g d) as H. destruct (gc_scan_slot k i g d) as [g' d'].
  simpl in H. by rewrite IH.
Qed.

Lemma set_lock_id d l : shm_lock_word d = l -> set_lock l d = d.
Proof. destruct d; simpl. by intros <-. Qed.

Lemma gc_scan_eq {c} k g d :
  shm_inv c d ->
  gc_scan_and_register true k g d = gc_scan_from k (seq 0 MAX_PROCESSES) g d.
Proof.
  intros Hok. unfold gc_scan_and_register. cbn [negb]. unfold shm_lock, shm_unlock.
  rewrite gc_scan_from_lock. pose proof (gc_scan_from_word k (seq 0 MAX_PROCESSES) g d) as H.
  destruct (gc_scan_from _ _ _ _) as [g' d']. simpl in *. f_equal. rewrite (ok_lock d Hok) in H.
  by destruct d'; simpl in *; subst.
Qed.

(** ** Safety of the scan *)

(** What one slot of the scan does to the process table. *)
Lemma gc_scan_slot_cases k i g d :
  let p := process_pids d !!! i in
  (gc_scan_slot k i g d).2 = d \/
  ((gc_scan_slot k i g d).2 = gc_reclaim i d /\ p <> 0 /\ gc_is_process_really_alive k p = false).
Proof.
  unfold gc_scan_slot. destruct (_ =? 0) eqn:E0; [by left|]. tests.
  destruct (_ <? 0); simpl.
  - destruct (_ && _) eqn:E; [|by left]. tests. by right.
  - destruct (_ || _); [by left|]. destruct (gc_is_process_really_alive k _) eqn:E; [by left|].
    by right.
Qed.

Lemma gc_scan_slot_ok {c} k i g d :
  shm_inv c d -> (i < MAX_PROCESSES)%nat ->
  shm_inv c (gc_scan_slot k i g d).2 /\
  forall p, ledger (gc_scan_slot k i g d).2 !! p = ledger d !! p \/
            (gc_is_process_really_alive k p = false /\ ledger (gc_scan_slot k i g d).2 !! p = None).
Proof.
  intros Hok Hi. destruct (gc_scan_slot_cases k i g d) as [->|(-> & Hp & Hd)].
  { split; [done|]. by left. }
  destruct (gc_reclaim_ok d i Hok Hi Hp) as (Hok' & _ & Hl & _). split; [done|].
  intros p. rewrite Hl. destruct (decide (p = process_pids d !!! i)) as [->|Hne].
  - right. by rewrite lookup_delete_eq.
  - left. by rewrite lookup_delete_ne.
Qed.

Lemma gc_scan_from_ok {c} k js g d :
  shm_inv c d -> Forall (fun i => i < MAX_PROCESSES)%nat js ->
  shm_inv c (gc_scan_from k js g d).2 /\
  forall p, ledger (gc_scan_from k js g d).2 !! p = ledger d !! p \/
            (gc_is_process_really_alive k p = false /\ ledger (gc_scan_from k js g d).2 !! p = None).
Proof.
  intros Hok His. revert g d Hok. induction His as [|i js Hi His IH]; intros g d Hok; simpl.
  { split; [done|]. by left. }
  destruct (gc_scan_slot_ok k i g d Hok Hi) as [Hok1 H1].
  destruct (gc_scan_slot k i g d) as [g1 d1]. simpl in *.
  destruct (IH g1 d1 Hok1) as [Hok2 H2]. split; [done|]. intros p.
  destruct (H2 p) as [->|?]; [|by right]. destruct (H1 p) as [?|?]; [by left|by right].
Qed.

Lemma seq_in_range n m : (n <= m)%nat -> Forall (fun i => i < m)%nat (seq 0 n).
Proof. intros H. apply Forall_forall. intros i Hi%elem_of_seq. lia. Qed.

(** Which processes /proc shows alive: the status file can be read, and on
    its first "State:" line the first of the letters R, S, D, T, Z and X is one
    of R, S, D and T. *)
Definition live_letter (c : ascii) : Prop := c ∈ ["R"; "S"; "D"; "T"]%char.
Definition dead_letter (c : ascii) : Prop := c ∈ ["Z"; "X"]%char.

Definition shown_alive (status : option string) : Prop :=
  exists content pre u c v post, status = Some content /\
    file_chunks 256 content = (pre ++ ("State:" +:+ (u +:+ String c v)) :: post)%list /\
    Forall (fun l => starts_with "State:" l = false) pre /\
    Forall (fun x => ~ live_letter x /\ ~ dead_letter x) (String.list_ascii_of_string u) /\
    live_letter c.

Lemma letter_cases c :
  (Ascii.eqb c "Z" || Ascii.eqb c "X" = true <-> dead_letter c) /\
  (Ascii.eqb c "S" || Ascii.eqb c "R" || Ascii.eqb c "D" || Ascii.eqb c "T" = true
   <-> live_letter c).
Proof.
  unfold live_letter, dead_letter. rewrite !orb_true_iff, !Ascii.eqb_eq.
  rewrite !elem_of_cons, elem_of_nil. tauto.
Qed.

Lemma letters_exclude c : live_letter c -> ~ dead_letter c.
Proof.
  unfold live_letter, dead_letter. rewrite !elem_of_cons, elem_of_nil.
  intros H1 H2. by destruct H1 as [->|[->|[->|[->|[]]]]]; destruct H2 as [|[|[]]].
Qed.

Lemma state_alive_spec s :
  state_alive s = true <->
  exists u c v, s = u +:+ String c v /\ live_letter c /\
    Forall (fun x => ~ live_letter x /\ ~ dead_letter x) (String.list_ascii_of_string u).
Proof.
  induction s as [|x s IH]; simpl.
  { split; [done|]. intros ([|] & c & v & H & _); discriminate. }
  destruct (_ || _) eqn:E1.
  { apply (letter_cases x) in E1. split; [done|]. intros ([|y u] & c & v & [= -> ->] & Hc & Hu).
    - by destruct (letters_exclude c).
    - simpl in Hu. inversion_clear Hu as [|? ? [_ Hn] _]. done. }
  destruct (_ || _ || _ || _) eqn:E2.
  { apply (letter_cases x) in E2. split; [|done]. intros _. by exists "", x, s. }
  assert (Hn : ~ live_letter x /\ ~ dead_letter x).
  { split; intros H; apply (letter_cases x) in H; congruence. }
  rewrite IH. split.
  - intros (u & c & v & -> & Hc & Hu). exists (String x u), c, v. split_and!; [done|done|].
    simpl. by constructor.
  - intros ([|y u] & c & v & [= -> ->] & Hc & Hu); [by destruct Hn|].
    exists u, c, v. simpl in Hu. by inversion_clear Hu.
Qed.

Lemma starts_with_split p l : starts_with p l = true -> l = p +:+ str_drop (String.length p) l.
Proof.
  revert l. induction p as [|a p IH]; intros [|b l]; simpl; try done.
  intros [->%Ascii.eqb_eq H]%andb_true_iff. exact (f_equal (String b) (IH l H)).
Qed.

Lemma status_alive_spec lines :
  status_alive lines = true <->
  exists pre l post, lines = (pre ++ ("State:" +:+ l) :: post)%list /\
    Forall (fun x => starts_with "State:" x = false) pre /\ state_alive l = true.
Proof.
  induction lines as [|l ls IH]; cbn [status_alive].
  { split; [done|]. intros ([|] & x & post & H & _); discriminate. }
  destruct (starts_with "State:" l) eqn:E.
  - apply starts_with_split in E. change (String.length "State:") with 6%nat in E.
    split.
    + intros H. exists [], (str_drop 6 l), ls. split_and!; [|done|done]. by rewrite <- E.
    + intros ([|y pre] & l' & post & [= -> ->] & Hpre & H); [by rewrite E in H || done|].
      inversion_clear Hpre. rewrite E in *. done.
  - rewrite IH. split.
    + intros (pre & l' & post & -> & Hpre & H). exists (l :: pre), l', post.
      split_and!; [done|by constructor|done].
    + intros ([|y pre] & l' & post & [= -> ->] & Hpre & H); [done|].
      inversion_clear Hpre. by exists pre, l', post.
Qed.

Lemma really_alive_spec k pid :
  gc_is_process_really_alive k pid = true <-> shown_alive (k_status k pid).
Proof.
  unfold gc_is_process_really_alive, shown_alive. destruct (k_status k pid) as [content|].
  2: { split; [done|]. by intros (? & ? & ? & ? & ? & ? & ? & _). }
  rewrite status_alive_spec. setoid_rewrite state_alive_spec. split.
  - intros (pre & l & post & Hf & Hpre & u & c & v & -> & Hc & Hu).
    by exists content, pre, u, c, v, post.
  - intros (? & pre & u & c & v & post & [= <-] & Hf & Hpre & Hu & Hc). naive_solver.
Qed.

(** C17. The scan only reclaims what /proc does not show alive.  Whatever the
    kernel answers, a scan keeps the process table consistent (where the global
    counters were the sums of the table they still are, so they drop by exactly
    what is reclaimed); every process either keeps its entry unchanged or loses
    it, and it loses it only if its /proc/<pid>/status cannot be read or does
    not show one of the states R, S, D and T on its "State:" line.  (A live
    process in another state, such as one stopped by a tracer, which is
    reported as "t (tracing stop)", is therefore not protected.) *)
Theorem gc_scan_safe counted k g d :
  shm_inv counted d ->
  let '(g', d') := gc_scan_and_register true k g d in
  shm_inv counted d' /\
  forall p, ledger d' !! p = ledger d !! p \/
            (~ shown_alive (k_status k p) /\ ledger d' !! p = None).
Proof.
  intros Hok. rewrite (gc_scan_eq k g d Hok).
  destruct (gc_scan_from_ok k (seq 0 MAX_PROCESSES) g d Hok) as [H1 H2];
    [by apply seq_in_range|]. destruct (gc_scan_from _ _ _ _) as [g' d']. split; [done|].
  intros p. destruct (H2 p) as [?|[Hd ?]]; [by left|]. right. split; [|done].
  rewrite <- really_alive_spec. congruence.
Qed.

(** ** Progress of the scan *)

(** What the scan knows about one slot. *)
Definition slot_view (i : nat) (g : gc_state) (d : shared_memory_data) : gc_entry * Z * Z :=
  (gc_pidfd_table g !!! i, process_pids d !!! i, process_start_times d !!! i).

Definition tables_len (g : gc_state) (d : shared_memory_data) : Prop :=
  length (gc_pidfd_table g) = MAX_PROCESSES /\ length (process_pids d) = MAX_PROCESSES /\
  length (process_start_times d) = MAX_PROCESSES.

(** How far a registration is from the scan noticing that its process died. *)
Definition stage (v : gc_entry * Z * Z) : nat :=
  let '(x, pid, st) := v in
  if gc_pidfd x <? 0 then 2
  else if negb (gc_pid x =? pid) || negb (gc_start_time x =? st) then 3 else 1.

Lemma register_table k slot pid st g :
  exists x, gc_pidfd_table (gc_register_pidfd k (Z.of_nat slot) pid st g) =
              (if (slot <? MAX_PROCESSES)%nat then <[slot:=x]> (gc_pidfd_table g)
               else gc_pidfd_table g) /\
            (x = no_entry \/ exists fd, 0 <= fd /\ x = mk_gc fd pid st).
Proof.
  unfold gc_register_pidfd. rewrite (proj2 (Z.ltb_ge (Z.of_nat slot) 0)) by lia.
  rewrite Nat2Z.id. destruct (Z.of_nat MAX_PROCESSES <=? _) eqn:E; tests; cbn [orb].
  { replace (slot <? MAX_PROCESSES)%nat with false by (symmetry; apply Nat.ltb_ge; lia).
    exists no_entry. eauto. }
  replace (slot <? MAX_PROCESSES)%nat with true by (symmetry; apply Nat.ltb_lt; lia).
  set (g1 := if 0 <=? _ then _ else _).
  assert (Hg : gc_pidfd_table g1 = gc_pidfd_table g) by (unfold g1; by destruct (0 <=? _)).
  destruct (_ <? 0) eqn:Efd; tests; [|destruct (k_epoll_add k _)]; simpl; rewrite Hg; eexists;
    split; try done; eauto.
Qed.

(** The scan of a slot does not touch the others. *)
Lemma gc_scan_slot_other k j i g d :
  i <> j -> tables_len g d ->
  slot_view i (gc_scan_slot k j g d).1 (gc_scan_slot k j g d).2 = slot_view i g d /\
  tables_len (gc_scan_slot k j g d).1 (gc_scan_slot k j g d).2.
Proof.
  intros Hne (H1 & H2 & H3). unfold gc_scan_slot, slot_view, tables_len.
  assert (Hun : gc_pidfd_table (gc_unregister j g) = <[j:=no_entry]> (gc_pidfd_table g)).
  { unfold gc_unregister. simpl. by destruct (0 <=? _). }
  assert (Hreg : forall g0 pid st, length (gc_pidfd_table g0) = MAX_PROCESSES ->
    gc_pidfd_table (gc_register_pidfd k (Z.of_nat j) pid st g0) !!! i = gc_pidfd_table g0 !!! i /\
    length (gc_pidfd_table (gc_register_pidfd k (Z.of_nat j) pid st g0)) = MAX_PROCESSES).
  { intros g0 pid st Hg0. destruct (register_table k j pid st g0) as (x & -> & _).
    destruct (_ <? _)%nat; rewrite ?length_insert; [|done].
    by rewrite list_lookup_total_insert_ne. }
  destruct (_ =? 0); [|destruct (_ <? 0); [|destruct (_ || _); [|destruct (negb _)]]].
  - destruct (0 <=? _); cbn [fst snd]; [|done].
    rewrite Hun, length_insert, list_lookup_total_insert_ne by done. done.
  - destruct (Hreg g (process_pids d !!! j) (process_start_times d !!! j) H1) as [Hr1 Hr2].
    destruct (_ && _); simpl; rewrite ?length_insert, ?list_lookup_total_insert_ne, ?Hr1 by done;
      done.
  - destruct (Hreg (set_entry j no_entry (close_fd (gc_pidfd (gc_pidfd_table g !!! j)) g))
      (process_pids d !!! j) (process_start_times d !!! j)) as [Hr1 Hr2].
    { simpl. by rewrite length_insert. }
    cbn [fst snd]. rewrite Hr1. simpl. rewrite list_lookup_total_insert_ne by done. done.
  - cbn [fst snd]. rewrite Hun. simpl.
    rewrite ?length_insert, ?list_lookup_total_insert_ne by done. done.
  - done.
Qed.

(** The scan of the slot of a dead process frees it or comes closer. *)
Lemma gc_scan_slot_progress k i g d :
  (i < MAX_PROCESSES)%nat -> tables_len g d ->
  let p := process_pids d !!! i in
  gc_is_process_really_alive k p = false ->
  let v' := slot_view i (gc_scan_slot k i g d).1 (gc_scan_slot k i g d).2 in
  (v'.1.2 = 0 \/
   (v'.1.2 = p /\ v'.2 = process_start_times d !!! i /\ (stage v' < stage (slot_view i g d))%nat)) /\
  tables_len (gc_scan_slot k i g d).1 (gc_scan_slot k i g d).2.
Proof.
  intros Hi (H1 & H2 & H3) p Hdead. unfold gc_scan_slot, slot_view, tables_len. fold p.
  assert (Hi' : (i <? MAX_PROCESSES)%nat = true) by (by apply Nat.ltb_lt).
  destruct (p =? 0) eqn:E0; tests.
  { split; [by left|]. destruct (0 <=? _); simpl; [|done].
    unfold gc_unregister. by destruct (0 <=? _); simpl; rewrite length_insert. }
  destruct (gc_pidfd _ <? 0) eqn:Eu.
  { destruct (register_table k i p (process_start_times d !!! i) g) as (x & Hx & Hcase).
    rewrite Hi' in Hx. rewrite Hdead, Hx, arr_insert_eq by lia. simpl.
    destruct Hcase as [->|(fd & Hfd & ->)]; simpl.
    - rewrite ?length_insert, Hx, ?length_insert, arr_insert_eq by lia. split; [by left|done].
    - replace (fd <? 0) with false by lia. simpl. rewrite Hx, length_insert, arr_insert_eq by lia.
      split; [|done]. right. split_and!; [done|done|]. unfold stage. simpl. rewrite Eu.
      replace (fd <? 0) with false by lia. rewrite !Z.eqb_refl. simpl. lia. }
  destruct (_ || _) eqn:Es.
  { set (g1 := set_entry i no_entry _).
    destruct (register_table k i p (process_start_times d !!! i) g1) as (x & Hx & Hcase).
    rewrite Hi' in Hx. simpl in *. rewrite Hx, !length_insert, arr_insert_eq
      by (rewrite length_insert; lia). split; [|done]. right. split_and!; [done|done|].
    rewrite Eu, Es. destruct Hcase as [->|(fd & Hfd & ->)]; simpl; [lia|].
    replace (fd <? 0) with false by lia. fold p. rewrite !Z.eqb_refl. simpl. lia. }
  rewrite Hdead. simpl. rewrite !length_insert, arr_insert_eq by lia. split; [by left|].
  split; [|done]. unfold gc_unregister. by destruct (0 <=? _).
Qed.

Lemma gc_scan_from_other k js i g d :
  i ∉ js -> tables_len g d ->
  slot_view i (gc_scan_from k js g d).1 (gc_scan_from k js g d).2 = slot_view i g d /\
  tables_len (gc_scan_from k js g d).1 (gc_scan_from k js g d).2.
Proof.
  revert g d. induction js as [|j js IH]; intros g d Hi Hl; simpl; [done|].
  apply not_elem_of_cons in Hi as [Hij Hi].
  destruct (gc_scan_slot_other k j i g d Hij Hl) as [Hv Hl'].
  destruct (gc_scan_slot k j g d) as [g1 d1]. simpl in *. rewrite <- Hv. by apply IH.
Qed.

Lemma gc_scan_from_app k js ks g d :
  gc_scan_from k (js ++ ks)%list g d =
    let '(g, d) := gc_scan_from k js g d in gc_scan_from k ks g d.
Proof.
  revert g d. induction js as [|j js IH]; intros g d; simpl; [done|].
  destruct (gc_scan_slot k j g d). apply IH.
Qed.

Lemma seq_split_at i n :
  (i < n)%nat -> seq 0 n = (seq 0 i ++ i :: seq (S i) (n - S i))%list.
Proof. intros H. replace n with (i + S (n - S i))%nat at 1 by lia. by rewrite seq_app. Qed.

(** A process that is still in the table after a scan that saw it dead was
    there before, and its registration is closer to being reclaimed. *)
Lemma gc_scan_stage {c} k i p g d :
  shm_inv c d -> tables_len g d -> (i < MAX_PROCESSES)%nat -> p <> 0 ->
  gc_is_process_really_alive k p = false ->
  let '(g', d') := gc_scan_and_register true k g d in
  shm_inv c d' /\ tables_len g' d' /\
  (process_pids d' !!! i = p ->
   process_pids d !!! i = p /\ (stage (slot_view i g' d') < stage (slot_view i g d))%nat).
Proof.
  intros Hok Hl Hi Hp Hdead. rewrite gc_scan_eq by done.
  pose proof (gc_scan_from_ok k (seq 0 MAX_PROCESSES) g d Hok
    (seq_in_range _ _ (Nat.le_refl _))) as [Hok' _].
  revert Hok'. rewrite (seq_split_at i MAX_PROCESSES Hi), gc_scan_from_app.
  destruct (gc_scan_from_other k (seq 0 i) i g d) as [Hv1 Hl1];
    [intros H%elem_of_seq; lia|done|].
  destruct (gc_scan_from k (seq 0 i) g d) as [g1 d1]. simpl in Hv1, Hl1.
  cbn [gc_scan_from]. pose proof (gc_scan_slot_cases k i g1 d1) as Hcase.
  pose proof (gc_scan_slot_progress k i g1 d1 Hi Hl1) as Hprog.
  pose proof (gc_scan_slot_other k i (S i) g1 d1 ltac:(lia) Hl1) as Hother.
  destruct (gc_scan_slot k i g1 d1) as [g2 d2] eqn:E2. cbn [fst snd] in *.
  assert (Hl2 : tables_len g2 d2) by apply Hother.
  destruct (gc_scan_from_other k (seq (S i) (MAX_PROCESSES - S i)) i g2 d2) as [Hv3 Hl3];
    [intros H%elem_of_seq; lia|done|].
  destruct (gc_scan_from k (seq (S i) _) g2 d2) as [g3 d3]. simpl in Hv3, Hl3.
  intros Hok'. split_and!; [done|done|]. intros Heq.
  rewrite Hv3, <- Hv1. unfold slot_view in Hv1, Hv3. injection Hv3 as _ Hp3 _.
  injection Hv1 as _ Hp1 _. rewrite Hp3 in Heq.
  assert (Hp1' : process_pids d1 !!! i = p).
  { destruct Hcase as [->|(Hd2 & _)]; [done|]. exfalso. rewrite Hd2 in Heq. simpl in Heq.
    rewrite arr_insert_eq in Heq by (destruct Hl1 as (_ & -> & _); lia). done. }
  split; [congruence|]. destruct (Hprog ltac:(by rewrite Hp1')) as [[H0|(_ & _ & H)] _]; [|done].
  simpl in H0. congruence.
Qed.

(** C18. Every dead process is reclaimed.  Even if every epoll event is lost and
    pidfd_open and epoll_ctl answer arbitrarily, three consecutive scans that
    find a process dead in /proc leave it without an entry in the process
    table, whatever state its registration was in. *)
Theorem gc_three_scans counted k1 k2 k3 g d p :
  shm_inv counted d -> length (gc_pidfd_table g) = MAX_PROCESSES -> p <> 0 ->
  gc_is_process_really_alive k1 p = false -> gc_is_process_really_alive k2 p = false ->
  gc_is_process_really_alive k3 p = false ->
  let '(g1, d1) := gc_scan_and_register true k1 g d in
  let '(g2, d2) := gc_scan_and_register true k2 g1 d1 in
  let '(g3, d3) := gc_scan_and_register true k3 g2 d2 in
  ledger d3 !! p = None.
Proof.
  intros Hok Hg Hp H1 H2 H3.
  assert (Hl : tables_len g d) by (split; [done|split; [apply (ok_pids_len d Hok)|apply (ok_times_len d Hok)]]).
  destruct (gc_scan_and_register true k1 g d) as [g1 d1] eqn:E1.
  destruct (gc_scan_and_register true k2 g1 d1) as [g2 d2] eqn:E2.
  destruct (gc_scan_and_register true k3 g2 d2) as [g3 d3] eqn:E3.
  pose proof (fun i Hi => gc_scan_stage k1 i p g d Hok Hl Hi Hp H1) as S1. rewrite E1 in S1.
  destruct (S1 0%nat) as (Hok1 & Hl1 & _); [by apply Nat.ltb_lt|].
  pose proof (fun i Hi => gc_scan_stage k2 i p g1 d1 Hok1 Hl1 Hi Hp H2) as S2. rewrite E2 in S2.
  destruct (S2 0%nat) as (Hok2 & Hl2 & _); [by apply Nat.ltb_lt|].
  pose proof (fun i Hi => gc_scan_stage k3 i p g2 d2 Hok2 Hl2 Hi Hp H3) as S3. rewrite E3 in S3.
  destruct (S3 0%nat) as (Hok3 & Hl3 & _); [by apply Nat.ltb_lt|].
  rewrite ledger_lookup by done. destruct (find_idx _ _) as [i|] eqn:Ei; [|done]. exfalso.
  apply find_pid_Some in Ei. pose proof (lookup_lt_Some _ _ _ Ei) as Hi.
  rewrite (ok_pids_len d3 Hok3) in Hi. apply list_lookup_total_correct in Ei.
  destruct (S3 i Hi) as (_ & _ & C3). destruct (C3 Ei) as [Ei2 L3].
  destruct (S2 i Hi) as (_ & _ & C2). destruct (C2 Ei2) as [Ei1 L2].
  destruct (S1 i Hi) as (_ & _ & C1). destruct (C1 Ei1) as [_ L1].
  assert (stage (slot_view i g d) <= 3)%nat by (unfold stage, slot_view; repeat case_match; lia).
  assert (1 <= stage (slot_view i g3 d3))%nat by (unfold stage, slot_view; repeat case_match; lia).
  lia.
Qed.

(** ** The exit of a registered process *)

(** The section of [gc_handle_process_exit] under the lock of the table: the
    table after it, and the process whose tenant is to be adjusted. *)
Definition gc_exit_locked (slot : nat) (g : gc_state) (d : shared_memory_data)
    : shared_memory_data * option (Z * resource_usage) :=
  let entry := gc_pidfd_table g !!! slot in
  let d := shm_lock d in
  let pid := process_pids d !!! slot in
  let slot_changed := negb (pid =? gc_pid entry)
                      || negb (process_start_times d !!! slot =? gc_start_time entry) in
  let dead := process_stats d !!! slot in
  let hit := negb slot_changed && negb (pid =? 0) in
  (shm_unlock (if hit then gc_reclaim slot d else d),
   if hit && (0 <? pid) && (0 <? qp_count dead) then Some (pid, dead) else None).

(** The handler is that section, the adjustment, and the end of the
    registration. *)
Lemma gc_handle_sections tptr now slot g d s :
  gc_handle_process_exit true tptr now slot g d s =
    let '(d, dead) := gc_exit_locked slot g d in
    (gc_unregister slot g, d,
     match dead with
     | Some (pid, u) => gc_adjust_tenant tptr now pid u s
     | None => s
     end).
Proof.
  unfold gc_handle_process_exit, gc_exit_locked. cbn [negb]. cbv zeta. f_equal.
  by destruct (_ && (0 <? qp_count _)).
Qed.

(** Under the lock at most the slot is reclaimed. *)
Lemma gc_exit_locked_step {c} slot g d :
  shm_inv c d -> (slot < MAX_PROCESSES)%nat ->
  (gc_exit_locked slot g d).1 = d \/ shm_step c d (gc_exit_locked slot g d).1.
Proof.
  intros Hok Hi. unfold gc_exit_locked. cbn [fst]. simpl process_pids.
  destruct (_ && negb (_ =? 0)) eqn:E; [|left; by apply (lock_unlock d Hok)].
  right. rewrite (gc_reclaim_locked d slot Hok), gc_reclaim_clears by (tests; done).
  apply step_clear.
Qed.

(** A tenant's usage less the dead process's: queue pairs, memory regions and
    memory drop by the process's usage but not below zero, at the width of their
    types; the other counters and the statistics stay. *)
Definition give_back (dead : resource_usage) (u : tenant_resource_usage)
    : tenant_resource_usage :=
  mk_tusage (i32 (Z.max 0 (t_qp_count u - qp_count dead)))
    (i32 (Z.max 0 (t_mr_count u - mr_count dead))) (t_cq_count u) (t_pd_count u)
    (u64 (Z.max 0 (t_memory_used u - memory_used dead)))
    (total_qp_creates u) (total_qp_destroys u) (total_mr_regs u) (total_mr_deregs u).

(** The usage of all tenants after the dead process's share is given back. *)
Definition released (pid : Z) (dead : resource_usage) (s : tenant_shared_memory)
    : list tenant_resource_usage :=
  match bindings (pid_mappings s) !! pid with
  | None => usages s
  | Some t =>
      let x := tenants s !!! Z.to_nat t in
      if is_active x then <[Z.to_nat t := give_back dead (usage x)]> (usages s) else usages s
  end.

Lemma release_dead_gives dead u : release_dead dead u = give_back dead u.
Proof.
  unfold release_dead, give_back, monus32, monus64. f_equal.
  - destruct (_ <? _) eqn:E; tests; [by rewrite Z.max_r by lia|by rewrite Z.max_l by lia].
  - destruct (_ <? _) eqn:E; tests; [by rewrite Z.max_r by lia|by rewrite Z.max_l by lia].
  - destruct (_ <? _) eqn:E; tests; [by rewrite Z.max_r by lia|by rewrite Z.max_l by lia].
Qed.

Lemma gc_adjust_tenant_ok {ic} now pid dead s :
  tenant_inv ic s -> 0 < pid ->
  tenant_inv ic (gc_adjust_tenant true now pid dead s) /\
  usages (gc_adjust_tenant true now pid dead s) = released pid dead s.
Proof.
  intros Hok Hp. unfold gc_adjust_tenant, released. rewrite get_process_tenant_run by done.
  destruct (bindings _ !! pid) as [t|] eqn:Eb; cbn [Z.eqb andb].
  2: { split; [by apply tenant_ok_relock|done]. }
  pose proof Hok as [Hwf _].
  apply (bindings_spec Hwf) in Eb as (i & m & Hm & Hpid & <-); [|lia].
  destruct (wf_maps _ _ _ _ Hwf i m Hm) as [?|(_ & Ht & x & Hx & Hin)]; [lia|].
  replace (0 <? m_tenant_id m) with true by lia. rewrite (list_lookup_total_correct _ _ _ Hx).
  assert (Hr : tid_ok (m_tenant_id m) = true).
  { unfold tid_ok. apply negb_true_iff. apply lookup_lt_Some in Hx.
    rewrite (wf_tenants_len _ _ _ _ Hwf) in Hx. lia. }
  pose proof (tenant_ok_relock now s Hok) as Hok1. fold (relock now s) in Hok1.
  destruct (is_active x) eqn:Ha.
  - rewrite (get_usage_run now (m_tenant_id m) (relock now s) x) by done. cbn [Z.eqb].
    split.
    + apply tenant_update_usage_ok; [by apply tenant_ok_relock|lia].
    + rewrite (update_usage_run _ _ _ x) by done. cbn [snd].
      by rewrite usages_rewrite, release_dead_gives.
  - unfold tenant_get_resource_usage. unfold tid_ok in Hr. apply negb_true_iff in Hr.
    rewrite Hr. simpl. rewrite (list_lookup_total_correct _ _ _ Hx), Ha. simpl.
    split; [by apply tenant_ok_relock, tenant_ok_relock|done].
Qed.

(** C19. What the exit of a process gives back.  If the slot still belongs to the
    process that was registered (same pid and same start time), its entry
    leaves the process table and the global counters drop by exactly its usage.
    The tenants are adjusted only if the process held a queue pair: then its
    tenant's queue pairs, memory regions and memory (if it is bound to one and
    that tenant is active) drop by the process's figures, not below zero, and
    nothing else changes in any tenant's usage; without a queue pair no
    tenant's usage changes, whatever regions and memory the process held.  If the slot
    was taken over meanwhile, by another process or by the same pid with
    another start time, neither segment changes. *)
Theorem gc_exit_refines counted intact now slot g d s :
  shm_inv counted d -> tenant_inv intact s -> (slot < MAX_PROCESSES)%nat ->
  0 <= process_pids d !!! slot ->
  let pid := process_pids d !!! slot in
  let dead := process_stats d !!! slot in
  let entry := gc_pidfd_table g !!! slot in
  let '(g', d', s') := gc_handle_process_exit true true now slot g d s in
  if decide (pid <> 0 /\ gc_pid entry = pid /\
             gc_start_time entry = process_start_times d !!! slot)
  then shm_inv counted d' /\ ledger d !! pid = Some dead /\ ledger d' = delete pid (ledger d) /\
       global_stats d' = usage_sub (global_stats d) dead /\ tenant_inv intact s' /\
       usages s' = if 0 <? qp_count dead then released pid dead s else usages s
  else d' = d /\ s' = s.
Proof.
  intros Hok Hs Hi Hpid pid dead entry. unfold gc_handle_process_exit. cbn [negb].
  simpl process_pids. simpl process_start_times. fold pid dead entry.
  assert (Hlk : shm_unlock (shm_lock d) = d) by apply (lock_unlock d Hok).
  destruct (decide _) as [(Hp & Hep & Hes)|Hn].
  - rewrite Hep, Hes, !Z.eqb_refl. replace (pid =? 0) with false by lia.
    replace (0 <? pid) with true by lia. cbn [negb orb andb].
    destruct (gc_reclaim_ok d slot Hok Hi Hp) as (Hok' & Hld & Hl & _).
    rewrite (gc_reclaim_locked d slot Hok).
    split_and!; [done|done|done|done| |].
    + destruct (0 <? _); [|done]. by apply (gc_adjust_tenant_ok (ic:=intact)); [|lia].
    + destruct (0 <? _); [|done]. by apply (gc_adjust_tenant_ok (ic:=intact)); [|lia].
  - match goal with |- context [if ?b then gc_reclaim _ _ else _] =>
      assert (b = false) as -> end.
    { apply not_true_iff_false. intros Hb. apply Hn. tests. lia. }
    by rewrite Hlk.
Qed.

(** ** Who counts as alive *)

Lemma status_alive_skip pre l post :
  Forall (fun x => starts_with "State:" x = false) pre ->
  status_alive (pre ++ ("State:" +:+ l) :: post)%list = state_alive l.
Proof. induction 1 as [|x pre Hx _ IH]; [done|]. cbn [status_alive app]. by rewrite Hx. Qed.

(** How the collector reads the state letter of /proc/<pid>/status.  Running,
    sleeping, uninterruptible and stopped processes (R, S, D, T) are alive,
    zombies and dead ones (Z, X) are not.  A process stopped by a tracer, which
    the kernel reports as "t (tracing stop)", is also taken for dead. *)
Theorem gc_alive_letter k pid content pre c rest post :
  k_status k pid = Some content ->
  file_chunks 256 content = (pre ++ ("State:" +:+ String "009" (String c rest)) :: post)%list ->
  Forall (fun x => starts_with "State:" x = false) pre ->
  (c ∈ ["R"; "S"; "D"; "T"]%char -> gc_is_process_really_alive k pid = true) /\
  (c ∈ ["Z"; "X"]%char -> gc_is_process_really_alive k pid = false) /\
  (c = "t"%char -> rest = " (tracing stop)" +:+ String NEWLINE "" ->
   gc_is_process_really_alive k pid = false).
Proof.
  intros Hk Hc Hpre. unfold gc_is_process_really_alive. rewrite Hk, Hc, status_alive_skip by done.
  split_and!; intros Hin.
  - repeat (apply elem_of_cons in Hin as [->|Hin]; [done|]). by apply not_elem_of_nil in Hin.
  - repeat (apply elem_of_cons in Hin as [->|Hin]; [done|]). by apply not_elem_of_nil in Hin.
  - intros ->. by subst.
Qed.

(** ** Copying the eBPF counters *)

(** Two pairs of counters differ by the same amounts. *)
Definition same_skew (g g0 h h0 : resource_usage) : Prop :=
  i32 (qp_count h - qp_count h0) = i32 (qp_count g - qp_count g0) /\
  i32 (mr_count h - mr_count h0) = i32 (mr_count g - mr_count g0) /\
  u64 (memory_used h - memory_used h0) = u64 (memory_used g - memory_used g0).

Lemma same_skew_move g g0 u o : same_skew g g0 (usage_move g u o) (usage_move g0 u o).
Proof. unfold same_skew, usage_move. simpl. split_and!; warith. Qed.

Lemma same_skew_sub g g0 u : same_skew g g0 (usage_sub g u) (usage_sub g0 u).
Proof. unfold same_skew, usage_sub. simpl. split_and!; warith. Qed.

Lemma same_skew_trans a a0 b b0 c c0 :
  same_skew a a0 b b0 -> same_skew b b0 c c0 -> same_skew a a0 c c0.
Proof. unfold same_skew. intros (?&?&?) (?&?&?). split_and!; congruence. Qed.

(** An update moves wrong global counters by the same amounts as right ones. *)
Lemma update_set_global ps now d g pid u :
  let d1 := (shm_update_process_resources ps true now d pid (Some u)).2 in
  exists g', (shm_update_process_resources ps true now (set_global g d) pid (Some u)).2 =
      set_global g' d1 /\ same_skew g (global_stats d) g' (global_stats d1).
Proof.
  unfold shm_update_process_resources. simpl. destruct (pid <=? 0).
  { by exists g. }
  destruct (scan_slot _ _ _ _ _) as [[i|] [j|]]; simpl.
  - unfold check_pid_reuse. simpl. destruct (_ && _ && _); eexists; (split; [reflexivity|]);
      simpl; eauto using same_skew_move, same_skew_sub, same_skew_trans.
  - unfold check_pid_reuse. simpl. destruct (_ && _ && _); eexists; (split; [reflexivity|]);
      simpl; eauto using same_skew_move, same_skew_sub, same_skew_trans.
  - eexists. split; [reflexivity|]. apply same_skew_move.
  - eexists. split; [reflexivity|]. done.
Qed.

(** The keys bpf_map_get_next_key enumerates after [current]. *)
Fixpoint bpf_keys (next_key : Z -> option Z) (current : Z) (keys : list Z) : Prop :=
  match keys with
  | [] => next_key current = None
  | p :: keys => next_key current = Some p /\ bpf_keys next_key p keys
  end.

Lemma sync_processes_skew ps now next_key lookup keys fuel cur d g :
  shm_ok d -> bpf_keys next_key cur keys -> (length keys <= fuel)%nat ->
  exists d1 g', shm_ok d1 /\
    sync_processes ps now next_key lookup fuel cur (set_global g d) = set_global g' d1 /\
    same_skew g (global_stats d) g' (global_stats d1).
Proof.
  revert fuel cur d g. induction keys as [|p keys IH]; intros [|fuel] cur d g Hok Hk Hf;
    cbn [bpf_keys length sync_processes] in *; try lia.
  - by exists d, g.
  - rewrite Hk. by exists d, g.
  - destruct Hk as [-> Hk]. destruct (lookup p) as [u|] eqn:El.
    + destruct (update_set_global ps now d g p u) as (g1 & -> & Hs1).
      assert (Hok1 : shm_ok (shm_update_process_resources ps true now d p (Some u)).2)
        by (by apply shm_update_ok).
      destruct (IH fuel p _ g1 Hok1 Hk ltac:(lia)) as (d2 & g2 & Hok2 & -> & Hs2).
      exists d2, g2. split_and!; [done|done|by eapply same_skew_trans].
    + destruct (IH fuel p d g Hok Hk ltac:(lia)) as (d2 & g2 & Hok2 & -> & Hs2).
      by exists d2, g2.
Qed.

(** The synchronisation counts processes twice.  It stores the eBPF global
    counters and then updates the processes one by one, each update adding its
    difference to the global counters again.  With a process map of finitely
    many keys the walk ends, and the global queue-pair count it leaves is the
    eBPF count plus everything the walk added to the table: when the eBPF maps
    are right, that is twice the new total minus the old one. *)
Theorem sync_double_counts ps now g next_key lookup keys fuel d :
  shm_ok d -> bpf_keys next_key 0 keys -> (length keys <= fuel)%nat ->
  let d' := sync_ebpf_data_to_shared_memory true ps now (Some g) (Some (next_key, lookup)) fuel d in
  let old := zsum qp_count (process_stats d) in
  let new := zsum qp_count (process_stats d') in
  i32 (qp_count (global_stats d')) = i32 (qp_count g + new - old) /\
  (qp_count g = new -> i32 (qp_count (global_stats d')) = i32 (2 * new - old)).
Proof.
  intros Hok Hk Hf. unfold sync_ebpf_data_to_shared_memory. cbn [negb].
  rewrite usage_eta.
  assert (Hok1 : shm_ok (bump_version d)) by (destruct Hok; by split).
  assert (Hd : shm_unlock (bump_version (set_global g (shm_lock d))) =
    set_global g (bump_version d)).
  { pose proof (ok_lock d Hok). destruct d; simpl in *; by subst. }
  rewrite Hd.
  destruct (sync_processes_skew ps now next_key lookup keys fuel 0 (bump_version d) g Hok1 Hk Hf)
    as (d1 & g' & Hokd & -> & Hs & _ & _).
  simpl. assert (H : i32 (qp_count g') =
    i32 (qp_count g + zsum qp_count (process_stats d1) - zsum qp_count (process_stats d))).
  { simpl in Hs. rewrite (ok_qp d1 Hokd), (ok_qp d Hok), !i32_sub_r in Hs by done.
    replace (qp_count g') with
      (zsum qp_count (process_stats d1) + (qp_count g' - zsum qp_count (process_stats d1))) by lia.
    rewrite <- i32_add_r, Hs, i32_add_r. f_equal. lia. }
  split; [done|]. intros Hq. rewrite H, Hq. f_equal. lia.
Qed.

(** ** The start of the GC thread *)

(** The GC thread closes descriptor 0.  Its table is zeroed with memset
    although -1 is the value for "not registered", so the first scan takes
    every free slot for a slot registered with pidfd 0: if the last slot is
    free, descriptor 0 is closed when the scan ends, whether it was standard
    input or a pidfd opened earlier in the same scan. *)
Theorem gc_start_closes_fd0 k g d :
  shm_ok d -> process_pids d !! (MAX_PROCESSES - 1)%nat = Some 0 ->
  let '(g', d') := gc_start true k g d in
  0 ∉ gc_fds g' /\ gc_interest g' !! 0 = None.
Proof.
  intros Hok Hlast. unfold gc_start. rewrite (gc_scan_eq k _ d Hok).
  set (n := (MAX_PROCESSES - 1)%nat) in *.
  set (g0 := mk_gcs _ _ _).
  pose proof (lookup_lt_Some _ _ _ Hlast) as Hn. rewrite (ok_pids_len d Hok) in Hn.
  assert (Hl : tables_len g0 d).
  { split; [apply length_replicate|]. split; [apply (ok_pids_len d Hok)|apply (ok_times_len d Hok)]. }
  rewrite (seq_split_at n MAX_PROCESSES Hn), gc_scan_from_app.
  destruct (gc_scan_from_other k (seq 0 n) n g0 d) as [Hv Hl1];
    [intros H%elem_of_seq; lia|done|].
  destruct (gc_scan_from k (seq 0 n) g0 d) as [g1 d1]. simpl in Hv, Hl1.
  replace (MAX_PROCESSES - S n)%nat with 0%nat by lia. simpl seq. cbn [gc_scan_from].
  unfold slot_view in Hv. injection Hv as He Hp _.
  rewrite (list_lookup_total_correct _ _ _ Hlast) in Hp.
  assert (He' : gc_pidfd_table g1 !!! n = zero_entry).
  { rewrite He. apply list_lookup_total_correct. by apply lookup_replicate. }
  unfold gc_scan_slot. rewrite Hp, He'. simpl. unfold gc_unregister. rewrite He'. simpl.
  split; [set_solver|]. apply lookup_delete_eq.
Qed.

(** ** Witnesses *)

Definition dead_kernel : kernel := mk_kernel (fun _ => None) (fun _ _ => -1) (fun _ => true).

(** Process 42 holds two queue pairs in the process table. *)
Definition one_process : shared_memory_data :=
  (shm_update_process_resources (fun _ => None) true 8 (shm_reset 7 zero_shm) 42
     (Some (mk_usage 2 1 4096))).2.

Lemma one_process_ok : shm_ok one_process.
Proof. apply shm_update_ok, zero_shm_reset_ok. Qed.

Definition gc_empty : gc_state := mk_gcs (replicate MAX_PROCESSES no_entry) {[0; 1; 2]} ∅.
Definition gc_watching : gc_state :=
  mk_gcs (<[0%nat:=mk_gc 5 42 0]> (replicate MAX_PROCESSES no_entry)) {[0; 1; 2; 5]} {[5 := 0]}.

(** Process 42 sleeps, every other process has no status file. *)
Definition sleeping_kernel : kernel :=
  mk_kernel (fun p => if p =? 42 then Some ("State:" +:+ String "009" "S (sleeping)") else None)
    (fun _ _ => -1) (fun _ => true).

Lemma gc_scan_safe_witness :
  shown_alive (k_status sleeping_kernel 42) /\
  let '(g', d') := gc_scan_and_register true sleeping_kernel gc_empty one_process in
  shm_ok d' /\
  forall p, ledger d' !! p = ledger one_process !! p \/
            (~ shown_alive (k_status sleeping_kernel p) /\ ledger d' !! p = None).
Proof.
  split; [apply really_alive_spec; vm_compute; reflexivity|].
  apply (gc_scan_safe true sleeping_kernel gc_empty one_process). apply one_process_ok.
Defined.

Lemma gc_three_scans_witness :
  let '(g1, d1) := gc_scan_and_register true dead_kernel gc_empty one_process in
  let '(g2, d2) := gc_scan_and_register true dead_kernel g1 d1 in
  let '(g3, d3) := gc_scan_and_register true dead_kernel g2 d2 in
  ledger d3 !! 42 = None.
Proof.
  apply (gc_three_scans true dead_kernel dead_kernel dead_kernel gc_empty one_process 42).
  - apply one_process_ok.
  - apply length_replicate.
  - lia.
  - reflexivity.
  - reflexivity.
  - reflexivity.
Defined.

Lemma gc_exit_refines_witness :
  let '(g', d', s') := gc_handle_process_exit true true 9 0 gc_watching one_process demo3 in
  if decide (42 <> 0 /\ 42 = 42 /\ 0 = 0)
  then shm_ok d' /\ ledger one_process !! 42 = Some (mk_usage 2 1 4096) /\
       ledger d' = delete 42 (ledger one_process) /\
       global_stats d' = usage_sub (global_stats one_process) (mk_usage 2 1 4096) /\
       tenant_ok s' /\ usages s' = released 42 (mk_usage 2 1 4096) demo3
  else d' = one_process /\ s' = demo3.
Proof.
  pose proof (gc_exit_refines true true 9 0 gc_watching one_process demo3 one_process_ok demo3_ok) as H.
  assert (H1 : process_pids one_process !!! 0%nat = 42) by (vm_compute; reflexivity).
  assert (H2 : process_stats one_process !!! 0%nat = mk_usage 2 1 4096)
    by (vm_compute; reflexivity).
  assert (H3 : process_start_times one_process !!! 0%nat = 0) by (vm_compute; reflexivity).
  assert (H4 : gc_pidfd_table gc_watching !!! 0%nat = mk_gc 5 42 0) by (vm_compute; reflexivity).
  rewrite H1, H2, H3, H4 in H. apply H; [by apply Nat.ltb_lt|lia].
Defined.

Definition traced_status : string :=
  "Name:" +:+ String "009" ("app" +:+ String NEWLINE
    ("State:" +:+ String "009" ("t (tracing stop)" +:+ String NEWLINE ""))).
Definition traced_kernel : kernel :=
  mk_kernel (fun _ => Some traced_status) (fun _ _ => -1) (fun _ => true).

Lemma gc_alive_letter_witness : gc_is_process_really_alive traced_kernel 42 = false.
Proof.
  apply (gc_alive_letter traced_kernel 42 traced_status
    ["Name:" +:+ String "009" ("app" +:+ String NEWLINE "")] "t"
    (" (tracing stop)" +:+ String NEWLINE "") []); try reflexivity.
  repeat constructor.
Defined.

Definition one_key (p : Z) : option Z := if p =? 0 then Some 42 else None.

Lemma sync_double_counts_witness :
  let d' := sync_ebpf_data_to_shared_memory true (fun _ => None) 9 (Some (mk_usage 3 0 0))
              (Some (one_key, fun _ => Some (mk_usage 3 0 0))) 5 (shm_reset 7 zero_shm) in
  i32 (qp_count (global_stats d')) =
    i32 (3 + zsum qp_count (process_stats d') - zsum qp_count (process_stats (shm_reset 7 zero_shm))).
Proof.
  cbv zeta. refine (proj1 (sync_double_counts (fun _ => None) 9 (mk_usage 3 0 0) one_key
    (fun _ => Some (mk_usage 3 0 0)) [42] 5 (shm_reset 7 zero_shm) _ _ _)).
  - apply zero_shm_reset_ok.
  - split; reflexivity.
  - simpl. lia.
Defined.

Lemma gc_start_closes_fd0_witness :
  let '(g', d') := gc_start true dead_kernel gc_empty one_process in
  0 ∉ gc_fds g' /\ gc_interest g' !! 0 = None.
Proof.
  apply (gc_start_closes_fd0 dead_kernel gc_empty one_process).
  - apply one_process_ok.
  - vm_compute. reflexivity.
Defined.
