(* ===== verification/Service.v ===== *)
(** * The collector process: main of src/src/collector_server_shm.c

    The threads of the collector and how they start and stop: [main], the
    synchronisation thread and the GC thread of the file Collector, the signal
    handler that clears [running], and [cleanup_service].  The process is a
    step relation: every thread has a program counter that moves between its
    test of [running], its work and its end; signals and the calls other
    processes make on the two shared segments may come between any two steps.
    There are two grains: [service_step], with an iteration of a thread's loop
    as one step, for the end of the process, and [fine_step], which cuts an
    iteration into the calls and locked sections it consists of, for the
    consistency of the segments.

    The first part has the sequential pieces, the second the step relation,
    the third the descriptors the GC thread holds, the last the theorems: the
    tables stay consistent and the descriptors bounded for as long as the
    collector runs, and a signal brings it to its end. *)

From S2P Require Import Prelude CString Shm TenantShm Collector.
From stdpp Require Import base numbers list gmap strings.
#[local] Open Scope string_scope.
#[local] Open Scope Z_scope.

(** ** The GC thread as a whole *)

(** Up to [gc_running = 1]: the epoll instance, the zeroed table, the first scan. *)
Definition gc_begin (ptr : bool) (epfd : Z) (k : kernel) (g : gc_state)
    (d : shared_memory_data) : gc_state * shared_memory_data :=
  gc_start ptr k (mk_gcs (gc_pidfd_table g) (gc_fds g ∪ {[epfd]}) (gc_interest g)) d.

(** Closing what is registered, after the loop. *)
Definition close_entry (g : gc_state) (x : gc_entry) : gc_state :=
  if 0 <=? gc_pidfd x then close_fd (gc_pidfd x) g else g.

Definition gc_close_all (g : gc_state) : gc_state := foldl close_entry g (gc_pidfd_table g).

Definition gc_finish (epfd : Z) (g : gc_state) : gc_state :=
  let g := gc_close_all g in
  if 0 <=? epfd then close_fd epfd g else g.

(** The thread function, run without interruption: [epfd] is what
    epoll_create1 returns, [waits] what the calls of epoll_wait return while
    [running] is set. *)
Definition gc_thread_func (ptr tptr : bool) (epfd : Z) (k : kernel)
    (waits : list (Z * kernel * option (list Z)))
    (st : gc_state * shared_memory_data * tenant_shared_memory)
    : gc_state * shared_memory_data * tenant_shared_memory :=
  if epfd <? 0 then st
  else
    let '(g, d, s) := st in
    let '(g, d) := gc_begin ptr epfd k g d in
    let '(g, d, s) := gc_loop ptr tptr waits (g, d, s) in
    (gc_finish epfd g, d, s).

(** ** The state of the process *)

Inductive main_pc := MainInit | MainTest | MainSleep | MainExit (code : Z).
Inductive sync_pc := SyncUnborn | SyncTest | SyncBody | SyncEnded.
Inductive gc_pc := GcUnborn | GcBegin | GcTest | GcWait | GcEnded.

Record service := mk_service {
  running : bool;
  gc_running : bool;
  sv_conf : collector;
  sv_handle : shm_handle;
  sv_shm : option shared_memory_data;      (* the named segment *)
  sv_tenants : tenant_shared_memory;
  sv_gc : gc_state;
  gc_epoll_fd : Z;
  main_at : main_pc;
  sync_at : sync_pc;
  gc_at : gc_pc
}.

(** The process before [main]: static data, the descriptors it inherited. *)
Definition initial_service (fds : gset Z) (obj : option shared_memory_data)
    (s : tenant_shared_memory) : service :=
  mk_service true false initial_collector (mk_handle (-1) false) obj s
    (mk_gcs (replicate MAX_PROCESSES zero_entry) fds ∅) (-1) MainInit SyncUnborn GcUnborn.

(** *** The pieces of [main] *)

Definition opened (fds : list Z) : gset Z := list_to_set (filter (fun fd => 0 <= fd) fds).

(** [main] up to its loop: 1 when the initialisation fails. *)
Definition main_init (getenv : string -> option string) (sys : shm_sys) (now : Z)
    (bpf_obj_get : string -> Z) (sync_ok gc_ok : bool) (p : service) : service :=
  let '(rc, c, h, obj, (t1, t2)) :=
    initialize_service getenv sys now bpf_obj_get sync_ok gc_ok (sv_conf p) (sv_handle p)
      (sv_shm p) in
  let g := sv_gc p in
  let fds := opened [shm_fd h; process_resources_map_fd c; global_resources_map_fd c] in
  mk_service (running p) (gc_running p) c h obj (sv_tenants p)
    (mk_gcs (gc_pidfd_table g) (gc_fds g ∪ fds) (gc_interest g)) (gc_epoll_fd p)
    (if rc =? 0 then MainTest else MainExit 1)
    (if t1 : bool then SyncTest else SyncUnborn) (if t2 : bool then GcBegin else GcUnborn).

Definition signal_handler (p : service) : service :=
  mk_service false (gc_running p) (sv_conf p) (sv_handle p) (sv_shm p) (sv_tenants p)
    (sv_gc p) (gc_epoll_fd p) (main_at p) (sync_at p) (gc_at p).

(** Both joins have returned: the synchronisation thread always ends first, the
    GC thread is waited for if it has got as far as [gc_running]. *)
Definition joinable (p : service) : Prop :=
  sync_at p = SyncEnded /\ (gc_running p = true -> gc_at p = GcEnded).

(** [cleanup_service] after the joins, and the return from [main]. *)
Definition cleanup_service (p : service) : service :=
  let close fd g := if 0 <=? fd then close_fd fd g else g in
  let g := close (process_resources_map_fd (sv_conf p)) (sv_gc p) in
  let g := close (global_resources_map_fd (sv_conf p)) g in
  mk_service false (gc_running p) (sv_conf p) (sv_handle p) (sv_shm p) (sv_tenants p)
    g (gc_epoll_fd p) (MainExit 0) (sync_at p) (gc_at p).

(** *** Moves of the threads *)

Definition at_main (m : main_pc) (p : service) : service :=
  mk_service (running p) (gc_running p) (sv_conf p) (sv_handle p) (sv_shm p) (sv_tenants p)
    (sv_gc p) (gc_epoll_fd p) m (sync_at p) (gc_at p).
Definition at_sync (y : sync_pc) (p : service) : service :=
  mk_service (running p) (gc_running p) (sv_conf p) (sv_handle p) (sv_shm p) (sv_tenants p)
    (sv_gc p) (gc_epoll_fd p) (main_at p) y (gc_at p).
Definition at_gc (c : gc_pc) (p : service) : service :=
  mk_service (running p) (gc_running p) (sv_conf p) (sv_handle p) (sv_shm p) (sv_tenants p)
    (sv_gc p) (gc_epoll_fd p) (main_at p) (sync_at p) c.
Definition with_shm (d : shared_memory_data) (p : service) : service :=
  mk_service (running p) (gc_running p) (sv_conf p) (sv_handle p) (Some d) (sv_tenants p)
    (sv_gc p) (gc_epoll_fd p) (main_at p) (sync_at p) (gc_at p).
Definition with_tenants (s : tenant_shared_memory) (p : service) : service :=
  mk_service (running p) (gc_running p) (sv_conf p) (sv_handle p) (sv_shm p) s
    (sv_gc p) (gc_epoll_fd p) (main_at p) (sync_at p) (gc_at p).
Definition with_gc (run : bool) (epfd : Z) (g : gc_state) (p : service) : service :=
  mk_service (running p) run (sv_conf p) (sv_handle p) (sv_shm p) (sv_tenants p)
    g epfd (main_at p) (sync_at p) (gc_at p).

(** What is in the two eBPF maps when the synchronisation thread reads them:
    the walk over the process map meets the keys of [b_keys]. *)
Record bpf_maps := mk_maps {
  b_global : option resource_usage;
  b_next_key : Z -> option Z;
  b_lookup : Z -> option resource_usage;
  b_keys : list Z
}.

Definition maps_ok (b : bpf_maps) : Prop := bpf_keys (b_next_key b) 0 (b_keys b).

(** The body of [sync_thread_func]'s loop. *)
Definition sync_thread_body (ps : Z -> option string) (now : Z) (b : bpf_maps) (p : service)
    (d : shared_memory_data) : shared_memory_data :=
  sync_ebpf_data_to_shared_memory (shm_get_ptr (sv_handle p)) ps now
    (if 0 <=? global_resources_map_fd (sv_conf p) then b_global b else None)
    (if 0 <=? process_resources_map_fd (sv_conf p)
     then Some (b_next_key b, b_lookup b) else None)
    (length (b_keys b)) d.

(** ** The steps *)

(** A move of one of the collector's own threads, between the points where it
    tests [running], sleeps, waits or ends: an iteration of a loop is one step.
    [fine_step] below cuts the iterations into their sections. *)
Inductive thread_step : service -> service -> Prop :=
  | main_starts getenv sys now bpf_obj_get sync_ok gc_ok p :
      main_at p = MainInit ->
      thread_step p (main_init getenv sys now bpf_obj_get sync_ok gc_ok p)
  | main_tests p :
      main_at p = MainTest -> running p = true -> thread_step p (at_main MainSleep p)
  | main_sleeps p :
      main_at p = MainSleep -> thread_step p (at_main MainTest p)
  | main_ends p :
      main_at p = MainTest -> running p = false -> joinable p ->
      thread_step p (cleanup_service p)
  | sync_tests p :
      sync_at p = SyncTest ->
      thread_step p (at_sync (if running p then SyncBody else SyncEnded) p)
  | sync_copies ps now b p d :
      sync_at p = SyncBody -> sv_shm p = Some d -> maps_ok b ->
      thread_step p (at_sync SyncTest (with_shm (sync_thread_body ps now b p d) p))
  | gc_fails p epfd :
      gc_at p = GcBegin -> epfd < 0 ->
      thread_step p (at_gc GcEnded (with_gc (gc_running p) epfd (sv_gc p) p))
  | gc_begins p epfd k d g' d' :
      gc_at p = GcBegin -> 0 <= epfd -> sv_shm p = Some d ->
      gc_begin (shm_get_ptr (sv_handle p)) epfd k (sv_gc p) d = (g', d') ->
      thread_step p (at_gc GcTest (with_gc true epfd g' (with_shm d' p)))
  | gc_tests p :
      gc_at p = GcTest -> running p = true -> thread_step p (at_gc GcWait p)
  | gc_passes p tptr now k events d g' d' s' :
      gc_at p = GcWait -> sv_shm p = Some d ->
      Forall (fun i => exists fd, gc_interest (sv_gc p) !! fd = Some i) events ->
      gc_pass (shm_get_ptr (sv_handle p)) tptr now k events (sv_gc p, d, sv_tenants p)
        = (g', d', s') ->
      thread_step p (at_gc GcTest (with_gc (gc_running p) (gc_epoll_fd p) g'
                       (with_tenants s' (with_shm d' p))))
  | gc_wait_fails p :
      gc_at p = GcWait ->
      thread_step p (at_gc GcEnded
        (with_gc false (-1) (gc_finish (gc_epoll_fd p) (sv_gc p)) p))
  | gc_ends p :
      gc_at p = GcTest -> running p = false ->
      thread_step p (at_gc GcEnded
        (with_gc false (-1) (gc_finish (gc_epoll_fd p) (sv_gc p)) p)).

(** What the collector does not do itself: a signal, a call of another process
    on the process table or on the tenant table. *)
Inductive outside_step (cn ic : bool) : service -> service -> Prop :=
  | signalled p : outside_step cn ic p (signal_handler p)
  | table_called p d d' :
      sv_shm p = Some d -> shm_step cn d d' -> outside_step cn ic p (with_shm d' p)
  | tenants_called p s' :
      tenant_step ic (sv_tenants p) s' -> outside_step cn ic p (with_tenants s' p).

Definition exited (p : service) : Prop := exists code, main_at p = MainExit code.

Inductive service_step (cn ic : bool) : service -> service -> Prop :=
  | by_thread p p' : ~ exited p -> thread_step p p' -> service_step cn ic p p'
  | from_outside p p' : ~ exited p -> outside_step cn ic p p' -> service_step cn ic p p'.

(** *** Inside an iteration

    In [thread_step] an iteration of a loop is one step.  Here it is cut into
    the sections between which the segments are free: every call of the
    functions of the two tables, and the two sections the collector itself
    puts under the lock of the process table.  [walking]: the synchronisation
    thread is inside its loop over the process map.  [job]: what is left of the
    GC thread's pass. *)
Inductive gc_job :=
  | JobEvents (slots : list Z)                      (* the events not yet handled *)
  | JobTenant (slot pid : Z) (dead : resource_usage) (slots : list Z)
  | JobUsage (slot tid : Z) (dead : resource_usage) (slots : list Z)
  | JobStore (slot tid : Z) (u : tenant_resource_usage) (slots : list Z)
  | JobClose (slot : Z) (slots : list Z).

Record fine := mk_fine { fine_sv : service; walking : bool; job : option gc_job }.

(** The rest of the handler of [gc_handle_process_exit], call by call. *)
Inductive job_step (p : service) : gc_job -> gc_job -> service -> Prop :=
  | job_unmapped i l :
      shm_get_ptr (sv_handle p) = false -> job_step p (JobEvents (i :: l)) (JobEvents l) p
  | job_reclaims i l d d' dead :
      shm_get_ptr (sv_handle p) = true -> sv_shm p = Some d ->
      gc_exit_locked (Z.to_nat i) (sv_gc p) d = (d', dead) ->
      job_step p (JobEvents (i :: l))
        (match dead with Some (pid, u) => JobTenant i pid u l | None => JobClose i l end)
        (with_shm d' p)
  | job_asks_tenant i pid u l tptr now rc tid s' :
      tenant_get_process_tenant tptr now (sv_tenants p) pid = (rc, tid, s') ->
      job_step p (JobTenant i pid u l)
        (if (rc =? 0) && (0 <? tid) then JobUsage i tid u l else JobClose i l)
        (with_tenants s' p)
  | job_reads_usage i tid u l tptr now rc tu s' :
      tenant_get_resource_usage tptr now (sv_tenants p) tid = (rc, tu, s') ->
      job_step p (JobUsage i tid u l)
        (if rc =? 0 then JobStore i tid (release_dead u tu) l else JobClose i l)
        (with_tenants s' p)
  | job_stores_usage i tid tu l tptr now :
      job_step p (JobStore i tid tu l) (JobClose i l)
        (with_tenants (tenant_update_resource_usage tptr now (sv_tenants p) tid (Some tu)).2 p)
  | job_closes i l :
      job_step p (JobClose i l) (JobEvents l)
        (with_gc (gc_running p) (gc_epoll_fd p) (gc_unregister (Z.to_nat i) (sv_gc p)) p).

Inductive section_step (cn ic : bool) : fine -> fine -> Prop :=
  (* a thread that is not inside an iteration, or main *)
  | fine_thread p p' y j :
      thread_step p p' ->
      (y = true -> sync_at p' = sync_at p) -> (j <> None -> gc_at p' = gc_at p) ->
      section_step cn ic (mk_fine p y j) (mk_fine p' y j)
  | fine_outside p p' y j :
      outside_step cn ic p p' ->
      section_step cn ic (mk_fine p y j) (mk_fine p' y j)
  (* the synchronisation thread *)
  | fine_sync_starts p j :
      sync_at p = SyncBody -> section_step cn ic (mk_fine p false j) (mk_fine p true j)
  | fine_sync_stores p j d u :
      sync_at p = SyncBody -> sv_shm p = Some d -> shm_get_ptr (sv_handle p) = true ->
      0 <= global_resources_map_fd (sv_conf p) ->
      section_step cn ic (mk_fine p false j)
        (mk_fine (with_shm (shm_unlock (bump_version (set_global u (shm_lock d)))) p) true j)
  | fine_sync_updates p j ps now d pid u :
      sync_at p = SyncBody -> sv_shm p = Some d -> shm_get_ptr (sv_handle p) = true ->
      0 <= process_resources_map_fd (sv_conf p) ->
      section_step cn ic (mk_fine p true j)
        (mk_fine (with_shm (shm_update_process_resources ps true now d pid (Some u)).2 p) true j)
  | fine_sync_done p j :
      sync_at p = SyncBody -> section_step cn ic (mk_fine p true j) (mk_fine (at_sync SyncTest p) false j)
  (* the GC thread *)
  | fine_gc_wakes p y events :
      gc_at p = GcWait ->
      Forall (fun i => exists fd, gc_interest (sv_gc p) !! fd = Some i) events ->
      section_step cn ic (mk_fine p y None) (mk_fine p y (Some (JobEvents events)))
  | fine_gc_works p p' y j j' :
      gc_at p = GcWait -> job_step p j j' p' ->
      section_step cn ic (mk_fine p y (Some j)) (mk_fine p' y (Some j'))
  | fine_gc_scans p y k d g' d' :
      gc_at p = GcWait -> sv_shm p = Some d ->
      gc_scan_and_register (shm_get_ptr (sv_handle p)) k (sv_gc p) d = (g', d') ->
      section_step cn ic (mk_fine p y (Some (JobEvents [])))
        (mk_fine (at_gc GcTest (with_gc (gc_running p) (gc_epoll_fd p) g' (with_shm d' p))) y None).

(** Until [main] returns. *)
Definition fine_step (cn ic : bool) (f f' : fine) : Prop :=
  ~ exited (fine_sv f) /\ section_step cn ic f f'.

(** * Theorems *)

(** ** The descriptors of the GC thread *)

(** [F]: the descriptors held for other reasons than a registration.  Every
    other open descriptor is the pidfd of a slot, and what epoll reports is the
    number of a slot. *)
Record gc_inv (F : gset Z) (g : gc_state) : Prop := mk_gc_inv {
  gi_len : length (gc_pidfd_table g) = MAX_PROCESSES;
  gi_nonneg : forall y, y ∈ gc_fds g -> 0 <= y;
  gi_fds : forall y, y ∈ gc_fds g -> y ∈ F \/ y ∈ gc_pidfd <$> gc_pidfd_table g;
  gi_slots : map_Forall (fun _ i => 0 <= i < Z.of_nat MAX_PROCESSES) (gc_interest g)
}.

Lemma gc_inv_close F g fd : gc_inv F g -> gc_inv F (close_fd fd g).
Proof.
  intros [Hl Hn Hf Hs]. split; simpl; [done|set_solver|set_solver|].
  by apply map_Forall_delete.
Qed.

Lemma gc_inv_epoll_del F g fd : gc_inv F g -> gc_inv F (epoll_del fd g).
Proof. intros []. split; simpl; [done..|by apply map_Forall_delete]. Qed.

#[local] Hint Resolve gc_inv_close gc_inv_epoll_del : mtrdma.

(** Overwriting an entry is safe once its descriptor is closed. *)
Lemma gc_inv_replace F g i x fds int :
  gc_inv F g -> (i < MAX_PROCESSES)%nat ->
  (forall y, y ∈ fds ->
     0 <= y /\ (y = gc_pidfd x \/ (y ∈ gc_fds g /\ y <> gc_pidfd (gc_pidfd_table g !!! i)))) ->
  map_Forall (fun _ i => 0 <= i < Z.of_nat MAX_PROCESSES) int ->
  gc_inv F (mk_gcs (<[i:=x]> (gc_pidfd_table g)) fds int).
Proof.
  intros [Hl Hn Hf Hs] Hi Hy Hint. split; simpl; [by rewrite length_insert|by intros y [? _]%Hy| |done].
  intros y Hyy. destruct (Hy y Hyy) as [_ [->|[Hin Hne]]].
  { right. apply list_elem_of_fmap_2, list_elem_of_insert. lia. }
  destruct (Hf y Hin) as [?|(x' & -> & (j & Hj)%list_elem_of_lookup)%list_elem_of_fmap]; [by left|].
  right. apply list_elem_of_fmap_2. apply list_elem_of_lookup. exists j.
  rewrite list_lookup_insert_ne; [done|]. intros ->. apply Hne.
  by rewrite (list_lookup_total_correct _ _ _ Hj).
Qed.

(** Closing the descriptor of an entry, if it has one. *)
Lemma gc_inv_drop F g i :
  gc_inv F g ->
  let old := gc_pidfd (gc_pidfd_table g !!! i) in
  let g' := if 0 <=? old then close_fd old (epoll_del old g) else g in
  gc_inv F g' /\ gc_pidfd_table g' = gc_pidfd_table g /\
  forall y, y ∈ gc_fds g' -> 0 <= y /\ y <> old.
Proof.
  intros Hg old. destruct (0 <=? old) eqn:E; tests; (split; [auto with mtrdma|split; [done|]]);
    intros y Hy.
  - simpl in Hy. split; [apply (gi_nonneg F g Hg)|]; set_solver.
  - apply (gi_nonneg F g Hg) in Hy. lia.
Qed.

Lemma gc_unregister_inv F g i :
  gc_inv F g -> (i < MAX_PROCESSES)%nat -> gc_inv F (gc_unregister i g).
Proof.
  intros Hg Hi. destruct (gc_inv_drop F g i Hg) as (Hg' & Ht & Hy). revert Hg' Ht Hy.
  unfold gc_unregister. set (g' := if 0 <=? _ then _ else _). intros Hg' Ht Hy.
  apply gc_inv_replace; [done|done| |apply Hg'].
  intros y Hyy. rewrite Ht. destruct (Hy y Hyy). auto.
Qed.

Lemma gc_register_inv F g k i pid st :
  gc_inv F g -> (i < MAX_PROCESSES)%nat ->
  gc_inv F (gc_register_pidfd k (Z.of_nat i) pid st g).
Proof.
  intros Hg Hi. unfold gc_register_pidfd. destruct (_ || _); [done|]. rewrite Nat2Z.id.
  destruct (gc_inv_drop F g i Hg) as (Hg' & Ht & Hy). revert Hg' Ht Hy.
  set (g' := if 0 <=? _ then _ else _). intros Hg' Ht Hy.
  assert (Hold : forall y, y ∈ gc_fds g' ->
    0 <= y /\ y ∈ gc_fds g' /\ y <> gc_pidfd (gc_pidfd_table g' !!! i)).
  { intros y Hyy. rewrite Ht. destruct (Hy y Hyy). auto. }
  set (fd := k_pidfd_open k (gc_fds g') pid). destruct (fd <? 0) eqn:E; tests;
    [|destruct (k_epoll_add k fd)]; apply (gc_inv_replace F g'); simpl; try done; try apply Hg'.
  - intros y Hyy. destruct (Hold y Hyy). auto.
  - intros y [[]%Hold| ->%elem_of_singleton]%elem_of_union; auto with lia.
  - apply map_Forall_insert_2; [lia|]. apply Hg'.
  - intros y [[[]%Hold|Hs]%elem_of_union Hne]%elem_of_difference; [auto|set_solver].
  - apply map_Forall_delete, Hg'.
Qed.

Lemma gc_scan_slot_inv F k i g d :
  gc_inv F g -> (i < MAX_PROCESSES)%nat -> gc_inv F (gc_scan_slot k i g d).1.
Proof.
  intros Hg Hi. unfold gc_scan_slot. destruct (_ =? 0).
  { simpl. destruct (0 <=? _); [by apply gc_unregister_inv|done]. }
  destruct (_ <? 0) eqn:E.
  { destruct (_ && _); by apply gc_register_inv. }
  destruct (_ || _).
  - simpl. apply gc_register_inv; [|done]. apply (gc_inv_replace F g); [done|done| |].
    + intros y [Hy Hne]%elem_of_difference. split; [by apply (gi_nonneg F g Hg)|].
      right. set_solver.
    + apply map_Forall_delete, Hg.
  - destruct (negb _); [by apply gc_unregister_inv|done].
Qed.

Lemma gc_scan_inv F ptr k g d :
  gc_inv F g -> gc_inv F (gc_scan_and_register ptr k g d).1.
Proof.
  intros Hg. unfold gc_scan_and_register. destruct ptr; simpl; [|done].
  assert (H : forall js d, Forall (fun i => i < MAX_PROCESSES)%nat js ->
    forall g, gc_inv F g -> gc_inv F (gc_scan_from k js g d).1).
  { clear. intros js d Hjs. revert d. induction Hjs as [|i js Hi _ IH]; intros d g Hg; simpl; [done|].
    pose proof (gc_scan_slot_inv F k i g d Hg Hi) as H. destruct (gc_scan_slot k i g d). by apply IH. }
  pose proof (H (seq 0 MAX_PROCESSES) (shm_lock d) (seq_in_range _ _ (le_n _)) g Hg) as H'.
  by destruct (gc_scan_from _ _ _ _).
Qed.

Lemma gc_pass_inv F ptr tptr now k events g d s :
  gc_inv F g -> Forall (fun i => 0 <= i < Z.of_nat MAX_PROCESSES) events ->
  gc_inv F (gc_pass ptr tptr now k events (g, d, s)).1.1.
Proof.
  intros Hg He. unfold gc_pass.
  assert (H : gc_inv F (gc_events ptr tptr now events (g, d, s)).1.1).
  { revert g d s Hg. induction He as [|i events Hi _ IH]; intros g d s Hg; simpl; [done|].
    unfold gc_handle_process_exit. destruct ptr; simpl; [|by apply IH].
    apply IH. apply gc_unregister_inv; [done|lia]. }
  destruct (gc_events _ _ _ _ _) as [[g1 d1] s1]. simpl in H.
  pose proof (gc_scan_inv F ptr k g1 d1 H) as H'. by destruct (gc_scan_and_register _ _ _ _).
Qed.

(** After [memset] every entry claims descriptor 0; that is no obstacle. *)
Lemma gc_begin_inv F ptr epfd k g d :
  (forall y, y ∈ gc_fds g -> 0 <= y /\ y ∈ F) -> 0 <= epfd ->
  map_Forall (fun _ i => 0 <= i < Z.of_nat MAX_PROCESSES) (gc_interest g) ->
  gc_inv (F ∪ {[epfd]}) (gc_begin ptr epfd k g d).1.
Proof.
  intros Hf He Hs. apply gc_scan_inv. split; simpl; [apply length_replicate| | |done].
  - intros y [[? _]%Hf| ->%elem_of_singleton]%elem_of_union; done.
  - intros y [[_ ?]%Hf|?]%elem_of_union; left; set_solver.
Qed.

Lemma close_entries l g y :
  y ∈ gc_fds (foldl close_entry g l) <-> y ∈ gc_fds g /\ (0 <= y -> y ∉ gc_pidfd <$> l).
Proof.
  revert g. induction l as [|x l IH]; intros g; simpl; [set_solver|].
  rewrite IH. unfold close_entry. destruct (0 <=? gc_pidfd x) eqn:E; tests; simpl.
  - rewrite elem_of_difference, elem_of_singleton, not_elem_of_cons.
    split; [|naive_solver]. intros [[H1 H2] H3]. auto.
  - rewrite not_elem_of_cons. split; [|naive_solver]. intros [H1 H3]. split; [done|].
    intros Hy. split; [lia|auto].
Qed.

Lemma close_entries_inv F l g : gc_inv F g -> gc_inv F (foldl close_entry g l).
Proof.
  revert g. induction l as [|x l IH]; intros g Hg; simpl; [done|]. apply IH.
  unfold close_entry. destruct (0 <=? _); auto with mtrdma.
Qed.

(** When the GC thread ends it holds nothing any more. *)
Lemma gc_finish_inv F epfd g :
  gc_inv (F ∪ {[epfd]}) g -> 0 <= epfd ->
  gc_inv F (gc_finish epfd g) /\ gc_fds (gc_finish epfd g) ⊆ F.
Proof.
  intros Hg He. unfold gc_finish, gc_close_all. rewrite (proj2 (Z.leb_le _ _) He).
  set (g' := foldl _ _ _).
  assert (Hsub : gc_fds (close_fd epfd g') ⊆ F).
  { intros y [[Hy Hn]%close_entries Hne]%elem_of_difference.
    pose proof (gi_nonneg _ _ Hg y Hy) as H0.
    destruct (gi_fds _ _ Hg y Hy) as [?|?]; [set_solver|]. by destruct (Hn H0). }
  assert (Hg' : gc_inv (F ∪ {[epfd]}) (close_fd epfd g')).
  { apply gc_inv_close. by apply close_entries_inv. }
  split; [|done]. destruct Hg'. split; auto.
Qed.

(** The thread function on its own: whatever the kernel answers, every
    descriptor it opens is closed when it returns. *)
Theorem gc_thread_no_leak ptr tptr epfd k waits g d s :
  length (gc_pidfd_table g) = MAX_PROCESSES ->
  (forall y, y ∈ gc_fds g -> 0 <= y) -> gc_interest g = ∅ ->
  Forall (fun w => Forall (fun i => 0 <= i < Z.of_nat MAX_PROCESSES) (default [] w.2)) waits ->
  gc_fds (gc_thread_func ptr tptr epfd k waits (g, d, s)).1.1 ⊆ gc_fds g.
Proof.
  intros Hl Hn Hi Hw. unfold gc_thread_func. destruct (epfd <? 0) eqn:E; tests; [done|].
  pose proof (gc_begin_inv (gc_fds g) ptr epfd k g d) as Hb.
  destruct (gc_begin _ _ _ _ _) as [g1 d1]. simpl in Hb.
  assert (Hg1 : gc_inv (gc_fds g ∪ {[epfd]}) g1).
  { apply Hb; [auto|lia|]. by rewrite Hi. }
  clear Hb. assert (Hloop : gc_inv (gc_fds g ∪ {[epfd]})
    (gc_loop ptr tptr waits (g1, d1, s)).1.1).
  { clear Hl Hn Hi. revert g1 d1 s Hg1.
    induction Hw as [|[[now k'] [events|]] waits Hev _ IH]; intros g1 d1 s Hg1; simpl; [done| |done].
    pose proof (gc_pass_inv _ ptr tptr now k' events g1 d1 s Hg1 Hev) as Hp.
    destruct (gc_pass _ _ _ _ _ _) as [[g2 d2] s2]. by apply IH. }
  destruct (gc_loop _ _ _ _) as [[g2 d2] s2]. simpl in *.
  by apply gc_finish_inv.
Qed.

(** ** The invariant of the process *)

Definition gc_live (p : service) : bool :=
  match gc_at p with GcTest | GcWait => true | _ => false end.

Definition shm_fine (c : bool) (obj : option shared_memory_data) : Prop :=
  match obj with Some d => shm_inv c d | None => True end.

(** The descriptors the process holds apart from the GC thread's. *)
Definition base_fds (fds : gset Z) (p : service) : gset Z :=
  fds ∪ opened [shm_fd (sv_handle p); process_resources_map_fd (sv_conf p);
                global_resources_map_fd (sv_conf p)].

(** Three parts: the threads, the segments, the descriptors. *)
Record control_inv (p : service) : Prop := mk_control {
  ci_threads : sync_at p <> SyncUnborn \/ gc_at p <> GcUnborn ->
               shm_get_ptr (sv_handle p) = true /\ is_Some (sv_shm p);
  ci_gc_running : gc_running p = gc_live p;
  ci_main : match main_at p with
            | MainInit => sync_at p = SyncUnborn /\ gc_at p = GcUnborn /\
                          sv_conf p = initial_collector /\ shm_fd (sv_handle p) = -1
            | MainTest | MainSleep => sync_at p <> SyncUnborn /\ gc_at p <> GcUnborn
            | MainExit _ => True
            end
}.

(** The global counters are exact if neither another process ([cn]) nor the
    collector itself overwrites them. *)
Definition exact (cn : bool) (p : service) : bool :=
  cn && (global_resources_map_fd (sv_conf p) <? 0).

Definition tables_inv (cn ic : bool) (p : service) : Prop :=
  tenant_inv ic (sv_tenants p) /\ shm_fine (exact cn p) (sv_shm p).

Definition fds_inv (fds : gset Z) (p : service) : Prop :=
  if gc_live p
  then 0 <= gc_epoll_fd p /\ gc_inv (base_fds fds p ∪ {[gc_epoll_fd p]}) (sv_gc p)
  else gc_inv (base_fds fds p) (sv_gc p) /\ gc_fds (sv_gc p) ⊆ base_fds fds p.

Lemma shm_init_fine {c} sys now h obj rc h' obj' :
  shm_init sys now h obj = (rc, h', obj') -> shm_fine c obj -> shm_fine c obj'.
Proof.
  unfold shm_init. intros H Hf. repeat case_match; simplify_eq; try done;
    (destruct obj as [d|]; simpl in *;
     [try apply zero_shm_lengths; apply Hf|first [apply zero_shm_reset_ok|apply zero_shm_ok]]).
Qed.

Lemma initialize_service_fine {cn} getenv sys now get s_ok g_ok c h obj :
  shm_fine cn obj ->
  shm_fine cn (initialize_service getenv sys now get s_ok g_ok c h obj).1.2.
Proof.
  unfold initialize_service. intros Hf.
  destruct (shm_init sys now h obj) as [[rc1 h1] obj1] eqn:Ei.
  apply (shm_init_fine (c:=cn)) in Ei; [|done]. destruct (negb (rc1 =? 0)); [done|].
  destruct obj1 as [d1|]; [|by destruct s_ok, g_ok].
  destruct s_ok, g_ok; by apply shm_set_global_limits_ok.
Qed.

(** A thread is only created when the segment is mapped. *)
Lemma initialize_service_threads getenv sys now get s_ok g_ok c h obj rc c' h' obj' t1 t2 :
  initialize_service getenv sys now get s_ok g_ok c h obj = (rc, c', h', obj', (t1, t2)) ->
  (t1 = true \/ t2 = true -> shm_data_ptr h' = true /\ is_Some obj') /\
  (rc = 0 -> t1 = true /\ t2 = true).
Proof.
  unfold initialize_service, shm_init.
  intros H. repeat (case_match; simplify_eq/=); naive_solver.
Qed.

Lemma opened_mono fds0 fds l g :
  gc_inv fds g -> fds ⊆ fds0 ->
  gc_inv (fds0 ∪ opened l)
    (mk_gcs (gc_pidfd_table g) (gc_fds g ∪ opened l) (gc_interest g)).
Proof.
  intros [Hl Hn Hf Hs] Hsub. split; simpl; [done| | |done].
  - intros y [?%Hn|Hy]%elem_of_union; [done|].
    by apply elem_of_list_to_set, list_elem_of_filter in Hy as [? _].
  - intros y [[?|?]%Hf|?]%elem_of_union; [left|by right|left]; set_solver.
Qed.

Lemma base_fds_initial fds p :
  shm_fd (sv_handle p) = -1 -> sv_conf p = initial_collector -> base_fds fds p = fds.
Proof. intros H1 H2. unfold base_fds. rewrite H1, H2. unfold opened. simpl. set_solver. Qed.

Lemma main_init_fds fds getenv sys now get s_ok g_ok p :
  control_inv p -> fds_inv fds p -> main_at p = MainInit ->
  fds_inv fds (main_init getenv sys now get s_ok g_ok p).
Proof.
  intros [_ _ Hm] Hg Hpc. rewrite Hpc in Hm. destruct Hm as (_ & Hgc & Hc & Hh).
  unfold fds_inv, gc_live in *. rewrite Hgc in Hg. destruct Hg as [Hg Hsub].
  rewrite base_fds_initial in Hg, Hsub by done.
  unfold main_init. destruct (initialize_service _ _ _ _ _ _ _ _ _)
    as [[[[rc c] h] obj] [t1 t2]]. unfold base_fds. simpl. set (l := [_; _; _]).
  assert (H : gc_inv (fds ∪ opened l) (mk_gcs (gc_pidfd_table (sv_gc p))
    (gc_fds (sv_gc p) ∪ opened l) (gc_interest (sv_gc p)))) by (by apply opened_mono with fds).
  assert (gc_fds (sv_gc p) ∪ opened l ⊆ fds ∪ opened l) by (by apply union_mono_r).
  by destruct t2.
Qed.

Lemma sync_processes_ok {c} ps now next_key lookup fuel cur d :
  shm_inv c d -> shm_inv c (sync_processes ps now next_key lookup fuel cur d).
Proof.
  revert cur d. induction fuel as [|fuel IH]; intros cur d Hok; cbn [sync_processes]; [done|].
  destruct (next_key cur) as [q|]; [|done]. apply IH.
  destruct (lookup q); [by apply shm_update_ok|done].
Qed.

(** Storing the global counters is only done with the map of them open. *)
Lemma store_global_ok {c : bool} d u :
  c = false -> shm_inv c d -> shm_inv c (shm_unlock (bump_version (set_global u (shm_lock d)))).
Proof. intros -> Hok. by apply (shm_step_ok d); [|apply step_store_global]. Qed.

Lemma sync_body_ok {cn} ps now b p d :
  shm_inv (exact cn p) d -> shm_inv (exact cn p) (sync_thread_body ps now b p d).
Proof.
  intros Hok. unfold sync_thread_body, sync_ebpf_data_to_shared_memory.
  destruct (shm_get_ptr _); cbn [negb]; [|done].
  assert (Hx : 0 <= global_resources_map_fd (sv_conf p) -> exact cn p = false).
  { intros Hfd. unfold exact. by rewrite (proj2 (Z.ltb_ge _ _)), andb_false_r. }
  destruct (0 <=? global_resources_map_fd _) eqn:E; [destruct (b_global b)|];
    (destruct (0 <=? process_resources_map_fd _); [apply sync_processes_ok|]);
    try done; apply store_global_ok; tests; auto.
Qed.

Lemma gc_adjust_tenant_keeps {ic} ptr now pid dead s :
  tenant_inv ic s -> tenant_inv ic (gc_adjust_tenant ptr now pid dead s).
Proof.
  intros Hs. unfold gc_adjust_tenant.
  pose proof (tenant_get_process_tenant_ok ptr now s pid Hs) as H1.
  destruct (tenant_get_process_tenant _ _ _ _) as [[rc tid] s1]. simpl in H1.
  destruct (_ && _) eqn:E; [|done]. tests.
  pose proof (tenant_get_usage_ok ptr now s1 tid H1) as H2.
  destruct (tenant_get_resource_usage _ _ _ _) as [[rc2 u] s2]. simpl in H2.
  destruct (rc2 =? 0); [|done]. apply tenant_update_usage_ok; [done|lia].
Qed.

Lemma gc_handle_keeps {c ic} ptr tptr now i g d s :
  (i < MAX_PROCESSES)%nat -> tenant_inv ic s ->
  let '(_, d', s') := gc_handle_process_exit ptr tptr now i g d s in
  tenant_inv ic s' /\ (shm_inv c d -> shm_inv c d').
Proof.
  intros Hi Hs. unfold gc_handle_process_exit. destruct ptr; cbn [negb]; [|done]. simpl process_pids.
  simpl process_start_times. set (hit := _ && negb (_ =? 0)). split.
  - destruct (_ && (0 <? qp_count _)); [by apply gc_adjust_tenant_keeps|done].
  - intros Hok. destruct hit eqn:E; [|by rewrite (lock_unlock d Hok)]. unfold hit in E. tests.
    rewrite (gc_reclaim_locked d i Hok). by apply (gc_reclaim_ok d i Hok).
Qed.

Lemma gc_pass_keeps {c ic} ptr tptr now k events g d s :
  Forall (fun i => 0 <= i < Z.of_nat MAX_PROCESSES) events ->
  tenant_inv ic s -> 
  let '(_, d', s') := gc_pass ptr tptr now k events (g, d, s) in
  tenant_inv ic s' /\ (shm_inv c d -> shm_inv c d').
Proof.
  intros He Hs. unfold gc_pass.
  assert (H : tenant_inv ic (gc_events ptr tptr now events (g, d, s)).2 /\
              (shm_inv c d -> shm_inv c (gc_events ptr tptr now events (g, d, s)).1.2)).
  { revert g d s Hs. induction He as [|i events Hi _ IH]; intros g d s Hs; simpl; [done|].
    pose proof (gc_handle_keeps (c:=c) (ic:=ic) ptr tptr now (Z.to_nat i) g d s) as H.
    destruct (gc_handle_process_exit _ _ _ _ _ _ _) as [[g1 d1] s1].
    destruct H as [H1 H2]; [lia|done|]. destruct (IH g1 d1 s1 H1). auto. }
  destruct (gc_events _ _ _ _ _) as [[g1 d1] s1]. simpl in H. destruct H as [H1 H2].
  destruct ptr; simpl; [|done].
  destruct (gc_scan_and_register _ _ _ _) as [g2 d2] eqn:E. split; [done|]. intros Hok.
  rewrite (gc_scan_eq k g1 d1 (H2 Hok)) in E.
  destruct (gc_scan_from_ok k (seq 0 MAX_PROCESSES) g1 d1 (H2 Hok) (seq_in_range _ _ (le_n _)))
    as [H _]. by rewrite E in H.
Qed.

(** *** Each step keeps each part *)

Lemma thread_step_control p p' : thread_step p p' -> control_inv p -> control_inv p'.
Proof.
  intros Hstep [Hth Hr Hm]. destruct Hstep as [getenv sys now get s_ok g_ok p H|p|p|p|p|? ? ? p
    |p|p|p|p|p|p]; unfold gc_live in *.
  { unfold main_init.
    destruct (initialize_service _ _ _ _ _ _ _ _ _) as [[[[rc c] h] obj] [t1 t2]] eqn:Ei.
    apply initialize_service_threads in Ei as [H1 H2]. rewrite H in Hm.
    destruct Hm as (Hs & Hg & _ & _). rewrite Hg in Hr.
    split; unfold gc_live; simpl.
    - intros Hb. apply H1. destruct t1, t2; naive_solver.
    - by destruct t2.
    - destruct (rc =? 0) eqn:E; tests; [|done]. by destruct (H2 E) as [-> ->]. }
  all: split; unfold gc_live; simpl.
  all: try (intros _; destruct Hth as [? ?]; [by eauto with congruence|by eauto]).
  all: try (by destruct (main_at p), (running p); intuition congruence).
  all: try done.
  all: by match goal with H : gc_at _ = _ |- _ => rewrite H in Hr end.
Qed.

(** A scan, which holds the lock throughout. *)
Lemma scan_keeps {c} ptr k g d :
  shm_inv c d -> shm_inv c (gc_scan_and_register ptr k g d).2.
Proof.
  intros Hok. destruct ptr; [|done]. rewrite (gc_scan_eq k g d Hok).
  by apply gc_scan_from_ok; [|apply seq_in_range].
Qed.

Lemma thread_step_tables cn ic fds p p' :
  thread_step p p' -> control_inv p -> fds_inv fds p -> tables_inv cn ic p -> tables_inv cn ic p'.
Proof.
  intros Hstep [_ _ Hm] Hf [Ht Hs].
  destruct Hstep as [getenv sys now get s_ok g_ok p Hpc| | | | |ps now b p d _ Hd _| |
    p epfd k d g' d' _ _ Hd Hb| |p tptr now k events d g' d' s' Hg Hd He Hp| |]; try done.
  - rewrite Hpc in Hm. destruct Hm as (_ & _ & Hc & _).
    pose proof (initialize_service_fine getenv sys now get s_ok g_ok (sv_conf p) (sv_handle p)
      _ Hs) as H. unfold main_init.
    destruct (initialize_service _ _ _ _ _ _ _ _ _) as [[[[rc c] h] obj] [t1 t2]]. split; [done|].
    simpl in *. destruct obj as [d|]; [|done]. revert H. apply shm_inv_weaken.
    unfold exact. rewrite Hc. simpl. by destruct cn.
  - split; simpl; [done|]. apply (sync_body_ok ps now b p). by rewrite Hd in Hs.
  - split; simpl; [done|]. rewrite Hd in Hs. unfold gc_begin, gc_start in Hb.
    match type of Hb with gc_scan_and_register ?q _ ?g0 _ = _ =>
      pose proof (scan_keeps q k g0 d Hs) as H end. by rewrite Hb in H.
  - unfold fds_inv, gc_live in Hf. rewrite Hg in Hf. destruct Hf as [_ [_ _ _ Hint]].
    pose proof (gc_pass_keeps (c:=exact cn p) (ic:=ic) (shm_get_ptr (sv_handle p)) tptr now k
      events (sv_gc p) d (sv_tenants p)) as H. rewrite Hp in H. rewrite Hd in Hs.
    destruct H as [H1 H2]; [|done|split; [done|apply H2, Hs]].
    eapply Forall_impl; [exact He|]. intros i (fd & Hfd). exact (Hint fd i Hfd).
Qed.

Definition close_open (fd : Z) (g : gc_state) : gc_state :=
  if 0 <=? fd then close_fd fd g else g.

Lemma close_open_fds F fd g :
  gc_inv F g -> gc_inv F (close_open fd g) /\ gc_fds (close_open fd g) ⊆ gc_fds g /\
  forall y, y ∈ gc_fds (close_open fd g) -> y <> fd.
Proof.
  intros Hg. unfold close_open. destruct (0 <=? fd) eqn:E; tests; simpl.
  - split; [by apply gc_inv_close|set_solver].
  - split; [done|split; [done|]]. intros y Hy%(gi_nonneg _ _ Hg). lia.
Qed.

(** [cleanup_service] closes the two maps and opens nothing. *)
Lemma cleanup_closes F p :
  gc_inv F (sv_gc p) ->
  gc_inv F (sv_gc (cleanup_service p)) /\ gc_fds (sv_gc (cleanup_service p)) ⊆ gc_fds (sv_gc p) /\
  forall y, y ∈ gc_fds (sv_gc (cleanup_service p)) ->
    y <> process_resources_map_fd (sv_conf p) /\ y <> global_resources_map_fd (sv_conf p).
Proof.
  intros H0. destruct (close_open_fds F (process_resources_map_fd (sv_conf p)) _ H0) as (H1 & S1 & N1).
  destruct (close_open_fds F (global_resources_map_fd (sv_conf p)) _ H1) as (H2 & S2 & N2).
  change (sv_gc (cleanup_service p)) with (close_open (global_resources_map_fd (sv_conf p))
    (close_open (process_resources_map_fd (sv_conf p)) (sv_gc p))).
  split; [done|]. split; [by etrans|]. intros y Hy. split; [|by apply N2]. apply N1, S2, Hy.
Qed.

Lemma cleanup_fds fds p : fds_inv fds p -> fds_inv fds (cleanup_service p).
Proof.
  unfold fds_inv, gc_live. cbn [gc_at cleanup_service gc_epoll_fd].
  change (base_fds fds (cleanup_service p)) with (base_fds fds p).
  destruct (gc_at p); intros [H1 H2];
    try (split; [done|]; by apply cleanup_closes);
    destruct (cleanup_closes _ p H1) as (H3 & H4 & _); (split; [done|by etrans]).
Qed.

Lemma thread_step_fds fds p p' :
  thread_step p p' -> control_inv p -> fds_inv fds p -> fds_inv fds p'.
Proof.
  intros Hstep Hc Hf.
  destruct Hstep as [getenv sys now get s_ok g_ok p Hm|p Hm Hrun|p Hm|p Hm Hrun Hj|p Hy|ps now b p d Hy Hd Hb
    |p epfd Hg Hfd|p epfd k d g' d' Hg Hfd Hd Hb|p Hg Hrun|p tptr now k events d g' d' s' Hg Hd He Hp
    |p Hg|p Hg Hrun]; [by apply main_init_fds|done|done| |done|done|..].
  - by apply cleanup_fds.
  - unfold fds_inv, gc_live in *. simpl. by rewrite Hg in Hf.
  - unfold fds_inv, gc_live in *. simpl. rewrite Hg in Hf. destruct Hf as [[_ Hn _ Hs] Hsub].
    split; [done|].
    pose proof (gc_begin_inv (base_fds fds p) (shm_get_ptr (sv_handle p)) epfd k (sv_gc p) d) as H.
    rewrite Hb in H. apply H; auto.
  - unfold fds_inv, gc_live in *. simpl. by rewrite Hg in Hf.
  - unfold fds_inv, gc_live in *. simpl. rewrite Hg in Hf. destruct Hf as [H0 Hinv].
    split; [done|].
    pose proof (gc_pass_inv _ (shm_get_ptr (sv_handle p)) tptr now k events (sv_gc p) d
      (sv_tenants p) Hinv) as H. rewrite Hp in H. apply H.
    eapply Forall_impl; [exact He|]. intros i (fd & Hfd). exact (gi_slots _ _ Hinv fd i Hfd).
  - unfold fds_inv, gc_live in *. simpl. rewrite Hg in Hf. destruct Hf as [H0 Hinv].
    by apply gc_finish_inv.
  - unfold fds_inv, gc_live in *. simpl. rewrite Hg in Hf. destruct Hf as [H0 Hinv].
    by apply gc_finish_inv.
Qed.

(** At the end nothing is left open but the segment. *)
Definition exit_inv (fds : gset Z) (p : service) : Prop :=
  main_at p = MainExit 0 -> gc_fds (sv_gc p) ⊆ fds ∪ opened [shm_fd (sv_handle p)].

Lemma thread_step_exit fds p p' :
  thread_step p p' -> ~ exited p -> control_inv p -> fds_inv fds p -> exit_inv fds p'.
Proof.
  intros Hstep Hne [_ Hr _] Hf.
  destruct Hstep as [getenv sys now get s_ok g_ok p Hm| | |p Hm Hrun [Hj1 Hj2]| | | | | | | |];
    unfold exit_inv; simpl; try done;
    try (intros Hx; destruct Hne; unfold exited; by eauto).
  - unfold main_init. destruct (initialize_service _ _ _ _ _ _ _ _ _) as [[[[rc c] h] obj] [t1 t2]].
    simpl. by destruct (rc =? 0).
  - intros _. assert (Hl : gc_live p = false).
    { destruct (gc_live p) eqn:E; [|done]. unfold gc_live in E. by rewrite Hj2 in E. }
    unfold fds_inv in Hf. rewrite Hl in Hf. destruct Hf as [Hinv Hsub].
    destruct (cleanup_closes _ _ Hinv) as (_ & Hs & Hn). intros y Hy.
    destruct (Hn y Hy) as [N1 N2]. apply Hs, Hsub in Hy. revert Hy. unfold base_fds, opened.
    rewrite !elem_of_union, !elem_of_list_to_set, !list_elem_of_filter. set_solver.
Qed.

Lemma outside_step_inv cn ic fds p p' :
  outside_step cn ic p p' -> control_inv p /\ tables_inv cn ic p /\ fds_inv fds p ->
  control_inv p' /\ tables_inv cn ic p' /\ fds_inv fds p'.
Proof.
  intros [q|q d d' Hd Hstep|q s' Hstep] (Hc & [Ht Hs] & Hf); (split; [|split; [|done]]).
  - by destruct Hc.
  - done.
  - destruct Hc as [Hth ? ?]. split; [|done|done]. intros H. destruct (Hth H). split; [done|by eexists].
  - split; [done|]. rewrite Hd in Hs. simpl. eapply shm_step_ok; [exact Hs|].
    revert Hstep. apply shm_step_weaken. unfold exact. by destruct cn.
  - by destruct Hc.
  - split; [by eapply tenant_step_ok|done].
Qed.

Lemma service_reachable_inv cn ic fds p p' :
  rtc (service_step cn ic) p p' ->
  control_inv p /\ tables_inv cn ic p /\ fds_inv fds p -> exit_inv fds p ->
  (control_inv p' /\ tables_inv cn ic p' /\ fds_inv fds p') /\ exit_inv fds p'.
Proof.
  induction 1 as [p|p p1 p2 [q q' Hn Hstep|q q' Hn Hstep] _ IH]; intros Hi He; [done|..]; apply IH.
  - destruct Hi as (Hc & Ht & Hf). split; [by eapply thread_step_control|].
    split; [by eapply thread_step_tables|by eapply thread_step_fds].
  - destruct Hi as (Hc & _ & Hf). by eapply thread_step_exit.
  - by eapply outside_step_inv.
  - intros Hx. destruct Hn. exists 0. by destruct Hstep.
Qed.

Lemma initial_service_inv cn ic fds obj s :
  (forall y, y ∈ fds -> 0 <= y) -> tenant_inv ic s -> shm_fine cn obj ->
  let p := initial_service fds obj s in
  (control_inv p /\ tables_inv cn ic p /\ fds_inv fds p) /\ exit_inv fds p.
Proof.
  intros Hn Hs Ho p. split; [split; [|split]|done].
  - split; [naive_solver|done|done].
  - split; [done|]. unfold exact, p. simpl. by rewrite andb_true_r.
  - unfold fds_inv, gc_live, p. simpl gc_at. cbn [sv_gc initial_service gc_fds].
    rewrite base_fds_initial by done.
    split; [|done]. split; simpl; [apply length_replicate|done|by left|]. apply map_Forall_empty.
Qed.

(** *** The same, section by section *)

Definition job_slots (j : gc_job) : list Z :=
  match j with
  | JobEvents l => l
  | JobTenant i _ _ l | JobUsage i _ _ l | JobStore i _ _ l | JobClose i l => i :: l
  end.

(** A tenant number the handler got is not negative. *)
Definition job_tid (j : gc_job) : Prop :=
  match j with JobUsage _ tid _ _ | JobStore _ tid _ _ => 0 <= tid | _ => True end.

Definition job_inv (j : gc_job) : Prop :=
  Forall (fun i => 0 <= i < Z.of_nat MAX_PROCESSES) (job_slots j) /\ job_tid j.

Record fine_inv (cn ic : bool) (fds : gset Z) (f : fine) : Prop := mk_fine_inv {
  fi_control : control_inv (fine_sv f);
  fi_tables : tables_inv cn ic (fine_sv f);
  fi_fds : fds_inv fds (fine_sv f);
  fi_exit : exit_inv fds (fine_sv f);
  fi_job : forall j, job f = Some j -> job_inv j
}.

(** Replacing a segment by a consistent one touches nothing else. *)
Lemma control_with_shm p d : control_inv p -> control_inv (with_shm d p).
Proof. intros [H ? ?]. split; [|done|done]. intros Hx. destruct (H Hx). by eauto. Qed.

Lemma job_step_keeps cn ic fds p j j' p' :
  job_step p j j' p' -> gc_at p = GcWait ->
  control_inv p /\ tables_inv cn ic p /\ fds_inv fds p -> job_inv j ->
  (control_inv p' /\ tables_inv cn ic p' /\ fds_inv fds p') /\ job_inv j'.
Proof.
  intros Hstep Hg (Hc & [Ht Hs] & Hf) [Hj Hid]. destruct Hstep as [i l _|i l d d' dead _ Hd E|
    i pid u l tptr now rc tid s' E|i tid u l tptr now rc tu s' E|i tid tu l tptr now|i l];
    cbn [job_slots job_tid] in *.
  - split; [done|]. split; [by inversion Hj|done].
  - rewrite Hd in Hs. split; [split_and!; [by apply control_with_shm| |done]|].
    + split; [done|]. simpl. assert (Hi : (Z.to_nat i < MAX_PROCESSES)%nat).
      { inversion Hj; lia. }
      destruct (gc_exit_locked_step (Z.to_nat i) (sv_gc p) d Hs Hi) as [H|H]; rewrite E in H;
        simpl in H; [by subst|by eapply shm_step_ok].
    + destruct dead as [[pid u]|]; by split.
  - pose proof (tenant_get_process_tenant_ok (ic:=ic) tptr now (sv_tenants p) pid Ht) as H.
    rewrite E in H. split; [split_and!; [by destruct Hc|by split|done]|].
    destruct (_ && _) eqn:Er; [|by split]. tests. split; [done|simpl; lia].
  - pose proof (tenant_get_usage_ok (ic:=ic) tptr now (sv_tenants p) tid Ht) as H.
    rewrite E in H. split; [split_and!; [by destruct Hc|by split|done]|].
    destruct (_ =? _); by split.
  - split; [split_and!; [by destruct Hc|split; [|done]|done]|by split].
    by apply tenant_update_usage_ok.
  - split; [|split; [by inversion Hj|done]]. split_and!; [by destruct Hc|done|].
    unfold fds_inv, gc_live in *. simpl. rewrite Hg in *. destruct Hf as [H0 Hinv].
    split; [done|]. apply gc_unregister_inv; [done|]. inversion Hj. lia.
Qed.

Lemma section_step_inv cn ic fds f f' :
  section_step cn ic f f' -> ~ exited (fine_sv f) -> fine_inv cn ic fds f ->
  control_inv (fine_sv f') /\ tables_inv cn ic (fine_sv f') /\ fds_inv fds (fine_sv f') /\
  (forall j, job f' = Some j -> job_inv j).
Proof.
  intros Hstep Hne [Hc Ht Hf Hx Hj].
  destruct Hstep as [p p' y j Hs _ _|p p' y j Hs|p j Hy|p j d u Hy Hd Hp Hfd|
    p j ps now d pid u Hy Hd Hp Hfd|p j Hy|p y events Hg He|p p' y j j' Hg Hs|
    p y k d g' d' Hg Hd E]; cbn [fine_sv job] in *.
  - split_and!; [by eapply thread_step_control|by eapply thread_step_tables
      |by eapply thread_step_fds|done].
  - destruct (outside_step_inv cn ic fds p p' Hs) as (H1 & H2 & H3); [done|]. done.
  - done.
  - split; [by apply control_with_shm|]. split; [|done]. destruct Ht as [Ht Hs]. rewrite Hd in Hs.
    split; [done|]. apply (store_global_ok (c:=exact cn p)); [|done].
    unfold exact. by rewrite (proj2 (Z.ltb_ge _ _)), andb_false_r.
  - split; [by apply control_with_shm|]. split; [|done]. destruct Ht as [Ht Hs]. rewrite Hd in Hs.
    split; [done|]. by apply (shm_update_ok (c:=exact cn p)).
  - split; [|done]. destruct Hc as [Hth Hr Hm]. split; [|done|].
    + intros _. apply Hth. left. by rewrite Hy.
    + simpl. destruct (main_at p); intuition congruence.
  - split; [done|]. split; [done|]. split; [done|]. intros j [= <-]. split; [|done].
    unfold fds_inv, gc_live in Hf. rewrite Hg in Hf. destruct Hf as [_ [_ _ _ Hint]].
    eapply Forall_impl; [exact He|]. intros i (fd & Hfd). exact (Hint fd i Hfd).
  - destruct (job_step_keeps cn ic fds p j j' p' Hs Hg) as [(H1 & H2 & H3) H4]; [done|by apply Hj|].
    split_and!; [done..|]. by intros ? [= <-].
  - destruct Ht as [Ht Hs]. rewrite Hd in Hs.
    pose proof (scan_keeps (shm_get_ptr (sv_handle p)) k (sv_gc p) d Hs) as Hk.
    unfold fds_inv, gc_live in Hf. rewrite Hg in Hf. destruct Hf as [H0 Hinv].
    pose proof (gc_scan_inv _ (shm_get_ptr (sv_handle p)) k (sv_gc p) d Hinv) as Hi.
    rewrite E in Hk, Hi. split; [|split; [by split|by split]].
    destruct Hc as [Hth Hr Hm]. unfold gc_live in *. rewrite Hg in Hr. split; [|done|].
    + intros _. destruct Hth; [right; by rewrite Hg|]. simpl. split; [done|by eexists].
    + simpl. destruct (main_at p); intuition congruence.
Qed.

(** Only [main] itself returns. *)
Lemma section_step_exit cn ic fds f f' :
  section_step cn ic f f' -> ~ exited (fine_sv f) -> control_inv (fine_sv f) ->
  fds_inv fds (fine_sv f) -> exit_inv fds (fine_sv f').
Proof.
  intros Hstep Hne Hc Hf.
  destruct Hstep as [p p' y j Hs _ _|p p' y j Hs| | | | | |p p' y j j' Hg Hs|];
    cbn [fine_sv] in *; [by eapply thread_step_exit|..];
    intros Hx; destruct Hne; exists 0; try done; by destruct Hs.
Qed.

Lemma fine_reachable_inv cn ic fds f f' :
  rtc (fine_step cn ic) f f' -> fine_inv cn ic fds f -> fine_inv cn ic fds f'.
Proof.
  induction 1 as [f|f f1 f2 [Hne Hs] _ IH]; intros Hi; [done|]. apply IH.
  destruct (section_step_inv cn ic fds f f1 Hs Hne Hi) as (H1 & H2 & H3 & H4).
  split; try done. eapply section_step_exit; [done|done|apply Hi..].
Qed.

(** ** The collector while it runs *)

Lemma size_union_bound (X Y : gset Z) n m :
  (size X <= n -> size Y <= m -> size (X ∪ Y) <= n + m)%nat.
Proof.
  intros Hx Hy. rewrite size_union_alt. pose proof (subseteq_size (Y ∖ X) Y). set_solver by lia.
Qed.

Lemma size_list_to_set_le (l : list Z) : (size (list_to_set l : gset Z) <= length l)%nat.
Proof.
  induction l as [|x l IH]; [done|].
  apply (size_union_bound {[x]} (list_to_set l) 1 (length l)); [by rewrite size_singleton|done].
Qed.

Lemma size_opened l : (size (opened l) <= length l)%nat.
Proof. unfold opened. etrans; [apply size_list_to_set_le|apply length_filter]. Qed.

Lemma gc_inv_size F g : gc_inv F g -> (size (gc_fds g) <= size F + MAX_PROCESSES)%nat.
Proof.
  intros Hg. rewrite <- (gi_len _ _ Hg), <- (length_fmap gc_pidfd).
  etrans; [apply (subseteq_size _ (F ∪ list_to_set (gc_pidfd <$> gc_pidfd_table g)))|].
  - intros y Hy. apply elem_of_union. rewrite elem_of_list_to_set. by apply (gi_fds _ _ Hg).
  - apply size_union_bound; [done|]. apply size_list_to_set_le.
Qed.

Lemma fds_inv_size fds p :
  fds_inv fds p -> (size (gc_fds (sv_gc p)) <= size fds + 4 + MAX_PROCESSES)%nat.
Proof.
  assert (Hb : (size (base_fds fds p) <= size fds + 3)%nat)
    by (apply size_union_bound; [done|apply size_opened]).
  unfold fds_inv. destruct (gc_live p).
  - intros [_ H%gc_inv_size]. pose proof (size_union_bound (base_fds fds p) {[gc_epoll_fd p]}
      (size fds + 3) 1 Hb ltac:(by rewrite size_singleton)). lia.
  - intros [H%gc_inv_size _]. lia.
Qed.


(** What the threads do in whole iterations they also do in sections. *)
Lemma coarse_is_fine cn ic p p' :
  rtc (service_step cn ic) p p' -> rtc (fine_step cn ic) (mk_fine p false None) (mk_fine p' false None).
Proof.
  induction 1 as [|p p1 p2 [q q' Hn Hs|q q' Hn Hs] _ IH]; [done|..]; (eapply rtc_l; [|exact IH]);
    split; [done| |done|]; [by apply fine_thread|by apply fine_outside].
Qed.

(** ** The end of the collector *)

(** How many steps the threads can still make once [running] is cleared. *)
Definition work (p : service) : nat :=
  match main_at p with MainInit => 6 | MainSleep => 2 | MainTest => 1 | MainExit _ => 0 end +
  match sync_at p with SyncBody => 2 | SyncTest => 1 | _ => 0 end +
  match gc_at p with GcBegin => 2 | GcWait => 2 | GcTest => 1 | _ => 0 end.

Lemma work_decreases p p' :
  thread_step p p' -> control_inv p -> running p = false ->
  running p' = false /\ (work p' < work p)%nat.
Proof.
  intros Hstep Hc Hrun. destruct Hstep as [getenv sys now get s_ok g_ok p Hm|p Hm|p Hm|p Hm|p Hm
    |? ? ? p ? Hm|p ? Hm|p ? ? ? ? ? Hm|p Hm|p ? ? ? ? ? ? ? ? Hm|p Hm|p Hm];
    try congruence; [|split; [done|]; unfold work; simpl; rewrite ?Hm, ?Hrun; lia ..].
  destruct Hc as [_ _ Hmain]. rewrite Hm in Hmain. destruct Hmain as (Hs & Hg & _).
  unfold main_init. destruct (initialize_service _ _ _ _ _ _ _ _ _) as [[[[rc c] h] obj] [t1 t2]].
  split; [done|]. unfold work. simpl. rewrite Hm, Hs, Hg. destruct (rc =? 0), t1, t2; lia.
Qed.

(** Some thread can always move. *)
Lemma threads_progress p :
  control_inv p -> running p = false -> ~ exited p -> exists p', thread_step p p'.
Proof.
  intros [Hth Hr Hm] Hrun Hne.
  destruct (main_at p) eqn:Em; [| | |by destruct Hne; eexists].
  - eexists. by apply (main_starts (fun _ => None) (mk_sys 0 0 true 0) 0 (fun _ => -1) true true).
  - destruct Hm as [Hs Hg]. destruct (Hth (or_introl Hs)) as [_ [d Hd]].
    destruct (sync_at p) eqn:Es; [done|by eexists; apply sync_tests| |].
    { eexists. by apply (sync_copies (fun _ => None) 0
        (mk_maps None (fun _ => None) (fun _ => None) []) p d). }
    destruct (gc_at p) eqn:Eg; [done| | | |].
    + eexists. by apply (gc_fails p (-1)).
    + eexists. by apply gc_ends.
    + eexists. by apply gc_wait_fails.
    + eexists. apply main_ends; [done|done|]. by split.
  - eexists. by apply main_sleeps.
Qed.

(** C16. A signal ends the collector.  In every reachable state in which [running]
    has been cleared, no step sets it again; each step of a thread (a whole
    iteration of a loop counting as one) brings the process closer to its end,
    which is never more than ten such steps away;
    no step of another process moves it further away; and until [main] has
    returned some thread can move: the joins of [cleanup_service] do not
    deadlock. *)
Theorem collector_shuts_down cn ic fds obj s p :
  (forall y, y ∈ fds -> 0 <= y) -> tenant_inv ic s -> shm_fine cn obj ->
  rtc (service_step cn ic) (initial_service fds obj s) p -> running p = false ->
  (work p <= 10)%nat /\
  (forall p', thread_step p p' -> running p' = false /\ (work p' < work p)%nat) /\
  (forall p', outside_step cn ic p p' -> running p' = false /\ work p' = work p) /\
  (exited p \/ exists p', thread_step p p').
Proof.
  intros Hn Hs Ho Hr Hrun. destruct (initial_service_inv cn ic fds obj s Hn Hs Ho) as [Hi He].
  destruct (service_reachable_inv cn ic fds _ _ Hr Hi He) as [(Hc & _ & _) _]. split_and!.
  - unfold work. destruct (main_at p), (sync_at p), (gc_at p); lia.
  - intros p' Hp. by apply work_decreases.
  - intros p' Hp. by destruct Hp.
  - destruct (main_at p) eqn:Em; [right|right|right|left; by eexists];
      (apply threads_progress; [done|done|]; intros [c Hx]; congruence).
Qed.

(** ** Witnesses *)

(** Start, the first scan, a signal. *)
Definition demo_service : service :=
  main_init (fun _ => None) (mk_sys 3 0 true 0) 5 (fun _ => -1) true true
    (initial_service {[0; 1; 2]} None (fresh_tshm 0)).

Lemma demo_service_reached cn ic :
  rtc (service_step cn ic) (initial_service {[0; 1; 2]} None (fresh_tshm 0)) demo_service.
Proof.
  apply rtc_once, by_thread; [by intros [c Hc]|]. by apply main_starts.
Qed.

Lemma std_fds : forall y : Z, y ∈ ({[0; 1; 2]} : gset Z) -> 0 <= y.
Proof. set_solver by lia. Qed.


Lemma collector_shuts_down_witness :
  (work (signal_handler demo_service) <= 10)%nat.
Proof.
  apply (collector_shuts_down true true {[0; 1; 2]} None (fresh_tshm 0)
    (signal_handler demo_service));
    [apply std_fds|apply fresh_tshm_ok|exact I| |reflexivity].
  eapply rtc_r; [apply demo_service_reached|]. apply from_outside; [by intros [c Hc]|].
  apply signalled.
Defined.
