(* ===== verification/SpinLock.v ===== *)
(** * The two spin locks and what they do and do not protect

    The process table is protected by a compare-and-swap loop
    (shm_lock/shm_unlock of src/src/shm/shared_memory.c), the tenant table by a
    test-and-set with an inner read loop (spin_lock/spin_unlock of
    src/src/shm/shared_memory_tenant.c).  Threads of any number of processes
    interleave at the granularity of single accesses: an attempt at the lock
    word, one memory access of a critical section, the release.

    What the locks promise to the components is the class [SpinLock]; the
    theorem on executions is proved against it and both locks are instances.
    It justifies treating a function that locks, works and unlocks as one
    atomic step, as the other files do.  The last part shows what is lost where
    the library composes two such functions. *)

From S2P Require Import Prelude CString Shm TenantShm Core Hooks.
From stdpp Require Import base numbers list gmap strings.
#[local] Open Scope Z_scope.

(** ** The attempts *)

(** [__atomic_compare_exchange_n (&lock, &expected, 1, ...)] with
    [expected == 0]: success and the new lock word. *)
Definition cas_attempt (word : Z) : bool * Z :=
  if word =? 0 then (true, 1) else (false, word).

(** [__sync_lock_test_and_set (lock, 1)]: the lock is taken when the old word
    was 0; the word is 1 afterwards in any case. *)
Definition tas_attempt (word : Z) : bool * Z := (word =? 0, 1).

(** Both releases store 0. *)
Definition release_word : Z := 0.

(** What an attempt promises.  [waits] tells whether a failed attempt is
    followed by the inner loop that only reads. *)
Class SpinLock (attempt : Z -> bool * Z) (waits : bool) : Prop := {
  attempt_free : attempt 0 = (true, 1);
  attempt_held : forall w, w <> 0 -> (attempt w).1 = false /\ (attempt w).2 <> 0
}.

#[export] Instance cas_lock : SpinLock cas_attempt false.
Proof.
  split; [done|]. intros w Hw. unfold cas_attempt. by replace (w =? 0) with false by lia.
Qed.

#[export] Instance tas_lock : SpinLock tas_attempt true.
Proof. split; [done|]. intros w Hw. simpl. split; lia. Qed.

(** ** Executions *)

Section exec.
Context {D : Type}.

(** A critical section is the list of its accesses to the data. *)
Definition body : Type := list (D -> D).

Inductive pc :=
  | Outside
  | Spinning (b : body)          (* about to attempt the lock *)
  | Waiting (b : body)           (* in the inner read loop *)
  | Inside (rest : body).        (* holds the lock *)

Record sys := mk_sysn {
  word : Z;
  data : D;
  threads : gmap nat pc;
  acquired : list body           (* critical sections in the order of acquisition *)
}.

Context (attempt : Z -> bool * Z) (waits : bool).

Inductive lock_step : sys -> sys -> Prop :=
  | ls_call i b w d ts l : ts !! i = Some Outside ->
      lock_step (mk_sysn w d ts l) (mk_sysn w d (<[i:=Spinning b]> ts) l)
  | ls_acquire i b w w' d ts l : ts !! i = Some (Spinning b) -> attempt w = (true, w') ->
      lock_step (mk_sysn w d ts l) (mk_sysn w' d (<[i:=Inside b]> ts) (l ++ [b]))
  | ls_fail i b w w' d ts l : ts !! i = Some (Spinning b) -> attempt w = (false, w') ->
      lock_step (mk_sysn w d ts l)
        (mk_sysn w' d (<[i:=(if waits then Waiting b else Spinning b)]> ts) l)
  | ls_retry i b d ts l : ts !! i = Some (Waiting b) ->
      lock_step (mk_sysn 0 d ts l) (mk_sysn 0 d (<[i:=Spinning b]> ts) l)
  | ls_access i f b w d ts l : ts !! i = Some (Inside (f :: b)) ->
      lock_step (mk_sysn w d ts l) (mk_sysn w (f d) (<[i:=Inside b]> ts) l)
  | ls_release i w d ts l : ts !! i = Some (Inside []) ->
      lock_step (mk_sysn w d ts l) (mk_sysn release_word d (<[i:=Outside]> ts) l).

(** Run one critical section, and a sequence of them. *)
Definition run (b : body) (d : D) : D := foldl (fun d f => f d) d b.
Definition run_all (bs : list body) (d : D) : D := foldl (fun d b => run b d) d bs.

Lemma run_app a b d : run (a ++ b) d = run b (run a d).
Proof. apply foldl_app. Qed.

Lemma run_all_snoc bs b d : run_all (bs ++ [b]) d = run b (run_all bs d).
Proof. unfold run_all. by rewrite foldl_app. Qed.

(** The lock is free and everything acquired has been run, or exactly one thread
    is inside and has run a prefix of the last critical section. *)
Definition lock_inv (d0 : D) (s : sys) : Prop :=
  (word s = 0 /\ (forall i b, threads s !! i <> Some (Inside b)) /\
   data s = run_all (acquired s) d0) \/
  (word s <> 0 /\ exists i fin rest past,
   threads s !! i = Some (Inside rest) /\
   (forall j b, threads s !! j = Some (Inside b) -> j = i) /\
   acquired s = past ++ [fin ++ rest] /\ data s = run fin (run_all past d0)).

(** A thread that is not inside and does not go inside leaves the holder alone. *)
Lemma lock_inv_outside d0 w w' d ts l i p :
  lock_inv d0 (mk_sysn w d ts l) -> (w = 0 <-> w' = 0) ->
  (forall b, ts !! i <> Some (Inside b)) -> (forall b, p <> Inside b) ->
  lock_inv d0 (mk_sysn w' d (<[i:=p]> ts) l).
Proof.
  intros [(Hw & Hn & Hd)|(Hw & k & fin & rest & past & Hk & Hu & Hl & Hd)] Hww Hi Hp; simpl in *.
  - left. simpl. split_and!; [tauto| |done]. intros j b [[_ ?]|[_ Hj]]%lookup_insert_Some;
      [by eapply Hp|by eapply Hn].
  - right. simpl. split; [tauto|]. exists k, fin, rest, past.
    assert (k <> i) by (intros ->; by eapply Hi). split_and!; [by rewrite lookup_insert_ne| |done..].
    intros j b [[_ ?]|[_ Hj]]%lookup_insert_Some; [by destruct (Hp b)|by eapply Hu].
Qed.

Lemma lock_step_inv `{!SpinLock attempt waits} d0 s s' :
  lock_inv d0 s -> lock_step s s' -> lock_inv d0 s'.
Proof.
  intros Hinv Hs. destruct Hs as [i b w d ts l Hi|i b w w' d ts l Hi Ha|i b w w' d ts l Hi Ha
    |i b d ts l Hi|i f b w d ts l Hi|i w d ts l Hi].
  - eapply lock_inv_outside; [done|done|congruence|done].
  - destruct Hinv as [(Hw & Hn & Hd)|(Hw & _)]; simpl in *.
    2: { destruct (attempt_held (attempt:=attempt) w Hw) as [H _]. by rewrite Ha in H. }
    subst w. rewrite attempt_free in Ha. injection Ha as <-. right. simpl. split; [done|].
    exists i, [], b, l. rewrite lookup_insert_eq. split_and!; [done| |done|done].
    intros j c [[-> _]|[_ Hj]]%lookup_insert_Some; [done|by destruct (Hn j c)].
  - destruct (decide (w = 0)) as [->|Hw]; [by rewrite attempt_free in Ha|].
    destruct (attempt_held (attempt:=attempt) w Hw) as [_ H]. rewrite Ha in H. simpl in H.
    eapply lock_inv_outside; [done|tauto|congruence|by destruct waits].
  - eapply lock_inv_outside; [done|done|congruence|done].
  - destruct Hinv as [(_ & Hn & _)|(Hw & k & fin & rest & past & Hk & Hu & Hl & Hd)]; simpl in *.
    { by destruct (Hn i (f :: b)). }
    pose proof (Hu _ _ Hi) as ->. assert (rest = f :: b) as -> by congruence.
    right. simpl. split; [done|]. exists k, (fin ++ [f]), b, past. rewrite lookup_insert_eq.
    split_and!; [done| | |].
    + intros j c [[-> _]|[_ Hj]]%lookup_insert_Some; [done|by eapply Hu].
    + by rewrite Hl, <- app_assoc.
    + by rewrite run_app, <- Hd.
  - destruct Hinv as [(_ & Hn & _)|(Hw & k & fin & rest & past & Hk & Hu & Hl & Hd)]; simpl in *.
    { by destruct (Hn i []). }
    pose proof (Hu _ _ Hi) as ->. assert (rest = []) as -> by congruence.
    left. simpl. split_and!; [done| |].
    + intros j c [[_ ?]|[Hne Hj]]%lookup_insert_Some; [done|]. by apply Hne, eq_sym, (Hu j c).
    + by rewrite Hl, app_nil_r, run_all_snoc.
Qed.

Definition start (d0 : D) (ts : gmap nat pc) : sys := mk_sysn 0 d0 ts [].
End exec.

Arguments pc : clear implicits.
Arguments sys : clear implicits.

(** C5. The locks serialise.  With either lock, in every interleaving of any
    number of threads at the granularity of single accesses, at most one thread
    is inside a critical section, and whenever the lock is free the data is
    what running the critical sections one after another, in the order in
    which they acquired the lock, gives. *)
Theorem lock_serialises {D} attempt waits `{!SpinLock attempt waits}
    (d0 : D) (ts : gmap nat (pc D)) (s : sys D) :
  (forall i b, ts !! i <> Some (Inside b)) ->
  rtc (lock_step attempt waits) (start d0 ts) s ->
  (forall i j b c, threads s !! i = Some (Inside b) -> threads s !! j = Some (Inside c) -> i = j) /\
  (word s = 0 -> data s = run_all (acquired s) d0).
Proof.
  intros Hout Hr.
  assert (Hinv : lock_inv d0 s).
  { assert (Hs : lock_inv d0 (start d0 ts)) by (left; by split_and!). revert Hs.
    induction Hr; eauto using lock_step_inv. }
  destruct Hinv as [(Hw & Hn & Hd)|(Hw & k & fin & rest & past & Hk & Hu & _)]; split.
  - intros i j b c Hi. by destruct (Hn i b).
  - done.
  - intros i j b c Hi Hj. by rewrite (Hu i b Hi), (Hu j c Hj).
  - done.
Qed.

(** ** Two critical sections are not one *)

Section race.
Context (now tid : Z) (s : tenant_shared_memory) (t : tenant_info).
Context (Hr : tid_ok tid = true) (Hl : tenants s !! Z.to_nat tid = Some t).
Context (Ha : is_active t = true).

(** The usage another thread reads, and what it later writes back. *)
Definition read_usage (s : tenant_shared_memory) : tenant_resource_usage :=
  (tenant_get_resource_usage true now s tid).1.2.
Definition write_usage (u : tenant_resource_usage) (s : tenant_shared_memory) :=
  (tenant_update_resource_usage true now s tid (Some u)).2.

Lemma read_usage_run : read_usage s = usage t.
Proof using Hr Hl Ha. unfold read_usage. by rewrite (get_usage_run _ _ _ t). Qed.

Lemma write_usage_lookup u :
  exists t', tenants (write_usage u s) !! Z.to_nat tid = Some t' /\
    is_active t' = true /\ usage t' = u /\ quota t' = quota t.
Proof using Hr Hl Ha.
  unfold write_usage. rewrite (update_usage_run _ _ _ t) by done. eexists.
  split; [by eapply rewrite_tenant_lookup|]. by split_and!.
Qed.

Lemma allocate_lookup :
  0 <= t_qp_count (usage t) < 2 ^ 31 -> t_qp_count (usage t) < max_qp_per_tenant (quota t) ->
  (tenant_try_allocate_qp true now s tid).1 = true /\
  exists t', tenants (tenant_try_allocate_qp true now s tid).2 !! Z.to_nat tid = Some t' /\
    is_active t' = true /\ usage t' = charge_qp (usage t) /\ quota t' = quota t.
Proof using Hr Hl Ha.
  intros Hc Hq. rewrite (try_allocate_run _ _ _ t) by done.
  replace (_ <? _) with true by lia. split; [done|]. eexists.
  split; [by eapply rewrite_tenant_lookup|]. by split_and!.
Qed.
End race.

(** C37. The roll-back can lose another thread's queue pair.  Thread A reserves a
    queue pair, its real verb fails and it reads the tenant's usage to give the
    reservation back; before it writes the result, thread B is granted a queue
    pair; then A writes.  B's queue pair is live but no longer counted: the
    tenant's count is back at its value before both calls, so the tenant can
    exceed its quota although each critical section is atomic. *)
Theorem rollback_race_loses_grant now s tid t :
  tid_ok tid = true -> tenants s !! Z.to_nat tid = Some t -> is_active t = true ->
  0 <= t_qp_count (usage t) -> t_qp_count (usage t) + 1 < max_qp_per_tenant (quota t) < 2 ^ 31 ->
  let '(grantedA, s1) := tenant_try_allocate_qp true now s tid in
  let uA := read_usage now tid s1 in
  let '(grantedB, s2) := tenant_try_allocate_qp true now s1 tid in
  let s3 := write_usage now tid (rollback_usage uA) s2 in
  grantedA = true /\ grantedB = true /\
  exists t', tenants s3 !! Z.to_nat tid = Some t' /\
    t_qp_count (usage t') = t_qp_count (usage t).
Proof.
  intros Hr Hl Ha H0 Hq.
  destruct (allocate_lookup now tid s t Hr Hl Ha) as (G1 & t1 & L1 & A1 & U1 & Q1); [lia|lia|].
  destruct (tenant_try_allocate_qp true now s tid) as [gA s1]. simpl in G1, L1.
  assert (C1 : t_qp_count (usage t1) = t_qp_count (usage t) + 1).
  { rewrite U1. simpl. by rewrite i32_small by lia. }
  destruct (allocate_lookup now tid s1 t1 Hr L1 A1) as (G2 & t2 & L2 & A2 & U2 & Q2);
    [lia|rewrite Q1; lia|].
  rewrite (read_usage_run now tid s1 t1) by done.
  destruct (tenant_try_allocate_qp true now s1 tid) as [gB s2]. simpl in G2, L2.
  destruct (write_usage_lookup now tid s2 t2 Hr L2 A2 (rollback_usage (usage t1)))
    as (t3 & L3 & _ & U3 & _).
  split_and!; [done|done|]. exists t3. split; [done|]. rewrite U3. unfold rollback_usage. simpl.
  rewrite C1. replace (0 <? t_qp_count (usage t) + 1) with true by lia.
  rewrite i32_small by lia. lia.
Qed.

(** ** Witnesses *)

(** Two threads that each add one in two accesses. *)
Definition incr : list (Z -> Z) := [(fun x => x + 1); (fun x => x * 1)].
Definition two_threads : gmap nat (pc Z) := {[0%nat := Outside; 1%nat := Spinning incr]}.

Lemma lock_serialises_witness :
  let s := mk_sysn 1 5 (<[1%nat:=Inside incr]> two_threads) [incr] in
  (forall i j b c, threads s !! i = Some (Inside b) -> threads s !! j = Some (Inside c) -> i = j) /\
  (word s = 0 -> data s = run_all (acquired s) 5).
Proof.
  apply (lock_serialises cas_attempt false 5 two_threads).
  - unfold two_threads. intros i b [[_ H]|[_ [_ H]%lookup_singleton_Some]]%lookup_insert_Some; discriminate.
  - apply rtc_once. apply (ls_acquire cas_attempt false 1 incr 0 1 5 two_threads []).
    + reflexivity.
    + reflexivity.
Defined.

Lemma rollback_race_loses_grant_witness :
  let '(grantedA, s1) := tenant_try_allocate_qp true 9 demo3 1 in
  let uA := read_usage 9 1 s1 in
  let '(grantedB, s2) := tenant_try_allocate_qp true 9 s1 1 in
  let s3 := write_usage 9 1 (rollback_usage uA) s2 in
  grantedA = true /\ grantedB = true /\
  exists t', tenants s3 !! Z.to_nat 1 = Some t' /\
    t_qp_count (usage t') = t_qp_count (usage (tenants demo3 !!! 1%nat)).
Proof.
  assert (H1 : tid_ok 1 = true) by (vm_compute; reflexivity).
  assert (H2 : tenants demo3 !! Z.to_nat 1 = Some (tenants demo3 !!! 1%nat))
    by (apply arr_lookup; vm_compute; lia).
  pose proof (rollback_race_loses_grant 9 demo3 1 (tenants demo3 !!! 1%nat) H1 H2) as H.
  apply H.
  - vm_compute. reflexivity.
  - clear. vm_compute. discriminate.
  - clear. vm_compute. split; reflexivity.
Defined.
